(** * node-kasa: transports, protocols and discovery, embedded in Rocq

    A shallow embedding of the parts of the library that carry its
    session, retry and framing logic:

    - [exceptions.js]: the exception classes and the [SmartErrorCode] registry;
    - [aestransport.js]: response error handling, login and handshake;
    - [httpclient.js]: how [post] builds the request headers and body;
    - [smartprotocol.js], [smartcamprotocol.js]: error handling, batched
      requests and list pagination;
    - [iotprotocol.js]: the retry loop of [_query];
    - [klaptransport.js]: [KlapEncryptionSession];
    - [xortransport.js]: [XorEncryption];
    - [discover.js]: [_DiscoverProtocol.datagramReceived].

    Conventions.  A JavaScript number is an integer of [Z] (fractions and
    the loss of precision above 2^53 are outside the embedding).  A string is
    a [string] of bytes, read as its generalised UTF-8 (module [Utf16]).  An
    object parsed from JSON is an association list in the key order of
    [Object.keys].  A value
    that may be [undefined] is an [option].  Code that can throw returns a
    [result]; code that mutates [this] passes the object explicitly. *)

From Stdlib Require Import ZArith List String Ascii Bool Lia.
From stdpp Require Import base strings pretty gmap.
Import ListNotations.

#[local] Set Warnings "-register-all".

Local Open Scope string_scope.
Local Open Scope list_scope.

(* ================================================================== *)
(** * Part I: definitions *)
(* ================================================================== *)

(** ** JavaScript values *)

Module Js.

(** Values produced by [JSON.parse]. *)
Inductive json : Type :=
| JNull
| JBool (b : bool)
| JNum (n : Z)
| JStr (s : string)
| JArr (items : list json)
| JObj (fields : list (string * json)).

(** [o[k]] on the fields of an object; [None] is [undefined]. *)
Fixpoint assoc {A : Type} (k : string) (fields : list (string * A)) : option A :=
  match fields with
  | [] => None
  | (k', v) :: rest => if String.eqb k k' then Some v else assoc k rest
  end.

(** [o[k] = v] on the fields of an object: an existing key keeps its
    place, a new key goes last. *)
Fixpoint assoc_set {A : Type} (k : string) (v : A) (fields : list (string * A))
  : list (string * A) :=
  match fields with
  | [] => [(k, v)]
  | (k', v') :: rest =>
      if String.eqb k k' then (k, v) :: rest else (k', v') :: assoc_set k v rest
  end.

Definition is_digit (c : ascii) : bool :=
  (48 <=? nat_of_ascii c)%nat && (nat_of_ascii c <=? 57)%nat.

(** The number that a string of decimal digits writes. *)
Fixpoint digits_value (acc : Z) (s : string) : option Z :=
  match s with
  | EmptyString => Some acc
  | String c rest =>
      if is_digit c
      then digits_value (10 * acc + Z.of_nat (nat_of_ascii c - 48)) rest
      else None
  end.

(** The array index that a property name is, if it is one: the canonical
    decimal form of an integer from 0 to 2^32 - 2. *)
Definition array_index (k : string) : option Z :=
  match k with
  | EmptyString => None
  | _ =>
      match digits_value 0 k with
      | Some n =>
          if String.eqb (pretty n) k && (n <? 4294967295)%Z then Some n else None
      | None => None
      end
  end.

(** The place of a new property whose name is the array index [n]: after
    the array indices below [n] and before every other property. *)
Fixpoint insert_index {A : Type} (n : Z) (k : string) (v : A)
    (fields : list (string * A)) : list (string * A) :=
  match fields with
  | [] => [(k, v)]
  | (k', v') :: rest =>
      match array_index k' with
      | Some n' =>
          if (n' <? n)%Z then (k', v') :: insert_index n k v rest
          else (k, v) :: fields
      | None => (k, v) :: fields
      end
  end.

(** [{ ...fields, [k]: v }], in the order in which [Object.keys] and
    [JSON.stringify] go through the result: the array indices in ascending
    order, then the other names in the order of their creation.  An existing
    property keeps its place. *)
Definition define_property {A : Type} (k : string) (v : A)
    (fields : list (string * A)) : list (string * A) :=
  match assoc k fields, array_index k with
  | None, Some n => insert_index n k v fields
  | _, _ => assoc_set k v fields
  end.

(** Outcome of code that may throw [E].  [Diverge] is the outcome of a loop
    that was still running when the fuel given to it ran out. *)
Inductive result (E A : Type) : Type :=
| Ok (a : A)
| Throw (e : E)
| Diverge.
Arguments Ok {E A} a.
Arguments Throw {E A} e.
Arguments Diverge {E A}.

(** Outcome of a primitive of the platform that returns or throws. *)
Inductive may_throw (E A : Type) : Type :=
| Returned (a : A)
| Thrown (e : E).
Arguments Returned {E A} a.
Arguments Thrown {E A} e.

(** [ToString] of a JSON value, as a template literal applies it.  Inside
    an array, [null] prints as the empty string. *)
Fixpoint to_string (j : json) : string :=
  match j with
  | JNull => "null"
  | JBool true => "true"
  | JBool false => "false"
  | JNum n => pretty n
  | JStr s => s
  | JArr items =>
      (fix join (l : list json) : string :=
         match l with
         | [] => EmptyString
         | x :: rest =>
             let sx := match x with JNull => EmptyString | _ => to_string x end in
             match rest with
             | [] => sx
             | _ :: _ => sx +:+ "," +:+ join rest
             end
         end) items
  | JObj _ => "[object Object]"
  end.

(** [ToString] of a value that may be [undefined]. *)
Definition to_string_opt (v : option json) : string :=
  match v with
  | None => "undefined"
  | Some j => to_string j
  end.

(** [ToBoolean]. *)
Definition truthy (j : json) : bool :=
  match j with
  | JNull => false
  | JBool b => b
  | JNum n => negb (n =? 0)%Z
  | JStr s => negb (String.eqb s EmptyString)
  | JArr _ | JObj _ => true
  end.

Definition truthy_opt (v : option json) : bool :=
  match v with
  | None => false
  | Some j => truthy j
  end.

(** [a === p] where [p] is a primitive (a number, a string, a boolean,
    [null] or [undefined]).  An array or an object is never identical to a
    primitive.  [Set.prototype.has] and [Array.prototype.includes] compare
    the same way when the elements are such primitives. *)
Definition same_prim (a p : option json) : bool :=
  match a, p with
  | None, None => true
  | Some JNull, Some JNull => true
  | Some (JBool x), Some (JBool y) => Bool.eqb x y
  | Some (JNum x), Some (JNum y) => (x =? y)%Z
  | Some (JStr x), Some (JStr y) => String.eqb x y
  | _, _ => false
  end.

(** [set.has(v)] / [array.includes(v)] for primitive elements. *)
Definition has_prim (elems : list (option json)) (v : option json) : bool :=
  existsb (same_prim v) elems.

(** Reading property [k] of a value: [null.k] and [undefined.k] throw a
    [TypeError] (here [None]); on other non-objects the property is
    [undefined]. *)
Definition get_prop (v : option json) (k : string) : option (option json) :=
  match v with
  | None | Some JNull => None
  | Some (JObj fields) => Some (assoc k fields)
  | Some _ => Some None
  end.

End Js.

(** ** Strings

    A JavaScript string is a sequence of UTF-16 code units.  The [string]
    that stands for it here holds the bytes of its generalised UTF-8: a
    character of the basic plane as the 1 to 3 bytes of its UTF-8 encoding,
    a surrogate pair as the 4 bytes of the character that it encodes, and a
    surrogate that has no partner, which UTF-8 cannot encode, as the 3 bytes
    that the scheme of UTF-8 gives its code unit, ED A0..BF 80..BF.  A byte
    string that is not of this form stands for no JavaScript string; the
    functions below take a byte that starts no sequence as a unit of its
    own. *)

Module Utf16.
Local Open Scope Z_scope.

Definition to_bytes (s : string) : list Z :=
  map (fun c => Z.of_N (N_of_ascii c)) (list_ascii_of_string s).

Definition of_bytes (b : list Z) : string :=
  string_of_list_ascii (map (fun z => ascii_of_N (Z.to_N z)) b).

(** The number of bytes of the sequence at the head of [b]; 1 for a byte
    that starts no sequence. *)
Definition sequence_length (b : list Z) : nat :=
  let b0 := nth 0 b 0 in
  let continues (i : nat) := (128 <=? nth i b 0) && (nth i b 0 <=? 191) in
  if (240 <=? b0) && (b0 <=? 247) && continues 1%nat && continues 2%nat
     && continues 3%nat
  then 4
  else if (224 <=? b0) && (b0 <=? 239) && continues 1%nat && continues 2%nat
  then 3
  else if (192 <=? b0) && (b0 <=? 223) && continues 1%nat then 2
  else 1.

(** The sequences of a byte string, one for each code point. *)
Fixpoint sequences (fuel : nat) (b : list Z) : list (list Z) :=
  match fuel, b with
  | S fuel', _ :: _ =>
      let n := sequence_length b in
      firstn n b :: sequences fuel' (skipn n b)
  | _, _ => []
  end.

(** The 3 bytes of the code unit [u], from 0800 up. *)
Definition encode3 (u : Z) : list Z :=
  [224 + u / 4096; 128 + (u / 64) mod 64; 128 + u mod 64].

(** The 4 bytes of the code point [cp], from 10000 up. *)
Definition encode4 (cp : Z) : list Z :=
  [240 + cp / 262144; 128 + (cp / 4096) mod 64; 128 + (cp / 64) mod 64;
   128 + cp mod 64].

(** The code units of one sequence: a sequence of 4 bytes is a character
    outside the basic plane, which UTF-16 writes as two surrogates. *)
Definition units_of_sequence (u : list Z) : list (list Z) :=
  match u with
  | [b0; b1; b2; b3] =>
      let cp :=
        (b0 mod 8) * 262144 + (b1 mod 64) * 4096 + (b2 mod 64) * 64
        + b3 mod 64 in
      let v := cp - 65536 in
      [encode3 (55296 + v / 1024); encode3 (56320 + v mod 1024)]
  | _ => [u]
  end.

(** [[...s]]: the code points of [s], each as a string. *)
Definition code_points (s : string) : list string :=
  let b := to_bytes s in
  map of_bytes (sequences (List.length b) b).

(** The code units of [s], each as the string that holds it alone. *)
Definition code_units (s : string) : list string :=
  let b := to_bytes s in
  map of_bytes (concat (map units_of_sequence (sequences (List.length b) b))).

(** In a sequence of code units, a high surrogate that is followed by a
    low one is the character that the pair encodes. *)
Fixpoint join_surrogates (b : list Z) : list Z :=
  match b with
  | [] => []
  | b0 :: rest =>
      match rest with
      | b1 :: b2 :: b3 :: b4 :: b5 :: rest5 =>
          if (b0 =? 237) && (160 <=? b1) && (b1 <=? 175)
             && (128 <=? b2) && (b2 <=? 191)
             && (b3 =? 237) && (176 <=? b4) && (b4 <=? 191)
             && (128 <=? b5) && (b5 <=? 191)
          then
            let high := 53248 + (b1 mod 64) * 64 + b2 mod 64 in
            let low := 53248 + (b4 mod 64) * 64 + b5 mod 64 in
            encode4 (65536 + (high - 55296) * 1024 + (low - 56320))
            ++ join_surrogates rest5
          else b0 :: join_surrogates rest
      | _ => b0 :: join_surrogates rest
      end
  end.

(** The string of a list of code units. *)
Definition of_units (units : list string) : string :=
  of_bytes (join_surrogates (concat (map to_bytes units))).

(** [s.length]. *)
Definition length (s : string) : nat := List.length (code_units s).

(** [s.slice(start, end)] and [s.slice(start)] for indices that are not
    negative. *)
Definition slice (start end_ : nat) (s : string) : string :=
  of_units (firstn (end_ - start) (skipn start (code_units s))).

Definition slice_from (start : nat) (s : string) : string :=
  of_units (skipn start (code_units s)).

End Utf16.

(** ** exceptions.js *)

Module Exceptions.
Import Js.
Local Open Scope Z_scope.

(** The exception classes of the library, and the built-in errors that
    reach it ([Error] and its built-in subclasses such as [TypeError]). *)
Inductive exn_class : Type :=
| JsError
| JsTypeError
| JsRangeError
| KasaException
| TimeoutError
| ConnectionError
| UnsupportedDeviceError
| DeviceError
| AuthenticationError
| RetryableError.

Definition exn_class_eqb (c d : exn_class) : bool :=
  match c, d with
  | JsError, JsError | JsTypeError, JsTypeError | JsRangeError, JsRangeError
  | KasaException, KasaException | TimeoutError, TimeoutError
  | ConnectionError, ConnectionError
  | UnsupportedDeviceError, UnsupportedDeviceError
  | DeviceError, DeviceError | AuthenticationError, AuthenticationError
  | RetryableError, RetryableError => true
  | _, _ => false
  end.

(** [class C extends P]. *)
Definition extends (c : exn_class) : option exn_class :=
  match c with
  | JsError => None
  | JsTypeError | JsRangeError => Some JsError
  | KasaException => Some JsError
  | TimeoutError | ConnectionError | UnsupportedDeviceError | DeviceError =>
      Some KasaException
  | AuthenticationError | RetryableError => Some DeviceError
  end.

Fixpoint is_subclass (fuel : nat) (c d : exn_class) : bool :=
  exn_class_eqb c d ||
  match fuel with
  | O => false
  | S fuel' =>
      match extends c with
      | Some p => is_subclass fuel' p d
      | None => false
      end
  end.

(** A thrown error: its class, message and, for [DeviceError] and its
    subclasses, the [errorCode] property. *)
Record js_error : Type := mk_error {
  cls : exn_class;
  message : string;
  errorCode : option json
}.

(** [e instanceof d]; the hierarchy is three levels deep. *)
Definition instanceof (e : js_error) (d : exn_class) : bool :=
  is_subclass 3 (cls e) d.

(** [new C(message)] for the classes without an error code. *)
Definition new_error (c : exn_class) (msg : string) : js_error :=
  mk_error c msg None.

(** [new C(message, { errorCode })] for [DeviceError] and its subclasses:
    [this.errorCode = options.errorCode || null]. *)
Definition new_device_error (c : exn_class) (msg : string)
    (code : option json) : js_error :=
  mk_error c msg (if truthy_opt code then code else Some JNull).

(** The static fields of [SmartErrorCode], in declaration order. *)
Definition SmartErrorCode_fields : list (string * Z) :=
  [
    ("SUCCESS", 0); ("SESSION_TIMEOUT_ERROR", 9999);
    ("MULTI_REQUEST_FAILED_ERROR", 1200);
    ("HTTP_TRANSPORT_FAILED_ERROR", 1112); ("LOGIN_FAILED_ERROR", 1111);
    ("HAND_SHAKE_FAILED_ERROR", 1100);
    ("TRANSPORT_UNKNOWN_CREDENTIALS_ERROR", 1003);
    ("TRANSPORT_NOT_AVAILABLE_ERROR", 1002);
    ("CMD_COMMAND_CANCEL_ERROR", 1001); ("NULL_TRANSPORT_ERROR", 1000);
    ("COMMON_FAILED_ERROR", (-1)); ("UNSPECIFIC_ERROR", (-1001));
    ("UNKNOWN_METHOD_ERROR", (-1002)); ("JSON_DECODE_FAIL_ERROR", (-1003));
    ("JSON_ENCODE_FAIL_ERROR", (-1004)); ("AES_DECODE_FAIL_ERROR", (-1005));
    ("REQUEST_LEN_ERROR_ERROR", (-1006)); ("CLOUD_FAILED_ERROR", (-1007));
    ("PARAMS_ERROR", (-1008)); ("INVALID_PUBLIC_KEY_ERROR", (-1010));
    ("SESSION_PARAM_ERROR", (-1101)); ("QUICK_SETUP_ERROR", (-1201));
    ("DEVICE_ERROR", (-1301)); ("DEVICE_NEXT_EVENT_ERROR", (-1302));
    ("FIRMWARE_ERROR", (-1401)); ("FIRMWARE_VER_ERROR_ERROR", (-1402));
    ("LOGIN_ERROR", (-1501)); ("TIME_ERROR", (-1601));
    ("TIME_SYS_ERROR", (-1602)); ("TIME_SAVE_ERROR", (-1603));
    ("WIRELESS_ERROR", (-1701)); ("WIRELESS_UNSUPPORTED_ERROR", (-1702));
    ("SCHEDULE_ERROR", (-1801)); ("SCHEDULE_FULL_ERROR", (-1802));
    ("SCHEDULE_CONFLICT_ERROR", (-1803)); ("SCHEDULE_SAVE_ERROR", (-1804));
    ("SCHEDULE_INDEX_ERROR", (-1805)); ("COUNTDOWN_ERROR", (-1901));
    ("COUNTDOWN_CONFLICT_ERROR", (-1902)); ("COUNTDOWN_SAVE_ERROR", (-1903));
    ("ANTITHEFT_ERROR", (-2001)); ("ANTITHEFT_CONFLICT_ERROR", (-2002));
    ("ANTITHEFT_SAVE_ERROR", (-2003)); ("ACCOUNT_ERROR", (-2101));
    ("STAT_ERROR", (-2201)); ("STAT_SAVE_ERROR", (-2202));
    ("DST_ERROR", (-2301)); ("DST_SAVE_ERROR", (-2302));
    ("VACUUM_BATTERY_LOW", (-3001)); ("SYSTEM_ERROR", (-40101));
    ("INVALID_ARGUMENTS", (-40209)); ("SESSION_EXPIRED", (-40401));
    ("BAD_USERNAME", (-40411)); ("HOMEKIT_LOGIN_FAIL", (-40412));
    ("DEVICE_BLOCKED", (-40404)); ("DEVICE_FACTORY", (-40405));
    ("OUT_OF_LIMIT", (-40406)); ("OTHER_ERROR", (-40407));
    ("SYSTEM_BLOCKED", (-40408)); ("NONCE_EXPIRED", (-40409));
    ("FFS_NONE_PWD", (-90000)); ("TIMEOUT_ERROR", 40108);
    ("UNSUPPORTED_METHOD", (-40106));
    ("ONE_SECOND_REPEAT_REQUEST", (-40109)); ("INVALID_NONCE", (-40413));
    ("PROTOCOL_FORMAT_ERROR", (-40210)); ("IP_CONFLICT", (-40321));
    ("DIAGNOSE_TYPE_NOT_SUPPORT", (-69051));
    ("DIAGNOSE_TASK_FULL", (-69052)); ("DIAGNOSE_TASK_BUSY", (-69053));
    ("DIAGNOSE_INTERNAL_ERROR", (-69055));
    ("DIAGNOSE_ID_NOT_FOUND", (-69056)); ("DIAGNOSE_TASK_NULL", (-69057));
    ("CLOUD_LINK_DOWN", (-69060)); ("ONVIF_SET_WRONG_TIME", (-69061));
    ("CLOUD_NTP_NO_RESPONSE", (-69062)); ("CLOUD_GET_WRONG_TIME", (-69063));
    ("SNTP_SRV_NO_RESPONSE", (-69064)); ("SNTP_GET_WRONG_TIME", (-69065));
    ("LINK_UNCONNECTED", (-69076)); ("WIFI_SIGNAL_WEAK", (-69077));
    ("LOCAL_NETWORK_POOR", (-69078)); ("CLOUD_NETWORK_POOR", (-69079));
    ("INTER_NETWORK_POOR", (-69080)); ("DNS_TIMEOUT", (-69081));
    ("DNS_ERROR", (-69082)); ("PING_NO_RESPONSE", (-69083));
    ("DHCP_MULTI_SERVER", (-69084)); ("DHCP_ERROR", (-69085));
    ("STREAM_SESSION_CLOSE", (-69094));
    ("STREAM_BITRATE_EXCEPTION", (-69095)); ("STREAM_FULL", (-69096));
    ("STREAM_NO_INTERNET", (-69097)); ("HARDWIRED_NOT_FOUND", (-72101));
    ("INTERNAL_UNKNOWN_ERROR", (-100000)); ("INTERNAL_QUERY_ERROR", (-100001))
  ].

(** [SmartErrorCode.NAME]: a number, or [undefined] when the class has no
    such static field. *)
Definition SmartErrorCode (name : string) : option json :=
  match assoc name SmartErrorCode_fields with
  | Some n => Some (JNum n)
  | None => None
  end.

(** The object literal [{ name, value }]; a property whose value is
    [undefined] reads the same as an absent one and is left out. *)
Definition code_object (name : string) (value : option json) : json :=
  JObj (("name", JStr name) ::
        match value with
        | Some v => [("value", v)]
        | None => []
        end).

(** [SmartErrorCode.fromInt(value)]: the first static field that is a
    number identical to [value], else [{ name: 'UNKNOWN', value }]. *)
Definition fromInt (value : option json) : json :=
  match List.find (fun e => same_prim (Some (JNum (snd e))) value)
                  SmartErrorCode_fields with
  | Some (key, errorValue) => code_object key (Some (JNum errorValue))
  | None => code_object "UNKNOWN" value
  end.

(** The exported partition sets of exceptions.js. *)
Definition SMART_RETRYABLE_ERRORS : list (option json) :=
  [ SmartErrorCode "TRANSPORT_NOT_AVAILABLE_ERROR";
    SmartErrorCode "HTTP_TRANSPORT_FAILED_ERROR";
    SmartErrorCode "UNSPECIFIC_ERROR";
    SmartErrorCode "SESSION_TIMEOUT_ERROR";
    SmartErrorCode "SESSION_EXPIRED";
    SmartErrorCode "INVALID_NONCE" ].

Definition SMART_AUTHENTICATION_ERRORS : list (option json) :=
  [ SmartErrorCode "LOGIN_ERROR";
    SmartErrorCode "LOGIN_FAILED_ERROR";
    SmartErrorCode "AES_DECODE_FAIL_ERROR";
    SmartErrorCode "HAND_SHAKE_FAILED_ERROR";
    SmartErrorCode "TRANSPORT_UNKNOWN_CREDENTIALS_ERROR";
    SmartErrorCode "HOMEKIT_LOGIN_FAIL" ].

(** The sets that aestransport.js, smartprotocol.js and smartcamprotocol.js
    each declare for themselves (the three declarations are the same) and
    use instead of the exported ones. *)
Definition LOCAL_SMART_RETRYABLE_ERRORS : list (option json) :=
  [ SmartErrorCode "SESSION_EXPIRED";
    SmartErrorCode "DEVICE_BUSY";
    SmartErrorCode "TRANSPORT_UNKNOWN_CREDENTIALS_ERROR" ].

Definition LOCAL_SMART_AUTHENTICATION_ERRORS : list (option json) :=
  [ SmartErrorCode "LOGIN_ERROR";
    SmartErrorCode "TRANSPORT_UNKNOWN_CREDENTIALS_ERROR" ].

End Exceptions.

(** ** Code that throws and mutates: a state and error monad *)

Module Eff.
Import Js Exceptions.

(** A method of an object of type [S]: it returns or throws, and leaves
    the object in a new state either way. *)
Definition M (S A : Type) : Type := S -> result js_error A * S.

Definition ret {S A : Type} (a : A) : M S A := fun s => (Ok a, s).

Definition throw {S A : Type} (e : js_error) : M S A := fun s => (Throw e, s).

Definition bind {S A B : Type} (m : M S A) (k : A -> M S B) : M S B :=
  fun s =>
    match m s with
    | (Ok a, s') => k a s'
    | (Throw e, s') => (Throw e, s')
    | (Diverge, s') => (Diverge, s')
    end.

(** [try { m } catch (e) { h e }]. *)
Definition try_catch {S A : Type} (m : M S A) (h : js_error -> M S A) : M S A :=
  fun s =>
    match m s with
    | (Ok a, s') => (Ok a, s')
    | (Throw e, s') => h e s'
    | (Diverge, s') => (Diverge, s')
    end.

Definition get {S : Type} : M S S := fun s => (Ok s, s).

Definition modify {S : Type} (f : S -> S) : M S unit := fun s => (Ok tt, f s).

(** An expression that throws a [TypeError] when it reads a property of
    [null] or [undefined]. *)
Definition or_type_error {S A : Type} (msg : string) (v : option A) : M S A :=
  match v with
  | Some a => ret a
  | None => throw (new_error JsTypeError msg)
  end.

End Eff.

Declare Scope eff_scope.
Delimit Scope eff_scope with eff.
Notation "'let*' x := m 'in' k" := (Eff.bind m (fun x => k))
  (at level 10, x pattern, m at level 100, k at level 200) : eff_scope.
Notation "m ;; k" := (Eff.bind m (fun _ => k))
  (at level 100, k at level 200, right associativity) : eff_scope.

(** ** httpclient.js *)

Module Http.
Import Js Exceptions Eff.
Local Open Scope Z_scope.

(** A header value: [post] is handed strings and itself stores a number
    under [Content-Length]. *)
Inductive header_value : Type :=
| HStr (s : string)
| HNum (n : Z).

(** What callers pass as the [json] option. *)
Inductive json_arg : Type :=
| ArgNull
| ArgPlain (j : json)       (* a plain object or array *)
| ArgGenerator              (* a generator object, as an [async*] method returns *)
| ArgString (s : string).   (* not an object: sent as data *)

(** What callers pass as the [data] option. *)
Inductive data_arg : Type :=
| DataNull
| DataString (s : string)
| DataBuffer (bytes : string).

(** What callers pass as [url]: a [URL] object, given by its href, or a
    string, given with what [new URL] makes of it: the href of the URL, or
    nothing when the string is not a valid URL and [new URL] throws its
    [TypeError]. *)
Inductive url_arg : Type :=
| UrlObject (href : string)
| UrlString (s : string) (parsed : option string).

Record post_options : Type := mk_post_options {
  opt_data : data_arg;
  opt_json : json_arg;
  opt_headers : option (list (string * header_value));
  opt_cookiesDict : option (list (string * string))
}.

(** What [_makeRequest] is called with. *)
Record request : Type := mk_request {
  req_url : string;
  req_headers : list (string * header_value);
  req_data : data_arg
}.

(** How [_makeRequest] settles: a response with the cookies of its
    [set-cookie] headers, or a rejection with the [code] and [message] of
    the socket error. *)
Inductive settled : Type :=
| Response (statusCode : Z) (responseBody : string)
           (cookies : list (string * string))
| Rejected (code : option string) (msg : string).

(** The second component of what [post] resolves to. *)
Inductive response_data : Type :=
| RespJson (j : json)
| RespRaw (body : string).

Record HttpClient : Type := mk_client {
  _host : string;
  _cookies : list (string * string);
  _waitBetweenRequests : bool;   (* 0.0 or WAIT_BETWEEN_REQUESTS_ON_OSERROR *)
  sent : list request            (* the requests made so far, oldest first *)
}.

Definition is_truthy_data (d : data_arg) : bool :=
  match d with
  | DataNull => false
  | DataString s => negb (String.eqb s EmptyString)
  | DataBuffer _ => true
  end.

(** [Buffer.byteLength]. *)
Definition byteLength (d : data_arg) : Z :=
  match d with
  | DataNull => 0
  | DataString s | DataBuffer s => Z.of_nat (String.length s)
  end.

(** [{ ...a, ...b }] and [a[k] = v], key by key. *)
Definition spread {A : Type} (a b : list (string * A)) : list (string * A) :=
  fold_left (fun acc kv => assoc_set (fst kv) (snd kv) acc) b a.

(** [Object.entries(cookiesDict).map(([k, v]) => `${k}=${v}`).join('; ')]. *)
Fixpoint cookie_header (cookies : list (string * string)) : string :=
  match cookies with
  | [] => EmptyString
  | [(k, v)] => k +:+ "=" +:+ v
  | (k, v) :: rest => k +:+ "=" +:+ v +:+ "; " +:+ cookie_header rest
  end.

Section WithJson.

(** [JSON.stringify] on plain data, and [loads] of json.js, which returns
    the parsed value or throws a [SyntaxError] with some message. *)
Variable JSON_stringify : json -> string.
Variable jsonLoads : string -> may_throw string json.

(** [JSON.stringify(json)] for the [json] option.  A generator object has
    no own enumerable property and no [toJSON]: it serialises as an empty
    object, and nothing iterates it. *)
Definition stringify_arg (a : json_arg) : string :=
  match a with
  | ArgPlain j => JSON_stringify j
  | ArgGenerator => "{}"
  | ArgNull | ArgString _ => "null"
  end.

(** The first half of [post]: from the options to the call of
    [_makeRequest]. *)
Definition build_request (url : string) (o : post_options) : request :=
  (* if (json && typeof json !== 'object') { data = json; json = null; } *)
  let '(json, data) :=
    match opt_json o with
    | ArgString s =>
        if String.eqb s EmptyString then (ArgString s, opt_data o)
        else (ArgNull, DataString s)
    | j => (j, opt_data o)
    end in
  let json_truthy :=
    match json with
    | ArgPlain _ | ArgGenerator => true
    | ArgNull | ArgString _ => false
    end in
  let headers0 :=
    spread [("Content-Type",
             HStr (if json_truthy then "application/json"
                   else "application/octet-stream"))]
           (match opt_headers o with Some h => h | None => [] end) in
  let headers1 :=
    match opt_cookiesDict o with
    | Some c => assoc_set "Cookie" (HStr (cookie_header c)) headers0
    | None => headers0
    end in
  let requestData :=
    if json_truthy then DataString (stringify_arg json) else data in
  let headers2 :=
    if is_truthy_data requestData
    then assoc_set "Content-Length" (HNum (byteLength requestData)) headers1
    else headers1 in
  mk_request url headers2 requestData.

(** [Boolean(json)] at the start of [post]. *)
Definition returnJson (o : post_options) : bool :=
  match opt_json o with
  | ArgNull => false
  | ArgString s => negb (String.eqb s EmptyString)
  | ArgPlain _ | ArgGenerator => true
  end.

(** The network: how the [n]-th request of a client settles. *)
Variable network : nat -> request -> settled.

(** [post(url, options)] from [let responseData = null] on, with the href
    of the URL object that [url] is by then. *)
Definition post_to (url : string) (o : post_options)
  : M HttpClient (Z * response_data) :=
  fun c =>
    let rq := build_request url o in
    let c1 := mk_client (_host c) [] (_waitBetweenRequests c) (sent c ++ [rq]) in
    match network (List.length (sent c)) rq with
    | Response statusCode responseBody cookies =>
        let c2 := mk_client (_host c1) cookies (_waitBetweenRequests c1) (sent c1) in
        if statusCode =? 200 then
          if returnJson o then
            match jsonLoads responseBody with
            | Returned j => (Ok (statusCode, RespJson j), c2)
            | Thrown msg =>
                (* the SyntaxError has no [code] *)
                (Throw (new_error KasaException
                          ("Unable to query the device: " +:+ _host c +:+ ": "
                           +:+ msg)), c2)
            end
          else (Ok (statusCode, RespRaw responseBody), c2)
        else
          if returnJson o then
            match jsonLoads responseBody with
            | Returned j => (Ok (statusCode, RespJson j), c2)
            | Thrown _ => (Ok (statusCode, RespJson JNull), c2)
            end
          else (Ok (statusCode, RespRaw responseBody), c2)
    | Rejected code msg =>
        if match code with
           | Some cd => String.eqb cd "ECONNRESET" || String.eqb cd "EPIPE"
           | None => false
           end
        then
          (Throw (new_error ConnectionError
                    ("Device connection error: " +:+ _host c +:+ ": " +:+ msg)),
           mk_client (_host c1) (_cookies c1) true (sent c1))
        else if match code with
                | Some cd => String.eqb cd "ETIMEDOUT"
                | None => false
                end
        then
          (Throw (new_error TimeoutError
                    ("Unable to query the device, timed out: " +:+ _host c
                     +:+ ": " +:+ msg)), c1)
        else
          (Throw (new_error KasaException
                    ("Unable to query the device: " +:+ _host c +:+ ": " +:+ msg)),
           c1)
    end.

(** The href of the URL that [post] makes its request to: that of the
    object, or that of [new URL(url)]; none when [new URL] throws. *)
Definition request_url (url : url_arg) : option string :=
  match url with
  | UrlObject href => Some href
  | UrlString _ parsed => parsed
  end.

(** [post(url, options)].  The pause before a request once
    [_waitBetweenRequests] is set is a matter of time and is left out.
    [new URL(url)] stands before the [try]: its [TypeError] is thrown as it
    is, before anything of the client is touched. *)
Definition post (url : url_arg) (o : post_options)
  : M HttpClient (Z * response_data) :=
  match url with
  | UrlObject href => post_to href o
  | UrlString _ (Some href) =>
      (* if (typeof url === 'string') url = new URL(url); *)
      post_to href o
  | UrlString _ None => throw (new_error JsTypeError "Invalid URL")
  end.

(** [getCookie(name)]: the cookie, or [null]. *)
Definition getCookie (c : HttpClient) (name : string) : option string :=
  match assoc name (_cookies c) with
  | Some v => if String.eqb v EmptyString then None else Some v
  | None => None
  end.

End WithJson.

End Http.

(** ** aestransport.js *)

Module Aes.
Import Js Exceptions Eff Http.
Local Open Scope Z_scope.

Inductive TransportState : Type :=
| HANDSHAKE_REQUIRED
| LOGIN_REQUIRED
| ESTABLISHED.

Definition state_eqb (a b : TransportState) : bool :=
  match a, b with
  | HANDSHAKE_REQUIRED, HANDSHAKE_REQUIRED
  | LOGIN_REQUIRED, LOGIN_REQUIRED
  | ESTABLISHED, ESTABLISHED => true
  | _, _ => false
  end.

Record Credentials : Type := mk_credentials {
  username : string;
  password : string
}.

(** [getDefaultCredentials(DEFAULT_CREDENTIALS.TAPO)]: the two base64
    constants of credentials.js, decoded. *)
Definition TAPO_default_credentials : Credentials :=
  mk_credentials "test@tp-link.net" "test".

Definition COMMON_HEADERS : list (string * header_value) :=
  [ ("Content-Type", HStr "application/json");
    ("requestByApp", HStr "true");
    ("Accept", HStr "application/json") ].

Definition CONTENT_LENGTH : string := "Content-Length".
Definition KEY_PAIR_CONTENT_LENGTH : Z := 314.
Definition SESSION_COOKIE_NAME : string := "TP_SESSIONID".
Definition TIMEOUT_COOKIE_NAME : string := "TIMEOUT".
Definition ONE_DAY_SECONDS : Z := 86400.
Definition SESSION_EXPIRE_BUFFER_SECONDS : Z := 60 * 20.

Section Transport.

(** The cryptography and the JSON codec are taken as given: an RSA key
    pair, the AES session made from the device's handshake key, the
    credential hashes, and the tail of [sendSecurePassthrough] that decrypts
    and parses [result.response] (its [Thrown] carries the message of the
    [KasaException] that the method then throws). *)
Variable session : Type.
Variable keypair : Type.
Variable session_encrypt : session -> string -> string.
Variable decode_response : session -> option json -> may_throw string json.
Variable createFromKeypair : option json -> option keypair -> may_throw js_error session.
Variable hashCredentials : bool -> Credentials -> string * string.
Variable JSON_stringify : json -> string.
Variable jsonLoads : string -> may_throw string json.
Variable parseInt : string -> Z.

(** The environment: how the [n]-th request settles, and what [Date.now()]
    reads once [n] requests have been made. *)
Variable network : nat -> request -> settled.
Variable Date_now : nat -> Z.

Record AesTransport : Type := mk_transport {
  host : string;
  port : Z;
  _loginVersion : option Z;
  _loginParams : json;
  _defaultCredentials : option Credentials;
  _httpClient : HttpClient;
  _state : TransportState;
  _encryptionSession : option session;
  _sessionExpireAt : option Z;
  _sessionCookie : option (list (string * string));
  _keyPair : option keypair;
  _tokenUrl : option string
}.

Definition set_defaultCredentials (v : option Credentials) (t : AesTransport) :=
  mk_transport (host t) (port t) (_loginVersion t) (_loginParams t) v
    (_httpClient t) (_state t) (_encryptionSession t) (_sessionExpireAt t)
    (_sessionCookie t) (_keyPair t) (_tokenUrl t).

Definition set_httpClient (v : HttpClient) (t : AesTransport) :=
  mk_transport (host t) (port t) (_loginVersion t) (_loginParams t)
    (_defaultCredentials t) v (_state t) (_encryptionSession t)
    (_sessionExpireAt t) (_sessionCookie t) (_keyPair t) (_tokenUrl t).

Definition set_state (v : TransportState) (t : AesTransport) :=
  mk_transport (host t) (port t) (_loginVersion t) (_loginParams t)
    (_defaultCredentials t) (_httpClient t) v (_encryptionSession t)
    (_sessionExpireAt t) (_sessionCookie t) (_keyPair t) (_tokenUrl t).

Definition set_encryptionSession (v : option session) (t : AesTransport) :=
  mk_transport (host t) (port t) (_loginVersion t) (_loginParams t)
    (_defaultCredentials t) (_httpClient t) (_state t) v
    (_sessionExpireAt t) (_sessionCookie t) (_keyPair t) (_tokenUrl t).

Definition set_sessionExpireAt (v : option Z) (t : AesTransport) :=
  mk_transport (host t) (port t) (_loginVersion t) (_loginParams t)
    (_defaultCredentials t) (_httpClient t) (_state t) (_encryptionSession t)
    v (_sessionCookie t) (_keyPair t) (_tokenUrl t).

Definition set_sessionCookie (v : option (list (string * string)))
    (t : AesTransport) :=
  mk_transport (host t) (port t) (_loginVersion t) (_loginParams t)
    (_defaultCredentials t) (_httpClient t) (_state t) (_encryptionSession t)
    (_sessionExpireAt t) v (_keyPair t) (_tokenUrl t).

Definition set_tokenUrl (v : option string) (t : AesTransport) :=
  mk_transport (host t) (port t) (_loginVersion t) (_loginParams t)
    (_defaultCredentials t) (_httpClient t) (_state t) (_encryptionSession t)
    (_sessionExpireAt t) (_sessionCookie t) (_keyPair t) v.

(** A method of [this._httpClient], run on the transport. *)
Definition on_client {A : Type} (m : M HttpClient A) : M AesTransport A :=
  fun t =>
    let '(r, c) := m (_httpClient t) in
    (r, set_httpClient c t).

(** [Date.now()]. *)
Definition now : M AesTransport Z :=
  fun t => (Ok (Date_now (List.length (sent (_httpClient t)))), t).

(** [this._appUrl]. *)
Definition appUrl (t : AesTransport) : string :=
  "http://" +:+ host t +:+ ":" +:+ pretty (port t) +:+ "/app".

(** [respDict.k] on what [post] resolved to; a [Buffer] has no such
    property. *)
Definition data_prop (d : response_data) (k : string) : option (option json) :=
  match d with
  | RespJson j => get_prop (Some j) k
  | RespRaw _ => Some None
  end.

(** [_getLoginParams(credentials)]. *)
Definition _getLoginParams (t : AesTransport) (credentials : Credentials) : json :=
  let v2 :=
    match _loginVersion t with
    | Some n => n =? 2
    | None => false
    end in
  let '(un, pw) := hashCredentials v2 credentials in
  let passwordFieldName := if v2 then "password2" else "password" in
  JObj [(passwordFieldName, JStr pw); ("username", JStr un)].

(** [_handleResponseErrorCode(respDict, msg)].  [fromInt] returns an object
    and does not throw, so the [catch] around it never runs; [errorCode] is
    that object in the comparison with [SmartErrorCode.SUCCESS] and in the
    two [Set.has] tests. *)
Definition _handleResponseErrorCode (respDict : response_data) (msg : string)
  : M AesTransport unit :=
  (let* errorCodeRaw :=
     or_type_error "Cannot read properties of null (reading 'error_code')"
       (data_prop respDict "error_code") in
   let errorCode := fromInt errorCodeRaw in
   if same_prim (Some errorCode) (SmartErrorCode "SUCCESS") then ret tt
   else
     let* t := get in
     let message :=
       msg +:+ ": " +:+ host t +:+ ": "
       +:+ to_string_opt (assoc "name" match errorCode with JObj f => f | _ => [] end)
       +:+ "("
       +:+ to_string_opt (assoc "value" match errorCode with JObj f => f | _ => [] end)
       +:+ ")" in
     if has_prim LOCAL_SMART_RETRYABLE_ERRORS (Some errorCode) then
       throw (new_device_error RetryableError message (Some errorCode))
     else if has_prim LOCAL_SMART_AUTHENTICATION_ERRORS (Some errorCode) then
       modify (set_state HANDSHAKE_REQUIRED) ;;
       throw (new_device_error AuthenticationError message (Some errorCode))
     else
       throw (new_device_error DeviceError message (Some errorCode)))%eff.

(** [sendSecurePassthrough(request)]. *)
Definition sendSecurePassthrough (request : string) : M AesTransport json :=
  (let* t := get in
   let url :=
     match _state t, _tokenUrl t with
     | ESTABLISHED, Some u => u
     | _, _ => appUrl t
     end in
   let* sess :=
     or_type_error "Cannot read properties of null (reading 'encrypt')"
       (_encryptionSession t) in
   let encryptedPayload := session_encrypt sess request in
   let passthroughRequest :=
     JObj [("method", JStr "securePassthrough");
           ("params", JObj [("request", JStr encryptedPayload)])] in
   let* (statusCode, respDict) :=
     on_client (post JSON_stringify jsonLoads network (UrlObject url)
                  (mk_post_options DataNull (ArgPlain passthroughRequest)
                     (Some COMMON_HEADERS) (_sessionCookie t))) in
   if negb (statusCode =? 200) then
     throw (new_error KasaException
              (host t +:+ " responded with an unexpected status code "
               +:+ pretty statusCode +:+ " to passthrough"))
   else
     _handleResponseErrorCode respDict "Error sending secure_passthrough message" ;;
     let* result :=
       or_type_error "Cannot read properties of null (reading 'result')"
         (data_prop respDict "result") in
     let* rawResponse :=
       or_type_error "Cannot read properties of undefined (reading 'response')"
         (get_prop result "response") in
     match decode_response sess rawResponse with
     | Returned j => ret j
     | Thrown m => throw (new_error KasaException m)
     end)%eff.

(** [tryLogin(loginParams)]. *)
Definition tryLogin (loginParams : json) : M AesTransport unit :=
  (let* time := now in
   let loginRequest :=
     JObj [("method", JStr "login_device");
           ("params", loginParams);
           ("request_time_milis", JNum time)] in
   let request := JSON_stringify loginRequest in
   let* respDict := sendSecurePassthrough request in
   _handleResponseErrorCode (RespJson respDict) "Error logging in" ;;
   let* result :=
     or_type_error "Cannot read properties of null (reading 'result')"
       (get_prop (Some respDict) "result") in
   let* loginToken :=
     or_type_error "Cannot read properties of undefined (reading 'token')"
       (get_prop result "token") in
   let* t := get in
   modify (set_tokenUrl
             (Some (appUrl t +:+ "?token=" +:+ to_string_opt loginToken))) ;;
   modify (set_state ESTABLISHED))%eff.

(** [performHandshake()].  [this._generateKeyPairPayload()] only makes the
    generator object: its body, which would create the key pair, runs when
    the generator is iterated, and [post] does not iterate it. *)
Definition performHandshake : M AesTransport unit :=
  (modify (set_tokenUrl None) ;;
   modify (set_sessionExpireAt None) ;;
   modify (set_sessionCookie None) ;;
   let headers :=
     spread COMMON_HEADERS
       [(CONTENT_LENGTH, HStr (pretty KEY_PAIR_CONTENT_LENGTH))] in
   let* t := get in
   let* (statusCode, respDict) :=
     on_client (post JSON_stringify jsonLoads network (UrlObject (appUrl t))
                  (mk_post_options DataNull ArgGenerator (Some headers)
                     (_sessionCookie t))) in
   if negb (statusCode =? 200) then
     throw (new_error KasaException
              (host t +:+ " responded with an unexpected status code "
               +:+ pretty statusCode +:+ " to handshake"))
   else
     _handleResponseErrorCode respDict "Unable to complete handshake" ;;
     let* result :=
       or_type_error "Cannot read properties of null (reading 'result')"
         (data_prop respDict "result") in
     let* handshakeKey :=
       or_type_error "Cannot read properties of undefined (reading 'key')"
         (get_prop result "key") in
     let* t1 := get in
     let cookie :=
       match getCookie (_httpClient t1) SESSION_COOKIE_NAME with
       | Some c => Some c
       | None => getCookie (_httpClient t1) "SESSIONID"
       end in
     match cookie with
     | Some c => modify (set_sessionCookie (Some [(SESSION_COOKIE_NAME, c)]))
     | None => ret tt
     end ;;
     let timeout :=
       parseInt match getCookie (_httpClient t1) TIMEOUT_COOKIE_NAME with
                | Some c => c
                | None => pretty ONE_DAY_SECONDS
                end in
     let* time := now in
     modify (set_sessionExpireAt
               (Some (time + timeout * 1000 - SESSION_EXPIRE_BUFFER_SECONDS * 1000))) ;;
     match createFromKeypair handshakeKey (_keyPair t1) with
     | Returned s => modify (set_encryptionSession (Some s))
     | Thrown e => throw e
     end ;;
     modify (set_state LOGIN_REQUIRED))%eff.

(** [performLogin()]. *)
Definition performLogin : M AesTransport unit :=
  (let* t := get in
   try_catch (tryLogin (_loginParams t)) (fun aex =>
     if negb (instanceof aex AuthenticationError) then throw aex
     else
       try_catch
         (if negb (same_prim (errorCode aex) (SmartErrorCode "LOGIN_ERROR"))
          then throw aex
          else
            let* t1 := get in
            match _defaultCredentials t1 with
            | None => modify (set_defaultCredentials (Some TAPO_default_credentials))
            | Some _ => ret tt
            end ;;
            performHandshake ;;
            let* t2 := get in
            tryLogin (_getLoginParams t2
                        match _defaultCredentials t2 with
                        | Some c => c
                        | None => TAPO_default_credentials
                        end))
         (fun ex =>
            if instanceof ex AuthenticationError
               || instanceof ex ConnectionError
               || instanceof ex TimeoutError
            then throw ex
            else
              throw (new_error KasaException
                       ("Unable to login and trying default login raised another exception: "
                        +:+ message ex)))))%eff.

(** [_handshakeSessionExpired()]. *)
Definition _handshakeSessionExpired : M AesTransport bool :=
  (let* t := get in
   let* time := now in
   ret match _sessionExpireAt t with
       | None => true
       | Some at_ => at_ - time <=? 0
       end)%eff.

(** [send(request)]. *)
Definition send (request : string) : M AesTransport json :=
  (let* t := get in
   let* expired :=
     if state_eqb (_state t) HANDSHAKE_REQUIRED then ret true
     else _handshakeSessionExpired in
   (if expired then performHandshake else ret tt) ;;
   let* t1 := get in
   (if negb (state_eqb (_state t1) ESTABLISHED) then
      try_catch performLogin (fun ex =>
        (if instanceof ex AuthenticationError
         then modify (set_state HANDSHAKE_REQUIRED) else ret tt) ;;
        throw ex)
    else ret tt) ;;
   sendSecurePassthrough request)%eff.

End Transport.

Arguments _handleResponseErrorCode {session keypair} respDict msg _.
Arguments set_state {session keypair} v t.

End Aes.

(** ** smartprotocol.js *)

Module Smart.
Import Js Exceptions Eff.
Local Open Scope Z_scope.

Definition FORCE_SINGLE_REQUEST : list string :=
  ["getConnectStatus"; "scanApList"].

Definition BACKOFF_SECONDS_AFTER_TIMEOUT : Z := 1.
Definition DEFAULT_MULTI_REQUEST_BATCH_SIZE : Z := 5.

(** What a protocol does to the outside: a request handed to
    [this._transport.send], [this._transport.reset()], a [setTimeout] pause
    (in milliseconds). *)
Inductive event : Type :=
| Sent (request : string)
| Reset
| Sleep (ms : Z).

Record SmartProtocol : Type := mk_protocol {
  _host : string;
  _terminalUuid : string;
  _multiRequestBatchSize : Z;
  _methodMissingLogged : bool;
  events : list event      (* oldest first *)
}.

(** The constructor: [config.batchSize || DEFAULT_MULTI_REQUEST_BATCH_SIZE]. *)
Definition new_SmartProtocol (host uuid : string) (batchSize : option Z)
  : SmartProtocol :=
  mk_protocol host uuid
    match batchSize with
    | Some n => if n =? 0 then DEFAULT_MULTI_REQUEST_BATCH_SIZE else n
    | None => DEFAULT_MULTI_REQUEST_BATCH_SIZE
    end
    false [].

Definition set_batchSize (n : Z) (p : SmartProtocol) : SmartProtocol :=
  mk_protocol (_host p) (_terminalUuid p) n (_methodMissingLogged p) (events p).

Definition set_methodMissingLogged (b : bool) (p : SmartProtocol) : SmartProtocol :=
  mk_protocol (_host p) (_terminalUuid p) (_multiRequestBatchSize p) b (events p).

Definition log (e : event) (p : SmartProtocol) : SmartProtocol :=
  mk_protocol (_host p) (_terminalUuid p) (_multiRequestBatchSize p)
    (_methodMissingLogged p) (events p ++ [e]).

Definition is_sent (e : event) : bool :=
  match e with
  | Sent _ => true
  | _ => false
  end.

(** The number of requests sent so far. *)
Definition sent_count (p : SmartProtocol) : nat :=
  List.length (List.filter is_sent (events p)).

(** The argument of [query]: a method name, or an object from method names
    to parameters. *)
Inductive query_request : Type :=
| ReqString (method : string)
| ReqObject (requests : list (string * json)).

(** The fields of an object, none for another value. *)
Definition fields_of (j : json) : list (string * json) :=
  match j with
  | JObj f => f
  | _ => []
  end.

(** [a || null]. *)
Definition or_null (v : option json) : option json :=
  if truthy_opt v then v else Some JNull.

(** [arr.slice(i, j)] for [0 <= i]. *)
Definition slice {A : Type} (l : list A) (i j : Z) : list A :=
  firstn (Z.to_nat (j - i)) (skipn (Z.to_nat i) l).

(** [for (let i = 0; i < requestCount; i += step) batches.push(...)].  With
    [step <= 0] the loop does not end. *)
Fixpoint make_batches {A : Type} (fuel : nat) (multiRequests : list A)
    (requestCount step i : Z) : option (list (list A)) :=
  if i <? requestCount then
    match fuel with
    | O => None
    | S fuel' =>
        match make_batches fuel' multiRequests requestCount step (i + step) with
        | Some rest => Some (slice multiRequests i (i + step) :: rest)
        | None => None
        end
    end
  else Some [].

Section Protocol.

(** Taken as given: [JSON.stringify], the conversion of a string to a
    number ([None] is [NaN]), what [Date.now()] reads and how the transport
    answers the [n]-th request. *)
Variable JSON_stringify : json -> string.
Variable StringToNumber : string -> option Z.
Variable Date_now : nat -> Z.
Variable transport_send : nat -> string -> may_throw js_error json.

(** [ToNumber]: an array converts through its string, which holds a comma
    as soon as it has two elements. *)
Fixpoint to_number (j : json) : option Z :=
  match j with
  | JNull => Some 0
  | JBool b => Some (if b then 1 else 0)
  | JNum n => Some n
  | JStr s => StringToNumber s
  | JArr [] => Some 0
  | JArr [x] =>
      match x with
      | JNull => Some 0
      | JBool _ | JObj _ => None
      | _ => to_number x
      end
  | JArr _ => None
  | JObj _ => None
  end.

(** [n < v] for a number [n]. *)
Definition lt_number (n : Z) (v : option json) : bool :=
  match v with
  | Some j =>
      match to_number j with
      | Some m => n <? m
      | None => false
      end
  | None => false
  end.

(** [this._transport.send(request)]. *)
Definition send (request : string) : M SmartProtocol json :=
  fun p =>
    let p' := log (Sent request) p in
    match transport_send (sent_count p) request with
    | Returned j => (Ok j, p')
    | Thrown e => (Throw e, p')
    end.

(** [this._transport.reset()] and [setTimeout]. *)
Definition reset : M SmartProtocol unit := modify (log Reset).
Definition sleep (ms : Z) : M SmartProtocol unit := modify (log (Sleep ms)).

(** [getSmartRequest(method, params)]. *)
Definition getSmartRequest (method : json) (params : option json)
  : M SmartProtocol string :=
  fun p =>
    let request :=
      [("method", method);
       ("request_time_milis", JNum (Date_now (sent_count p)));
       ("terminal_uuid", JStr (_terminalUuid p))]
      ++ (if truthy_opt params
          then match params with Some v => [("params", v)] | None => [] end
          else []) in
    (Ok (JSON_stringify (JObj request)), p).

(** [respDict.result = errorCode]: a [TypeError] on a primitive (the module
    is strict code).  A property set on an array is not an element and is
    outside this model of data: the array is left as it is. *)
Definition set_result (respDict : json) (v : json) : M SmartProtocol json :=
  match respDict with
  | JObj f => ret (JObj (assoc_set "result" v f))
  | JArr _ => ret respDict
  | _ => throw (new_error JsTypeError "Cannot create property 'result'")
  end.

(** [_handleResponseErrorCode(respDict, method, { raiseOnError })]; it
    returns the response, which it may have changed.  [fromInt] does not
    throw, so the [catch] around it never runs. *)
Definition _handleResponseErrorCode (respDict : json) (method : string)
    (raiseOnError : bool) : M SmartProtocol json :=
  (let* errorCodeRaw :=
     or_type_error "Cannot read properties of null (reading 'error_code')"
       (get_prop (Some respDict) "error_code") in
   let errorCode := fromInt errorCodeRaw in
   let value := assoc "value" (fields_of errorCode) in
   if same_prim value (SmartErrorCode "SUCCESS") then ret respDict
   else if negb raiseOnError then set_result respDict errorCode
   else
     let* p := get in
     let msg :=
       "Error querying device: " +:+ _host p +:+ ": "
       +:+ to_string_opt (assoc "name" (fields_of errorCode))
       +:+ "(" +:+ to_string_opt value +:+ ") for method: " +:+ method in
     if has_prim LOCAL_SMART_RETRYABLE_ERRORS value then
       throw (new_device_error RetryableError msg (Some errorCode))
     else if has_prim LOCAL_SMART_AUTHENTICATION_ERRORS value then
       throw (new_device_error AuthenticationError msg (Some errorCode))
     else
       throw (new_device_error DeviceError msg (Some errorCode)))%eff.

(** [_getListRequest(method, params, startIndex)]. *)
Definition _getListRequest (method : string) (params : option json)
    (startIndex : Z) : list (string * json) :=
  [(method, JObj [("start_index", JNum startIndex)])].

(** The elements that [push(...v)] appends; [None] when [v] is not
    iterable.  A string spreads into its code points. *)
Definition spread_elements (v : json) : option (list json) :=
  match v with
  | JArr items => Some items
  | JStr s => Some (map JStr (Utf16.code_points s))
  | _ => None
  end.

(** [v.length === 0]; an object has the length that it holds under the
    key [length]. *)
Definition length_is_zero (v : json) : bool :=
  match v with
  | JArr [] => true
  | JStr s => String.eqb s EmptyString
  | JObj fields =>
      match assoc "length" fields with
      | Some (JNum 0) => true
      | _ => false
      end
  | _ => false
  end.

(** [Object.keys(o).find(key => Array.isArray(o[key]))]. *)
Definition find_list_name (fields : list (string * json)) : option string :=
  match List.find (fun kv => match snd kv with JArr _ => true | _ => false end)
                  fields with
  | Some (k, _) => Some k
  | None => None
  end.

(** One entry of [multipleRequest.requests]: [{ method, params }], or
    [{ method }] when [params] is falsy. *)
Definition multi_request (method : string) (params : json)
  : string * option json :=
  (method, if truthy params then Some params else None).

Definition multi_request_json (r : string * option json) : json :=
  JObj (("method", JStr (fst r)) ::
        match snd r with
        | Some v => [("params", v)]
        | None => []
        end).

(** The object that a query resolves to, as the list of its own
    properties: some results are [undefined]. *)
Definition query_result : Type := list (string * option json).

(** Whether [k] is the name of one of the own properties [fields]. *)
Definition has_key {A : Type} (k : string) (fields : list (string * A)) : bool :=
  match assoc k fields with
  | Some _ => true
  | None => false
  end.

(** The names of the properties that an object inherits from
    [Object.prototype]. *)
Definition Object_prototype_names : list string :=
  ["constructor"; "__defineGetter__"; "__defineSetter__"; "hasOwnProperty";
   "__lookupGetter__"; "__lookupSetter__"; "isPrototypeOf";
   "propertyIsEnumerable"; "toString"; "valueOf"; "__proto__";
   "toLocaleString"].

(** The names of the properties of [Array.prototype] (ECMAScript 2023). *)
Definition Array_prototype_names : list string :=
  ["length"; "constructor"; "at"; "concat"; "copyWithin"; "fill"; "find";
   "findIndex"; "findLast"; "findLastIndex"; "lastIndexOf"; "pop"; "push";
   "reverse"; "shift"; "unshift"; "slice"; "sort"; "splice"; "includes";
   "indexOf"; "join"; "keys"; "entries"; "values"; "forEach"; "filter";
   "flat"; "flatMap"; "map"; "every"; "some"; "reduce"; "reduceRight";
   "toLocaleString"; "toString"; "toReversed"; "toSorted"; "toSpliced";
   "with"].

Definition is_name_of (names : list string) (k : string) : bool :=
  existsb (String.eqb k) names.

(** [k in v] for an object or an array [v] that [JSON.parse] has made: an
    own property (for an array, an index below its length, or [length]) or
    an inherited one. *)
Definition has_property (k : string) (v : json) : bool :=
  match v with
  | JObj fields => has_key k fields || is_name_of Object_prototype_names k
  | JArr items =>
      existsb (fun i => String.eqb k (pretty (Z.of_nat i)))
        (seq 0 (List.length items))
      || is_name_of Array_prototype_names k
      || is_name_of Object_prototype_names k
  | _ => false
  end.

(** The prototype of the object [multiResult] of [_executeMultipleQuery]:
    that of [{}], until an assignment to [__proto__] replaces it with
    [null] or with the object or array assigned. *)
Inductive prototype : Type :=
| Object_prototype
| Null_prototype
| Value_prototype (v : json).

(** The object [multiResult]: its own properties and its prototype. *)
Record result_object : Type := mk_result_object {
  own : query_result;
  proto : prototype
}.

(** [{}]. *)
Definition empty_object : result_object := mk_result_object [] Object_prototype.

(** [name in o]. *)
Definition in_object (name : string) (o : result_object) : bool :=
  has_key name (own o)
  || match proto o with
     | Object_prototype => is_name_of Object_prototype_names name
     | Null_prototype => false
     | Value_prototype v => has_property name v
     end.

(** Whether an assignment to [o.__proto__] reaches the setter that
    [Object.prototype] has for this name: [o] has no own property of this
    name, and neither has its prototype before [Object.prototype]. *)
Definition reaches_proto_setter (o : result_object) : bool :=
  negb (has_key "__proto__" (own o))
  && match proto o with
     | Object_prototype => true
     | Null_prototype => false
     | Value_prototype (JObj fields) => negb (has_key "__proto__" fields)
     | Value_prototype (JArr _) => true
     | Value_prototype _ => false
     end.

(** [o[name] = v].  Under the name [__proto__], when the setter is
    reached, an object, an array or [null] becomes the prototype of [o] and
    any other value is ignored; in every other case the assignment makes
    or overwrites an own property. *)
Definition set_property (name : string) (v : option json) (o : result_object)
  : result_object :=
  if String.eqb name "__proto__" && reaches_proto_setter o then
    match v with
    | Some JNull => mk_result_object (own o) Null_prototype
    | Some (JObj fields) => mk_result_object (own o) (Value_prototype (JObj fields))
    | Some (JArr items) => mk_result_object (own o) (Value_prototype (JArr items))
    | _ => o
    end
  else mk_result_object (assoc_set name v (own o)) (proto o).

(** *** [_executeQuery] and [_executeMultipleQuery]

    [_executeQuery] and [_handleResponseLists] call each other, but the
    latter passes [iterateListPages: false], which stops the recursion.
    The two methods are written here over the option [iterateListPages] and
    over what [this._handleResponseLists] does, and instantiated twice. *)

Section Query.

Variable iterateListPages : bool.
Variable handleResponseLists : json -> string -> option json -> M SmartProtocol json.

(** [if (iterateListPages && result) await this._handleResponseLists(...)];
    the list of [result] is extended in place. *)
Definition iterate_lists (result : option json) (method : string)
    (params : option json) : M SmartProtocol (option json) :=
  match result with
  | Some r =>
      if iterateListPages && truthy r then
        (let* r' := handleResponseLists r method params in ret (Some r'))%eff
      else ret result
  | None => ret result
  end.

(** The body of [_executeQuery] after [smartMethod] and [smartParams] are
    known. *)
Definition executeSingle (smartMethod : string) (smartParams : json)
  : M SmartProtocol query_result :=
  (let* smartRequest := getSmartRequest (JStr smartMethod) (Some smartParams) in
   let* responseData := send smartRequest in
   let* responseData' := _handleResponseErrorCode responseData smartMethod true in
   (* Single set_ requests do not return a result *)
   let* result :=
     or_type_error "Cannot read properties of null (reading 'result')"
       (get_prop (Some responseData') "result") in
   let* result' := iterate_lists result smartMethod (Some smartParams) in
   ret [(smartMethod, result')])%eff.

(** The loop of [_executeMultipleQuery] for a batch size of 1. *)
Fixpoint send_singly (raiseOnError : bool)
    (multiRequests : list (string * option json)) (multiResult : result_object)
  : M SmartProtocol result_object :=
  match multiRequests with
  | [] => ret multiResult
  | (method, params) :: rest =>
      (let* req := getSmartRequest (JStr method) params in
       let* resp := send req in
       let* resp' := _handleResponseErrorCode resp method raiseOnError in
       let* result :=
         or_type_error "Cannot read properties of null (reading 'result')"
           (get_prop (Some resp') "result") in
       send_singly raiseOnError rest (set_property method result multiResult))%eff
  end.

(** The loop over the [responses] of one batch. *)
Fixpoint read_responses (raiseOnError : bool) (requests : list (string * json))
    (responses : list json) (multiResult : result_object)
  : M SmartProtocol result_object :=
  match responses with
  | [] => ret multiResult
  | response :: rest =>
      (let* method :=
         or_type_error "Cannot read properties of null (reading 'method')"
           (get_prop (Some response) "method") in
       if negb (truthy_opt method) then
         (* These will end up being queried individually *)
         modify (set_methodMissingLogged true) ;;
         read_responses raiseOnError requests rest multiResult
       else
         let key := to_string_opt method in
         let* response' := _handleResponseErrorCode response key raiseOnError in
         let* result0 :=
           or_type_error "Cannot read properties of null (reading 'result')"
             (get_prop (Some response') "result") in
         let result := or_null result0 in
         let requestParams := or_null (assoc key requests) in
         let* result' := iterate_lists result key requestParams in
         read_responses raiseOnError requests rest
           (set_property key result' multiResult))%eff
  end.

(** The loop over the batches. *)
Fixpoint send_batches (raiseOnError : bool) (requests : list (string * json))
    (count : nat) (batchNum : nat)
    (batches : list (list (string * option json))) (multiResult : result_object)
  : M SmartProtocol result_object :=
  match batches with
  | [] => ret multiResult
  | requestsStep :: rest =>
      (let smartParams :=
         JObj [("requests", JArr (map multi_request_json requestsStep))] in
       let* smartRequest :=
         getSmartRequest (JStr "multipleRequest") (Some smartParams) in
       let batchName :=
         "multi-request-batch-" +:+ pretty (Z.of_nat batchNum + 1)
         +:+ "-of-" +:+ pretty (Z.of_nat count) in
       let* responseStep := send smartRequest in
       let* responseStep' :=
         try_catch (_handleResponseErrorCode responseStep batchName true)
           (fun error =>
              (* P100 sometimes raises JSON_DECODE_FAIL_ERROR or
                 INTERNAL_UNKNOWN_ERROR on batched request so disable
                 batching *)
              let* p := get in
              if instanceof error DeviceError
                 && has_prim [SmartErrorCode "JSON_DECODE_FAIL_ERROR";
                              SmartErrorCode "INTERNAL_UNKNOWN_ERROR"]
                             (errorCode error)
                 && negb (_multiRequestBatchSize p =? 1)
              then
                modify (set_batchSize 1) ;;
                throw (new_device_error RetryableError
                         "JSON Decode failure, multi requests disabled" None)
              else throw error) in
       let* result :=
         or_type_error "Cannot read properties of null (reading 'result')"
           (get_prop (Some responseStep') "result") in
       let* responses :=
         or_type_error "Cannot read properties of undefined (reading 'responses')"
           (get_prop result "responses") in
       let* items :=
         or_type_error "responses is not iterable"
           match responses with
           | Some v => spread_elements v
           | None => None
           end in
       let* multiResult' := read_responses raiseOnError requests items multiResult in
       send_batches raiseOnError requests count (S batchNum) rest multiResult')%eff
  end.

(** The last loop: requery what is still missing, one by one. *)
Fixpoint requery_missing (raiseOnError : bool) (requests : list (string * json))
    (multiResult : result_object) : M SmartProtocol result_object :=
  match requests with
  | [] => ret multiResult
  | (method, params) :: rest =>
      (* if (!(method in multiResult)) *)
      if in_object method multiResult then
        requery_missing raiseOnError rest multiResult
      else
        (let* req := getSmartRequest (JStr method) (Some params) in
         let* resp := send req in
         let* resp' := _handleResponseErrorCode resp method raiseOnError in
         let* result :=
           or_type_error "Cannot read properties of null (reading 'result')"
             (get_prop (Some resp') "result") in
         requery_missing raiseOnError rest (set_property method result multiResult))%eff
  end.

(** [_executeMultipleQuery(requests, retryCount, iterateListPages)]. *)
Definition _executeMultipleQuery (requests : list (string * json))
  : M SmartProtocol result_object :=
  (let requestCount := Z.of_nat (List.length requests) in
   (* The SmartProtocol doesn't so will never raise_on_error *)
   let raiseOnError := requestCount =? 1 in
   let multiRequests :=
     map (fun kv => multi_request (fst kv) (snd kv))
       (List.filter
          (fun kv => negb (existsb (String.eqb (fst kv)) FORCE_SINGLE_REQUEST))
          requests) in
   (* Break the requests down as there can be a size limit *)
   let* p := get in
   let step := _multiRequestBatchSize p in
   if step =? 1 then
     (* If step is 1 do not send request batches *)
     send_singly raiseOnError multiRequests empty_object
   else
     match make_batches (List.length requests) multiRequests requestCount step 0 with
     | None => fun p' => (Diverge, p')
     | Some batches =>
         let* multiResult :=
           send_batches raiseOnError requests (List.length batches) 0 batches
             empty_object in
         (* Multi requests don't continue after errors so requery any
            missing.  Will also query individually any
            FORCE_SINGLE_REQUEST. *)
         requery_missing raiseOnError requests multiResult
     end)%eff.

(** [_executeQuery(request, { retryCount, iterateListPages })]. *)
Definition executeQuery (request : query_request) : M SmartProtocol query_result :=
  match request with
  | ReqObject [(smartMethod, smartParams)] => executeSingle smartMethod smartParams
  | ReqObject requests =>
      (let* multiResult := _executeMultipleQuery requests in
       ret (own multiResult))%eff
  | ReqString smartMethod => executeSingle smartMethod JNull
  end.

End Query.

(** [_executeQuery(request, { retryCount, iterateListPages: false })]. *)
Definition _executeQuery_no_pages : query_request -> M SmartProtocol query_result :=
  executeQuery false (fun r _ _ => ret r).

(** The [while] loop of [_handleResponseLists] on the fields of
    [responseResult]. *)
Fixpoint list_pages (fuel : nat) (method : string) (params : option json)
    (responseListName : string) (responseResult : list (string * json))
  : M SmartProtocol (list (string * json)) :=
  let items :=
    match assoc responseListName responseResult with
    | Some (JArr l) => l
    | _ => []
    end in
  let listLength := Z.of_nat (List.length items) in
  if lt_number listLength (assoc "sum" responseResult) then
    match fuel with
    | O => fun p => (Diverge, p)
    | S fuel' =>
        (let request := _getListRequest method params listLength in
         let* response := _executeQuery_no_pages (ReqObject request) in
         let nextBatch :=
           match assoc method response with
           | Some v => v
           | None => None
           end in
         let* page :=
           or_type_error "Cannot read properties of undefined"
             (get_prop nextBatch responseListName) in
         (* In case the device returns empty lists avoid infinite looping *)
         match page with
         | None => ret responseResult
         | Some v =>
             if negb (truthy v) || length_is_zero v then ret responseResult
             else
               match spread_elements v with
               | None =>
                   throw (new_error JsTypeError "Spread syntax requires an iterable")
               | Some more =>
                   list_pages fuel' method params responseListName
                     (assoc_set responseListName (JArr (items ++ more))
                        responseResult)
               end
         end)%eff
    end
  else ret responseResult.

(** [_handleResponseLists(responseResult, method, params, { retryCount })];
    it returns [responseResult], whose list it extends in place.  No value
    of this model is an instance of the class [SmartErrorCode]. *)
Definition _handleResponseLists (fuel : nat) (responseResult : json)
    (method : string) (params : option json) : M SmartProtocol json :=
  if negb (truthy responseResult) then ret responseResult
  else
    match responseResult with
    | JObj fields =>
        if negb (has_key "start_index" fields)
           || negb (truthy_opt (assoc "sum" fields))
        then ret responseResult
        else
          match find_list_name fields with
          | None => ret responseResult
          | Some responseListName =>
              (* if (!responseListName) return; *)
              if String.eqb responseListName EmptyString then ret responseResult
              else
                (let* fields' :=
                   list_pages fuel method params responseListName fields in
                 ret (JObj fields'))%eff
          end
    | JArr _ => ret responseResult
    | _ =>
        throw (new_error JsTypeError
                 "Cannot use 'in' operator to search for 'start_index'")
    end.

(** [_executeQuery(request, { retryCount, iterateListPages: true })]. *)
Definition _executeQuery (fuel : nat) : query_request -> M SmartProtocol query_result :=
  executeQuery true (_handleResponseLists fuel).

(** The [for] loop of [_query]: [left] iterations remain, which is how
    [retry <= retryCount] is counted. *)
Fixpoint query_loop (fuel : nat) (request : query_request) (retryCount : Z)
    (left : nat) (retry : Z) : M SmartProtocol query_result :=
  match left with
  | O =>
      (* make this should never be reached *)
      throw (new_error KasaException "Query reached somehow to unreachable")
  | S left' =>
      let continue := query_loop fuel request retryCount left' (retry + 1) in
      try_catch (_executeQuery fuel request) (fun error =>
        if instanceof error ConnectionError then
          if retry >=? retryCount then throw error else continue
        else if instanceof error AuthenticationError then
          (reset ;; throw error)%eff
        else if instanceof error RetryableError then
          (reset ;;
           if retry >=? retryCount then throw error
           else (sleep (BACKOFF_SECONDS_AFTER_TIMEOUT * 1000) ;; continue))%eff
        else if instanceof error TimeoutError then
          (reset ;;
           if retry >=? retryCount then throw error
           else (sleep (BACKOFF_SECONDS_AFTER_TIMEOUT * 1000) ;; continue))%eff
        else if instanceof error KasaException then
          (reset ;; throw error)%eff
        else
          (* Catch any unhandled error types *)
          (reset ;; throw error)%eff)
  end.

(** [_query(request, retryCount)]. *)
Definition _query (fuel : nat) (request : query_request) (retryCount : Z)
  : M SmartProtocol query_result :=
  query_loop fuel request retryCount (Z.to_nat (retryCount + 1)) 0.

End Protocol.

End Smart.

(** ** smartcamprotocol.js *)

Module SmartCam.
Import Js Exceptions Eff Smart.
Local Open Scope Z_scope.

(** [SmartCamProtocol._handleResponseErrorCode(respDict, method,
    { raiseOnError })], which overrides the method of [SmartProtocol].  Here
    [errorCode], the object that [fromInt] returns, is itself compared with
    [SmartErrorCode.SUCCESS] and looked up in the two sets. *)
Definition _handleResponseErrorCode (respDict : json) (method : string)
    (raiseOnError : bool) : M SmartProtocol json :=
  (let* errorCodeRaw :=
     or_type_error "Cannot read properties of null (reading 'error_code')"
       (get_prop (Some respDict) "error_code") in
   let errorCode := fromInt errorCodeRaw in
   if same_prim (Some errorCode) (SmartErrorCode "SUCCESS") then ret respDict
   else if negb raiseOnError then set_result respDict errorCode
   else
     let* p := get in
     let msg :=
       "Error querying device: " +:+ _host p +:+ ": "
       +:+ to_string_opt (assoc "name" (fields_of errorCode))
       +:+ "(" +:+ to_string_opt (assoc "value" (fields_of errorCode))
       +:+ ") for method: " +:+ method in
     if has_prim LOCAL_SMART_RETRYABLE_ERRORS (Some errorCode) then
       throw (new_device_error RetryableError msg (Some errorCode))
     else if has_prim LOCAL_SMART_AUTHENTICATION_ERRORS (Some errorCode) then
       throw (new_device_error AuthenticationError msg (Some errorCode))
     else
       throw (new_device_error DeviceError msg (Some errorCode)))%eff.

End SmartCam.

(** ** iotprotocol.js *)

Module Iot.
Import Js Exceptions Eff.
Local Open Scope Z_scope.

Definition BACKOFF_SECONDS_AFTER_TIMEOUT : Z := 1.

(** What the protocol does to its transport and to the clock. *)
Inductive event : Type :=
| Sent (request : string)
| Reset
| Sleep (ms : Z).

(** The protocol object; only the record of what it did changes. *)
Record IotProtocol : Type := mk_protocol {
  events : list event      (* oldest first *)
}.

Definition log (e : event) (p : IotProtocol) : IotProtocol :=
  mk_protocol (events p ++ [e]).

Definition is_sent (e : event) : bool :=
  match e with
  | Sent _ => true
  | _ => false
  end.

Definition sent_count (p : IotProtocol) : nat :=
  List.length (List.filter is_sent (events p)).

Section Protocol.

(** How the transport answers the [n]-th request. *)
Variable transport_send : nat -> string -> may_throw js_error json.

(** [_executeQuery(request, retryCount)]. *)
Definition _executeQuery (request : string) (retryCount : Z) : M IotProtocol json :=
  fun p =>
    let p' := log (Sent request) p in
    match transport_send (sent_count p) request with
    | Returned resp => (Ok resp, p')
    | Thrown e => (Throw e, p')
    end.

Definition reset : M IotProtocol unit := modify (log Reset).
Definition sleep (ms : Z) : M IotProtocol unit := modify (log (Sleep ms)).

(** The [for] loop of [_query]: [left] iterations remain, which is how
    [retry <= retryCount] is counted.  The chain of [else if] has no last
    [else]: an error of no listed class ends the [catch] block and the loop
    goes on. *)
Fixpoint query_loop (request : string) (retryCount : Z) (left : nat) (retry : Z)
  : M IotProtocol json :=
  match left with
  | O =>
      (* make this should never be reached *)
      throw (new_error KasaException "Query reached somehow to unreachable")
  | S left' =>
      let continue := query_loop request retryCount left' (retry + 1) in
      try_catch (_executeQuery request retry) (fun error =>
        if instanceof error ConnectionError then
          if retry >=? retryCount then throw error else continue
        else if instanceof error AuthenticationError then
          (reset ;; throw error)%eff
        else if instanceof error RetryableError then
          (reset ;;
           if retry >=? retryCount then throw error else continue)%eff
        else if instanceof error TimeoutError then
          (reset ;;
           if retry >=? retryCount then throw error
           else (sleep (BACKOFF_SECONDS_AFTER_TIMEOUT * 1000) ;; continue))%eff
        else if instanceof error KasaException then
          (reset ;; throw error)%eff
        else continue)
  end.

(** [_query(request, retryCount)]. *)
Definition _query (request : string) (retryCount : Z) : M IotProtocol json :=
  query_loop request retryCount (Z.to_nat (retryCount + 1)) 0.

End Protocol.

End Iot.

(** ** Buffers *)

Module Bytes.
Import Js Exceptions.
Local Open Scope Z_scope.

(** A [Buffer] is the list of its bytes, each in [0, 256). *)
Definition Buffer : Type := list Z.

(** A JavaScript string is written as the bytes of its generalised UTF-8:
    a well-formed string as its UTF-8 encoding, and a surrogate that has no
    partner, which UTF-8 cannot encode, as the three bytes that the scheme
    of UTF-8 gives its code unit, ED A0..BF 80..BF.  A byte string that is
    not of this form stands for no JavaScript string.  [bytes_of] and
    [string_of] pass between a byte string and the list of its bytes; they
    convert nothing. *)
Definition bytes_of (s : string) : Buffer :=
  map (fun c => Z.of_N (N_of_ascii c)) (list_ascii_of_string s).

Definition string_of (b : Buffer) : string :=
  string_of_list_ascii (map (fun z => ascii_of_N (Z.to_N z)) b).

(** U+FFFD, the replacement character, in UTF-8. *)
Definition replacement : Buffer := [239; 191; 189].

(** The bytes 80..BF, which continue a sequence. *)
Definition is_continuation (b : Z) : bool := (128 <=? b) && (b <=? 191).

(** The encoder of [Buffer.from(s, 'utf8')] writes U+FFFD for a surrogate
    that has no partner. *)
Fixpoint replace_lone_surrogates (b : Buffer) : Buffer :=
  match b with
  | [] => []
  | b0 :: rest =>
      match rest with
      | b1 :: b2 :: rest2 =>
          if (b0 =? 237) && (160 <=? b1) && (b1 <=? 191) && is_continuation b2
          then replacement ++ replace_lone_surrogates rest2
          else b0 :: replace_lone_surrogates rest
      | _ => b0 :: replace_lone_surrogates rest
      end
  end.

(** [Buffer.from(s, 'utf8')]. *)
Definition from_utf8 (s : string) : Buffer :=
  replace_lone_surrogates (bytes_of s).

(** The decoder of [buf.toString('utf8')], written on the bytes of its
    result: a well-formed sequence is kept; bytes that start or continue
    none are replaced by U+FFFD, one for each longest run that starts a
    sequence, and the byte that broke the run is read again. *)
Fixpoint decode_utf8 (b : Buffer) : Buffer :=
  match b with
  | [] => []
  | b0 :: rest =>
      if (0 <=? b0) && (b0 <=? 127) then b0 :: decode_utf8 rest
      else if (194 <=? b0) && (b0 <=? 223) then
        match rest with
        | b1 :: rest1 =>
            if is_continuation b1 then b0 :: b1 :: decode_utf8 rest1
            else replacement ++ decode_utf8 rest
        | [] => replacement
        end
      else if (224 <=? b0) && (b0 <=? 239) then
        let lower := if b0 =? 224 then 160 else 128 in
        let upper := if b0 =? 237 then 159 else 191 in
        match rest with
        | b1 :: rest1 =>
            if (lower <=? b1) && (b1 <=? upper) then
              match rest1 with
              | b2 :: rest2 =>
                  if is_continuation b2
                  then b0 :: b1 :: b2 :: decode_utf8 rest2
                  else replacement ++ decode_utf8 rest1
              | [] => replacement
              end
            else replacement ++ decode_utf8 rest
        | [] => replacement
        end
      else if (240 <=? b0) && (b0 <=? 244) then
        let lower := if b0 =? 240 then 144 else 128 in
        let upper := if b0 =? 244 then 143 else 191 in
        match rest with
        | b1 :: rest1 =>
            if (lower <=? b1) && (b1 <=? upper) then
              match rest1 with
              | b2 :: rest2 =>
                  if is_continuation b2 then
                    match rest2 with
                    | b3 :: rest3 =>
                        if is_continuation b3
                        then b0 :: b1 :: b2 :: b3 :: decode_utf8 rest3
                        else replacement ++ decode_utf8 rest2
                    | [] => replacement
                    end
                  else replacement ++ decode_utf8 rest1
              | [] => replacement
              end
            else replacement ++ decode_utf8 rest
        | [] => replacement
        end
      else replacement ++ decode_utf8 rest
  end.

(** [buf.toString('utf8')]. *)
Definition to_utf8 (b : Buffer) : string := string_of (decode_utf8 b).

(** The byte strings that are well-formed UTF-8: the strings without a
    surrogate that has no partner. *)
Fixpoint well_formed_utf8 (b : Buffer) : bool :=
  match b with
  | [] => true
  | b0 :: rest =>
      if (0 <=? b0) && (b0 <=? 127) then well_formed_utf8 rest
      else if (194 <=? b0) && (b0 <=? 223) then
        match rest with
        | b1 :: rest1 => is_continuation b1 && well_formed_utf8 rest1
        | [] => false
        end
      else if (224 <=? b0) && (b0 <=? 239) then
        let lower := if b0 =? 224 then 160 else 128 in
        let upper := if b0 =? 237 then 159 else 191 in
        match rest with
        | b1 :: b2 :: rest2 =>
            (lower <=? b1) && (b1 <=? upper) && is_continuation b2
            && well_formed_utf8 rest2
        | _ => false
        end
      else if (240 <=? b0) && (b0 <=? 244) then
        let lower := if b0 =? 240 then 144 else 128 in
        let upper := if b0 =? 244 then 143 else 191 in
        match rest with
        | b1 :: b2 :: b3 :: rest3 =>
            (lower <=? b1) && (b1 <=? upper) && is_continuation b2
            && is_continuation b3 && well_formed_utf8 rest3
        | _ => false
        end
      else false
  end.

Definition well_formed (s : string) : bool := well_formed_utf8 (bytes_of s).

(** [Buffer.from(array)]: each element is taken [& 255]. *)
Definition from_array (a : list Z) : Buffer :=
  map (fun x => Z.land x 255) a.

(** The four bytes of a 32-bit word, most significant first. *)
Definition be32 (w : Z) : Buffer :=
  [ Z.land (Z.shiftr w 24) 255;
    Z.land (Z.shiftr w 16) 255;
    Z.land (Z.shiftr w 8) 255;
    Z.land w 255 ].

Definition out_of_range : js_error :=
  new_error JsRangeError "The value of value is out of range.".

(** [buf.writeUInt32BE(n, 0)] on a fresh buffer of 4 bytes. *)
Definition writeUInt32BE (n : Z) : may_throw js_error Buffer :=
  if (0 <=? n) && (n <=? 4294967295) then Returned (be32 n)
  else Thrown out_of_range.

(** [buf.writeInt32BE(n, 0)] on a fresh buffer of 4 bytes: two's
    complement. *)
Definition writeInt32BE (n : Z) : may_throw js_error Buffer :=
  if (-2147483648 <=? n) && (n <=? 2147483647)
  then Returned (be32 (n mod 4294967296))
  else Thrown out_of_range.

(** [buf.readUInt32BE(0)] and [buf.readInt32BE(0)]; a buffer of fewer than
    4 bytes is a [RangeError]. *)
Definition readUInt32BE (b : Buffer) : may_throw js_error Z :=
  match b with
  | b0 :: b1 :: b2 :: b3 :: _ =>
      Returned (b0 * 16777216 + b1 * 65536 + b2 * 256 + b3)
  | _ => Thrown out_of_range
  end.

Definition readInt32BE (b : Buffer) : may_throw js_error Z :=
  match readUInt32BE b with
  | Returned u => Returned (if u >=? 2147483648 then u - 4294967296 else u)
  | Thrown e => Thrown e
  end.

(** [buf.slice(-n)]: the last [n] bytes, or all of them. *)
Definition last_bytes (n : nat) (b : Buffer) : Buffer :=
  skipn (List.length b - n) b.

End Bytes.

(** ** xortransport.js: [XorEncryption] *)

Module XorEncryption.
Import Js Exceptions Bytes.
Local Open Scope Z_scope.

Definition INITIALIZATION_VECTOR : Z := 171.

(** The generator [_xorPayload], from a given value of [key]. *)
Fixpoint xorPayload_from (key : Z) (unencrypted : Buffer) : list Z :=
  match unencrypted with
  | [] => []
  | unencryptedByte :: rest =>
      let key := Z.lxor key unencryptedByte in
      key :: xorPayload_from key rest
  end.

Definition _xorPayload (unencrypted : Buffer) : list Z :=
  xorPayload_from INITIALIZATION_VECTOR unencrypted.

(** [encrypt(request)]. *)
Definition encrypt (request : string) : may_throw js_error Buffer :=
  let plainBytes := from_utf8 request in
  match writeUInt32BE (Z.of_nat (List.length plainBytes)) with
  | Thrown e => Thrown e
  | Returned lengthBuffer =>
      let encryptedBytes := from_array (_xorPayload plainBytes) in
      Returned (lengthBuffer ++ encryptedBytes)
  end.

(** The generator [_xorEncryptedPayload], from a given value of [key]. *)
Fixpoint xorEncryptedPayload_from (key : Z) (ciphertext : Buffer) : list Z :=
  match ciphertext with
  | [] => []
  | cipherByte :: rest =>
      let plainByte := Z.lxor key cipherByte in
      plainByte :: xorEncryptedPayload_from cipherByte rest
  end.

Definition _xorEncryptedPayload (ciphertext : Buffer) : list Z :=
  xorEncryptedPayload_from INITIALIZATION_VECTOR ciphertext.

(** [decrypt(ciphertext)]. *)
Definition decrypt (ciphertext : Buffer) : string :=
  let decryptedBytes := from_array (_xorEncryptedPayload ciphertext) in
  to_utf8 decryptedBytes.

End XorEncryption.

(** ** klaptransport.js: [KlapEncryptionSession] *)

Module Klap.
Import Js Exceptions Bytes.
Local Open Scope Z_scope.

Record KlapEncryptionSession : Type := mk_session {
  localSeed : Buffer;
  remoteSeed : Buffer;
  userHash : Buffer;
  _key : Buffer;
  _iv : Buffer;
  _seq : Z;
  _sig : Buffer
}.

Definition set_seq (n : Z) (s : KlapEncryptionSession) : KlapEncryptionSession :=
  mk_session (localSeed s) (remoteSeed s) (userHash s) (_key s) (_iv s) n (_sig s).

(** The argument of [encrypt]: a string or a buffer. *)
Inductive message : Type :=
| MsgString (s : string)
| MsgBuffer (b : Buffer).

(** [const packSignedLong = (num) => ...]. *)
Definition packSignedLong (num : Z) : may_throw js_error Buffer :=
  writeInt32BE num.

(** [Buffer.alloc(paddingLength, paddingLength)] after the message. *)
Definition pkcs7_pad (msg : Buffer) : Buffer :=
  let blockSize := 16 in
  let paddingLength := blockSize - (Z.of_nat (List.length msg) mod blockSize) in
  msg ++ repeat paddingLength (Z.to_nat paddingLength).

(** The end of [decrypt]: remove a valid PKCS7 padding, else return the
    bytes as they are. *)
Definition pkcs7_unpad (dp : Buffer) : Buffer :=
  match dp with
  | [] => []
  | _ =>
      let len := Z.of_nat (List.length dp) in
      let paddingLength := List.last dp 0 in
      if (0 <? paddingLength) && (paddingLength <=? 16) && (paddingLength <=? len)
      then
        if forallb (Z.eqb paddingLength) (skipn (Z.to_nat (len - paddingLength)) dp)
        then firstn (Z.to_nat (len - paddingLength)) dp
        else dp
      else dp
  end.

Section Session.

(** Taken as given: SHA-256, and AES-128-CBC as [createCipheriv] and
    [createDecipheriv] with [update] and [final] perform it. *)
Variable sha256 : Buffer -> Buffer.
Variable aes_128_cbc_encrypt : Buffer -> Buffer -> Buffer -> Buffer.
Variable aes_128_cbc_decrypt : Buffer -> Buffer -> Buffer -> may_throw js_error Buffer.

(** [_keyDerive], [_ivDerive] and [_sigDerive]. *)
Definition _keyDerive (localSeed remoteSeed userHash : Buffer) : Buffer :=
  let payload := from_utf8 "lsk" ++ localSeed ++ remoteSeed ++ userHash in
  firstn 16 (sha256 payload).

Definition _ivDerive (localSeed remoteSeed userHash : Buffer)
  : may_throw js_error (Buffer * Z) :=
  let payload := from_utf8 "iv" ++ localSeed ++ remoteSeed ++ userHash in
  let fullIv := sha256 payload in
  match readInt32BE (last_bytes 4 fullIv) with
  | Returned seq => Returned (firstn 12 fullIv, seq)
  | Thrown e => Thrown e
  end.

Definition _sigDerive (localSeed remoteSeed userHash : Buffer) : Buffer :=
  let payload := from_utf8 "ldk" ++ localSeed ++ remoteSeed ++ userHash in
  firstn 28 (sha256 payload).

(** The constructor. *)
Definition new_session (localSeed remoteSeed userHash : Buffer)
  : may_throw js_error KlapEncryptionSession :=
  match _ivDerive localSeed remoteSeed userHash with
  | Returned (iv, seq) =>
      Returned (mk_session localSeed remoteSeed userHash
                  (_keyDerive localSeed remoteSeed userHash) iv seq
                  (_sigDerive localSeed remoteSeed userHash))
  | Thrown e => Thrown e
  end.

(** [_generateCipher()] and [_generateDecipher()]: the key and the
    initialisation vector that the cipher object is made with. *)
Definition _generateCipher (s : KlapEncryptionSession)
  : may_throw js_error (Buffer * Buffer) :=
  match packSignedLong (_seq s) with
  | Returned seqBytes => Returned (_key s, _iv s ++ seqBytes)
  | Thrown e => Thrown e
  end.

Definition _generateDecipher (s : KlapEncryptionSession)
  : may_throw js_error (Buffer * Buffer) :=
  _generateCipher s.

(** [encrypt(msg)]: what it returns or throws, and the session after. *)
Definition encrypt (s : KlapEncryptionSession) (msg : message)
  : may_throw js_error (Buffer * Z) * KlapEncryptionSession :=
  let s := set_seq (_seq s + 1) s in
  match _generateCipher s with
  | Thrown e => (Thrown e, s)
  | Returned (key, ivSeq) =>
      let msg :=
        match msg with
        | MsgString str => from_utf8 str
        | MsgBuffer b => b
        end in
      let paddedData := pkcs7_pad msg in
      let ciphertext := aes_128_cbc_encrypt key ivSeq paddedData in
      match packSignedLong (_seq s) with
      | Thrown e => (Thrown e, s)
      | Returned seqBytes =>
          let signature := sha256 (_sig s ++ seqBytes ++ ciphertext) in
          (Returned (signature ++ ciphertext, _seq s), s)
      end
  end.

(** [decrypt(msg)]. *)
Definition decrypt (s : KlapEncryptionSession) (msg : Buffer)
  : may_throw js_error string * KlapEncryptionSession :=
  match _generateDecipher s with
  | Thrown e => (Thrown e, s)
  | Returned (key, ivSeq) =>
      match aes_128_cbc_decrypt key ivSeq (skipn 32 msg) with
      | Thrown e => (Thrown e, s)
      | Returned dp => (Returned (to_utf8 (pkcs7_unpad dp)), s)
      end
  end.

(** [n] calls of [encrypt], one per message. *)
Fixpoint encrypt_all (s : KlapEncryptionSession) (msgs : list message)
  : KlapEncryptionSession :=
  match msgs with
  | [] => s
  | m :: rest => encrypt_all (snd (encrypt s m)) rest
  end.

End Session.

End Klap.

(** ** discover.js: [_DiscoverProtocol] *)

Module Discover.
Import Js Exceptions Bytes.
Local Open Scope Z_scope.

(** [haystack.includes(needle)]. *)
Fixpoint includes (needle haystack : string) : bool :=
  String.prefix needle haystack ||
  match haystack with
  | EmptyString => false
  | String _ rest => includes needle rest
  end.

(** A datagram and the [rinfo] it arrives with. *)
Record datagram : Type := mk_datagram {
  data : Buffer;
  address : string;
  port : Z
}.

Record DeviceConfig : Type := mk_config {
  host : string;
  portOverride : option Z;
  credentials : option (string * string);
  timeout : option Z
}.

(** [DeviceConfig.DEFAULT_TIMEOUT]. *)
Definition DEFAULT_TIMEOUT : Z := 5.

(** Which of the two parsers read the datagram, and so which of
    [_getDeviceInstanceLegacy] and [_getDeviceInstance] makes the device. *)
Inductive device_func : Type :=
| DeviceInstanceLegacy
| DeviceInstance.

(** A callback that the caller of the discovery has given.  What it does
    is its own business; for the protocol, a call of it returns or throws.
    A value that is not a function throws a [TypeError] when called. *)
Definition callback (A : Type) : Type := A -> may_throw js_error unit.

(** [new DiscoveredRaw(new DiscoveredMeta(ip, port), info)]. *)
Record DiscoveredRaw : Type := mk_raw {
  meta_ip : string;
  meta_port : Z;
  discoveryResponse : json
}.

Section Protocol.

(** The device objects that [connect] or a device class builds. *)
Variable Device : Type.

(** [JSON.parse]: the value, or the message of the [SyntaxError]. *)
Variable JSON_parse : string -> may_throw string json.

(** An entry of [discoveredDevices]: a device, or one of the two
    stand-ins that [datagramReceived] builds itself ([info] is what the
    alias, model and type of the second are read from). *)
Inductive discovered : Type :=
| Found (device : Device)
| RequiresAuth (config : DeviceConfig)
| ConnectionTimeout (info : json) (config : DeviceConfig).

(** What the protocol emits and which callbacks it calls. *)
Inductive emitted : Type :=
| Complete
| OnDiscoveredRaw (ip : string) (port : Z) (info : json)
| OnDiscovered (device : Device)
| OnUnsupported (error : js_error).

(** A call of [datagramReceived] that waits at [await deviceFunc(info,
    config)]. *)
Record waiting : Type := mk_waiting {
  w_func : device_func;
  w_info : json;
  w_config : DeviceConfig
}.

Record DiscoverProtocol : Type := mk_protocol {
  target : string;
  p_port : option Z;
  p_credentials : option (string * string);
  p_timeout : option Z;
  onDiscovered : option (callback Device);      (* [None] is [null] *)
  onDiscoveredRaw : option (callback DiscoveredRaw);
  onUnsupported : option (callback js_error);
  seenHosts : gset string;
  discoveredDevices : gmap string discovered;
  unsupportedDeviceExceptions : gmap string js_error;
  invalidDeviceExceptions : gmap string js_error;
  targetDiscovered : bool;
  suspended : gmap string waiting;
  emits : list emitted        (* oldest first *)
}.

(** The constructor, with the default [target]. *)
Definition new_DiscoverProtocol (target : option string) (port : option Z)
    (credentials : option (string * string)) (timeout : option Z)
    (onDiscovered : option (callback Device))
    (onDiscoveredRaw : option (callback DiscoveredRaw))
    (onUnsupported : option (callback js_error)) : DiscoverProtocol :=
  mk_protocol
    match target with Some t => t | None => "255.255.255.255" end
    port credentials timeout onDiscovered onDiscoveredRaw onUnsupported
    ∅ ∅ ∅ ∅ false ∅ [].

Definition set_seenHosts (v : gset string) (p : DiscoverProtocol) :=
  mk_protocol (target p) (p_port p) (p_credentials p) (p_timeout p)
    (onDiscovered p) (onDiscoveredRaw p) (onUnsupported p) v
    (discoveredDevices p) (unsupportedDeviceExceptions p)
    (invalidDeviceExceptions p) (targetDiscovered p) (suspended p) (emits p).

Definition set_discoveredDevices (v : gmap string discovered) (p : DiscoverProtocol) :=
  mk_protocol (target p) (p_port p) (p_credentials p) (p_timeout p)
    (onDiscovered p) (onDiscoveredRaw p) (onUnsupported p) (seenHosts p) v
    (unsupportedDeviceExceptions p) (invalidDeviceExceptions p)
    (targetDiscovered p) (suspended p) (emits p).

Definition set_unsupported (v : gmap string js_error) (p : DiscoverProtocol) :=
  mk_protocol (target p) (p_port p) (p_credentials p) (p_timeout p)
    (onDiscovered p) (onDiscoveredRaw p) (onUnsupported p) (seenHosts p)
    (discoveredDevices p) v (invalidDeviceExceptions p)
    (targetDiscovered p) (suspended p) (emits p).

Definition set_invalid (v : gmap string js_error) (p : DiscoverProtocol) :=
  mk_protocol (target p) (p_port p) (p_credentials p) (p_timeout p)
    (onDiscovered p) (onDiscoveredRaw p) (onUnsupported p) (seenHosts p)
    (discoveredDevices p) (unsupportedDeviceExceptions p) v
    (targetDiscovered p) (suspended p) (emits p).

Definition set_targetDiscovered (v : bool) (p : DiscoverProtocol) :=
  mk_protocol (target p) (p_port p) (p_credentials p) (p_timeout p)
    (onDiscovered p) (onDiscoveredRaw p) (onUnsupported p) (seenHosts p)
    (discoveredDevices p) (unsupportedDeviceExceptions p)
    (invalidDeviceExceptions p) v (suspended p) (emits p).

Definition set_suspended (v : gmap string waiting) (p : DiscoverProtocol) :=
  mk_protocol (target p) (p_port p) (p_credentials p) (p_timeout p)
    (onDiscovered p) (onDiscoveredRaw p) (onUnsupported p) (seenHosts p)
    (discoveredDevices p) (unsupportedDeviceExceptions p)
    (invalidDeviceExceptions p) (targetDiscovered p) v (emits p).

Definition emit (e : emitted) (p : DiscoverProtocol) :=
  mk_protocol (target p) (p_port p) (p_credentials p) (p_timeout p)
    (onDiscovered p) (onDiscoveredRaw p) (onUnsupported p) (seenHosts p)
    (discoveredDevices p) (unsupportedDeviceExceptions p)
    (invalidDeviceExceptions p) (targetDiscovered p) (suspended p)
    (emits p ++ [e]).

(** [Discover._getDiscoveryJsonLegacy(data, ip)]; [None] when it throws its
    [KasaException]. *)
Definition _getDiscoveryJsonLegacy (data : Buffer) : option json :=
  let decryptedString := XorEncryption.decrypt data in
  match JSON_parse decryptedString with
  | Returned info => Some info
  | Thrown _ => None
  end.

(** [Discover._getDiscoveryJson(data, ip)]; [None] when it throws its
    [KasaException], which it also does when the body is [null]. *)
Definition _getDiscoveryJson (data : Buffer) : option json :=
  match JSON_parse (to_utf8 (skipn 16 data)) with
  | Returned info =>
      match get_prop (Some info) "result" with
      | Some result =>
          match result with
          | Some r => if truthy r then Some r else Some info
          | None => Some info
          end
      | None => None
      end
  | Thrown _ => None
  end.

(** [_handleDiscoveredEvent()]. *)
Definition _handleDiscoveredEvent (p : DiscoverProtocol) : DiscoverProtocol :=
  if decide (target p ∈ seenHosts p)
  then emit Complete (set_targetDiscovered true p)
  else p.

(** Whether building the stand-in of the timeout branch throws:
    [info.device_type.toLowerCase()] is a [TypeError] when [device_type]
    is truthy and not a string.  Nothing else in that branch throws: the
    decoding of the nickname has a [try] of its own. *)
Definition timeout_device_throws (info : json) : bool :=
  truthy info &&
  match get_prop (Some info) "device_type" with
  | Some (Some (JStr _)) => false
  | Some (Some v) => truthy v
  | _ => false
  end.

(** The [catch] block of [datagramReceived] for host [ip], entered with
    [error].  An error that the block throws, or throws again, rejects
    the promise of [datagramReceived]; the listener that called it drops
    the rejection, and so the protocol stays as the block left it. *)
Definition caught (ip : string) (info : json) (config : DeviceConfig)
    (error : js_error) (p : DiscoverProtocol) : DiscoverProtocol :=
  if instanceof error UnsupportedDeviceError then
    let p := set_unsupported (<[ ip := error ]> (unsupportedDeviceExceptions p)) p in
    match onUnsupported p with
    | Some callback =>
        let p := emit (OnUnsupported error) p in
        match callback error with
        | Returned _ => _handleDiscoveredEvent p
        | Thrown _ => p
        end
    | None => _handleDiscoveredEvent p
    end
  else if exn_class_eqb (cls error) AuthenticationError then
    (* error.name === 'AuthenticationError' *)
    let p :=
      set_discoveredDevices
        (<[ ip := RequiresAuth config ]> (discoveredDevices p)) p in
    _handleDiscoveredEvent p
  else if includes "timeout" (message error) then
    (* For timeout errors, create a basic device with discovery info if
       available *)
    if timeout_device_throws info then p
    else
      let p :=
        set_discoveredDevices
          (<[ ip := ConnectionTimeout info config ]> (discoveredDevices p)) p in
      _handleDiscoveredEvent p
  else if instanceof error KasaException then
    let p := set_invalid (<[ ip := error ]> (invalidDeviceExceptions p)) p in
    _handleDiscoveredEvent p
  else
    (* throw error *)
    p.

(** [datagramReceived(data, rinfo)] up to [await deviceFunc(info, config)]:
    the call returns at once for a host already seen and for a datagram that
    neither parser reads; an error thrown by [onDiscoveredRaw] goes to the
    [catch] block; otherwise the call waits for the device.  [address] is
    the address of the sender as the socket reports it. *)
Definition datagramReceived (d : datagram) (p : DiscoverProtocol) : DiscoverProtocol :=
  let ip := address d in
  (* Prevent multiple entries due to multiple broadcasts *)
  if decide (ip ∈ seenHosts p) then p
  else
    let p := set_seenHosts ({[ ip ]} ∪ seenHosts p) p in
    let config :=
      mk_config ip (p_port p) (p_credentials p)
        match p_timeout p with
        | Some t => if t =? 0 then Some DEFAULT_TIMEOUT else Some t
        | None => Some DEFAULT_TIMEOUT
        end in
    let parsed :=
      match _getDiscoveryJsonLegacy (data d) with
      | Some info => Some (info, DeviceInstanceLegacy)
      | None =>
          match _getDiscoveryJson (data d) with
          | Some info => Some (info, DeviceInstance)
          | None => None
          end
      end in
    match parsed with
    | None => p
    | Some (info, deviceFunc) =>
        let wait (p : DiscoverProtocol) :=
          set_suspended
            (<[ ip := mk_waiting deviceFunc info config ]> (suspended p)) p in
        match onDiscoveredRaw p with
        | Some callback =>
            let p := emit (OnDiscoveredRaw ip (port d) info) p in
            match callback (mk_raw ip (port d) info) with
            | Returned _ => wait p
            | Thrown error => caught ip info config error p
            end
        | None => wait p
        end
    end.

(** The rest of [datagramReceived] for host [ip], once [deviceFunc(info,
    config)] has settled with [outcome].  An error thrown by [onDiscovered]
    rejects the promise of [datagramReceived] before
    [_handleDiscoveredEvent] is reached. *)
Definition deviceSettled (ip : string) (outcome : may_throw js_error Device)
    (p : DiscoverProtocol) : DiscoverProtocol :=
  match suspended p !! ip with
  | None => p
  | Some w =>
      let p := set_suspended (delete ip (suspended p)) p in
      match outcome with
      | Returned device =>
          let p := set_discoveredDevices (<[ ip := Found device ]> (discoveredDevices p)) p in
          match onDiscovered p with
          | Some callback =>
              let p := emit (OnDiscovered device) p in
              match callback device with
              | Returned _ => _handleDiscoveredEvent p
              | Thrown _ => p
              end
          | None => _handleDiscoveredEvent p
          end
      | Thrown error => caught ip (w_info w) (w_config w) error p
      end
  end.

(** What happens to the protocol, in order: a datagram arrives, or the
    device of a host settles. *)
Inductive happening : Type :=
| Datagram (d : datagram)
| Settled (ip : string) (outcome : may_throw js_error Device).

Definition happen (h : happening) (p : DiscoverProtocol) : DiscoverProtocol :=
  match h with
  | Datagram d => datagramReceived d p
  | Settled ip outcome => deviceSettled ip outcome p
  end.

Definition run (hs : list happening) (p : DiscoverProtocol) : DiscoverProtocol :=
  fold_left (fun p h => happen h p) hs p.

End Protocol.

Arguments Found {Device} device.
Arguments RequiresAuth {Device} config.
Arguments ConnectionTimeout {Device} info config.
Arguments Complete {Device}.
Arguments OnDiscoveredRaw {Device} ip port info.
Arguments OnDiscovered {Device} device.
Arguments OnUnsupported {Device} error.
Arguments Datagram {Device} d.
Arguments Settled {Device} ip outcome.
Arguments target {Device} d.
Arguments p_port {Device} d.
Arguments p_credentials {Device} d.
Arguments p_timeout {Device} d.
Arguments onDiscovered {Device} d.
Arguments onDiscoveredRaw {Device} d.
Arguments onUnsupported {Device} d.
Arguments set_seenHosts {Device} v p.
Arguments set_discoveredDevices {Device} v p.
Arguments set_unsupported {Device} v p.
Arguments set_invalid {Device} v p.
Arguments set_targetDiscovered {Device} v p.
Arguments set_suspended {Device} v p.
Arguments emit {Device} e p.
Arguments seenHosts {Device} d.
Arguments discoveredDevices {Device} d.
Arguments unsupportedDeviceExceptions {Device} d.
Arguments invalidDeviceExceptions {Device} d.
Arguments targetDiscovered {Device} d.
Arguments suspended {Device} d.
Arguments emits {Device} d.
Arguments _handleDiscoveredEvent {Device} p.
Arguments caught {Device} ip info config error p.
Arguments datagramReceived {Device} JSON_parse d p.
Arguments deviceSettled {Device} ip outcome p.
Arguments happen {Device} JSON_parse h p.
Arguments run {Device} JSON_parse hs p.

End Discover.

(** ** Scenarios: concrete devices for the examples *)

Module Scenario.
Import Js Exceptions.
Local Open Scope Z_scope.

(** A transport whose first attempt throws a [RetryableError] and whose
    later attempts return [null]. *)
Definition retryable_once (n : nat) (request : string) : may_throw js_error json :=
  match n with
  | O => Thrown (new_device_error RetryableError "device busy" None)
  | S _ => Returned JNull
  end.

(** A transport whose every attempt throws the same error. *)
Definition always_throws (e : js_error) (n : nat) (request : string)
  : may_throw js_error json :=
  Thrown e.

(** A transport that answers every request with the same response. *)
Definition always_returns (response : json) (n : nat) (request : string)
  : may_throw js_error json :=
  Returned response.

(** The double quote and the backslash. *)
Definition dq : string := String (ascii_of_nat 34) EmptyString.
Definition bs : string := String (ascii_of_nat 92) EmptyString.

Definition hex_digit (n : nat) : string :=
  String.substring n 1 "0123456789abcdef".

(** [JSON.stringify] of a string: quoted, with the escapes of the
    standard. *)
Fixpoint escape (s : string) : string :=
  match s with
  | EmptyString => EmptyString
  | String c rest =>
      let n := nat_of_ascii c in
      (if Nat.eqb n 34 then bs +:+ dq
       else if Nat.eqb n 92 then bs +:+ bs
       else if Nat.eqb n 8 then bs +:+ "b"
       else if Nat.eqb n 9 then bs +:+ "t"
       else if Nat.eqb n 10 then bs +:+ "n"
       else if Nat.eqb n 12 then bs +:+ "f"
       else if Nat.eqb n 13 then bs +:+ "r"
       else if Nat.ltb n 32 then
         bs +:+ "u00" +:+ hex_digit (Nat.div n 16) +:+ hex_digit (Nat.modulo n 16)
       else String c EmptyString)
      +:+ escape rest
  end.

Definition quoted (s : string) : string := dq +:+ escape s +:+ dq.

(** [JSON.stringify] of plain data, without indentation. *)
Fixpoint stringify (j : json) : string :=
  match j with
  | JNull => "null"
  | JBool true => "true"
  | JBool false => "false"
  | JNum n => pretty n
  | JStr s => quoted s
  | JArr items =>
      "[" +:+
      (fix join (l : list json) : string :=
         match l with
         | [] => EmptyString
         | x :: rest =>
             match rest with
             | [] => stringify x
             | _ :: _ => stringify x +:+ "," +:+ join rest
             end
         end) items
      +:+ "]"
  | JObj fields =>
      "{" +:+
      (fix join (l : list (string * json)) : string :=
         match l with
         | [] => EmptyString
         | (k, v) :: rest =>
             match rest with
             | [] => quoted k +:+ ":" +:+ stringify v
             | _ :: _ => quoted k +:+ ":" +:+ stringify v +:+ "," +:+ join rest
             end
         end) fields
      +:+ "}"
  end.

(** A clock that stands still. *)
Definition fixed_clock (n : nat) : Z := 1700000000000.

(** The conversion of a string of decimal digits to a number; the
    scenarios hold no string where a number is expected. *)
Fixpoint decimal (acc : Z) (s : string) : option Z :=
  match s with
  | EmptyString => Some acc
  | String c rest =>
      let n := Z.of_nat (nat_of_ascii c) in
      if (48 <=? n) && (n <=? 57) then decimal (acc * 10 + (n - 48)) rest
      else None
  end.

Definition decimal_to_number (s : string) : option Z := decimal 0 s.

(** [JSON.parse] on the texts that the scenarios hand to it: the empty
    text is not JSON, and [null] is. *)
Definition parse_null_only (s : string) : may_throw string json :=
  if String.eqb s "null" then Returned JNull
  else if String.eqb s EmptyString then Thrown "Unexpected end of JSON input"
  else Thrown "Unexpected token".

(** The text of a discovery info whose [device_type] is the number 5, and
    [JSON.parse] on the texts of the scenario that hands it this one. *)
Definition typed_info_text : string :=
  let quote := String (Ascii.ascii_of_nat 34) EmptyString in
  "{" +:+ quote +:+ "device_type" +:+ quote +:+ ":5}".

Definition parse_typed_info (s : string) : may_throw string json :=
  if String.eqb s typed_info_text
  then Returned (JObj [("device_type", JNum 5)])
  else Thrown "Unexpected token".

End Scenario.

(** *** Scenarios of the Smart protocol *)

Module SmartScenario.
Import Js Exceptions Smart.
Local Open Scope Z_scope.

(** A query for two methods on a fresh protocol, to a device that answers
    every request with the error code [code] and nothing else. *)
Definition batch_error_query (code : Z)
  : result js_error query_result * SmartProtocol :=
  Smart._query Scenario.stringify Scenario.decimal_to_number
    Scenario.fixed_clock
    (Scenario.always_returns (JObj [("error_code", JNum code)]))
    0 (ReqObject [("get_device_info", JNull); ("get_device_time", JNull)])
    3 (new_SmartProtocol "192.168.0.10" "uuid" None).

(** A device that ignores [start_index]: it answers every request with the
    first two entries of a list of three. *)
Definition first_page : json :=
  JObj [("start_index", JNum 0); ("sum", JNum 3);
        ("rule_list", JArr [JStr "a"; JStr "b"])].

Definition first_page_again : nat -> string -> may_throw js_error json :=
  Scenario.always_returns
    (JObj [("error_code", JNum 0); ("result", first_page)]).

(** [_handleResponseLists] on the first answer of that device. *)
Definition paging_of_first_page : result js_error json * SmartProtocol :=
  Smart._handleResponseLists Scenario.stringify Scenario.decimal_to_number
    Scenario.fixed_clock first_page_again
    3 first_page "get_rules" None
    (new_SmartProtocol "192.168.0.10" "uuid" None).

(** A device that holds the three entries [a], [b], [c] and pages by two:
    its first answer is [first_page], and it answers a request with the
    third entry. *)
Definition last_page_next : nat -> string -> may_throw js_error json :=
  Scenario.always_returns
    (JObj [("error_code", JNum 0);
           ("result",
            JObj [("start_index", JNum 2); ("sum", JNum 3);
                  ("rule_list", JArr [JStr "c"])])]).

(** A device that answers a request with an empty page. *)
Definition empty_page_next : nat -> string -> may_throw js_error json :=
  Scenario.always_returns
    (JObj [("error_code", JNum 0);
           ("result",
            JObj [("start_index", JNum 2); ("sum", JNum 3);
                  ("rule_list", JArr [])])]).

(** [_handleResponseLists] on [first_page] with a given device. *)
Definition paging_with (device : nat -> string -> may_throw js_error json)
  : result js_error json * SmartProtocol :=
  Smart._handleResponseLists Scenario.stringify Scenario.decimal_to_number
    Scenario.fixed_clock device 3 first_page "get_rules" None
    (new_SmartProtocol "192.168.0.10" "uuid" None).

End SmartScenario.

(** ** Notions used to state the properties *)

Module Notions.
Import Js Exceptions Eff.
Local Open Scope Z_scope.

(** A byte, and a number that fits a signed 32-bit word. *)
Definition is_byte (b : Z) : Prop := 0 <= b < 256.

Definition in_int32 (n : Z) : Prop := -2147483648 <= n <= 2147483647.

(** A library error that is of none of the four classes that the retry
    loops name. *)
Definition other_library_error (e : js_error) : Prop :=
  cls e = KasaException \/ cls e = UnsupportedDeviceError \/ cls e = DeviceError.

(** An error that is no instance of [KasaException]. *)
Definition not_of_the_library (e : js_error) : Prop :=
  instanceof e KasaException = false.

(** A method of the Smart protocol that leaves [_multiRequestBatchSize] as
    it found it, however it ends. *)
Definition keeps_batch_size {A : Type} (m : M Smart.SmartProtocol A) : Prop :=
  forall p,
    Smart._multiRequestBatchSize (snd (m p)) = Smart._multiRequestBatchSize p.

Section AesDevice.

Variable session : Type.
Variable keypair : Type.
Variable jsonLoads : string -> may_throw string json.
Variable network : nat -> Http.request -> Http.settled.

(** The requests that a transport has made. *)
Definition requests_made (t : Aes.AesTransport session keypair)
  : list Http.request :=
  Http.sent (Aes._httpClient session keypair t).

(** A device that answers the next request, whatever it is, with HTTP 200
    and a JSON object. *)
Definition answers_with (t : Aes.AesTransport session keypair)
    (fields : list (string * json)) : Prop :=
  exists body cookies,
    (forall rq, network (List.length (requests_made t)) rq
                = Http.Response 200 body cookies)
    /\ jsonLoads body = Returned (JObj fields).

End AesDevice.

Arguments requests_made {session keypair} t.
Arguments answers_with {session keypair} jsonLoads network t fields.

Section SmartPages.

Variable JSON_stringify : json -> string.
Variable Date_now : nat -> Z.
Variable transport_send : nat -> string -> may_throw js_error json.

(** The text of the request for the page that starts at [startIndex], as
    protocol [p] writes it. *)
Definition page_request (p : Smart.SmartProtocol) (method : string)
    (startIndex : Z) : string :=
  JSON_stringify
    (JObj [("method", JStr method);
           ("request_time_milis", JNum (Date_now (Smart.sent_count p)));
           ("terminal_uuid", JStr (Smart._terminalUuid p));
           ("params", JObj [("start_index", JNum startIndex)])]).

(** The list [result[name]] of a response, as the loop of
    [_handleResponseLists] reads it; the outer [None] is a [TypeError]. *)
Definition page_of (name : string) (response : json) : option (option json) :=
  match get_prop (Some response) "result" with
  | Some result => get_prop result name
  | None => None
  end.

(** A response whose page is missing, falsy or of length zero. *)
Definition empty_page (name : string) (response : json) : Prop :=
  match page_of name response with
  | Some None => True
  | Some (Some v) => negb (truthy v) || Smart.length_is_zero v = true
  | None => False
  end.

(** The last thing that [p] did was to send a request, and the device
    answered it with an empty page. *)
Definition stopped_by_empty_page (name : string) (p : Smart.SmartProtocol) : Prop :=
  exists before request response,
    Smart.events p = before ++ [Smart.Sent request]
    /\ transport_send (Nat.pred (Smart.sent_count p)) request = Returned response
    /\ empty_page name response.

(** The rounds of the loop of [_handleResponseLists] that append a page.
    [paged name method N p l pages p'] reads: from the protocol [p] and the
    list [l], the loop runs one round for each entry of [pages], and leaves
    the protocol [p'].  A round starts with a list shorter than [N]; it
    sends the request for the page at [start_index] equal to the length of
    the list; the device answers with a response that
    [_handleResponseErrorCode] accepts and that holds the page [v] under
    [result[name]]; [v] is not empty, and its elements, all of them, are
    appended to the list. *)
Inductive paged (name method : string) (N : Z)
  : Smart.SmartProtocol -> list json -> list (list json)
    -> Smart.SmartProtocol -> Prop :=
| paged_nil (p : Smart.SmartProtocol) (l : list json) :
    paged name method N p l [] p
| paged_cons (p : Smart.SmartProtocol) (l : list json) (response v : json)
    (page : list json) (pages : list (list json)) (p' : Smart.SmartProtocol) :
    Z.of_nat (List.length l) < N ->
    transport_send (Smart.sent_count p)
      (page_request p method (Z.of_nat (List.length l))) = Returned response ->
    fst (Smart._handleResponseErrorCode response method true
           (Smart.log
              (Smart.Sent (page_request p method (Z.of_nat (List.length l)))) p))
    = Ok response ->
    page_of name response = Some (Some v) ->
    negb (truthy v) || Smart.length_is_zero v = false ->
    Smart.spread_elements v = Some page ->
    paged name method N
      (Smart.log (Smart.Sent (page_request p method (Z.of_nat (List.length l)))) p)
      (l ++ page) pages p' ->
    paged name method N p l (page :: pages) p'.

(** How a run of the loop of [_handleResponseLists] on the list [l], the
    total [N] and the protocol [p] ends when it returns: the loop has run
    the rounds of some [pages], the list is [l] followed by these pages in
    their order, nothing else has changed, and either the list holds at
    least [N] entries and nothing more was sent, or it holds fewer, one more
    request was sent, for the page at the length of the list, and the device
    answered it with an empty page. *)
Definition pages_end (name method : string) (N : Z) (l : list json)
    (before after : list (string * json)) (p p' : Smart.SmartProtocol) : Prop :=
  exists (pages : list (list json)) (p_last : Smart.SmartProtocol),
    paged name method N p l pages p_last
    /\ assoc name after = Some (JArr (l ++ concat pages))
    /\ (forall k, k <> name -> assoc k after = assoc k before)
    /\ ((N <= Z.of_nat (List.length (l ++ concat pages)) /\ p' = p_last)
        \/ (Z.of_nat (List.length (l ++ concat pages)) < N
            /\ exists response,
                 let request :=
                   page_request p_last method
                     (Z.of_nat (List.length (l ++ concat pages))) in
                 p' = Smart.log (Smart.Sent request) p_last
                 /\ transport_send (Smart.sent_count p_last) request
                    = Returned response
                 /\ empty_page name response)).

End SmartPages.

Section SmartAttempts.

Variable JSON_stringify : json -> string.
Variable StringToNumber : string -> option Z.
Variable Date_now : nat -> Z.
Variable transport_send : nat -> string -> may_throw js_error json.
Variable fuel : nat.
Variable request : Smart.query_request.

(** A failed attempt of the retry loop of [_query] that is followed by
    another one.  [retried p p'] reads: the attempt that starts with the
    protocol [p] throws, and the next attempt starts with [p']: where the
    failed attempt left the protocol after a [ConnectionError], and after a
    reset and a pause of 1 s after a [TimeoutError] or a
    [RetryableError]. *)
Inductive retried : Smart.SmartProtocol -> Smart.SmartProtocol -> Prop :=
| retried_at_once (p p1 : Smart.SmartProtocol) (e : js_error) :
    Smart._executeQuery JSON_stringify StringToNumber Date_now transport_send
      fuel request p = (Throw e, p1) ->
    cls e = ConnectionError ->
    retried p p1
| retried_after_reset (p p1 : Smart.SmartProtocol) (e : js_error) :
    Smart._executeQuery JSON_stringify StringToNumber Date_now transport_send
      fuel request p = (Throw e, p1) ->
    cls e = TimeoutError \/ cls e = RetryableError ->
    retried p (Smart.log (Smart.Sleep 1000) (Smart.log Smart.Reset p1)).

(** The attempts of the query that starts with the protocol [p]:
    [attempt_of p n p0] reads: the attempts 0 to [n - 1] have failed and
    were retried, and attempt [n] starts with the protocol [p0]. *)
Inductive attempt_of (p : Smart.SmartProtocol)
  : nat -> Smart.SmartProtocol -> Prop :=
| first_attempt : attempt_of p 0 p
| next_attempt (n : nat) (p0 p0' : Smart.SmartProtocol) :
    attempt_of p n p0 -> retried p0 p0' -> attempt_of p (S n) p0'.

(** How the loop leaves the protocol after its last attempt, which ended
    with [r] and left the protocol [p1]: an error other than a
    [ConnectionError] resets the transport. *)
Definition left_after (r : result js_error Smart.query_result)
    (p1 : Smart.SmartProtocol) : Smart.SmartProtocol :=
  match r with
  | Throw e =>
      match cls e with
      | ConnectionError => p1
      | _ => Smart.log Smart.Reset p1
      end
  | _ => p1
  end.

End SmartAttempts.

End Notions.

(** *** Notions and scenarios of the discovery *)

Module DiscoverNotions.
Import Js Exceptions Bytes Discover.
Local Open Scope Z_scope.

Section Notions.

Variable Device : Type.
Variable JSON_parse : string -> may_throw string json.

(** A datagram that neither parser reads. *)
Definition unreadable (d : datagram) : Prop :=
  _getDiscoveryJsonLegacy JSON_parse (data d) = None
  /\ _getDiscoveryJson JSON_parse (data d) = None.

(** What the parsers make of a datagram: the discovery info and the
    function that will make the device, or [None] when neither parser reads
    it. *)
Definition parsed (d : datagram) : option (json * device_func) :=
  match _getDiscoveryJsonLegacy JSON_parse (data d) with
  | Some info => Some (info, DeviceInstanceLegacy)
  | None =>
      match _getDiscoveryJson JSON_parse (data d) with
      | Some info => Some (info, DeviceInstance)
      | None => None
      end
  end.

(** The configuration that [datagramReceived] makes for host [ip]. *)
Definition config_for (p : DiscoverProtocol Device) (ip : string) : DeviceConfig :=
  mk_config ip (p_port p) (p_credentials p)
    match p_timeout p with
    | Some t => if t =? 0 then Some DEFAULT_TIMEOUT else Some t
    | None => Some DEFAULT_TIMEOUT
    end.

(** The error that [onDiscoveredRaw] throws when it is called for the
    first datagram [d] of a host, if it is called and throws. *)
Definition raw_callback_error (d : datagram) (p : DiscoverProtocol Device)
  : option js_error :=
  match parsed d, onDiscoveredRaw p with
  | Some (info, _), Some callback =>
      match callback (mk_raw (address d) (port d) info) with
      | Thrown error => Some error
      | Returned _ => None
      end
  | _, _ => None
  end.

(** One of the three result maps, with what it holds for a host. *)
Inductive record : Type :=
| InDiscoveredDevices (entry : discovered Device)
| InUnsupported (error : js_error)
| InInvalid (error : js_error).

(** What [datagramReceived] records for a host whose discovery info is
    [info] and whose configuration is [config], when [deviceFunc] settles
    with [outcome]: a device, a stand-in, or an error of one of the kinds
    that its [catch] block names; [None] for an error that the block throws
    again, and for a timeout whose stand-in cannot be built. *)
Definition record_of (info : json) (config : DeviceConfig)
    (outcome : may_throw js_error Device) : option record :=
  match outcome with
  | Returned device => Some (InDiscoveredDevices (Found device))
  | Thrown error =>
      if instanceof error UnsupportedDeviceError then Some (InUnsupported error)
      else if exn_class_eqb (cls error) AuthenticationError
      then Some (InDiscoveredDevices (RequiresAuth config))
      else if includes "timeout" (message error) then
        if timeout_device_throws info then None
        else Some (InDiscoveredDevices (ConnectionTimeout info config))
      else if instanceof error KasaException then Some (InInvalid error)
      else None
  end.

(** Protocol [p] holds record [r] for host [ip]. *)
Definition holds_record (p : DiscoverProtocol Device) (ip : string)
    (r : record) : Prop :=
  match r with
  | InDiscoveredDevices entry => discoveredDevices p !! ip = Some entry
  | InUnsupported error => unsupportedDeviceExceptions p !! ip = Some error
  | InInvalid error => invalidDeviceExceptions p !! ip = Some error
  end.

(** Whether the callback that is called once [outcome] is recorded,
    [onDiscovered] for a device and [onUnsupported] for an
    [UnsupportedDeviceError], is given and throws. *)
Definition callback_throws (p : DiscoverProtocol Device)
    (outcome : may_throw js_error Device) : bool :=
  match outcome with
  | Returned device =>
      match onDiscovered p with
      | Some callback =>
          match callback device with Thrown _ => true | Returned _ => false end
      | None => false
      end
  | Thrown error =>
      instanceof error UnsupportedDeviceError
      && match onUnsupported p with
         | Some callback =>
             match callback error with Thrown _ => true | Returned _ => false end
         | None => false
         end
  end.

(** The three result maps. *)
Definition results (p : DiscoverProtocol Device)
  : gmap string (discovered Device) * gmap string js_error * gmap string js_error :=
  (discoveredDevices p, unsupportedDeviceExceptions p,
   invalidDeviceExceptions p).

(** The number of times that ['complete'] was emitted. *)
Definition completions (p : DiscoverProtocol Device) : nat :=
  List.length
    (List.filter (fun e => match e with Complete => true | _ => false end)
       (emits p)).

(** How a settlement ends: the outcome is in its map, the waiting call is
    gone, and the discovery completes if the target is in the seen-set and
    the callback did not throw, and not otherwise. *)
Definition settled_as (ip : string) (r : record) (throws : bool)
    (p p2 : DiscoverProtocol Device) : Prop :=
  holds_record p2 ip r
  /\ suspended p2 = suspended p
  /\ (target p ∈ seenHosts p -> throws = false ->
      completions p2 = S (completions p) /\ targetDiscovered p2 = true)
  /\ (target p ∉ seenHosts p \/ throws = true ->
      completions p2 = completions p
      /\ targetDiscovered p2 = targetDiscovered p).

End Notions.

Arguments config_for {Device} p ip.
Arguments raw_callback_error {Device} JSON_parse d p.
Arguments InDiscoveredDevices {Device} entry.
Arguments InUnsupported {Device} error.
Arguments InInvalid {Device} error.
Arguments record_of {Device} info config outcome.
Arguments holds_record {Device} p ip r.
Arguments callback_throws {Device} p outcome.
Arguments settled_as {Device} ip r throws p p2.
Arguments results {Device} p.
Arguments completions {Device} p.

(** A discovery of the single host 192.168.0.10, whose devices are known
    by name. *)
Definition single_target : DiscoverProtocol string :=
  new_DiscoverProtocol string (Some "192.168.0.10") None None None
    None None None.

(** An empty datagram from that host, and a later one that holds the
    encrypted text [null]. *)
Definition empty_datagram : datagram := mk_datagram [] "192.168.0.10" 9999.

Definition null_datagram : datagram :=
  mk_datagram (from_array (XorEncryption._xorPayload (from_utf8 "null")))
    "192.168.0.10" 9999.

(** A datagram of that host that holds the encrypted text of a discovery
    info whose [device_type] is the number 5. *)
Definition typed_datagram : datagram :=
  mk_datagram
    (from_array (XorEncryption._xorPayload (from_utf8 Scenario.typed_info_text)))
    "192.168.0.10" 9999.

End DiscoverNotions.

(** *** Scenarios of the transports *)

Module TransportScenario.
Import Js Exceptions Http.
Local Open Scope Z_scope.

(** The query of the legacy discovery probe:
    [{"system":{"get_sysinfo":{}}}]. *)
Definition sysinfo_query : string :=
  Scenario.stringify
    (JObj [("system", JObj [("get_sysinfo", JObj [])])]).

(** A device that answers every request with HTTP 200 and the body
    [{"error_code":-1501}], and the parser on that body. *)
Definition login_error_body : string :=
  Scenario.stringify (JObj [("error_code", JNum (-1501))]).

Definition login_error_network (n : nat) (rq : request) : settled :=
  Response 200 login_error_body [].

Definition login_error_loads (body : string) : may_throw string json :=
  if String.eqb body login_error_body
  then Returned (JObj [("error_code", JNum (-1501))])
  else Thrown "Unexpected token".

(** An AES transport after a handshake, with a session that stands for
    the real one. *)
Definition after_handshake : Aes.AesTransport unit unit :=
  Aes.mk_transport unit unit "192.168.0.10" 80 (Some 2)
    (JObj [("password2", JStr "cGFzcw=="); ("username", JStr "dXNlcg==")])
    None (mk_client "192.168.0.10" [] false []) Aes.LOGIN_REQUIRED (Some tt)
    (Some 1700000000000) None None None.

End TransportScenario.

(** *** Reading a result *)

Module Reading.
Import Js Exceptions.

(** The class of the error that a run threw, if it threw. *)
Definition cls_of_result {A : Type} (r : result js_error A) : option exn_class :=
  match r with
  | Throw e => Some (cls e)
  | _ => None
  end.

(** The sequence number that [encrypt] returned, if it returned. *)
Definition seq_of_result (r : may_throw js_error (Bytes.Buffer * Z)) : option Z :=
  match r with
  | Returned (_, seq) => Some seq
  | Thrown _ => None
  end.

End Reading.

(** *** Notions of the IoT protocol *)

Module IotNotions.
Import Js Exceptions Eff Iot.
Local Open Scope Z_scope.

Section Runs.

Variable transport_send : nat -> string -> may_throw js_error json.

(** What a run of a query for [request] that may make [left] attempts adds
    to the record of protocol [p]: it sends only [request], at most [left]
    times, and besides that only resets the transport and pauses for 1 s;
    it ends; and a response that it returns is the answer of the transport
    to the last request sent, the sending of which was the last thing
    done. *)
Definition within (request : string) (left : nat) (p : IotProtocol)
    (run : result js_error json * IotProtocol) : Prop :=
  exists more,
    events (snd run) = events p ++ more
    /\ Forall (fun ev => ev = Sent request \/ ev = Reset \/ ev = Sleep 1000) more
    /\ (sent_count (snd run) <= sent_count p + left)%nat
    /\ fst run <> Diverge
    /\ (forall resp, fst run = Ok resp ->
          transport_send (Nat.pred (sent_count (snd run))) request = Returned resp
          /\ exists before, more = before ++ [Sent request]).

End Runs.

End IotNotions.

(** *** Notions of methods that throw *)

Module EffNotions.
Import Js Exceptions Eff.

(** A method that throws in every state of its object. *)
Definition never_returns {S A : Type} (m : M S A) : Prop :=
  forall s, exists e, fst (m s) = Throw e.

(** A method that returns or throws in every state of its object. *)
Definition always_ends {S A : Type} (m : M S A) : Prop :=
  forall s, fst (m s) <> Diverge.

End EffNotions.

(** *** A transport as the constructor leaves it *)

Module AesScenario.
Import Js Exceptions Http.
Local Open Scope Z_scope.

(** An AES transport for 192.168.0.10 on which nothing was sent yet: no
    session, and a handshake is required. *)
Definition fresh_transport : Aes.AesTransport unit unit :=
  Aes.mk_transport unit unit "192.168.0.10" 80 (Some 2)
    (JObj [("password2", JStr "cGFzcw=="); ("username", JStr "dXNlcg==")])
    None (mk_client "192.168.0.10" [] false []) Aes.HANDSHAKE_REQUIRED None
    None None None None.

(** A device that answers every request with HTTP 200 and the body
    [{"error_code":0}], and the parser on that body. *)
Definition success_body : string :=
  Scenario.stringify (JObj [("error_code", JNum 0)]).

Definition success_network (n : nat) (rq : request) : settled :=
  Response 200 success_body [].

Definition success_loads (body : string) : may_throw string json :=
  if String.eqb body success_body
  then Returned (JObj [("error_code", JNum 0)])
  else Thrown "Unexpected token".

End AesScenario.

(** *** Where the discovery holds a host *)

Module DiscoverRecords.
Import Js Exceptions Bytes Discover.

Section Records.

Variable Device : Type.

(** 1 when map [m] has an entry for [ip], else 0. *)
Definition holds {A : Type} (m : gmap string A) (ip : string) : nat :=
  match m !! ip with
  | Some _ => 1
  | None => 0
  end.

(** In how many of its four maps the protocol holds host [ip]: the three
    result maps, and the calls of [datagramReceived] that wait for a
    device. *)
Definition places (p : DiscoverProtocol Device) (ip : string) : nat :=
  holds (discoveredDevices p) ip + holds (unsupportedDeviceExceptions p) ip
  + holds (invalidDeviceExceptions p) ip + holds (suspended p) ip.

(** A protocol that holds every host at most once, and only hosts of the
    seen-set. *)
Definition recorded_once (p : DiscoverProtocol Device) : Prop :=
  forall ip, (places p ip <= 1)%nat /\ (places p ip = 1%nat -> ip ∈ seenHosts p).

End Records.

Arguments holds {A} m ip.
Arguments places {Device} p ip.
Arguments recorded_once {Device} p.

End DiscoverRecords.

(** ** xortransport.js: [XorTransport] *)

Module XorTransport.
Import Js Exceptions Eff Bytes.
Local Open Scope Z_scope.

Definition DEFAULT_PORT : Z := 9999.
Definition BLOCK_SIZE : Z := 4.

Definition NO_RETRY_ERRORS : list (option json) :=
  [Some (JStr "EHOSTDOWN"); Some (JStr "EHOSTUNREACH"); Some (JStr "ECONNREFUSED")].

(** An error that the socket emits or that a timer of the transport makes:
    its [message], and its [code] and [errno] if it has them. *)
Record socket_error : Type := mk_socket_error {
  err_message : string;
  err_code : option json;
  err_errno : option json
}.

(** How [_connect] settles. *)
Inductive connect_outcome : Type :=
| Connected
| ConnectFailed (error : socket_error).

(** What follows the writing of a request: chunks of data arrive, in
    order, and then, if the response is still not complete, the socket
    emits an error, or nothing more happens until the timer of [send]
    fires. *)
Record exchange : Type := mk_exchange {
  chunks : list Buffer;
  then_error : option socket_error
}.

(** The variables of the closure of [_executeSend]. *)
Record receiving : Type := mk_receiving {
  responseBuffer : Buffer;
  expectedLength : option Z
}.

(** The [data] listener after a chunk: it still listens, or it has removed
    itself and settled the promise, or it has thrown. *)
Inductive listener : Type :=
| Listening (r : receiving)
| Settled (outcome : may_throw js_error json)
| Uncaught (e : js_error).

Record XorTransport : Type := mk_transport {
  _host : string;
  _port : Z;
  _timeout : Z;
  connected : bool;          (* this.socket && !this.socket.destroyed *)
  written : list Buffer      (* what was written to the socket, oldest first *)
}.

Definition set_connected (b : bool) (t : XorTransport) : XorTransport :=
  mk_transport (_host t) (_port t) (_timeout t) b (written t).

Definition write (data : Buffer) (t : XorTransport) : XorTransport :=
  mk_transport (_host t) (_port t) (_timeout t) (connected t) (written t ++ [data]).

(** [_shouldUseHttp()]. *)
Definition _shouldUseHttp (t : XorTransport) : bool := _port t =? 80.

Section Transport.

(** Taken as given: [JSON.parse], how the [n]-th connection attempt
    settles, what follows the [n]-th write, and [_sendHttp], the path of the
    devices on port 80. *)
Variable JSON_parse : string -> may_throw string json.
Variable connects : nat -> connect_outcome.
Variable exchanges : nat -> exchange.
Variable _sendHttp : string -> M XorTransport json.

(** The listener [onData] of [_executeSend] on one chunk. *)
Definition onData (r : receiving) (data : Buffer) : listener :=
  let responseBuffer := responseBuffer r ++ data in
  (* First, read the length header (4 bytes) *)
  let header :=
    match expectedLength r with
    | None =>
        if Z.of_nat (List.length responseBuffer) >=? BLOCK_SIZE then
          match readUInt32BE responseBuffer with
          | Returned n => Returned (Some n)
          | Thrown e => Thrown e
          end
        else Returned None
    | Some n => Returned (Some n)
    end in
  match header with
  | Thrown e => Uncaught e
  | Returned expectedLength =>
      (* Then read the full response *)
      match expectedLength with
      | Some n =>
          if Z.of_nat (List.length responseBuffer) >=? BLOCK_SIZE + n then
            let responseData :=
              Smart.slice responseBuffer BLOCK_SIZE (BLOCK_SIZE + n) in
            let decryptedResponse := XorEncryption.decrypt responseData in
            match JSON_parse decryptedResponse with
            | Returned jsonPayload => Settled (Returned jsonPayload)
            | Thrown msg =>
                Settled (Thrown (new_error KasaException
                                   ("Failed to parse response: " +:+ msg)))
            end
          else Listening (mk_receiving responseBuffer expectedLength)
      | None => Listening (mk_receiving responseBuffer expectedLength)
      end
  end.

(** The listener over the chunks that arrive, one after the other; once
    it has removed itself, no chunk reaches it. *)
Fixpoint receive (r : receiving) (chunks : list Buffer) : listener :=
  match chunks with
  | [] => Listening r
  | data :: rest =>
      match onData r data with
      | Listening r' => receive r' rest
      | done => done
      end
  end.

(** [let responseBuffer = Buffer.alloc(0); let expectedLength = null]. *)
Definition start : receiving := mk_receiving [] None.

(** [close()] and [reset()]. *)
Definition close : M XorTransport unit := modify (set_connected false).
Definition reset : M XorTransport unit := close.

(** [_connect(timeout)]: nothing to do on a live socket. *)
Definition _connect : M XorTransport (may_throw socket_error unit) :=
  fun t =>
    if connected t then (Ok (Returned tt), t)
    else
      match connects (List.length (written t)) with
      | Connected => (Ok (Returned tt), set_connected true t)
      | ConnectFailed error => (Ok (Thrown error), set_connected false t)
      end.

(** How [_executeSend(request)] settles, or the timer of [send] before
    it: with the response, or with the message of the error. *)
Definition _executeSend (request : string) : M XorTransport (may_throw string json) :=
  fun t =>
    if negb (connected t) then (Ok (Thrown "Socket not connected"), t)
    else
      match XorEncryption.encrypt request with
      | Thrown e => (Ok (Thrown (message e)), t)
      | Returned encryptedRequest =>
          let x := exchanges (List.length (written t)) in
          let t' := write encryptedRequest t in
          match receive start (chunks x) with
          | Settled (Returned jsonPayload) => (Ok (Returned jsonPayload), t')
          | Settled (Thrown e) => (Ok (Thrown (message e)), t')
          | Uncaught e => (Throw e, t')
          | Listening _ =>
              match then_error x with
              | Some error => (Ok (Thrown (err_message error)), t')
              | None => (Ok (Thrown "Send timeout"), t')
              end
          end
      end.

(** The second [try] block of [send]. *)
Definition race (request : string) : M XorTransport (may_throw string json) :=
  (let* t := get in
   if negb (connected t)
   then ret (Thrown "Socket not connected after connection attempt")
   else _executeSend request)%eff.

Definition address (t : XorTransport) : string :=
  _host t +:+ ":" +:+ pretty (_port t).

(** [send(request)]. *)
Definition send (request : string) : M XorTransport json :=
  (let* t := get in
   (* Use HTTP for port 80 devices, TCP for others *)
   if _shouldUseHttp t then _sendHttp request
   else
     let* connection := _connect in
     match connection with
     | Thrown error =>
         reset ;;
         if String.eqb (err_message error) "Connection timeout" then
           throw (new_error TimeoutError
                    ("Timeout after " +:+ pretty (_timeout t)
                     +:+ " seconds connecting to the device: " +:+ address t
                     +:+ ": " +:+ err_message error))
         else if same_prim (err_code error) (Some (JStr "ECONNREFUSED")) then
           throw (new_error KasaException
                    ("Unable to connect to the device: " +:+ address t
                     +:+ ": " +:+ err_message error))
         else if has_prim NO_RETRY_ERRORS (err_errno error) then
           throw (new_error KasaException
                    ("Unable to connect to the device: " +:+ address t
                     +:+ ": " +:+ err_message error))
         else
           throw (new_device_error RetryableError
                    ("Unable to connect to the device: " +:+ address t
                     +:+ ": " +:+ err_message error) None)
     | Returned _ =>
         let* outcome := race request in
         match outcome with
         | Returned response => ret response
         | Thrown msg =>
             reset ;;
             if String.eqb msg "Send timeout" then
               throw (new_error TimeoutError
                        ("Timeout after " +:+ pretty (_timeout t)
                         +:+ " seconds sending request to the device "
                         +:+ address t +:+ ": " +:+ msg))
             else
               throw (new_device_error RetryableError
                        ("Unable to query the device " +:+ address t
                         +:+ ": " +:+ msg) None)
         end
     end)%eff.

End Transport.

End XorTransport.

(** ** smartprotocol.js: [_ChildProtocolWrapper] *)

Module SmartChild.
Import Js Exceptions Eff Smart.
Local Open Scope Z_scope.

(** [_getMethodAndParamsForRequest(request)]. *)
Definition _getMethodAndParamsForRequest (request : query_request)
  : string * json :=
  match request with
  | ReqObject [(smartMethod, smartParams)] => (smartMethod, smartParams)
  | ReqObject requests =>
      ("multipleRequest",
       JObj [("requests",
              JArr (map (fun kv =>
                           multi_request_json (multi_request (fst kv) (snd kv)))
                        requests))])
  | ReqString smartMethod => (smartMethod, JNull)
  end.

(** The envelope that [_query] builds around a request. *)
Definition wrappedPayload (deviceId : string) (request : query_request)
  : list (string * json) :=
  let (method, params) := _getMethodAndParamsForRequest request in
  let requestData := JObj [("method", JStr method); ("params", params)] in
  [("control_child",
    JObj [("device_id", JStr deviceId); ("requestData", requestData)])].

(** [retVal[key] = value]: the key [__proto__] names the prototype of the
    object and not a field, the fields stay as they are. *)
Definition set_entry (key : string) (value : option json)
    (retVal : query_result) : query_result :=
  if String.eqb key "__proto__" then retVal else assoc_set key value retVal.

(** Reading a property, with the [TypeError] of [null] and [undefined]. *)
Definition read (v : option json) (k : string) : M SmartProtocol (option json) :=
  or_type_error ("Cannot read properties of " +:+ to_string_opt v) (get_prop v k).

(** [a && a.k]. *)
Definition and_read (a : option json) (k : string)
  : M SmartProtocol (option json) :=
  if truthy_opt a then read a k else ret a.

(** The loop of [_query] over [unwrappedResult.responses].  The handler
    changes [multiResponse] in place; on an array, which has no
    [error_code], the property [result] that it sets is the object of
    [fromInt(undefined)]. *)
Fixpoint unwrap_responses (responses : list json) (retVal : query_result)
  : M SmartProtocol query_result :=
  match responses with
  | [] => ret retVal
  | multiResponse :: rest =>
      (let* responseMethod := read (Some multiResponse) "method" in
       let* handled :=
         _handleResponseErrorCode multiResponse (to_string_opt responseMethod)
           false in
       let* result :=
         match multiResponse with
         | JArr _ => ret (Some (fromInt None))
         | _ => read (Some handled) "result"
         end in
       unwrap_responses rest
         (set_entry (to_string_opt responseMethod) result retVal))%eff
  end.

Section Wrapper.

Variable JSON_stringify : json -> string.
Variable StringToNumber : string -> option Z.
Variable Date_now : nat -> Z.
Variable transport_send : nat -> string -> may_throw js_error json.

(** [this._protocol.query(wrappedPayload, retryCount)] on the protocol of
    the parent, whose lock is free when one query runs at a time. *)
Definition parent_query (fuel : nat) (deviceId : string)
    (request : query_request) (retryCount : Z) : M SmartProtocol query_result :=
  Smart._query JSON_stringify StringToNumber Date_now transport_send fuel
    (ReqObject (wrappedPayload deviceId request)) retryCount.

(** [_query(request, retryCount)] of the wrapper.  The state is the
    protocol of the parent; the wrapper shares its transport, and with it
    the host that the messages of the handler name. *)
Definition _query (fuel : nat) (deviceId : string) (request : query_request)
    (retryCount : Z) : M SmartProtocol query_result :=
  (let method := fst (_getMethodAndParamsForRequest request) in
   let* response := parent_query fuel deviceId request retryCount in
   let result :=
     match assoc "control_child" response with
     | Some v => v
     | None => None
     end in
   (* Unwrap responseData for control_child *)
   let* responseData := and_read result "responseData" in
   match responseData with
   | Some data =>
       if truthy data then
         let* unwrappedResult := read responseData "result" in
         let* responses := and_read unwrappedResult "responses" in
         match responses with
         | Some multiResponses =>
             if truthy multiResponses then
               match spread_elements multiResponses with
               | Some items => unwrap_responses items []
               | None =>
                   throw (new_error JsTypeError
                            "unwrappedResult.responses is not iterable")
               end
             else
               _handleResponseErrorCode data "control_child" true ;;
               ret [(method, result)]
         | None =>
             _handleResponseErrorCode data "control_child" true ;;
             ret [(method, result)]
         end
       else ret [(method, result)]
   | None => ret [(method, result)]
   end)%eff.

End Wrapper.

(** *** Notions for the statements *)

(** The key under which the wrapper files a response, and what it files:
    the [result] of a response whose [error_code] is 0, the object of
    [fromInt] for another. *)
Definition response_name (multiResponse : json) : string :=
  to_string_opt (assoc "method" (fields_of multiResponse)).

Definition response_entry (multiResponse : json) : option json :=
  let raw := assoc "error_code" (fields_of multiResponse) in
  if same_prim raw (Some (JNum 0))
  then assoc "result" (fields_of multiResponse)
  else Some (fromInt raw).

Definition is_object (j : json) : bool :=
  match j with
  | JObj _ => true
  | _ => false
  end.

(** The last response of a list that is filed under [m]. *)
Definition last_named (m : string) (responses : list json) : option json :=
  List.find (fun r => String.eqb (response_name r) m) (rev responses).

(** A [responseData] that holds no list of responses: its [result] is
    falsy, or is an object whose [responses] is. *)
Definition no_responses (responseData : list (string * json)) : Prop :=
  truthy_opt (assoc "result" responseData) = false
  \/ exists inner,
       assoc "result" responseData = Some (JObj inner)
       /\ truthy_opt (assoc "responses" inner) = false.

End SmartChild.

(** A child of a hub and what the hub returns for it. *)
Module ChildScenario.
Import Js Exceptions Eff Smart SmartChild.
Local Open Scope Z_scope.

Definition parent : SmartProtocol :=
  new_SmartProtocol "192.168.0.10" "dGVybWluYWw=" None.

(** Two responses, the second with an error code. *)
Definition responses : list json :=
  [JObj [("method", JStr "get_device_info"); ("error_code", JNum 0);
         ("result", JObj [("device_on", JBool true)])];
   JObj [("method", JStr "get_child_time"); ("error_code", JNum (-1))]].

Definition inner : list (string * json) := [("responses", JArr responses)].

Definition in_envelope (responseData : list (string * json)) : json :=
  JObj [("error_code", JNum 0);
        ("result", JObj [("responseData", JObj responseData)])].

Definition several : list (string * json) :=
  [("error_code", JNum 0); ("result", JObj inner)].

Definition one : list (string * json) :=
  [("error_code", JNum 0); ("result", JObj [("device_on", JBool true)])].

Definition failed : list (string * json) := [("error_code", JNum (-1))].

Definition query (request : query_request) (responseData : list (string * json))
  : result js_error query_result * SmartProtocol :=
  SmartChild._query Scenario.stringify Scenario.decimal_to_number
    Scenario.fixed_clock (Scenario.always_returns (in_envelope responseData))
    10 "child-1" request 3 parent.

End ChildScenario.

(** ** smartcamprotocol.js: the single requests of [SmartCamProtocol] *)

Module SmartCamQuery.
Import Js Exceptions Eff Smart.
Local Open Scope Z_scope.

(** List of getMethodNames that should be sent as [{"method":"do"}]. *)
Definition GET_METHODS_AS_DO : list string :=
  ["getSdCardFormatStatus"; "getConnectionType"; "getUserID";
   "getP2PSharePassword"; "getAESEncryptKey"; "getFirmwareAFResult";
   "getWhitelampStatus"].

(** [class SingleRequest].  [paramName] is only ever used as the key of a
    property, and is kept as that key: [undefined] is the key
    ["undefined"].  A property of [request] may be [undefined]. *)
Record SingleRequest : Type := mk_single {
  methodType : string;
  methodName : string;
  paramName : string;
  request : list (string * option json)
}.

(** [Object.keys(v)[0]] with [v] at that key; the outer [None] is the
    [TypeError] of [Object.keys(null)], the inner one is a value without
    keys.  The first key of an array or of a string is its first index, at
    which a string holds its first code unit. *)
Definition first_entry (v : json) : option (option (string * json)) :=
  match v with
  | JNull => None
  | JObj ((k, x) :: _) => Some (Some (k, x))
  | JArr (x :: _) => Some (Some ("0", x))
  | JStr s =>
      match Utf16.code_units s with
      | unit :: _ => Some (Some ("0", JStr unit))
      | [] => Some None
      end
  | _ => Some None
  end.

(** [_getSmartCameraSingleRequest(request)] for a request with the one
    key [method]. *)
Definition _getSmartCameraSingleRequest (method : string) (params : json)
  : may_throw js_error SingleRequest :=
  if String.eqb method "multipleRequest" then
    let req := [("method", Some (JStr "multipleRequest")); ("params", Some params)] in
    Returned (mk_single "multi" "multipleRequest" EmptyString req)
  else
    match first_entry params with
    | None =>
        Thrown (new_error JsTypeError "Cannot convert undefined or null to object")
    | Some (Some (param, value)) =>
        let req :=
          define_property param (Some value) [("method", Some (JStr method))] in
        Returned (mk_single method method param req)
    | Some None =>
        let req :=
          define_property "undefined" None [("method", Some (JStr method))] in
        Returned (mk_single method method "undefined" req)
    end.

(** The letters [A-Z] and [toLowerCase()] on them. *)
Definition is_upper (c : ascii) : bool :=
  (65 <=? nat_of_ascii c)%nat && (nat_of_ascii c <=? 90)%nat.

Definition toLowerCase (c : ascii) : ascii := ascii_of_nat (nat_of_ascii c + 32).

(** [name.replace(/[A-Z]/g, (match, index) => ...)] from the character at
    [index] on. *)
Fixpoint snake_from (at_start : bool) (name : string) : string :=
  match name with
  | EmptyString => EmptyString
  | String c rest =>
      if is_upper c then
        if at_start then String (toLowerCase c) (snake_from false rest)
        else String "_" (String (toLowerCase c) (snake_from false rest))
      else String c (snake_from false rest)
  end.

(** [_makeSnakeName(name)]. *)
Definition _makeSnakeName (name : string) : string := snake_from true name.

(** [_makeSmartCameraSingleRequest(request)].  [slice] counts code
    units. *)
Definition _makeSmartCameraSingleRequest (request : string) : SingleRequest :=
  let method := request in
  let snakeName := _makeSnakeName request in
  let shortMethod := Utf16.slice 0 3 method in
  let '(methodType, param) :=
    if existsb (String.eqb shortMethod) ["get"; "set"]
       && negb (existsb (String.eqb method) GET_METHODS_AS_DO)
    then (shortMethod, Utf16.slice_from 4 snakeName)
    else ("do", snakeName) in
  let req :=
    define_property param (Some (JObj [])) [("method", Some (JStr methodType))] in
  mk_single methodType method param req.

(** The properties that [JSON.stringify] writes: those that are not
    [undefined]. *)
Fixpoint defined (fields : list (string * option json)) : list (string * json) :=
  match fields with
  | [] => []
  | (k, Some v) :: rest => (k, v) :: defined rest
  | (_, None) :: rest => defined rest
  end.

(** ['error_code' in responseData]; [None] is the [TypeError] of [in] on a
    value that is not an object. *)
Definition in_error_code (responseData : json) : option bool :=
  match responseData with
  | JObj fields => Some (has_key "error_code" fields)
  | JArr _ => Some false
  | _ => None
  end.

(** The test of [_executeQuery] on the first section of the response to a
    [get] request. *)
Definition no_results (responseData : json) : bool :=
  match first_entry responseData with
  | Some (Some (section, value)) =>
      String.eqb section EmptyString
      || match value with
         | JNull | JObj [] | JArr [] => true
         | _ => false
         end
  | _ => true
  end.

(** A property of the object that the query returns: a value, or the
    object [{ [paramName]: responseData[paramName] }]. *)
Inductive answer : Type :=
| Value (v : option json)
| Section (paramName : string) (responseData : json).

Section Protocol.

Variable JSON_stringify : json -> string.
Variable transport_send : nat -> string -> may_throw js_error json.
Variable _executeMultipleQuery :
  list (string * json) -> M SmartProtocol (list (string * answer)).

(** [JSON.stringify(singleRequest.request)]. *)
Definition smartRequest (singleRequest : SingleRequest) : string :=
  JSON_stringify (JObj (defined (request singleRequest))).

(** [_executeQuery] from [const smartRequest] on. *)
Definition executeSingle (singleRequest : SingleRequest)
  : M SmartProtocol (list (string * answer)) :=
  (let* responseData := Smart.send transport_send (smartRequest singleRequest) in
   let* has_code :=
     or_type_error "Cannot use 'in' operator to search for 'error_code'"
       (in_error_code responseData) in
   (* H200 does not return an error code *)
   (if has_code
    then SmartCam._handleResponseErrorCode responseData
           (methodName singleRequest) true
    else ret responseData) ;;
   (* Requests that are invalid and raise PROTOCOL_FORMAT_ERROR when sent
      as a multipleRequest will return {} when sent as a single request. *)
   if String.eqb (methodType singleRequest) "get" && no_results responseData then
     throw (new_device_error DeviceError
              ("No results for get request " +:+ methodName singleRequest) None)
   else if String.eqb (methodType singleRequest) "do" then
     ret [(methodName singleRequest, Value (Some responseData))]
   else if String.eqb (methodType singleRequest) "set" then
     ret []
   else if String.eqb (methodType singleRequest) "multi" then
     ret [(methodName singleRequest,
           Value (assoc "result" (fields_of responseData)))]
   else
     ret [(methodName singleRequest,
           Section (paramName singleRequest) responseData)])%eff.

(** [_executeQuery(request, { retryCount, iterateListPages })]. *)
Definition _executeQuery (request : query_request)
  : M SmartProtocol (list (string * answer)) :=
  match request with
  | ReqObject [(method, params)] =>
      if existsb (String.eqb method) ["get"; "set"; "do"; "multipleRequest"]
      then
        match _getSmartCameraSingleRequest method params with
        | Returned singleRequest => executeSingle singleRequest
        | Thrown e => throw e
        end
      else _executeMultipleQuery [(method, params)]
  | ReqObject requests => _executeMultipleQuery requests
  | ReqString name => executeSingle (_makeSmartCameraSingleRequest name)
  end.

End Protocol.

(** *** Notions for the statements *)

(** The single request that [_executeQuery] builds; [None] for a request
    that it hands to [_executeMultipleQuery]. *)
Definition single_request (request : query_request)
  : option (may_throw js_error SingleRequest) :=
  match request with
  | ReqObject [(method, params)] =>
      if existsb (String.eqb method) ["get"; "set"; "do"; "multipleRequest"]
      then Some (_getSmartCameraSingleRequest method params)
      else None
  | ReqObject _ => None
  | ReqString name => Some (Returned (_makeSmartCameraSingleRequest name))
  end.

(** A camera that answers the request [getLensMaskConfig] with
    [response]. *)
Definition camera (response : json)
  : result js_error (list (string * answer)) * SmartProtocol :=
  _executeQuery Scenario.stringify (Scenario.always_returns response)
    (fun _ => ret []) (ReqString "getLensMaskConfig")
    (new_SmartProtocol "192.168.0.20" "dGVybWluYWw=" None).

Definition lens_mask : json :=
  JObj [("lens_mask_info", JObj [("enabled", JStr "off")])].

End SmartCamQuery.

(** ** protocol.js: [redactData] *)

Module Redact.
Import Js Exceptions.

Section Redactors.

(** The object [redactors], as [redactData] reads it: [None] where
    [key in redactors] is false, [Some None] where the key is there with a
    falsy value, [Some (Some f)] where it is there with the function [f],
    which returns or throws. *)
Variable redactors : string -> option (option (json -> may_throw js_error json)).

(** [redactData(data, redactors)]. *)
Fixpoint redactData (data : json) : json :=
  match data with
  | JArr items => JArr (map redactData items)
  | JObj fields =>
      JObj ((fix entries (redacted : list (string * json)) : list (string * json) :=
               match redacted with
               | [] => []
               | (key, value) :: rest =>
                   (key,
                    match value with
                    | JNull => value
                    | JStr EmptyString => value
                    | _ =>
                        match redactors key with
                        | Some (Some redactor) =>
                            match redactor value with
                            | Returned v => v
                            | Thrown _ => JStr "**REDACTEX**"
                            end
                        | Some None => JStr "**REDACTED**"
                        | None =>
                            match value with
                            | JObj _ => redactData value
                            | JArr items => JArr (map redactData items)
                            | _ => value
                            end
                        end
                    end) :: entries rest
               end) fields)
  | _ => data
  end.

End Redactors.

(** *** Notions for the statements *)

(** The keys of the objects of a value, at every depth. *)
Fixpoint keys_in (data : json) : list string :=
  match data with
  | JArr items => flat_map keys_in items
  | JObj fields =>
      (fix entries (l : list (string * json)) : list string :=
         match l with
         | [] => []
         | (key, value) :: rest => key :: keys_in value ++ entries rest
         end) fields
  | _ => []
  end.

(** The redactors of a log that hides the location and the alias. *)
Definition some_redactors (key : string)
  : option (option (json -> may_throw js_error json)) :=
  if String.eqb key "latitude" then Some (Some (fun _ => Returned (JNum 0)))
  else if String.eqb key "alias" then Some None
  else None.

End Redact.

(** ** discover.js: [DiscoveryResult] *)

Module DiscoveryResult.
Import Js Exceptions.

(** [data.k] where [data] is not [null]; the names read here are not
    properties of a string or of an array. *)
Definition prop (data : json) (k : string) : option json :=
  match data with
  | JObj fields => assoc k fields
  | _ => None
  end.

(** [a || d]. *)
Definition or_else (a : option json) (d : json) : json :=
  match a with
  | Some j => if truthy j then j else d
  | None => d
  end.

(** The properties of an object that are not [undefined]: a property that
    is [undefined] reads as one that is not there. *)
Fixpoint defined (fields : list (string * option json)) : list (string * json) :=
  match fields with
  | [] => []
  | (k, Some v) :: rest => (k, v) :: defined rest
  | (_, None) :: rest => defined rest
  end.

(** [class EncryptionScheme]. *)
Module EncryptionScheme.

Record t : Type := mk {
  isSupportHttps : json;
  encryptType : json;
  httpPort : json;
  lv : json
}.

Definition new (data : json) : t :=
  mk (or_else (prop data "is_support_https") (JBool false))
     (or_else (prop data "encrypt_type") JNull)
     (or_else (prop data "http_port") JNull)
     (or_else (prop data "lv") JNull).

(** An instance, as the object of its own properties. *)
Definition own (s : t) : json :=
  JObj [("isSupportHttps", isSupportHttps s); ("encryptType", encryptType s);
        ("httpPort", httpPort s); ("lv", lv s)].

End EncryptionScheme.

(** [class EncryptionInfo]. *)
Module EncryptionInfo.

Record t : Type := mk {
  symSchm : option json;
  key : option json;
  data : option json
}.

Definition new (data : json) : t :=
  mk (prop data "sym_schm") (prop data "key") (prop data "data").

Definition own (i : t) : json :=
  JObj (defined [("symSchm", symSchm i); ("key", key i); ("data", data i)]).

End EncryptionInfo.

Record t : Type := mk {
  deviceType : option json;
  deviceModel : option json;
  deviceId : option json;
  ip : option json;
  mac : option json;
  mgtEncryptSchm : option EncryptionScheme.t;   (* [None] is [null] *)
  deviceName : json;
  encryptInfo : option EncryptionInfo.t;        (* [None] is [null] *)
  encryptType : json;
  decryptedData : json;
  isResetWifi : json;
  firmwareVersion : json;
  hardwareVersion : json;
  hwVer : json;
  owner : json;
  isSupportIotCloud : json;
  obdSrc : json;
  factoryDefault : json
}.

(** [data.k ? new C(data.k) : null]. *)
Definition instance {C : Type} (new : json -> C) (a : option json) : option C :=
  match a with
  | Some j => if truthy j then Some (new j) else None
  | None => None
  end.

(** [new DiscoveryResult(data)]; reading a property of [null] throws. *)
Definition new (data : json) : may_throw js_error t :=
  match data with
  | JNull =>
      Thrown (new_error JsTypeError
                "Cannot read properties of null (reading 'device_type')")
  | _ =>
      Returned
        (mk (prop data "device_type")
            (prop data "device_model")
            (prop data "device_id")
            (prop data "ip")
            (prop data "mac")
            (instance EncryptionScheme.new (prop data "mgt_encrypt_schm"))
            (or_else (prop data "device_name") JNull)
            (instance EncryptionInfo.new (prop data "encrypt_info"))
            (or_else (prop data "encrypt_type") JNull)
            (or_else (prop data "decrypted_data") JNull)
            (or_else (prop data "isResetWiFi") JNull)
            (or_else (prop data "firmware_version") JNull)
            (or_else (prop data "hardware_version") JNull)
            (or_else (prop data "hw_ver") JNull)
            (or_else (prop data "owner") JNull)
            (or_else (prop data "is_support_iot_cloud") JNull)
            (or_else (prop data "obd_src") JNull)
            (or_else (prop data "factory_default") JNull))
  end.

(** [static fromDict(data)]. *)
Definition fromDict (data : json) : may_throw js_error t := new data.

(** An instance or [null]. *)
Definition or_null_instance {C : Type} (own : C -> json) (a : option C) : json :=
  match a with
  | Some c => own c
  | None => JNull
  end.

(** [toDict()]: the two instances go into the object as they are. *)
Definition toDict (r : t) : json :=
  JObj (defined
    [("device_type", deviceType r);
     ("device_model", deviceModel r);
     ("device_id", deviceId r);
     ("ip", ip r);
     ("mac", mac r);
     ("mgt_encrypt_schm",
      Some (or_null_instance EncryptionScheme.own (mgtEncryptSchm r)));
     ("device_name", Some (deviceName r));
     ("encrypt_info",
      Some (or_null_instance EncryptionInfo.own (encryptInfo r)));
     ("encrypt_type", Some (encryptType r));
     ("decrypted_data", Some (decryptedData r));
     ("isResetWiFi", Some (isResetWifi r));
     ("firmware_version", Some (firmwareVersion r));
     ("hardware_version", Some (hardwareVersion r));
     ("hw_ver", Some (hwVer r));
     ("owner", Some (owner r));
     ("is_support_iot_cloud", Some (isSupportIotCloud r));
     ("obd_src", Some (obdSrc r));
     ("factory_default", Some (factoryDefault r))]).

(** *** Notions for the statements *)

(** What is left of a scheme and of an information when they are read
    through the names that the constructors use: [lv], [key] and [data]
    are the names of the instances too. *)
Definition forget_scheme (s : EncryptionScheme.t) : EncryptionScheme.t :=
  EncryptionScheme.mk (JBool false) JNull JNull (EncryptionScheme.lv s).

Definition forget_info (i : EncryptionInfo.t) : EncryptionInfo.t :=
  EncryptionInfo.mk None (EncryptionInfo.key i) (EncryptionInfo.data i).

Definition forgetful (r : t) : t :=
  mk (deviceType r) (deviceModel r) (deviceId r) (ip r) (mac r)
     (option_map forget_scheme (mgtEncryptSchm r))
     (deviceName r)
     (option_map forget_info (encryptInfo r))
     (encryptType r) (decryptedData r) (isResetWifi r) (firmwareVersion r)
     (hardwareVersion r) (hwVer r) (owner r) (isSupportIotCloud r) (obdSrc r)
     (factoryDefault r).

(** What a device with the KLAP scheme answers to a discovery. *)
Definition klap_device : json :=
  JObj [("device_type", JStr "SMART.TAPOPLUG");
        ("device_model", JStr "P110(EU)");
        ("device_id", JStr "0123456789abcdef");
        ("ip", JStr "192.168.0.30");
        ("mac", JStr "AA-BB-CC-DD-EE-FF");
        ("mgt_encrypt_schm",
         JObj [("is_support_https", JBool false); ("encrypt_type", JStr "KLAP");
               ("http_port", JNum 80); ("lv", JNum 2)]);
        ("owner", JStr "0123")].

End DiscoveryResult.

(** ** credentials.js *)

Module Credentials.
Import Js Bytes.
Local Open Scope N_scope.

(** The value of a character of the base64 alphabet. *)
Definition base64_value (c : ascii) : option N :=
  let n := N_of_ascii c in
  if (65 <=? n) && (n <=? 90) then Some (n - 65)
  else if (97 <=? n) && (n <=? 122) then Some (n - 71)
  else if (48 <=? n) && (n <=? 57) then Some (n + 4)
  else if n =? 43 then Some 62
  else if n =? 47 then Some 63
  else None.

(** The values of the characters before the padding. *)
Fixpoint sextets (s : string) : list N :=
  match s with
  | EmptyString => []
  | String c rest =>
      match base64_value c with
      | Some v => v :: sextets rest
      | None => []
      end
  end.

(** Four characters give three bytes; three give two, two give one. *)
Fixpoint octets (values : list N) : list N :=
  match values with
  | a :: b :: c :: d :: rest =>
      (a * 4 + b / 16) :: ((b mod 16) * 16 + c / 4) :: ((c mod 4) * 64 + d)
      :: octets rest
  | [a; b; c] => [a * 4 + b / 16; (b mod 16) * 16 + c / 4]
  | [a; b] => [a * 4 + b / 16]
  | _ => []
  end.

(** [Buffer.from(s, 'base64').toString('utf8')] on padded base64, as the
    constants below are. *)
Definition from_base64 (s : string) : string :=
  string_of_list_ascii (map ascii_of_N (octets (sextets s))).

(** [getDefaultCredentials(tuple)]. *)
Definition getDefaultCredentials (tuple : string * string) : Aes.Credentials :=
  let un := from_base64 (fst tuple) in
  let pw := from_base64 (snd tuple) in
  Aes.mk_credentials un pw.

Definition DEFAULT_CREDENTIALS : list (string * (string * string)) :=
  [("KASA", ("a2FzYUB0cC1saW5rLm5ldA==", "a2FzYVNldHVw"));
   ("KASACAMERA", ("YWRtaW4=", "MjEyMzJmMjk3YTU3YTVhNzQzODk0YTBlNGE4MDFmYzM="));
   ("TAPO", ("dGVzdEB0cC1saW5rLm5ldA==", "dGVzdA=="));
   ("TAPOCAMERA", ("YWRtaW4=", "YWRtaW4="))].

(** [new Credentials()]. *)
Definition blank : Aes.Credentials := Aes.mk_credentials EmptyString EmptyString.

End Credentials.

(** ** klaptransport.js: the first handshake of [KlapTransport] *)

Module KlapTransport.
Import Js Exceptions Eff Bytes Http.
Local Open Scope Z_scope.

(** [a.equals(b)] on buffers. *)
Fixpoint equals (a b : Buffer) : bool :=
  match a, b with
  | [], [] => true
  | x :: a', y :: b' => (x =? y) && equals a' b'
  | _, _ => false
  end.

(** [buf.toString('hex')]. *)
Definition to_hex (b : Buffer) : string :=
  fold_right (fun x acc =>
                Scenario.hex_digit (Z.to_nat (x / 16))
                +:+ Scenario.hex_digit (Z.to_nat (x mod 16)) +:+ acc)
             EmptyString b.

(** The static methods that [KlapTransportV2] overrides, reached through
    [this.constructor]. *)
Record statics : Type := mk_statics {
  generateAuthHash : Aes.Credentials -> Buffer;
  handshake1SeedAuthHash : Buffer -> Buffer -> Buffer -> Buffer;
  handshake2SeedAuthHash : Buffer -> Buffer -> Buffer -> Buffer
}.

Record KlapTransport : Type := mk_transport {
  _host : string;
  _appUrl : string;                 (* the text of the URL *)
  _httpClient : HttpClient;
  _localAuthHash : Buffer;
  _defaultCredentialsAuthHash : list (string * Buffer);
  _blankAuthHash : option Buffer;
  drawn : nat                       (* the calls of [randomBytes] so far *)
}.

Definition set_httpClient (c : HttpClient) (t : KlapTransport) : KlapTransport :=
  mk_transport (_host t) (_appUrl t) c (_localAuthHash t)
    (_defaultCredentialsAuthHash t) (_blankAuthHash t) (drawn t).

Definition set_defaultCredentialsAuthHash (key : string) (h : Buffer)
    (t : KlapTransport) : KlapTransport :=
  mk_transport (_host t) (_appUrl t) (_httpClient t) (_localAuthHash t)
    (assoc_set key h (_defaultCredentialsAuthHash t)) (_blankAuthHash t)
    (drawn t).

Definition set_blankAuthHash (h : Buffer) (t : KlapTransport) : KlapTransport :=
  mk_transport (_host t) (_appUrl t) (_httpClient t) (_localAuthHash t)
    (_defaultCredentialsAuthHash t) (Some h) (drawn t).

Definition draw (t : KlapTransport) : KlapTransport :=
  mk_transport (_host t) (_appUrl t) (_httpClient t) (_localAuthHash t)
    (_defaultCredentialsAuthHash t) (_blankAuthHash t) (S (drawn t)).

(** A method of [this._httpClient], run on the transport. *)
Definition on_client {A : Type} (m : M HttpClient A) : M KlapTransport A :=
  fun t =>
    let '(r, c) := m (_httpClient t) in
    (r, set_httpClient c t).

(** The body of a response for which no JSON was asked: a buffer. *)
Definition body_bytes (d : response_data) : Buffer :=
  match d with
  | RespRaw body => bytes_of body
  | RespJson _ => []
  end.

Section Transport.

(** Taken as given: the hash functions, what the [n]-th call of
    [randomBytes(16)] returns, and the network. *)
Variable md5 : Buffer -> Buffer.
Variable sha1 : Buffer -> Buffer.
Variable sha256 : Buffer -> Buffer.
Variable randomBytes : nat -> Buffer.
Variable JSON_stringify : json -> string.
Variable jsonLoads : string -> may_throw string json.
Variable network : nat -> request -> settled.

(** The static methods of [KlapTransport] ... *)
Definition KlapTransport_statics : statics :=
  mk_statics
    (fun creds =>
       let un := Aes.username creds in
       let pw := Aes.password creds in
       md5 (md5 (from_utf8 un) ++ md5 (from_utf8 pw)))
    (fun localSeed remoteSeed authHash => sha256 (localSeed ++ authHash))
    (fun localSeed remoteSeed authHash => sha256 (remoteSeed ++ authHash)).

(** ... and of [KlapTransportV2]. *)
Definition KlapTransportV2_statics : statics :=
  mk_statics
    (fun creds =>
       let un := Aes.username creds in
       let pw := Aes.password creds in
       sha256 (sha1 (from_utf8 un) ++ sha1 (from_utf8 pw)))
    (fun localSeed remoteSeed authHash =>
       sha256 (localSeed ++ remoteSeed ++ authHash))
    (fun localSeed remoteSeed authHash =>
       sha256 (remoteSeed ++ localSeed ++ authHash)).

Section Handshake.

(** [this.constructor]. *)
Variable this_constructor : statics.

(** The loop of [performHandshake1] over the default credentials: the
    hash that matched, if one did. *)
Fixpoint check_defaults (localSeed remoteSeed serverHash : Buffer)
    (entries : list (string * (string * string)))
  : M KlapTransport (option Buffer) :=
  match entries with
  | [] => ret None
  | (key, value) :: rest =>
      (let* t := get in
       let authHash :=
         match assoc key (_defaultCredentialsAuthHash t) with
         | Some h => h
         | None =>
             let defaultCredentials := Credentials.getDefaultCredentials value in
             generateAuthHash this_constructor defaultCredentials
         end in
       (if negb (Smart.has_key key (_defaultCredentialsAuthHash t))
        then modify (set_defaultCredentialsAuthHash key authHash)
        else ret tt) ;;
       let defaultCredentialsSeedAuthHash :=
         handshake1SeedAuthHash this_constructor localSeed remoteSeed authHash in
       if equals defaultCredentialsSeedAuthHash serverHash
       then ret (Some authHash)
       else check_defaults localSeed remoteSeed serverHash rest)%eff
  end.

(** [performHandshake1()]: it returns [[localSeed, remoteSeed, authHash]]. *)
Definition performHandshake1 : M KlapTransport (Buffer * Buffer * Buffer) :=
  (let* t := get in
   let localSeed := randomBytes (drawn t) in
   modify draw ;;
   (* Handshake 1 has a payload of local_seed and a response of 16 bytes,
      followed by sha256(remote_seed | auth_hash) *)
   let payload := localSeed in
   let url := _appUrl t +:+ "/handshake1" in
   let* (responseStatus, responseData) :=
     on_client (post JSON_stringify jsonLoads network (UrlObject url)
                  (mk_post_options (DataBuffer (string_of payload)) ArgNull None
                     None)) in
   if negb (responseStatus =? 200) then
     throw (new_error KasaException
              ("Device " +:+ _host t +:+ " responded with "
               +:+ pretty responseStatus +:+ " to handshake1"))
   else
     let remoteSeed := Smart.slice (body_bytes responseData) 0 16 in
     let serverHash := skipn 16 (body_bytes responseData) in
     if negb (Z.of_nat (List.length serverHash) =? 32) then
       throw (new_error KasaException
                ("Device " +:+ _host t
                 +:+ " responded with unexpected klap response "
                 +:+ to_hex (body_bytes responseData) +:+ " to handshake1"))
     else
       (* [KlapTransport.handshake1SeedAuthHash], whatever the class *)
       let localSeedAuthHash :=
         handshake1SeedAuthHash KlapTransport_statics localSeed remoteSeed
           (_localAuthHash t) in
       (* Check the response from the device with local credentials *)
       if equals localSeedAuthHash serverHash then
         ret (localSeed, remoteSeed, _localAuthHash t)
       else
         (* Now check against the default setup credentials *)
         let* matched :=
           check_defaults localSeed remoteSeed serverHash
             Credentials.DEFAULT_CREDENTIALS in
         match matched with
         | Some authHash => ret (localSeed, remoteSeed, authHash)
         | None =>
             (* Always check against blank credentials as fallback *)
             let* t2 := get in
             let blankAuthHash :=
               match _blankAuthHash t2 with
               | Some h => h
               | None => generateAuthHash this_constructor Credentials.blank
               end in
             modify (set_blankAuthHash blankAuthHash) ;;
             let blankSeedAuthHash :=
               handshake1SeedAuthHash this_constructor localSeed remoteSeed
                 blankAuthHash in
             if equals blankSeedAuthHash serverHash then
               ret (localSeed, remoteSeed, blankAuthHash)
             else
               throw (new_device_error AuthenticationError
                        ("Device response did not match our challenge on ip "
                         +:+ _host t +:+ ", "
                         +:+ "check that your e-mail and password (both case-sensitive) are correct.")
                        None)
         end)%eff.

End Handshake.

(** *** Notions for the statements *)

(** The auth hash of a default credential that a transport of the class
    [C] compares: the one it has stored, or else the one it generates. *)
Definition default_hash (C : statics) (t : KlapTransport)
    (entry : string * (string * string)) : Buffer :=
  match assoc (fst entry) (_defaultCredentialsAuthHash t) with
  | Some h => h
  | None => generateAuthHash C (Credentials.getDefaultCredentials (snd entry))
  end.

(** The auth hashes that the transport falls back to, in the order in
    which it compares them: the default credentials, then the blank
    ones. *)
Definition fallback_hashes (C : statics) (t : KlapTransport) : list Buffer :=
  map (default_hash C t) Credentials.DEFAULT_CREDENTIALS
  ++ [match _blankAuthHash t with
      | Some h => h
      | None => generateAuthHash C Credentials.blank
      end].

(** The first of them whose seed hash is the hash of the server. *)
Definition first_match (C : statics) (localSeed remoteSeed serverHash : Buffer)
    (hashes : list Buffer) : option Buffer :=
  List.find (fun h =>
               equals (handshake1SeedAuthHash C localSeed remoteSeed h)
                 serverHash)
            hashes.

(** The request of the first handshake. *)
Definition handshake1_request (t : KlapTransport) : request :=
  build_request JSON_stringify (_appUrl t +:+ "/handshake1")
    (mk_post_options (DataBuffer (string_of (randomBytes (drawn t)))) ArgNull
       None None).

End Transport.

End KlapTransport.

(** A device of the second version of the protocol that knows the
    credentials of the user, with stand-ins for the hash functions that
    keep the length and the end of what they hash. *)
Module KlapScenario.
Import Js Exceptions Eff Bytes Http KlapTransport.
Local Open Scope Z_scope.

Definition digest (size : nat) (payload : Buffer) : Buffer :=
  firstn size (Z.of_nat (List.length payload) mod 256
               :: rev payload ++ repeat 0 size).

Definition md5 : Buffer -> Buffer := digest 16.
Definition sha1 : Buffer -> Buffer := digest 20.
Definition sha256 : Buffer -> Buffer := digest 32.

Definition V2 : statics := KlapTransportV2_statics sha1 sha256.

Definition localSeed : Buffer := repeat 1 16.
Definition remoteSeed : Buffer := repeat 2 16.

Definition user : Aes.Credentials :=
  Aes.mk_credentials "user@example.com" "secret".

Definition transport : KlapTransport :=
  mk_transport "192.168.0.40" "http://192.168.0.40/app"
    (mk_client "192.168.0.40" [] false [])
    (generateAuthHash V2 user) [] None 0.

(** The hash that the device sends: that of the second version, for the
    credentials of the user. *)
Definition serverHash : Buffer :=
  handshake1SeedAuthHash V2 localSeed remoteSeed (_localAuthHash transport).

Definition device (n : nat) (rq : request) : settled :=
  Response 200 (string_of (remoteSeed ++ serverHash))
    [("TP_SESSIONID", "0123456789")].

Definition handshake1
  : result js_error (Buffer * Buffer * Buffer) * KlapTransport :=
  performHandshake1 md5 sha256 (fun _ => localSeed) Scenario.stringify
    Scenario.parse_null_only device V2 transport.

End KlapScenario.

(* ================================================================== *)
(** * Part II: theorems *)
(* ================================================================== *)

(** ** The error-code registry *)

Module ExceptionsFacts.
Import Js Exceptions.

(** An object is never identical to a primitive, so it is no element of a
    set of primitives. *)
Lemma same_prim_object (f : list (string * json)) (p : option json) :
  same_prim (Some (JObj f)) p = false.
Proof. destruct p as [[]|]; reflexivity. Qed.

Lemma has_prim_object (elems : list (option json)) (f : list (string * json)) :
  has_prim elems (Some (JObj f)) = false.
Proof.
  unfold has_prim. induction elems as [|e elems IH]; cbn [existsb].
  - reflexivity.
  - rewrite same_prim_object. exact IH.
Qed.

(** [fromInt] always returns an object with a [name]. *)
Lemma fromInt_object (v : option json) :
  exists name value, fromInt v = code_object name value.
Proof.
  unfold fromInt.
  destruct (List.find _ SmartErrorCode_fields) as [[key errorValue]|]; eauto.
Qed.

Lemma code_object_truthy (name : string) (value : option json) :
  truthy_opt (Some (code_object name value)) = true.
Proof. reflexivity. Qed.

Lemma new_device_error_code (c : exn_class) (msg name : string)
    (value : option json) :
  new_device_error c msg (Some (code_object name value))
  = mk_error c msg (Some (code_object name value)).
Proof. reflexivity. Qed.

(** The codes that the properties below turn on. *)
Example fromInt_success :
  fromInt (Some (JNum 0)) = code_object "SUCCESS" (Some (JNum 0)).
Proof. reflexivity. Qed.

Example fromInt_login_error :
  fromInt (Some (JNum (-1501))) = code_object "LOGIN_ERROR" (Some (JNum (-1501))).
Proof. reflexivity. Qed.

Example fromInt_json_decode_fail :
  fromInt (Some (JNum (-1003)))
  = code_object "JSON_DECODE_FAIL_ERROR" (Some (JNum (-1003))).
Proof. reflexivity. Qed.

Example fromInt_missing : fromInt None = code_object "UNKNOWN" None.
Proof. reflexivity. Qed.

(** The class has no static field [DEVICE_BUSY]: the sets that the three
    modules declare hold [undefined]. *)
Example DEVICE_BUSY_undefined : SmartErrorCode "DEVICE_BUSY" = None.
Proof. reflexivity. Qed.

Example local_retryable_set :
  LOCAL_SMART_RETRYABLE_ERRORS
  = [Some (JNum (-40401)); None; Some (JNum 1003)].
Proof. reflexivity. Qed.

Example local_authentication_set :
  LOCAL_SMART_AUTHENTICATION_ERRORS = [Some (JNum (-1501)); Some (JNum 1003)].
Proof. reflexivity. Qed.

End ExceptionsFacts.

(** ** The response error handlers of the AES transport and of SmartCam *)

Module HandlerFacts.
Import Js Exceptions Eff Http ExceptionsFacts.

(** What the AES handler does with every response object. *)
Lemma aes_handler_throws (session keypair : Type)
    (t : Aes.AesTransport session keypair)
    (fields : list (string * json)) (msg : string) :
  exists m,
    Aes._handleResponseErrorCode (RespJson (JObj fields)) msg t
    = (Throw (mk_error DeviceError m
                (Some (fromInt (assoc "error_code" fields)))), t).
Proof.
  unfold Aes._handleResponseErrorCode, bind, or_type_error, Aes.data_prop,
    get_prop, ret, get, throw.
  destruct (fromInt_object (assoc "error_code" fields)) as (name & value & ->).
  unfold code_object at 1 2 3.
  rewrite same_prim_object, !has_prim_object.
  eexists. reflexivity.
Qed.

(** What the SmartCam handler does with every response object when it is
    to raise. *)
Lemma smartcam_handler_throws (p : Smart.SmartProtocol)
    (fields : list (string * json)) (method : string) :
  exists m,
    SmartCam._handleResponseErrorCode (JObj fields) method true p
    = (Throw (mk_error DeviceError m
                (Some (fromInt (assoc "error_code" fields)))), p).
Proof.
  unfold SmartCam._handleResponseErrorCode, bind, or_type_error, get_prop,
    ret, get, throw.
  destruct (fromInt_object (assoc "error_code" fields)) as (name & value & ->).
  unfold code_object at 1 2 3.
  rewrite same_prim_object, !has_prim_object.
  eexists. reflexivity.
Qed.

(** C1 (as the code has it).  For every response object, whatever its
    [error_code], the success code 0 included, the error handler of the AES
    transport and the error handler of the SmartCam protocol (with
    [raiseOnError] true) both throw a [DeviceError] that carries the code
    object of [fromInt]; neither returns, neither throws a retryable or an
    authentication error, and the state of the AES transport is not
    changed. *)
Theorem C1_handlers_throw_DeviceError_for_every_code
    (session keypair : Type) (t : Aes.AesTransport session keypair)
    (p : Smart.SmartProtocol) (fields : list (string * json))
    (msg method : string) :
  let code := fromInt (assoc "error_code" fields) in
  (exists m,
     Aes._handleResponseErrorCode (RespJson (JObj fields)) msg t
     = (Throw (mk_error DeviceError m (Some code)), t))
  /\ (exists m,
        SmartCam._handleResponseErrorCode (JObj fields) method true p
        = (Throw (mk_error DeviceError m (Some code)), p)).
Proof.
  split; [apply aes_handler_throws | apply smartcam_handler_throws].
Qed.

End HandlerFacts.

(** ** Login of the AES transport *)

Module LoginFacts.
Import Js Exceptions Eff Http Notions ExceptionsFacts HandlerFacts.
Local Open Scope Z_scope.

Section Login.

Variable session : Type.
Variable keypair : Type.
Variable session_encrypt : session -> string -> string.
Variable decode_response : session -> option json -> may_throw string json.
Variable createFromKeypair : option json -> option keypair -> may_throw js_error session.
Variable hashCredentials : bool -> Aes.Credentials -> string * string.
Variable JSON_stringify : json -> string.
Variable jsonLoads : string -> may_throw string json.
Variable parseInt : string -> Z.
Variable network : nat -> request -> settled.
Variable Date_now : nat -> Z.

Abbreviation AesTransport := (Aes.AesTransport session keypair).
Abbreviation sendSecurePassthrough :=
  (Aes.sendSecurePassthrough session keypair session_encrypt decode_response
     JSON_stringify jsonLoads network).
Abbreviation tryLogin :=
  (Aes.tryLogin session keypair session_encrypt decode_response JSON_stringify
     jsonLoads network Date_now).
Abbreviation performLogin :=
  (Aes.performLogin session keypair session_encrypt decode_response
     createFromKeypair hashCredentials JSON_stringify jsonLoads parseInt
     network Date_now).

Abbreviation answers_with := (Notions.answers_with jsonLoads network).

(** With a session in place, [sendSecurePassthrough] fails on the envelope
    of every answer: one request is made and the handler throws. *)
Lemma sendSecurePassthrough_throws (t : AesTransport) (sess : session)
    (fields : list (string * json)) (request : string) :
  Aes._encryptionSession session keypair t = Some sess ->
  answers_with t fields ->
  exists m rq t',
    sendSecurePassthrough request t
    = (Throw (mk_error DeviceError m
                (Some (fromInt (assoc "error_code" fields)))), t')
    /\ requests_made t' = requests_made t ++ [rq]
    /\ Aes._state session keypair t' = Aes._state session keypair t
    /\ Aes._defaultCredentials session keypair t'
       = Aes._defaultCredentials session keypair t.
Proof.
  intros Hsess (body & cookies & Hnet & Hload).
  unfold requests_made in Hnet.
  unfold Aes.sendSecurePassthrough, bind, get, or_type_error, ret.
  rewrite Hsess. cbn [bind ret].
  unfold Aes.on_client, post, post_to, requests_made in *.
  rewrite (Hnet _), Z.eqb_refl. cbn [returnJson opt_json negb].
  rewrite Hload. cbv beta iota.
  change (200 =? 200) with true. cbn [negb]. cbv beta iota.
  match goal with
  | |- context [Aes._handleResponseErrorCode ?d ?msg ?t0] =>
      destruct (aes_handler_throws session keypair t0 fields msg) as [m Hm];
      rewrite Hm
  end.
  do 3 eexists. split; [reflexivity|].
  cbn. auto.
Qed.

(** C2 (as the code has it).  When the device answers the login request
    with HTTP 200 and any JSON object, [LOGIN_ERROR] (-1501) included,
    [performLogin] makes that one request and throws a [DeviceError]: it
    does not redo the handshake, does not try the default credentials and
    does not even load them. *)
Theorem C2_performLogin_makes_no_fallback (t : AesTransport) (sess : session)
    (fields : list (string * json)) :
  Aes._encryptionSession session keypair t = Some sess ->
  answers_with t fields ->
  exists m rq t',
    performLogin t
    = (Throw (mk_error DeviceError m
                (Some (fromInt (assoc "error_code" fields)))), t')
    /\ requests_made t' = requests_made t ++ [rq]
    /\ Aes._state session keypair t' = Aes._state session keypair t
    /\ Aes._defaultCredentials session keypair t'
       = Aes._defaultCredentials session keypair t.
Proof.
  intros Hsess Hans.
  unfold Aes.performLogin, bind, get, try_catch.
  unfold Aes.tryLogin, bind, Aes.now.
  destruct (sendSecurePassthrough_throws t sess fields
              (JSON_stringify
                 (JObj [("method", JStr "login_device");
                        ("params", Aes._loginParams session keypair t);
                        ("request_time_milis",
                         JNum (Date_now (List.length (requests_made t))))]))
              Hsess Hans)
    as (m & rq & t' & Hsend & Hreq & Hstate & Hcred).
  unfold requests_made in Hsend.
  rewrite Hsend.
  exists m, rq, t'. split; [|auto].
  reflexivity.
Qed.

End Login.

End LoginFacts.

(** ** The handshake request of the AES transport *)

Module HandshakeFacts.
Import Js Exceptions Eff Http ExceptionsFacts HandlerFacts.
Local Open Scope Z_scope.

(** The handler of the AES transport never returns: it throws, and leaves
    the transport as it was. *)
Lemma aes_handler_never_returns (session keypair : Type)
    (t : Aes.AesTransport session keypair) (d : response_data) (msg : string) :
  exists e, Aes._handleResponseErrorCode d msg t = (Throw e, t).
Proof.
  unfold Aes._handleResponseErrorCode, bind, or_type_error, ret, get, throw.
  destruct (Aes.data_prop d "error_code") as [raw|]; [|eauto].
  destruct (fromInt_object raw) as (name & value & ->).
  unfold code_object at 1 2 3.
  rewrite same_prim_object, !has_prim_object.
  eauto.
Qed.

(** What [post] hands to [_makeRequest] for the options of the
    handshake: the header that [performHandshake] set to 314 is replaced by
    the length of the body, and the body is the empty object. *)
Lemma handshake_request (JSON_stringify : json -> string) (url : string)
    (cookies : option (list (string * string))) :
  let headers :=
    spread Aes.COMMON_HEADERS
      [(Aes.CONTENT_LENGTH, HStr (pretty Aes.KEY_PAIR_CONTENT_LENGTH))] in
  let rq :=
    build_request JSON_stringify url
      (mk_post_options DataNull ArgGenerator (Some headers) cookies) in
  assoc "Content-Length" headers = Some (HStr "314")
  /\ assoc "Content-Length" (req_headers rq) = Some (HNum 2)
  /\ req_data rq = DataString "{}".
Proof.
  destruct cookies; repeat split; reflexivity.
Qed.

Section Handshake.

Variable session : Type.
Variable keypair : Type.
Variable createFromKeypair : option json -> option keypair -> may_throw js_error session.
Variable JSON_stringify : json -> string.
Variable jsonLoads : string -> may_throw string json.
Variable parseInt : string -> Z.
Variable network : nat -> request -> settled.
Variable Date_now : nat -> Z.

Abbreviation AesTransport := (Aes.AesTransport session keypair).
Abbreviation performHandshake :=
  (Aes.performHandshake session keypair createFromKeypair JSON_stringify
     jsonLoads parseInt network Date_now).

(** C5 (as the code has it).  Every handshake makes exactly one request, to
    [/app]; whatever the key pair and however the device answers, its
    [Content-Length] header is the number 2 and its body is the text of an
    empty object, not the key payload: the header is there, but its value
    is never 314. *)
Theorem C5_handshake_content_length_is_2 (t : AesTransport) :
  exists rq,
    sent (Aes._httpClient session keypair (snd (performHandshake t)))
    = sent (Aes._httpClient session keypair t) ++ [rq]
    /\ req_url rq = Aes.appUrl session keypair t
    /\ assoc "Content-Length" (req_headers rq) = Some (HNum 2)
    /\ assoc "Content-Length" (req_headers rq) <> Some (HStr "314")
    /\ assoc "Content-Length" (req_headers rq) <> Some (HNum 314)
    /\ req_data rq = DataString "{}".
Proof.
  eexists. split.
  - unfold Aes.performHandshake, bind, modify, get.
    cbn [Aes.set_tokenUrl Aes.set_sessionExpireAt Aes.set_sessionCookie
         Aes._sessionCookie].
    unfold Aes.on_client, post, post_to.
    cbn [Aes._httpClient returnJson opt_json sent].
    destruct (network _ _) as [statusCode responseBody cookies | code msg].
    + destruct (statusCode =? 200) eqn:Hs.
      * destruct (jsonLoads responseBody) as [j | m]; cbn [negb].
        -- rewrite Hs. cbn [negb]. cbv beta iota.
           match goal with
           | |- context [Aes._handleResponseErrorCode ?d ?m ?t0] =>
               destruct (aes_handler_never_returns session keypair t0 d m) as [e ->]
           end.
           reflexivity.
        -- reflexivity.
      * destruct (jsonLoads responseBody) as [j | m];
          rewrite Hs; reflexivity.
    + destruct code as [cd|]; [|reflexivity].
      destruct (String.eqb cd "ECONNRESET" || String.eqb cd "EPIPE");
        [reflexivity|].
      destruct (String.eqb cd "ETIMEDOUT"); reflexivity.
  - repeat split; try reflexivity; discriminate.
Qed.

End Handshake.

End HandshakeFacts.

(** ** The retry loop of the IoT protocol *)

Module IotFacts.
Import Js Exceptions Eff Iot Notions.
Local Open Scope Z_scope.

Lemma geb_true (a b : Z) : b <= a -> (a >=? b) = true.
Proof. intros H. rewrite Z.geb_leb. apply Z.leb_le. exact H. Qed.

Lemma geb_false (a b : Z) : a < b -> (a >=? b) = false.
Proof. intros H. rewrite Z.geb_leb. apply Z.leb_gt. exact H. Qed.

Lemma not_of_the_library_classes (e : js_error) :
  not_of_the_library e <->
  cls e = JsError \/ cls e = JsTypeError \/ cls e = JsRangeError.
Proof.
  unfold not_of_the_library, instanceof.
  destruct e as [c m code]; destruct c; cbn; intuition discriminate.
Qed.

Section Loop.

Variable transport_send : nat -> string -> may_throw js_error json.

Abbreviation query_loop := (Iot.query_loop transport_send).
Abbreviation _query := (Iot._query transport_send).

(** One iteration whose attempt throws [e], by the class of [e]. *)
Lemma iteration_throws (request : string) (retryCount : Z) (left : nat)
    (retry : Z) (p : IotProtocol) (e : js_error) :
  transport_send (sent_count p) request = Thrown e ->
  query_loop request retryCount (S left) retry p
  = let p1 := log (Sent request) p in
    let continue := query_loop request retryCount left (retry + 1) in
    match cls e with
    | ConnectionError =>
        if retry >=? retryCount then (Throw e, p1) else continue p1
    | AuthenticationError => (Throw e, log Reset p1)
    | RetryableError =>
        if retry >=? retryCount then (Throw e, log Reset p1)
        else continue (log Reset p1)
    | TimeoutError =>
        if retry >=? retryCount then (Throw e, log Reset p1)
        else continue (log (Sleep 1000) (log Reset p1))
    | KasaException | UnsupportedDeviceError | DeviceError =>
        (Throw e, log Reset p1)
    | JsError | JsTypeError | JsRangeError => continue p1
    end.
Proof.
  intros Hsend.
  cbn [Iot.query_loop]. unfold try_catch, _executeQuery. rewrite Hsend.
  unfold instanceof.
  destruct e as [c m code]; destruct c; cbn;
    try destruct (retry >=? retryCount); reflexivity.
Qed.

(** One iteration whose attempt returns. *)
Lemma iteration_returns (request : string) (retryCount : Z) (left : nat)
    (retry : Z) (p : IotProtocol) (resp : json) :
  transport_send (sent_count p) request = Returned resp ->
  query_loop request retryCount (S left) retry p
  = (Ok resp, log (Sent request) p).
Proof.
  intros Hsend.
  cbn [Iot.query_loop]. unfold try_catch, _executeQuery. rewrite Hsend.
  reflexivity.
Qed.

Lemma iot_sent_count_log_sent (p : IotProtocol) (r : string) :
  sent_count (log (Sent r) p) = S (sent_count p).
Proof.
  unfold sent_count, log. cbn [events].
  rewrite List.filter_app, List.length_app. cbn. lia.
Qed.

(** The whole loop when every attempt throws an error that is not of the
    library: nothing but the requests happens, and the loop falls through to
    its last statement. *)
Lemma loop_of_foreign_errors (request : string) (retryCount : Z) (left : nat) :
  (forall k, exists e,
      transport_send k request = Thrown e /\ not_of_the_library e) ->
  forall (retry : Z) (p : IotProtocol),
    query_loop request retryCount left retry p
    = (Throw (new_error KasaException "Query reached somehow to unreachable"),
       mk_protocol (events p ++ repeat (Sent request) left)).
Proof.
  intros Hall. induction left as [|left IH]; intros retry p.
  - cbn. rewrite List.app_nil_r. destruct p; reflexivity.
  - destruct (Hall (sent_count p)) as (e & Hsend & Hforeign).
    rewrite (iteration_throws _ _ _ _ _ _ Hsend).
    apply not_of_the_library_classes in Hforeign.
    cbv zeta.
    assert (Hgo : query_loop request retryCount left (retry + 1)
                    (log (Sent request) p)
                  = (Throw (new_error KasaException
                              "Query reached somehow to unreachable"),
                     mk_protocol
                       (events p ++ repeat (Sent request) (S left)))).
    { rewrite IH. unfold log. cbn [events repeat].
      rewrite <- List.app_assoc. reflexivity. }
    destruct Hforeign as [H | [H | H]]; rewrite H; exact Hgo.
Qed.

End Loop.

End IotFacts.

Module IotRetry.
Import Js Exceptions Eff Iot Notions IotFacts.
Local Open Scope Z_scope.

Section Policy.

Variable transport_send : nat -> string -> may_throw js_error json.

Abbreviation query_loop := (Iot.query_loop transport_send).
Abbreviation _query := (Iot._query transport_send).

(** C4 (amended).  In an iteration of the retry loop of the IoT protocol
    whose attempt throws [e]: a [TimeoutError] resets the transport and, if
    retries remain, pauses 1 s and retries; a [ConnectionError] retries at
    once, without a reset; a [RetryableError] resets the transport and
    retries at once, without a pause; an [AuthenticationError] and any other
    library error reset the transport and are thrown at once; and in the
    three retried cases the error is thrown once [retry] has reached the
    budget. *)
Theorem C4_iot_retry_policy (request : string) (retryCount : Z) (left : nat)
    (retry : Z) (p : IotProtocol) (e : js_error) :
  transport_send (sent_count p) request = Thrown e ->
  let p1 := log (Sent request) p in
  let again := query_loop request retryCount left (retry + 1) in
  let this := query_loop request retryCount (S left) retry p in
  (cls e = TimeoutError ->
     (retry < retryCount -> this = again (log (Sleep 1000) (log Reset p1)))
     /\ (retryCount <= retry -> this = (Throw e, log Reset p1)))
  /\ (cls e = ConnectionError ->
        (retry < retryCount -> this = again p1)
        /\ (retryCount <= retry -> this = (Throw e, p1)))
  /\ (cls e = RetryableError ->
        (retry < retryCount -> this = again (log Reset p1))
        /\ (retryCount <= retry -> this = (Throw e, log Reset p1)))
  /\ (cls e = AuthenticationError -> this = (Throw e, log Reset p1))
  /\ (other_library_error e -> this = (Throw e, log Reset p1)).
Proof.
  intros Hsend p1 again this.
  pose proof (iteration_throws transport_send request retryCount left retry p e
                Hsend) as Hit.
  cbv zeta in Hit. fold p1 again this in Hit.
  split; [|split; [|split; [|split]]].
  - intros Hc. split.
    + intros Hlt. rewrite Hit, Hc, (geb_false _ _ Hlt). reflexivity.
    + intros Hge. rewrite Hit, Hc, (geb_true _ _ Hge). reflexivity.
  - intros Hc. split.
    + intros Hlt. rewrite Hit, Hc, (geb_false _ _ Hlt). reflexivity.
    + intros Hge. rewrite Hit, Hc, (geb_true _ _ Hge). reflexivity.
  - intros Hc. split.
    + intros Hlt. rewrite Hit, Hc, (geb_false _ _ Hlt). reflexivity.
    + intros Hge. rewrite Hit, Hc, (geb_true _ _ Hge). reflexivity.
  - intros Hc. rewrite Hit, Hc. reflexivity.
  - intros [Hc | [Hc | Hc]]; rewrite Hit, Hc; reflexivity.
Qed.

(** C10.  An error that is not of the library is neither rethrown nor
    followed by a reset: the iteration ends and the next one starts, whatever
    the value of [retry].  When every attempt throws such an error, the
    query makes its [retryCount + 1] attempts and nothing else, and throws
    the [KasaException] of the last statement of [_query] instead of any of
    the errors thrown. *)
Theorem C10_foreign_error_is_discarded (request : string) (retryCount : Z)
    (p : IotProtocol) :
  (forall (e : js_error) (left : nat) (retry : Z),
      transport_send (sent_count p) request = Thrown e ->
      not_of_the_library e ->
      query_loop request retryCount (S left) retry p
      = query_loop request retryCount left (retry + 1) (log (Sent request) p))
  /\ ((forall k, exists e,
          transport_send k request = Thrown e /\ not_of_the_library e) ->
      _query request retryCount p
      = (Throw (new_error KasaException "Query reached somehow to unreachable"),
         mk_protocol
           (events p ++ repeat (Sent request) (Z.to_nat (retryCount + 1))))).
Proof.
  split.
  - intros e left retry Hsend Hforeign.
    rewrite (iteration_throws _ _ _ _ _ _ _ Hsend).
    apply not_of_the_library_classes in Hforeign.
    destruct Hforeign as [H | [H | H]]; rewrite H; reflexivity.
  - intros Hall. unfold Iot._query.
    apply loop_of_foreign_errors. exact Hall.
Qed.

End Policy.

(** The claim of C4, that a [RetryableError] is retried after a pause of
    1 s, does not hold: with a transport that throws a [RetryableError] once
    and a budget of 3, the query sends, resets and sends again, and returns;
    it never pauses. *)
Lemma C4_counterexample_retryable_without_backoff :
  let run := Iot._query Scenario.retryable_once "{}" 3 (mk_protocol []) in
  run = (Ok JNull, mk_protocol [Sent "{}"; Reset; Sent "{}"])
  /\ ~ In (Sleep 1000) (events (snd run)).
Proof.
  split.
  - reflexivity.
  - cbn. intros [H | [H | [H | []]]]; discriminate H.
Qed.

(** The policy on transports that always throw an error of one kind, with
    a budget of 3: in the first iteration and, for the timeout, in the
    last. *)
Lemma C4_witness :
  let loop kind := Iot.query_loop (Scenario.always_throws (new_error kind "x")) "{}" 3 in
  let p := mk_protocol [] in
  let p1 := log (Sent "{}") p in
  loop TimeoutError 4%nat 0 p
  = loop TimeoutError 3%nat 1 (log (Sleep 1000) (log Reset p1))
  /\ loop TimeoutError 1%nat 3 p
     = (Throw (new_error TimeoutError "x"), log Reset p1)
  /\ loop ConnectionError 4%nat 0 p = loop ConnectionError 3%nat 1 p1
  /\ loop RetryableError 4%nat 0 p = loop RetryableError 3%nat 1 (log Reset p1)
  /\ loop AuthenticationError 4%nat 0 p
     = (Throw (new_error AuthenticationError "x"), log Reset p1)
  /\ loop DeviceError 4%nat 0 p
     = (Throw (new_error DeviceError "x"), log Reset p1).
Proof.
  intros loop p p1.
  pose proof (fun kind left retry =>
                C4_iot_retry_policy
                  (Scenario.always_throws (new_error kind "x")) "{}" 3 left
                  retry p (new_error kind "x") eq_refl) as H.
  cbv zeta in H.
  split.
  { destruct (H TimeoutError 3%nat 0) as (HT & _).
    apply (proj1 (HT eq_refl)). lia. }
  split.
  { destruct (H TimeoutError 0%nat 3) as (HT & _).
    apply (proj2 (HT eq_refl)). lia. }
  split.
  { destruct (H ConnectionError 3%nat 0) as (_ & HC & _).
    apply (proj1 (HC eq_refl)). lia. }
  split.
  { destruct (H RetryableError 3%nat 0) as (_ & _ & HR & _).
    apply (proj1 (HR eq_refl)). lia. }
  split.
  { destruct (H AuthenticationError 3%nat 0) as (_ & _ & _ & HA & _).
    apply HA. reflexivity. }
  destruct (H DeviceError 3%nat 0) as (_ & _ & _ & _ & HO).
  apply HO. right. right. reflexivity.
Defined.

(** A transport that always throws a [TypeError], with a budget of 3. *)
Lemma C10_witness :
  let e := new_error JsTypeError "x is not a function" in
  Iot.query_loop (Scenario.always_throws e) "{}" 3 4 0 (mk_protocol [])
  = Iot.query_loop (Scenario.always_throws e) "{}" 3 3 (0 + 1)
      (log (Sent "{}") (mk_protocol []))
  /\ Iot._query (Scenario.always_throws e) "{}" 3 (mk_protocol [])
     = (Throw (new_error KasaException "Query reached somehow to unreachable"),
        mk_protocol [Sent "{}"; Sent "{}"; Sent "{}"; Sent "{}"]).
Proof.
  destruct (C10_foreign_error_is_discarded
              (Scenario.always_throws (new_error JsTypeError "x is not a function"))
              "{}" 3 (mk_protocol [])) as [Hstep Hrun].
  split.
  - apply (Hstep (new_error JsTypeError "x is not a function")); reflexivity.
  - apply Hrun. intros k. eexists. split; reflexivity.
Defined.

End IotRetry.

(** ** Bytes and words *)

Module BytesFacts.
Import Js Exceptions Bytes Notions.
Local Open Scope Z_scope.

Lemma lxor_byte (a b : Z) : is_byte a -> is_byte b -> is_byte (Z.lxor a b).
Proof.
  unfold is_byte. intros Ha Hb.
  assert (H : Z.lxor a b = (Z.lxor a b) mod 2 ^ 8).
  { apply Z.bits_inj'. intros n Hn.
    destruct (Z.lt_ge_cases n 8) as [Hl | Hg].
    - rewrite Z.mod_pow2_bits_low by lia. reflexivity.
    - rewrite Z.mod_pow2_bits_high by lia.
      rewrite Z.lxor_spec.
      rewrite <- (Z.mod_small a (2 ^ 8)) by (change (2 ^ 8) with 256; lia).
      rewrite <- (Z.mod_small b (2 ^ 8)) by (change (2 ^ 8) with 256; lia).
      rewrite !Z.mod_pow2_bits_high by lia. reflexivity. }
  rewrite H. change (2 ^ 8) with 256. apply Z.mod_pos_bound. lia.
Qed.

Lemma land_255 (a : Z) : is_byte a -> Z.land a 255 = a.
Proof.
  unfold is_byte. intros H. change 255 with (Z.ones 8).
  rewrite Z.land_ones by lia.
  apply Z.mod_small. change (2 ^ 8) with 256. lia.
Qed.

Lemma bytes_of_bytes (s : string) : Forall is_byte (bytes_of s).
Proof.
  unfold bytes_of. apply Forall_map. apply Forall_forall. intros c _.
  unfold is_byte. pose proof (N_ascii_bounded c). lia.
Qed.

Lemma bytes_of_length (s : string) :
  List.length (bytes_of s) = String.length s.
Proof.
  unfold bytes_of. rewrite List.length_map.
  induction s as [|c s IH]; cbn; [reflexivity | now rewrite IH].
Qed.

(** The string of the bytes of a string is the string. *)
Lemma string_of_bytes_of (s : string) : string_of (bytes_of s) = s.
Proof.
  unfold string_of, bytes_of. rewrite List.map_map.
  rewrite (List.map_ext _ (fun c => c)).
  - rewrite List.map_id. apply string_of_list_ascii_of_string.
  - intros c. rewrite N2Z.id. apply ascii_N_embedding.
Qed.

(** The bytes of the string of bytes are these bytes. *)
Lemma bytes_of_string_of (b : Buffer) :
  Forall is_byte b -> bytes_of (string_of b) = b.
Proof.
  unfold string_of, bytes_of. intros Hb.
  rewrite list_ascii_of_string_of_list_ascii, List.map_map.
  induction Hb as [|x l Hx _ IH]; cbn [map]; [reflexivity|].
  rewrite IH. f_equal. unfold is_byte in Hx.
  rewrite N_ascii_embedding by lia. lia.
Qed.

(** Induction on a list by its length. *)
Lemma list_length_ind {A : Type} (P : list A -> Prop) :
  (forall l, (forall l', (List.length l' < List.length l)%nat -> P l') -> P l) ->
  forall l, P l.
Proof.
  intros Hstep l.
  assert (H : forall n l', (List.length l' < n)%nat -> P l').
  { induction n as [|n IH]; intros l' Hlt; [lia|].
    apply Hstep. intros l'' Hlt'. apply IH. lia. }
  apply (H (S (List.length l))). lia.
Qed.

Lemma replacement_bytes : Forall is_byte replacement.
Proof. repeat constructor; unfold is_byte; lia. Qed.

(** The step of the encoder on three bytes or more. *)
Lemma replace_lone_surrogates_eq (b0 b1 b2 : Z) (rest2 : Buffer) :
  replace_lone_surrogates (b0 :: b1 :: b2 :: rest2)
  = if (b0 =? 237) && (160 <=? b1) && (b1 <=? 191) && is_continuation b2
    then replacement ++ replace_lone_surrogates rest2
    else b0 :: replace_lone_surrogates (b1 :: b2 :: rest2).
Proof. reflexivity. Qed.

Lemma replace_lone_surrogates_other (b0 : Z) (rest : Buffer) :
  b0 <> 237 ->
  replace_lone_surrogates (b0 :: rest) = b0 :: replace_lone_surrogates rest.
Proof.
  intros Hne. destruct rest as [|b1 [|b2 rest2]]; try reflexivity.
  rewrite replace_lone_surrogates_eq.
  replace (b0 =? 237) with false by (symmetry; apply Z.eqb_neq; exact Hne).
  reflexivity.
Qed.

Lemma replace_lone_surrogates_low (b1 : Z) (rest1 : Buffer) :
  b1 < 160 ->
  replace_lone_surrogates (237 :: b1 :: rest1)
  = 237 :: replace_lone_surrogates (b1 :: rest1).
Proof.
  intros Hlt. destruct rest1 as [|b2 rest2]; [reflexivity|].
  rewrite replace_lone_surrogates_eq.
  replace (160 <=? b1) with false by (symmetry; apply Z.leb_gt; exact Hlt).
  reflexivity.
Qed.

(** The encoder keeps the number of bytes, and writes bytes. *)
Lemma replace_lone_surrogates_length (b : Buffer) :
  List.length (replace_lone_surrogates b) = List.length b.
Proof.
  induction b as [b IH] using list_length_ind.
  destruct b as [|b0 [|b1 [|b2 rest2]]]; try reflexivity.
  rewrite replace_lone_surrogates_eq.
  destruct (_ && _).
  - cbn [replacement app List.length]. rewrite IH by (cbn; lia). reflexivity.
  - cbn [List.length]. rewrite (IH (b1 :: b2 :: rest2)) by (cbn; lia).
    reflexivity.
Qed.

Lemma replace_lone_surrogates_bytes (b : Buffer) :
  Forall is_byte b -> Forall is_byte (replace_lone_surrogates b).
Proof.
  induction b as [b IH] using list_length_ind. intros Hb.
  destruct b as [|b0 [|b1 [|b2 rest2]]]; try exact Hb.
  rewrite replace_lone_surrogates_eq.
  pose proof Hb as Hb'.
  apply List.Forall_cons_iff in Hb' as [H0 H12].
  pose proof H12 as H12'.
  apply List.Forall_cons_iff in H12' as [H1 H2'].
  apply List.Forall_cons_iff in H2' as [H2 Hrest].
  destruct (_ && _).
  - apply List.Forall_app. split; [exact replacement_bytes|].
    apply IH; [cbn; lia | exact Hrest].
  - constructor; [exact H0|]. apply IH; [cbn; lia | exact H12].
Qed.

Lemma from_utf8_bytes (s : string) : Forall is_byte (from_utf8 s).
Proof. apply replace_lone_surrogates_bytes, bytes_of_bytes. Qed.

Lemma from_utf8_length (s : string) :
  List.length (from_utf8 s) = String.length s.
Proof.
  unfold from_utf8. rewrite replace_lone_surrogates_length.
  apply bytes_of_length.
Qed.

(** On well-formed UTF-8 the encoder replaces nothing ... *)
Lemma replace_lone_surrogates_well_formed (b : Buffer) :
  well_formed_utf8 b = true -> replace_lone_surrogates b = b.
Proof.
  induction b as [b IH] using list_length_ind. intros Hwf.
  destruct b as [|b0 rest]; [reflexivity|].
  cbn [well_formed_utf8] in Hwf. unfold is_continuation in Hwf.
  destruct ((0 <=? b0) && (b0 <=? 127)) eqn:H1.
  { rewrite replace_lone_surrogates_other by lia.
    rewrite IH; [reflexivity | cbn; lia | exact Hwf]. }
  destruct ((194 <=? b0) && (b0 <=? 223)) eqn:H2.
  { destruct rest as [|b1 rest1]; [discriminate|].
    apply andb_prop in Hwf as [Hc1 Hrest1].
    rewrite !replace_lone_surrogates_other by lia.
    rewrite IH; [reflexivity | cbn; lia | exact Hrest1]. }
  destruct ((224 <=? b0) && (b0 <=? 239)) eqn:H3.
  { destruct rest as [|b1 [|b2 rest2]]; try discriminate.
    apply andb_prop in Hwf as [Hwf Hrest2].
    apply andb_prop in Hwf as [Hwf Hc2].
    apply andb_prop in Hwf as [Hlo Hup].
    assert (Hhead : replace_lone_surrogates (b0 :: b1 :: b2 :: rest2)
                    = b0 :: replace_lone_surrogates (b1 :: b2 :: rest2)).
    { destruct (Z.eq_dec b0 237) as [-> | Hne].
      - apply replace_lone_surrogates_low. cbn in Hup. lia.
      - apply replace_lone_surrogates_other. exact Hne. }
    rewrite Hhead.
    assert (Hb1 : b1 <> 237) by (destruct (b0 =? 237); lia).
    rewrite !replace_lone_surrogates_other by lia.
    rewrite IH; [reflexivity | cbn; lia | exact Hrest2]. }
  destruct ((240 <=? b0) && (b0 <=? 244)) eqn:H4; [|discriminate].
  destruct rest as [|b1 [|b2 [|b3 rest3]]]; try discriminate.
  apply andb_prop in Hwf as [Hwf Hrest3].
  apply andb_prop in Hwf as [Hwf Hc3].
  apply andb_prop in Hwf as [Hwf Hc2].
  apply andb_prop in Hwf as [Hlo Hup].
  assert (Hb1 : b1 <> 237) by (destruct (b0 =? 244); lia).
  rewrite !replace_lone_surrogates_other by lia.
  rewrite IH; [reflexivity | cbn; lia | exact Hrest3].
Qed.

(** ... and the decoder keeps every byte. *)
Lemma decode_utf8_well_formed (b : Buffer) :
  well_formed_utf8 b = true -> decode_utf8 b = b.
Proof.
  induction b as [b IH] using list_length_ind. intros Hwf.
  destruct b as [|b0 rest]; [reflexivity|].
  cbn [well_formed_utf8] in Hwf. cbn [decode_utf8].
  destruct ((0 <=? b0) && (b0 <=? 127)).
  { rewrite IH; [reflexivity | cbn; lia | exact Hwf]. }
  destruct ((194 <=? b0) && (b0 <=? 223)).
  { destruct rest as [|b1 rest1]; [discriminate|].
    apply andb_prop in Hwf as [-> Hrest1].
    rewrite IH; [reflexivity | cbn; lia | exact Hrest1]. }
  destruct ((224 <=? b0) && (b0 <=? 239)).
  { destruct rest as [|b1 [|b2 rest2]]; try discriminate.
    apply andb_prop in Hwf as [Hwf Hrest2].
    apply andb_prop in Hwf as [-> ->]. cbv zeta.
    rewrite IH; [reflexivity | cbn; lia | exact Hrest2]. }
  destruct ((240 <=? b0) && (b0 <=? 244)); [|discriminate].
  destruct rest as [|b1 [|b2 [|b3 rest3]]]; try discriminate.
  apply andb_prop in Hwf as [Hwf Hrest3].
  apply andb_prop in Hwf as [Hwf ->].
  apply andb_prop in Hwf as [-> ->]. cbv zeta.
  rewrite IH; [reflexivity | cbn; lia | exact Hrest3].
Qed.

(** Decoding the bytes of a well-formed string gives the string back. *)
Lemma to_utf8_from_utf8 (s : string) :
  well_formed s = true -> to_utf8 (from_utf8 s) = s.
Proof.
  unfold well_formed, to_utf8, from_utf8. intros Hwf.
  rewrite replace_lone_surrogates_well_formed by exact Hwf.
  rewrite decode_utf8_well_formed by exact Hwf.
  apply string_of_bytes_of.
Qed.

Lemma from_array_bytes (l : list Z) : Forall is_byte l -> from_array l = l.
Proof.
  unfold from_array. induction 1 as [|b l Hb _ IH]; cbn.
  - reflexivity.
  - rewrite land_255 by exact Hb. now rewrite IH.
Qed.

Lemma be32_values (w : Z) :
  be32 w = [ (w / 16777216) mod 256; (w / 65536) mod 256;
             (w / 256) mod 256; w mod 256 ].
Proof.
  unfold be32. change 255 with (Z.ones 8).
  rewrite !Z.land_ones, !Z.shiftr_div_pow2 by lia. reflexivity.
Qed.

(** Reading back the four bytes of an unsigned 32-bit word. *)
Lemma readUInt32BE_be32 (w : Z) (rest : Buffer) :
  0 <= w < 4294967296 -> readUInt32BE (be32 w ++ rest) = Returned w.
Proof.
  intros Hw. rewrite be32_values. cbn [app readUInt32BE]. f_equal.
  Z.div_mod_to_equations. lia.
Qed.

(** Reading back the four bytes of a signed 32-bit word. *)
Lemma readInt32BE_be32 (n : Z) :
  -2147483648 <= n <= 2147483647 ->
  readInt32BE (be32 (n mod 4294967296)) = Returned n.
Proof.
  intros Hn. unfold readInt32BE.
  rewrite <- (List.app_nil_r (be32 _)).
  rewrite readUInt32BE_be32 by (apply Z.mod_pos_bound; lia).
  f_equal.
  destruct (n mod 4294967296 >=? 2147483648) eqn:Hge;
    rewrite Z.geb_leb in Hge;
    [apply Z.leb_le in Hge | apply Z.leb_gt in Hge];
    Z.div_mod_to_equations; lia.
Qed.

Lemma firstn_be32 (w : Z) (rest : Buffer) : firstn 4 (be32 w ++ rest) = be32 w.
Proof. reflexivity. Qed.

Lemma skipn_be32 (w : Z) (rest : Buffer) : skipn 4 (be32 w ++ rest) = rest.
Proof. reflexivity. Qed.

Lemma last_bytes_app (a b : Buffer) (n : nat) :
  List.length b = n -> last_bytes n (a ++ b) = b.
Proof.
  intros <-. unfold last_bytes. rewrite List.length_app.
  replace (List.length a + List.length b - List.length b)%nat
    with (List.length a) by lia.
  rewrite List.skipn_app, List.skipn_all, Nat.sub_diag. reflexivity.
Qed.

End BytesFacts.

(** ** The XOR stream *)

Module XorFacts.
Import Js Exceptions Bytes Notions BytesFacts XorEncryption.
Local Open Scope Z_scope.

(** The stream of [_xorPayload] stays within bytes. *)
Lemma xorPayload_bytes (l : Buffer) :
  Forall is_byte l -> forall key, is_byte key ->
  Forall is_byte (xorPayload_from key l).
Proof.
  induction 1 as [|b l Hb _ IH]; intros key Hk; cbn.
  - constructor.
  - constructor.
    + apply lxor_byte; assumption.
    + apply IH. apply lxor_byte; assumption.
Qed.

(** [_xorEncryptedPayload] undoes [_xorPayload] from the same key. *)
Lemma xor_stream_inverse (l : Buffer) (key : Z) :
  xorEncryptedPayload_from key (xorPayload_from key l) = l.
Proof.
  revert key. induction l as [|b l IH]; intros key; cbn.
  - reflexivity.
  - rewrite IH. f_equal.
    rewrite <- Z.lxor_assoc, Z.lxor_nilpotent, Z.lxor_0_l. reflexivity.
Qed.

Lemma xorEncryptedPayload_bytes (l : Buffer) :
  Forall is_byte l -> forall key, is_byte key ->
  Forall is_byte (xorEncryptedPayload_from key l).
Proof.
  induction 1 as [|b l Hb _ IH]; intros key Hk; cbn.
  - constructor.
  - constructor.
    + apply lxor_byte; assumption.
    + apply IH. assumption.
Qed.

Lemma iv_is_byte : is_byte INITIALIZATION_VECTOR.
Proof. unfold is_byte, INITIALIZATION_VECTOR. lia. Qed.

(** Decrypting the stream of a string gives the string as the decoder
    reads its encoding. *)
Lemma decrypt_stream (P : string) :
  decrypt (from_array (_xorPayload (from_utf8 P))) = to_utf8 (from_utf8 P).
Proof.
  unfold decrypt, _xorEncryptedPayload, _xorPayload.
  pose proof (xorPayload_bytes _ (from_utf8_bytes P) _ iv_is_byte) as Hb.
  rewrite (from_array_bytes _ Hb).
  rewrite xor_stream_inverse.
  rewrite (from_array_bytes _ (from_utf8_bytes P)).
  reflexivity.
Qed.

(** C8 (corrected).  For every plaintext [P] of fewer than 2^32 bytes (a
    buffer holds no more), [encrypt] returns a frame whose first 4 bytes are
    the big-endian 32-bit length of the UTF-8 encoding of [P]; decrypting
    the frame without these 4 bytes gives what the decoder reads in that
    encoding, which is [P] itself when [P] is well formed, that is, has no
    surrogate without its partner. *)
Theorem C8_xor_roundtrip_and_length_prefix (P : string) :
  Z.of_nat (List.length (from_utf8 P)) < 4294967296 ->
  exists frame,
    encrypt P = Returned frame
    /\ decrypt (skipn 4 frame) = to_utf8 (from_utf8 P)
    /\ (well_formed P = true -> decrypt (skipn 4 frame) = P)
    /\ firstn 4 frame = be32 (Z.of_nat (List.length (from_utf8 P)))
    /\ readUInt32BE (firstn 4 frame)
       = Returned (Z.of_nat (List.length (from_utf8 P))).
Proof.
  intros Hlen. unfold encrypt, writeUInt32BE.
  assert (Hin : (0 <=? Z.of_nat (List.length (from_utf8 P)))
                && (Z.of_nat (List.length (from_utf8 P)) <=? 4294967295) = true).
  { apply andb_true_intro. split; apply Z.leb_le; lia. }
  rewrite Hin. eexists. split; [reflexivity|].
  rewrite skipn_be32, firstn_be32.
  split; [apply decrypt_stream|].
  split; [intros Hwf; rewrite decrypt_stream; apply to_utf8_from_utf8, Hwf|].
  split; [reflexivity|].
  rewrite <- (List.app_nil_r (be32 _)).
  apply readUInt32BE_be32. lia.
Qed.

(** The claim of C8, that every string comes back, does not hold: the
    string of the one code unit D800, a surrogate without its partner, is
    encoded as U+FFFD (EF BF BD), and U+FFFD is what [decrypt] returns. *)
Lemma C8_counterexample_lone_surrogate :
  let P := string_of [237; 160; 128] in
  XorEncryption.encrypt P = Returned [0; 0; 0; 3; 68; 251; 70]
  /\ from_utf8 P = replacement
  /\ decrypt (skipn 4 [0; 0; 0; 3; 68; 251; 70]) = string_of replacement
  /\ decrypt (skipn 4 [0; 0; 0; 3; 68; 251; 70]) <> P.
Proof.
  cbv zeta. split; [reflexivity|]. split; [reflexivity|].
  split; [reflexivity|]. discriminate.
Qed.

End XorFacts.

(** ** The KLAP encryption session *)

Module KlapFacts.
Import Js Exceptions Bytes Notions BytesFacts Klap.
Local Open Scope Z_scope.

Lemma writeInt32BE_cases (n : Z) :
  (in_int32 n /\ writeInt32BE n = Returned (be32 (n mod 4294967296)))
  \/ (~ in_int32 n /\ writeInt32BE n = Thrown out_of_range).
Proof.
  unfold writeInt32BE, in_int32.
  destruct (-2147483648 <=? n) eqn:H1; destruct (n <=? 2147483647) eqn:H2;
    cbn [andb];
    try apply Z.leb_le in H1; try apply Z.leb_gt in H1;
    try apply Z.leb_le in H2; try apply Z.leb_gt in H2;
    [left | right | right | right]; split; try reflexivity; lia.
Qed.

Section Session.

Variable sha256 : Buffer -> Buffer.
Variable aes_128_cbc_encrypt : Buffer -> Buffer -> Buffer -> Buffer.
Variable aes_128_cbc_decrypt : Buffer -> Buffer -> Buffer -> may_throw js_error Buffer.

Abbreviation encrypt := (Klap.encrypt sha256 aes_128_cbc_encrypt).
Abbreviation decrypt := (Klap.decrypt aes_128_cbc_decrypt).
Abbreviation encrypt_all := (Klap.encrypt_all sha256 aes_128_cbc_encrypt).
Abbreviation new_session := (Klap.new_session sha256).
Abbreviation _ivDerive := (Klap._ivDerive sha256).

(** [encrypt] changes [_seq], by one, and nothing else; it does so also
    when it throws. *)
Lemma encrypt_session (s : KlapEncryptionSession) (msg : message) :
  snd (encrypt s msg) = set_seq (_seq s + 1) s.
Proof.
  unfold Klap.encrypt, _generateCipher, packSignedLong.
  destruct (writeInt32BE_cases (_seq (set_seq (_seq s + 1) s))) as [[_ ->] | [_ ->]];
    reflexivity.
Qed.

Lemma decrypt_session (s : KlapEncryptionSession) (msg : Buffer) :
  snd (decrypt s msg) = s.
Proof.
  unfold Klap.decrypt, _generateDecipher, _generateCipher.
  destruct (packSignedLong (_seq s)); [|reflexivity].
  destruct (aes_128_cbc_decrypt _ _ _); reflexivity.
Qed.

Lemma encrypt_all_session (msgs : list message) (s : KlapEncryptionSession) :
  encrypt_all s msgs = set_seq (_seq s + Z.of_nat (List.length msgs)) s.
Proof.
  revert s. induction msgs as [|m msgs IH]; intros s.
  - cbn. rewrite Z.add_0_r. destruct s; reflexivity.
  - cbn [Klap.encrypt_all List.length]. rewrite encrypt_session, IH.
    destruct s; unfold set_seq; cbn [localSeed remoteSeed userHash _key _iv _seq _sig].
    f_equal. lia.
Qed.

(** What [encrypt] returns: the sequence number after the increment, which
    is the one in the last four bytes of the vector of the cipher; it throws
    exactly when that number does not fit a signed 32-bit word. *)
Lemma encrypt_result (s : KlapEncryptionSession) (msg : message) :
  let q := _seq s + 1 in
  match fst (encrypt s msg) with
  | Returned (out, seq) =>
      in_int32 q /\ seq = q
      /\ exists ivSeq padded,
           _generateCipher (snd (encrypt s msg)) = Returned (_key s, ivSeq)
           /\ ivSeq = _iv s ++ be32 (q mod 4294967296)
           /\ last_bytes 4 ivSeq = be32 (q mod 4294967296)
           /\ readInt32BE (last_bytes 4 ivSeq) = Returned seq
           /\ out = sha256 (_sig s ++ be32 (q mod 4294967296)
                            ++ aes_128_cbc_encrypt (_key s) ivSeq padded)
                    ++ aes_128_cbc_encrypt (_key s) ivSeq padded
  | Thrown e => ~ in_int32 q /\ cls e = JsRangeError
  end.
Proof.
  intros q. rewrite encrypt_session.
  unfold Klap.encrypt, _generateCipher, packSignedLong.
  cbn [_seq set_seq _key _iv _sig].
  destruct (writeInt32BE_cases q) as [[Hq Hw] | [Hq Hw]]; fold q; rewrite Hw.
  - cbn [fst]. split; [exact Hq|]. split; [reflexivity|].
    do 2 eexists. split; [reflexivity|]. split; [reflexivity|].
    rewrite last_bytes_app by reflexivity.
    split; [reflexivity|].
    split; [apply readInt32BE_be32; exact Hq | reflexivity].
  - cbn [fst]. split; [exact Hq | reflexivity].
Qed.

(** C7.  For every session and every [n] messages, the sequence number
    after [n] calls of [encrypt] is the one before plus [n], and no other
    field has changed; each call adds exactly 1, so the number grows
    strictly; [decrypt] changes nothing; a session made by the constructor
    starts from the number that [_ivDerive] read from the hash; and the
    number that [encrypt] returns is the one held, big-endian, by the last
    4 bytes of the vector that the cipher was made with, the ciphertext
    being signed and encrypted under that vector.  The constructor fails
    only with a RangeError (a hash shorter than 4 bytes), and [encrypt]
    only when the incremented number leaves the signed 32-bit range. *)
Theorem C7_klap_sequence_number (s : KlapEncryptionSession)
    (msgs : list message) (msg : message) (ciphertext : Buffer)
    (ls rs uh : Buffer) :
  encrypt_all s msgs = set_seq (_seq s + Z.of_nat (List.length msgs)) s
  /\ snd (encrypt s msg) = set_seq (_seq s + 1) s
  /\ _seq s < _seq (snd (encrypt s msg))
  /\ snd (decrypt s ciphertext) = s
  /\ match new_session ls rs uh with
     | Returned s0 =>
         exists iv seq0,
           _ivDerive ls rs uh = Returned (iv, seq0)
           /\ _seq (encrypt_all s0 msgs) = seq0 + Z.of_nat (List.length msgs)
     | Thrown e => cls e = JsRangeError
     end
  /\ match fst (encrypt s msg) with
     | Returned (out, seq) =>
         seq = _seq (snd (encrypt s msg))
         /\ exists ivSeq padded,
              _generateCipher (snd (encrypt s msg)) = Returned (_key s, ivSeq)
              /\ ivSeq = _iv s ++ last_bytes 4 ivSeq
              /\ readInt32BE (last_bytes 4 ivSeq) = Returned seq
              /\ out = sha256 (_sig s ++ last_bytes 4 ivSeq
                               ++ aes_128_cbc_encrypt (_key s) ivSeq padded)
                       ++ aes_128_cbc_encrypt (_key s) ivSeq padded
     | Thrown e => ~ in_int32 (_seq s + 1) /\ cls e = JsRangeError
     end.
Proof.
  split; [apply encrypt_all_session|].
  split; [apply encrypt_session|].
  split; [rewrite encrypt_session; cbn; lia|].
  split; [apply decrypt_session|].
  split.
  - unfold Klap.new_session, Klap._ivDerive, readInt32BE.
    destruct (readUInt32BE _) as [u | e] eqn:Hread.
    + do 2 eexists. split; [reflexivity|].
      rewrite encrypt_all_session. reflexivity.
    + unfold readUInt32BE in Hread.
      destruct (last_bytes 4 _) as [|b0 [|b1 [|b2 [|b3 rest]]]];
        try discriminate Hread; injection Hread as <-; reflexivity.
  - pose proof (encrypt_result s msg) as H. cbv zeta in H.
    destruct (fst (encrypt s msg)) as [[out seq] | e]; [|exact H].
    destruct H as (Hq & Hseq & ivSeq & padded & Hc & Hiv & Hlast & Hread & Hout).
    split.
    + rewrite encrypt_session. cbn. exact Hseq.
    + exists ivSeq, padded. rewrite Hlast.
      split; [exact Hc|]. split; [exact Hiv|].
      split; [rewrite <- Hlast; exact Hread | exact Hout].
Qed.

End Session.

End KlapFacts.

(** ** Objects as association lists *)

Module AssocFacts.
Import Js.

Lemma assoc_set_eq {A : Type} (k : string) (v : A) (fields : list (string * A)) :
  assoc k (assoc_set k v fields) = Some v.
Proof.
  induction fields as [|[k' v'] rest IH]; cbn.
  - now rewrite String.eqb_refl.
  - destruct (String.eqb k k') eqn:E; cbn.
    + now rewrite String.eqb_refl.
    + now rewrite E.
Qed.

Lemma assoc_set_ne {A : Type} (k k0 : string) (v : A) (fields : list (string * A)) :
  k0 <> k -> assoc k0 (assoc_set k v fields) = assoc k0 fields.
Proof.
  intros Hne. induction fields as [|[k' v'] rest IH]; cbn.
  - destruct (String.eqb k0 k) eqn:E; [|reflexivity].
    apply String.eqb_eq in E. contradiction.
  - destruct (String.eqb k k') eqn:E; cbn.
    + apply String.eqb_eq in E. subst k'.
      destruct (String.eqb k0 k) eqn:E0; [|reflexivity].
      apply String.eqb_eq in E0. contradiction.
    + destruct (String.eqb k0 k'); [reflexivity | exact IH].
Qed.

End AssocFacts.

(** ** The Smart protocol: what a query does to the protocol object *)

Module SmartFacts.
Import Js Exceptions Eff Smart Notions ExceptionsFacts AssocFacts.
Local Open Scope Z_scope.

Lemma keeps_ret {A : Type} (a : A) : keeps_batch_size (ret a).
Proof. intros p. reflexivity. Qed.

Lemma keeps_throw {A : Type} (e : js_error) : keeps_batch_size (@throw _ A e).
Proof. intros p. reflexivity. Qed.

Lemma keeps_diverge {A : Type} :
  keeps_batch_size (fun p : SmartProtocol => (@Diverge js_error A, p)).
Proof. intros p. reflexivity. Qed.

Lemma keeps_get : keeps_batch_size (@get SmartProtocol).
Proof. intros p. reflexivity. Qed.

Lemma keeps_bind {A B : Type} (m : M SmartProtocol A) (k : A -> M SmartProtocol B) :
  keeps_batch_size m -> (forall a, keeps_batch_size (k a)) ->
  keeps_batch_size (bind m k).
Proof.
  intros Hm Hk p. unfold bind. specialize (Hm p).
  destruct (m p) as [[a | e |] p']; cbn in *; try exact Hm.
  rewrite (Hk a p'). exact Hm.
Qed.

(** A [catch] block need only keep the batch size for the errors that the
    [try] block can throw. *)
Lemma keeps_try_catch {A : Type} (m : M SmartProtocol A)
    (h : js_error -> M SmartProtocol A) :
  keeps_batch_size m ->
  (forall p e p', m p = (Throw e, p') ->
     _multiRequestBatchSize (snd (h e p')) = _multiRequestBatchSize p') ->
  keeps_batch_size (try_catch m h).
Proof.
  intros Hm Hh p. unfold try_catch. specialize (Hm p). specialize (Hh p).
  destruct (m p) as [[a | e |] p']; cbn in *; try exact Hm.
  rewrite (Hh e p' eq_refl). exact Hm.
Qed.

Lemma keeps_or_type_error {A : Type} (msg : string) (v : option A) :
  keeps_batch_size (@or_type_error SmartProtocol A msg v).
Proof. destruct v; [apply keeps_ret | apply keeps_throw]. Qed.

Lemma keeps_log (e : event) : keeps_batch_size (modify (log e)).
Proof. intros p. reflexivity. Qed.

Lemma keeps_set_methodMissingLogged (b : bool) :
  keeps_batch_size (modify (set_methodMissingLogged b)).
Proof. intros p. reflexivity. Qed.

Create HintDb keeps.

#[local] Hint Resolve keeps_ret keeps_throw keeps_diverge keeps_get
  keeps_or_type_error keeps_log keeps_set_methodMissingLogged : keeps.

Section Protocol.

Variable JSON_stringify : json -> string.
Variable StringToNumber : string -> option Z.
Variable Date_now : nat -> Z.
Variable transport_send : nat -> string -> may_throw js_error json.

Abbreviation send := (Smart.send transport_send).
Abbreviation getSmartRequest := (Smart.getSmartRequest JSON_stringify Date_now).

Lemma keeps_send (request : string) : keeps_batch_size (send request).
Proof.
  intros p. unfold Smart.send.
  destruct (transport_send (sent_count p) request); reflexivity.
Qed.

Lemma keeps_getSmartRequest (method : json) (params : option json) :
  keeps_batch_size (getSmartRequest method params).
Proof. intros p. reflexivity. Qed.

Lemma keeps_set_result (respDict v : json) :
  keeps_batch_size (set_result respDict v).
Proof. destruct respDict; auto with keeps. Qed.

(** The handler reads the protocol and never writes it. *)
Lemma handler_state (respDict : json) (method : string) (raiseOnError : bool)
    (p : SmartProtocol) :
  snd (_handleResponseErrorCode respDict method raiseOnError p) = p.
Proof.
  unfold _handleResponseErrorCode, bind, or_type_error, get, ret, throw.
  destruct (get_prop (Some respDict) "error_code") as [raw|]; [|reflexivity].
  destruct (same_prim _ _); [reflexivity|].
  destruct raiseOnError; cbn [negb].
  - destruct (has_prim LOCAL_SMART_RETRYABLE_ERRORS _); [reflexivity|].
    destruct (has_prim LOCAL_SMART_AUTHENTICATION_ERRORS _); reflexivity.
  - destruct respDict; reflexivity.
Qed.

Lemma keeps_handler (respDict : json) (method : string) (raiseOnError : bool) :
  keeps_batch_size (_handleResponseErrorCode respDict method raiseOnError).
Proof. intros p. now rewrite handler_state. Qed.

(** What the handler throws is a [TypeError] without a code, or an error
    that carries the object made by [fromInt]: never one whose [errorCode]
    is a number. *)
Lemma handler_error (respDict : json) (method : string) (raiseOnError : bool)
    (p p' : SmartProtocol) (e : js_error) :
  _handleResponseErrorCode respDict method raiseOnError p = (Throw e, p') ->
  errorCode e = None \/ exists f, errorCode e = Some (JObj f).
Proof.
  unfold _handleResponseErrorCode, bind, or_type_error, get, ret, throw.
  destruct (get_prop (Some respDict) "error_code") as [raw|].
  - destruct (fromInt_object raw) as (name & value & ->).
    destruct (same_prim _ _); [discriminate|].
    destruct raiseOnError; cbn [negb].
    + destruct (has_prim LOCAL_SMART_RETRYABLE_ERRORS _);
        [|destruct (has_prim LOCAL_SMART_AUTHENTICATION_ERRORS _)];
        intros [= <- _]; right; eexists; reflexivity.
    + destruct respDict; cbn; intros [= <- _]; left; reflexivity.
  - intros [= <- _]. left. reflexivity.
Qed.

(** So the test that guards the demotion of the batch size fails for every
    error that the handler throws. *)
Lemma demotion_test_fails (respDict : json) (method : string) (raiseOnError : bool)
    (p p' : SmartProtocol) (e : js_error) :
  _handleResponseErrorCode respDict method raiseOnError p = (Throw e, p') ->
  has_prim [SmartErrorCode "JSON_DECODE_FAIL_ERROR";
            SmartErrorCode "INTERNAL_UNKNOWN_ERROR"] (errorCode e) = false.
Proof.
  intros H. destruct (handler_error _ _ _ _ _ _ H) as [-> | [f ->]].
  - reflexivity.
  - apply has_prim_object.
Qed.

#[local] Hint Resolve keeps_send keeps_getSmartRequest keeps_set_result
  keeps_handler : keeps.

(** Apply the rules for [bind], [match] and [if] as far as they go. *)
Ltac keeps_step :=
  match goal with
  | |- keeps_batch_size (bind _ _) => apply keeps_bind; [|intros ?]
  | |- keeps_batch_size (match ?x with _ => _ end) => destruct x
  | |- keeps_batch_size (if ?b then _ else _) => destruct b
  | |- keeps_batch_size (let (_, _) := ?x in _) => destruct x
  | |- keeps_batch_size _ => solve [auto with keeps]
  end.

Ltac keeps_auto := repeat keeps_step.

Section Query.

Variable iterateListPages : bool.
Variable handleResponseLists : json -> string -> option json -> M SmartProtocol json.
Hypothesis keeps_handleResponseLists :
  forall r m params, keeps_batch_size (handleResponseLists r m params).

Abbreviation iterate_lists := (Smart.iterate_lists iterateListPages handleResponseLists).

Lemma keeps_iterate_lists (result : option json) (method : string)
    (params : option json) :
  keeps_batch_size (iterate_lists result method params).
Proof.
  unfold Smart.iterate_lists.
  destruct result as [r|]; [|auto with keeps].
  destruct (iterateListPages && truthy r); [|auto with keeps].
  apply keeps_bind; [apply keeps_handleResponseLists | auto with keeps].
Qed.

Hint Resolve keeps_iterate_lists : keeps.

Lemma keeps_executeSingle (smartMethod : string) (smartParams : json) :
  keeps_batch_size
    (Smart.executeSingle JSON_stringify Date_now transport_send
       iterateListPages handleResponseLists smartMethod smartParams).
Proof. unfold Smart.executeSingle. keeps_auto. Qed.

Lemma keeps_send_singly (raiseOnError : bool)
    (multiRequests : list (string * option json)) :
  forall multiResult,
    keeps_batch_size
      (Smart.send_singly JSON_stringify Date_now transport_send raiseOnError
         multiRequests multiResult).
Proof.
  induction multiRequests as [|[method params] rest IH]; intros multiResult;
    cbn [Smart.send_singly].
  - auto with keeps.
  - keeps_auto; try apply IH.
Qed.

Lemma keeps_read_responses (raiseOnError : bool) (requests : list (string * json))
    (responses : list json) :
  forall multiResult,
    keeps_batch_size
      (Smart.read_responses iterateListPages handleResponseLists raiseOnError
         requests responses multiResult).
Proof.
  induction responses as [|response rest IH]; intros multiResult;
    cbn [Smart.read_responses].
  - auto with keeps.
  - apply keeps_bind; [auto with keeps | intros method].
    destruct (negb (truthy_opt method)).
    + apply keeps_bind; [auto with keeps | intros _; apply IH].
    + keeps_auto; try apply IH.
Qed.

Lemma keeps_requery_missing (raiseOnError : bool) (requests : list (string * json)) :
  forall multiResult,
    keeps_batch_size
      (Smart.requery_missing JSON_stringify Date_now transport_send raiseOnError
         requests multiResult).
Proof.
  induction requests as [|[method params] rest IH]; intros multiResult;
    cbn [Smart.requery_missing].
  - auto with keeps.
  - destruct (in_object method multiResult); [apply IH|].
    keeps_auto; try apply IH.
Qed.

(** The batch loop: the [catch] of the batch-level handler call holds the
    only assignment to [_multiRequestBatchSize], behind a test that no
    error of the handler passes. *)
Lemma keeps_send_batches (raiseOnError : bool) (requests : list (string * json))
    (count : nat) (batches : list (list (string * option json))) :
  forall batchNum multiResult,
    keeps_batch_size
      (Smart.send_batches JSON_stringify Date_now transport_send
         iterateListPages handleResponseLists raiseOnError requests count
         batchNum batches multiResult).
Proof.
  induction batches as [|requestsStep rest IH]; intros batchNum multiResult;
    cbn [Smart.send_batches].
  - auto with keeps.
  - apply keeps_bind; [auto with keeps | intros smartRequest].
    apply keeps_bind; [auto with keeps | intros responseStep].
    apply keeps_bind.
    + apply keeps_try_catch; [auto with keeps|].
      intros p e p' Hthrow.
      unfold bind, get.
      rewrite (demotion_test_fails _ _ _ _ _ _ Hthrow).
      rewrite andb_false_r. reflexivity.
    + intros responseStep'.
      apply keeps_bind; [auto with keeps | intros result].
      apply keeps_bind; [auto with keeps | intros responses].
      apply keeps_bind; [auto with keeps | intros items].
      apply keeps_bind; [apply keeps_read_responses | intros multiResult'].
      apply IH.
Qed.

Lemma keeps_executeMultipleQuery (requests : list (string * json)) :
  keeps_batch_size
    (Smart._executeMultipleQuery JSON_stringify Date_now transport_send
       iterateListPages handleResponseLists requests).
Proof.
  unfold Smart._executeMultipleQuery.
  apply keeps_bind; [auto with keeps | intros p0].
  destruct (_multiRequestBatchSize p0 =? 1); [apply keeps_send_singly|].
  destruct (make_batches _ _ _ _ _) as [batches|]; [|auto with keeps].
  apply keeps_bind; [apply keeps_send_batches | intros multiResult].
  apply keeps_requery_missing.
Qed.

Lemma keeps_executeQuery (request : query_request) :
  keeps_batch_size
    (Smart.executeQuery JSON_stringify Date_now transport_send
       iterateListPages handleResponseLists request).
Proof.
  destruct request as [method | requests]; cbn [Smart.executeQuery].
  - apply keeps_executeSingle.
  - destruct requests as [|[m params] [|r rest]];
      first [apply keeps_executeSingle
            | apply keeps_bind;
              [apply keeps_executeMultipleQuery | auto with keeps]].
Qed.

End Query.

Abbreviation _executeQuery_no_pages :=
  (Smart._executeQuery_no_pages JSON_stringify Date_now transport_send).
Abbreviation list_pages :=
  (Smart.list_pages JSON_stringify StringToNumber Date_now transport_send).
Abbreviation _handleResponseLists :=
  (Smart._handleResponseLists JSON_stringify StringToNumber Date_now transport_send).
Abbreviation _executeQuery :=
  (Smart._executeQuery JSON_stringify StringToNumber Date_now transport_send).
Abbreviation query_loop :=
  (Smart.query_loop JSON_stringify StringToNumber Date_now transport_send).
Abbreviation _query :=
  (Smart._query JSON_stringify StringToNumber Date_now transport_send).

Lemma keeps_executeQuery_no_pages (request : query_request) :
  keeps_batch_size (_executeQuery_no_pages request).
Proof.
  apply keeps_executeQuery. intros r m params. apply keeps_ret.
Qed.

Lemma keeps_list_pages (fuel : nat) (method : string) (params : option json)
    (responseListName : string) :
  forall responseResult,
    keeps_batch_size (list_pages fuel method params responseListName responseResult).
Proof.
  induction fuel as [|fuel IH]; intros responseResult; cbn [Smart.list_pages].
  - destruct (lt_number _ _ _); auto with keeps.
  - destruct (lt_number _ _ _); [|auto with keeps].
    apply keeps_bind; [apply keeps_executeQuery_no_pages | intros response].
    apply keeps_bind; [auto with keeps | intros page].
    destruct page as [v|]; [|auto with keeps].
    destruct (negb (truthy v) || length_is_zero v); [auto with keeps|].
    destruct (spread_elements v); [apply IH | auto with keeps].
Qed.

Lemma keeps_handleResponseLists (fuel : nat) (responseResult : json)
    (method : string) (params : option json) :
  keeps_batch_size (_handleResponseLists fuel responseResult method params).
Proof.
  unfold Smart._handleResponseLists.
  destruct (negb (truthy responseResult)); [auto with keeps|].
  destruct responseResult; auto with keeps.
  destruct (negb (has_key "start_index" fields) || _); [auto with keeps|].
  destruct (find_list_name fields) as [name|]; [|auto with keeps].
  destruct (String.eqb name EmptyString); [auto with keeps|].
  apply keeps_bind; [apply keeps_list_pages | auto with keeps].
Qed.

Lemma keeps_executeQuery_pages (fuel : nat) (request : query_request) :
  keeps_batch_size (_executeQuery fuel request).
Proof.
  apply keeps_executeQuery. intros r m params. apply keeps_handleResponseLists.
Qed.

Lemma keeps_query_loop (fuel : nat) (request : query_request) (retryCount : Z)
    (left : nat) :
  forall retry, keeps_batch_size (query_loop fuel request retryCount left retry).
Proof.
  induction left as [|left IH]; intros retry; cbn [Smart.query_loop].
  - auto with keeps.
  - apply keeps_try_catch; [apply keeps_executeQuery_pages|].
    intros p e p' _.
    repeat match goal with
           | |- context [if ?b then _ else _] => destruct b
           end;
      unfold bind, reset, sleep, modify, throw; cbn [snd];
      try reflexivity; rewrite IH; reflexivity.
Qed.

(** No query changes the batch size, however it ends. *)
Lemma keeps_query (fuel : nat) (request : query_request) (retryCount : Z) :
  keeps_batch_size (_query fuel request retryCount).
Proof. apply keeps_query_loop. Qed.

End Protocol.

(** C3 (as the code has it).  No query ever changes the batch size of a
    Smart protocol, so a batch size of 1 stays 1, but a larger one is never
    set to 1 either.  When a device answers every request with the batch
    error [JSON_DECODE_FAIL_ERROR] (-1003) or [INTERNAL_UNKNOWN_ERROR]
    (-100000), a query for two methods on a fresh protocol sends one batch,
    throws a [DeviceError] with that code (not a retryable error, so it is
    not retried), resets the transport and leaves the batch size at 5. *)
Theorem C3_batch_size_is_never_demoted :
  (forall JSON_stringify StringToNumber Date_now transport_send
          fuel request retryCount p,
      _multiRequestBatchSize
        (snd (Smart._query JSON_stringify StringToNumber Date_now
                transport_send fuel request retryCount p))
      = _multiRequestBatchSize p)
  /\ (exists msg request,
        fst (SmartScenario.batch_error_query (-1003))
        = Throw (mk_error DeviceError msg
                   (Some (code_object "JSON_DECODE_FAIL_ERROR"
                            (Some (JNum (-1003))))))
        /\ events (snd (SmartScenario.batch_error_query (-1003)))
           = [Sent request; Reset]
        /\ _multiRequestBatchSize (snd (SmartScenario.batch_error_query (-1003)))
           = 5)
  /\ (exists msg request,
        fst (SmartScenario.batch_error_query (-100000))
        = Throw (mk_error DeviceError msg
                   (Some (code_object "INTERNAL_UNKNOWN_ERROR"
                            (Some (JNum (-100000))))))
        /\ events (snd (SmartScenario.batch_error_query (-100000)))
           = [Sent request; Reset]
        /\ _multiRequestBatchSize (snd (SmartScenario.batch_error_query (-100000)))
           = 5).
Proof.
  split; [intros; apply keeps_query|].
  split; do 2 eexists; repeat split; vm_compute; reflexivity.
Qed.

End SmartFacts.

(** ** The Smart protocol: list pages *)

Module PagingFacts.
Import Js Exceptions Eff Smart Notions ExceptionsFacts AssocFacts SmartFacts.
Local Open Scope Z_scope.

(** With [raiseOnError], a response that the handler accepts is returned
    as it is. *)
Lemma handler_accepts (respDict respDict' : json) (method : string)
    (p p' : SmartProtocol) :
  _handleResponseErrorCode respDict method true p = (Ok respDict', p') ->
  respDict' = respDict /\ p' = p.
Proof.
  unfold _handleResponseErrorCode, bind, or_type_error, get, ret, throw.
  destruct (get_prop (Some respDict) "error_code") as [raw|]; [|discriminate].
  destruct (same_prim _ _); [intros [= <- <-]; auto|].
  cbn [negb].
  destruct (has_prim LOCAL_SMART_RETRYABLE_ERRORS _); [discriminate|].
  destruct (has_prim LOCAL_SMART_AUTHENTICATION_ERRORS _); discriminate.
Qed.

Lemma handler_never_diverges (respDict : json) (method : string)
    (raiseOnError : bool) (p p' : SmartProtocol) :
  _handleResponseErrorCode respDict method raiseOnError p <> (Diverge, p').
Proof.
  unfold _handleResponseErrorCode, bind, or_type_error, get, ret, throw.
  destruct (get_prop (Some respDict) "error_code") as [raw|]; [|discriminate].
  destruct (same_prim _ _); [discriminate|].
  destruct raiseOnError; cbn [negb].
  - destruct (has_prim LOCAL_SMART_RETRYABLE_ERRORS _); [discriminate|].
    destruct (has_prim LOCAL_SMART_AUTHENTICATION_ERRORS _); discriminate.
  - destruct respDict; discriminate.
Qed.

Lemma smart_sent_count_log_sent (p : SmartProtocol) (r : string) :
  sent_count (log (Sent r) p) = S (sent_count p).
Proof.
  unfold sent_count, log. cbn [events].
  rewrite List.filter_app, List.length_app. cbn. lia.
Qed.

(** What iterating a non-empty page appends is not empty. *)
Lemma spread_nonempty (v : json) (more : list json) :
  negb (truthy v) || length_is_zero v = false ->
  spread_elements v = Some more -> more <> [].
Proof.
  destruct v as [| b | n | s | items | f]; cbn; try discriminate.
  - destruct s; cbn; [discriminate|]. intros _ [= <-]. discriminate.
  - destruct items; [discriminate|]. intros _ [= <-]. discriminate.
Qed.

Section Paging.

Variable JSON_stringify : json -> string.
Variable StringToNumber : string -> option Z.
Variable Date_now : nat -> Z.
Variable transport_send : nat -> string -> may_throw js_error json.

Abbreviation list_pages :=
  (Smart.list_pages JSON_stringify StringToNumber Date_now transport_send).
Abbreviation _handleResponseLists :=
  (Smart._handleResponseLists JSON_stringify StringToNumber Date_now transport_send).
Abbreviation _executeQuery_no_pages :=
  (Smart._executeQuery_no_pages JSON_stringify Date_now transport_send).
Abbreviation page_request := (Notions.page_request JSON_stringify Date_now).
Abbreviation stopped_by_empty_page := (Notions.stopped_by_empty_page transport_send).

(** The request for a page: what is sent, and what comes back. *)
Lemma page_query (method : string) (startIndex : Z) (p : SmartProtocol) :
  let request := page_request p method startIndex in
  let p1 := log (Sent request) p in
  _executeQuery_no_pages
    (ReqObject [(method, JObj [("start_index", JNum startIndex)])]) p
  = match transport_send (sent_count p) request with
    | Thrown e => (Throw e, p1)
    | Returned response =>
        match _handleResponseErrorCode response method true p1 with
        | (Ok _, _) =>
            match get_prop (Some response) "result" with
            | Some result => (Ok [(method, result)], p1)
            | None =>
                (Throw (new_error JsTypeError
                          "Cannot read properties of null (reading 'result')"), p1)
            end
        | (Throw e, _) => (Throw e, p1)
        | (Diverge, _) => (Diverge, p1)
        end
    end.
Proof.
  intros request p1. subst request p1. unfold Notions.page_request.
  unfold Smart._executeQuery_no_pages. cbn [executeQuery].
  unfold executeSingle, bind, getSmartRequest, Smart.send.
  cbn [truthy_opt truthy app].
  match goal with
  | |- context [transport_send ?n ?r] =>
      destruct (transport_send n r) as [response | e]; [|reflexivity]
  end.
  match goal with
  | |- context [_handleResponseErrorCode response method true ?q] =>
      pose proof (handler_state response method true q) as Hst;
      destruct (_handleResponseErrorCode response method true q)
        as [[response' | e |] p2] eqn:Hh; cbn [snd] in Hst; subst p2;
        [|reflexivity|reflexivity]
  end.
  apply handler_accepts in Hh. destruct Hh as [-> _].
  unfold or_type_error.
  destruct (get_prop (Some response) "result") as [result|]; [|reflexivity].
  destruct result; reflexivity.
Qed.

Abbreviation pages_end :=
  (Notions.pages_end JSON_stringify Date_now transport_send).

(** The loop, run with enough fuel, ends; when it returns, it has run
    rounds that each appended the page of the device's answer, whole, and
    then either the list held [N] entries or more, or the device answered
    one more request with an empty page. *)
Lemma list_pages_spec (method : string) (params : option json) (name : string)
    (N : Z) :
  forall (fuel : nat) (rr : list (string * json)) (p : SmartProtocol)
         (l : list json),
    assoc "sum" rr = Some (JNum N) ->
    assoc name rr = Some (JArr l) ->
    (Z.to_nat (N - Z.of_nat (List.length l)) <= fuel)%nat ->
    match list_pages fuel method params name rr p with
    | (Ok rr', p') => pages_end name method N l rr rr' p p'
    | (Throw _, _) => True
    | (Diverge, _) => False
    end.
Proof.
  assert (Hdone : forall rr p l,
             assoc name rr = Some (JArr l) -> N <= Z.of_nat (List.length l) ->
             pages_end name method N l rr rr p p).
  { intros rr p l Hl Hge. exists [], p. cbn [concat]. rewrite List.app_nil_r.
    split; [constructor|]. split; [exact Hl|]. split; [reflexivity|].
    left. split; [exact Hge | reflexivity]. }
  induction fuel as [|fuel IH]; intros rr p l Hsum Hl Hfuel;
    cbn [Smart.list_pages]; rewrite Hsum, Hl; cbn [lt_number to_number].
  - destruct (Z.of_nat (List.length l) <? N) eqn:Hlt.
    + apply Z.ltb_lt in Hlt. lia.
    + apply Z.ltb_ge in Hlt. cbn. apply Hdone; assumption.
  - destruct (Z.of_nat (List.length l) <? N) eqn:Hlt;
      [apply Z.ltb_lt in Hlt | apply Z.ltb_ge in Hlt; cbn; apply Hdone; assumption].
    assert (Hname : name <> "sum").
    { intros ->. rewrite Hsum in Hl. discriminate. }
    unfold bind, _getListRequest.
    rewrite page_query. cbv zeta.
    set (request := page_request p method (Z.of_nat (List.length l))).
    set (p1 := log (Sent request) p).
    destruct (transport_send (sent_count p) request) as [response | e] eqn:Hsend;
      [|exact I].
    destruct (_handleResponseErrorCode response method true p1)
      as [[response' | e |] p2] eqn:Hh;
      [| exact I | exfalso; exact (handler_never_diverges _ _ _ _ _ Hh)].
    destruct (get_prop (Some response) "result") as [result|] eqn:Hres;
      [|exact I].
    cbn [assoc]. rewrite String.eqb_refl.
    unfold or_type_error.
    destruct (get_prop result name) as [page|] eqn:Hpage; [|exact I].
    assert (Hstop : empty_page name response ->
                    pages_end name method N l rr rr p p1).
    { intros Hempty. exists [], p. cbn [concat]. rewrite List.app_nil_r.
      split; [constructor|]. split; [exact Hl|]. split; [reflexivity|].
      right. split; [exact Hlt|].
      exists response. cbv zeta.
      split; [reflexivity|]. split; [exact Hsend | exact Hempty]. }
    unfold ret, throw. cbv beta iota.
    destruct page as [v|];
      [|apply Hstop; unfold empty_page, page_of; rewrite Hres, Hpage; exact I].
    destruct (negb (truthy v) || length_is_zero v) eqn:Hempty;
      [apply Hstop; unfold empty_page, page_of; rewrite Hres, Hpage; exact Hempty|].
    destruct (spread_elements v) as [more1|] eqn:Hspread; [|exact I].
    pose proof (spread_nonempty v more1 Hempty Hspread) as Hne.
    assert (Hlen : (0 < List.length more1)%nat).
    { destruct more1; [contradiction | cbn; lia]. }
    specialize (IH (assoc_set name (JArr (l ++ more1)) rr) p1 (l ++ more1)).
    rewrite assoc_set_ne in IH by (intros E; apply Hname; now rewrite E).
    rewrite assoc_set_eq in IH.
    specialize (IH Hsum eq_refl).
    rewrite List.length_app in IH.
    specialize (IH ltac:(lia)).
    destruct (list_pages fuel method params name
                (assoc_set name (JArr (l ++ more1)) rr) p1)
      as [[rr' | e |] p'] eqn:Hrun; [|exact I|exact IH].
    destruct IH as (pages & p_last & Hpaged & H1 & H2 & H3).
    exists (more1 :: pages), p_last. cbn [concat]. rewrite List.app_assoc.
    split.
    { apply (Notions.paged_cons JSON_stringify Date_now transport_send
               name method N p l response v more1 pages p_last);
        try assumption.
      - fold request. fold p1. rewrite Hh. cbn [fst].
        apply handler_accepts in Hh. destruct Hh as [-> _]. reflexivity.
      - unfold Notions.page_of. rewrite Hres. exact Hpage. }
    split; [exact H1|].
    split; [|exact H3].
    intros k Hk. rewrite (H2 k Hk). apply assoc_set_ne. exact Hk.
Qed.

(** Every round of the loop starts by sending the request for the page
    at the current length of the list; later rounds only add events. *)
Lemma list_pages_events (method : string) (params : option json) (name : string) :
  forall (fuel : nat) (rr : list (string * json)) (p : SmartProtocol),
    let items :=
      match assoc name rr with
      | Some (JArr l) => l
      | _ => []
      end in
    let len := Z.of_nat (List.length items) in
    if lt_number StringToNumber len (assoc "sum" rr) then
      match fuel with
      | O => list_pages fuel method params name rr p = (Diverge, p)
      | S _ =>
          exists tail,
            events (snd (list_pages fuel method params name rr p))
            = events p ++ Sent (page_request p method len) :: tail
      end
    else list_pages fuel method params name rr p = (Ok rr, p).
Proof.
  induction fuel as [|fuel IH]; intros rr p items len;
    cbn [Smart.list_pages]; fold items; fold len;
    destruct (lt_number StringToNumber len (assoc "sum" rr)) eqn:Hlt;
    try reflexivity.
  unfold bind, _getListRequest. rewrite page_query. cbv zeta.
  set (request := page_request p method len).
  set (p1 := log (Sent request) p).
  assert (Hp1 : events p1 = events p ++ [Sent request]) by reflexivity.
  assert (Hhere : exists tail, events p1 = events p ++ Sent request :: tail)
    by (exists []; exact Hp1).
  destruct (transport_send (sent_count p) request) as [response | e];
    [|exact Hhere].
  destruct (_handleResponseErrorCode response method true p1)
    as [[response' | e |] p2]; try exact Hhere.
  destruct (get_prop (Some response) "result") as [result|]; [|exact Hhere].
  cbn [assoc]. rewrite String.eqb_refl.
  unfold or_type_error.
  destruct (get_prop result name) as [page|]; [|exact Hhere].
  unfold ret, throw. cbv beta iota.
  destruct page as [v|]; [|exact Hhere].
  destruct (negb (truthy v) || length_is_zero v); [exact Hhere|].
  destruct (spread_elements v) as [more1|]; [|exact Hhere].
  specialize (IH (assoc_set name (JArr (items ++ more1)) rr) p1).
  cbv zeta in IH.
  destruct (lt_number StringToNumber _ _) in IH.
  - destruct fuel as [|fuel'].
    + rewrite IH. exact Hhere.
    + destruct IH as [tail ->]. rewrite Hp1, <- List.app_assoc.
      eexists. reflexivity.
  - rewrite IH. exact Hhere.
Qed.


End Paging.



End PagingFacts.

(** ** Discovery: first reply per host, and completion *)

Module DiscoverFacts.
Import Js Exceptions Bytes Discover DiscoverNotions.
Local Open Scope Z_scope.

(** Read the fields of a protocol that the setters have built. *)
Ltac fields :=
  cbn [set_seenHosts set_discoveredDevices set_unsupported set_invalid
       set_targetDiscovered set_suspended emit _handleDiscoveredEvent
       target p_port p_credentials p_timeout onDiscovered onDiscoveredRaw
       onUnsupported seenHosts discoveredDevices unsupportedDeviceExceptions
       invalidDeviceExceptions targetDiscovered suspended emits] in *.

Section Protocol.

Variable Device : Type.
Variable JSON_parse : string -> may_throw string json.

Abbreviation DiscoverProtocol := (Discover.DiscoverProtocol Device).
Abbreviation datagramReceived := (@Discover.datagramReceived Device JSON_parse).
Abbreviation happen := (@Discover.happen Device JSON_parse).
Abbreviation run := (@Discover.run Device JSON_parse).
Abbreviation unreadable := (DiscoverNotions.unreadable JSON_parse).
Abbreviation parsed := (DiscoverNotions.parsed JSON_parse).
Abbreviation raw_callback_error :=
  (@DiscoverNotions.raw_callback_error Device JSON_parse).

(** A datagram from a host already seen changes nothing at all. *)
Lemma datagram_of_seen_host (d : datagram) (p : DiscoverProtocol) :
  address d ∈ seenHosts p -> datagramReceived d p = p.
Proof.
  intros Hseen. unfold Discover.datagramReceived.
  destruct (decide (address d ∈ seenHosts p)); [reflexivity | contradiction].
Qed.

Lemma handled_seenHosts (p : DiscoverProtocol) :
  seenHosts (_handleDiscoveredEvent p) = seenHosts p
  /\ target (_handleDiscoveredEvent p) = target p.
Proof. unfold _handleDiscoveredEvent. destruct (decide _); auto. Qed.

(** Read the seen-set and the target through [_handleDiscoveredEvent]. *)
Ltac through_handled :=
  repeat match goal with
         | |- context [_handleDiscoveredEvent ?q] =>
             destruct (handled_seenHosts q) as [-> ->]
         end;
  split; reflexivity.

(** The [catch] block leaves the seen-set as it is. *)
Lemma caught_seenHosts (ip : string) (info : json) (config : DeviceConfig)
    (error : js_error) (p : DiscoverProtocol) :
  seenHosts (caught ip info config error p) = seenHosts p
  /\ target (caught ip info config error p) = target p.
Proof.
  unfold caught.
  destruct (instanceof error UnsupportedDeviceError).
  { cbn [set_unsupported onUnsupported].
    destruct (onUnsupported p) as [callback|];
      [destruct (callback error)|]; through_handled. }
  destruct (exn_class_eqb (cls error) AuthenticationError); [through_handled|].
  destruct (includes "timeout" (message error)).
  { destruct (timeout_device_throws info); through_handled. }
  destruct (instanceof error KasaException); through_handled.
Qed.

(** A datagram only ever adds its own host to the seen-set. *)
Lemma datagram_seenHosts (d : datagram) (p : DiscoverProtocol) :
  let p1 := datagramReceived d p in
  address d ∈ seenHosts p1
  /\ (seenHosts p1 = seenHosts p \/ seenHosts p1 = {[ address d ]} ∪ seenHosts p)
  /\ target p1 = target p.
Proof.
  unfold Discover.datagramReceived.
  destruct (decide (address d ∈ seenHosts p)) as [Hin | Hout]; cbv zeta.
  { auto. }
  assert (Hadded : forall q : DiscoverProtocol,
             seenHosts q = {[ address d ]} ∪ seenHosts p /\ target q = target p ->
             address d ∈ seenHosts q
             /\ (seenHosts q = seenHosts p
                 \/ seenHosts q = {[ address d ]} ∪ seenHosts p)
             /\ target q = target p).
  { intros q [Hq Ht]. rewrite Hq.
    split; [apply elem_of_union; left; apply elem_of_singleton; reflexivity|].
    auto. }
  destruct (match _getDiscoveryJsonLegacy JSON_parse (data d) with
            | Some info => Some (info, DeviceInstanceLegacy)
            | None =>
                match _getDiscoveryJson JSON_parse (data d) with
                | Some info => Some (info, DeviceInstance)
                | None => None
                end
            end) as [[info deviceFunc]|];
    [|apply Hadded; split; reflexivity].
  cbn [set_seenHosts onDiscoveredRaw].
  destruct (onDiscoveredRaw p) as [callback|];
    [destruct (callback _) as [[] | error]|];
    apply Hadded; try (split; reflexivity).
  match goal with
  | |- context [caught ?a ?b ?c ?e ?q] =>
      destruct (caught_seenHosts a b c e q) as [-> ->]
  end.
  split; reflexivity.
Qed.

(** A first datagram that the parsers read, when [onDiscoveredRaw] does
    not throw: the call waits for the device, and touches neither the
    result maps nor the completion. *)
Lemma datagram_awaits (d : datagram) (p : DiscoverProtocol) (info : json)
    (deviceFunc : device_func) :
  address d ∉ seenHosts p ->
  parsed d = Some (info, deviceFunc) ->
  raw_callback_error d p = None ->
  let p1 := datagramReceived d p in
  suspended p1
  = <[ address d := mk_waiting deviceFunc info (config_for p (address d)) ]>
      (suspended p)
  /\ results p1 = results p
  /\ completions p1 = completions p
  /\ targetDiscovered p1 = targetDiscovered p.
Proof.
  intros Hout Hparsed Hraw.
  unfold DiscoverNotions.raw_callback_error in Hraw. rewrite Hparsed in Hraw.
  unfold DiscoverNotions.parsed in Hparsed.
  unfold Discover.datagramReceived.
  destruct (decide (address d ∈ seenHosts p)); [contradiction|].
  cbv zeta. rewrite Hparsed. fields.
  destruct (onDiscoveredRaw p) as [callback|];
    [destruct (callback _) as [[] | error]; [|discriminate Hraw]|];
    unfold results, completions, config_for; fields;
    rewrite ?List.filter_app, ?List.length_app; cbn [List.filter List.length];
    repeat split; lia.
Qed.

(** A datagram for which [onDiscoveredRaw] does not throw touches neither
    the result maps nor the completion. *)
Lemma datagram_effect (d : datagram) (p : DiscoverProtocol) :
  raw_callback_error d p = None ->
  let p1 := datagramReceived d p in
  results p1 = results p
  /\ targetDiscovered p1 = targetDiscovered p
  /\ completions p1 = completions p.
Proof.
  intros Hraw.
  destruct (decide (address d ∈ seenHosts p)) as [Hin | Hout].
  { cbv zeta. rewrite datagram_of_seen_host by exact Hin. auto. }
  destruct (parsed d) as [[info deviceFunc]|] eqn:Hparsed.
  - destruct (datagram_awaits d p info deviceFunc Hout Hparsed Hraw)
      as (_ & H1 & H2 & H3).
    cbv zeta. auto.
  - unfold DiscoverNotions.parsed in Hparsed.
    unfold Discover.datagramReceived.
    destruct (decide (address d ∈ seenHosts p)); [contradiction|].
    cbv zeta. rewrite Hparsed. auto.
Qed.

(** When [onDiscoveredRaw] throws, the [catch] block runs at once and no
    device is awaited. *)
Lemma datagram_callback_throws (d : datagram) (p : DiscoverProtocol)
    (info : json) (deviceFunc : device_func) (error : js_error) :
  address d ∉ seenHosts p ->
  parsed d = Some (info, deviceFunc) ->
  raw_callback_error d p = Some error ->
  datagramReceived d p
  = caught (address d) info (config_for p (address d)) error
      (emit (OnDiscoveredRaw (address d) (port d) info)
         (set_seenHosts ({[ address d ]} ∪ seenHosts p) p)).
Proof.
  intros Hout Hparsed Hraw.
  unfold DiscoverNotions.raw_callback_error in Hraw. rewrite Hparsed in Hraw.
  unfold DiscoverNotions.parsed in Hparsed.
  unfold Discover.datagramReceived.
  destruct (decide (address d ∈ seenHosts p)); [contradiction|].
  cbv zeta. rewrite Hparsed. fields.
  destruct (onDiscoveredRaw p) as [callback|]; [|discriminate Hraw].
  destruct (callback _) as [[] | error']; [discriminate Hraw|].
  injection Hraw as ->. reflexivity.
Qed.

(** When a device settles, the seen-set stays as it is. *)
Lemma settled_seenHosts (ip : string) (outcome : may_throw js_error Device)
    (p : DiscoverProtocol) :
  seenHosts (deviceSettled ip outcome p) = seenHosts p
  /\ target (deviceSettled ip outcome p) = target p.
Proof.
  unfold deviceSettled.
  destruct (suspended p !! ip) as [w|]; [|auto].
  destruct outcome as [device | error].
  - cbn [set_discoveredDevices set_suspended onDiscovered].
    destruct (onDiscovered p) as [callback|];
      [destruct (callback device)|]; through_handled.
  - destruct (caught_seenHosts ip (w_info w) (w_config w) error
                (set_suspended (delete ip (suspended p)) p)) as [-> ->].
    split; reflexivity.
Qed.

Lemma happen_keeps_seen (h : happening Device) (p : DiscoverProtocol) (ip : string) :
  ip ∈ seenHosts p -> ip ∈ seenHosts (happen h p).
Proof.
  intros Hin. destruct h as [d | ip' outcome]; cbn [Discover.happen].
  - destruct (datagram_seenHosts d p) as (_ & [-> | ->] & _); set_solver.
  - destruct (settled_seenHosts ip' outcome p) as [-> _]. exact Hin.
Qed.

Lemma run_keeps_seen (hs : list (happening Device)) (p : DiscoverProtocol)
    (ip : string) :
  ip ∈ seenHosts p -> ip ∈ seenHosts (run hs p).
Proof.
  revert p. induction hs as [|h hs IH]; intros p Hin; cbn.
  - exact Hin.
  - apply IH. apply happen_keeps_seen. exact Hin.
Qed.

Lemma run_app (hs1 hs2 : list (happening Device)) (p : DiscoverProtocol) :
  run (hs1 ++ hs2) p = run hs2 (run hs1 p).
Proof. unfold Discover.run. apply List.fold_left_app. Qed.

(** Once a datagram of a host has arrived, the host is in the seen-set. *)
Lemma seen_after_datagram (hs : list (happening Device)) (d : datagram)
    (p : DiscoverProtocol) :
  In (Datagram d) hs -> address d ∈ seenHosts (run hs p).
Proof.
  revert p. induction hs as [|h hs IH]; intros p Hin; [destruct Hin|].
  destruct Hin as [Heq | Hin]; cbn.
  - subst h. apply run_keeps_seen. cbn [Discover.happen].
    apply (datagram_seenHosts d p).
  - apply IH. exact Hin.
Qed.

(** A first datagram that neither parser reads only puts its host in the
    seen-set: no device is awaited, so nothing will follow from it. *)
Lemma unreadable_datagram (d : datagram) (p : DiscoverProtocol) :
  address d ∉ seenHosts p -> unreadable d ->
  datagramReceived d p = set_seenHosts ({[ address d ]} ∪ seenHosts p) p.
Proof.
  intros Hout [Hlegacy Hsmart]. unfold Discover.datagramReceived.
  destruct (decide (address d ∈ seenHosts p)); [contradiction|].
  cbv zeta. rewrite Hlegacy, Hsmart. reflexivity.
Qed.

Lemma completions_emit_complete (p : DiscoverProtocol) :
  completions (emit Complete p) = S (completions p).
Proof.
  unfold completions. fields.
  rewrite List.filter_app, List.length_app. cbn. lia.
Qed.

Lemma completions_emit_callback (e : emitted Device) (p : DiscoverProtocol) :
  e <> Complete -> completions (emit e p) = completions p.
Proof.
  intros He. unfold completions. fields.
  rewrite List.filter_app, List.length_app.
  destruct e; cbn; try lia. contradiction.
Qed.

(** [_handleDiscoveredEvent] completes the discovery exactly when the
    target is in the seen-set. *)
Lemma handleDiscoveredEvent_seen (p : DiscoverProtocol) :
  target p ∈ seenHosts p ->
  _handleDiscoveredEvent p = emit Complete (set_targetDiscovered true p).
Proof.
  intros Hin. unfold _handleDiscoveredEvent.
  destruct (decide (target p ∈ seenHosts p)); [reflexivity | contradiction].
Qed.

Lemma handleDiscoveredEvent_unseen (p : DiscoverProtocol) :
  target p ∉ seenHosts p -> _handleDiscoveredEvent p = p.
Proof.
  intros Hout. unfold _handleDiscoveredEvent.
  destruct (decide (target p ∈ seenHosts p)); [contradiction | reflexivity].
Qed.

(** What [_handleDiscoveredEvent] does to the completion and to nothing
    else. *)
Lemma handled_effect (p : DiscoverProtocol) :
  let p2 := _handleDiscoveredEvent p in
  results p2 = results p
  /\ suspended p2 = suspended p
  /\ (target p ∈ seenHosts p ->
      completions p2 = S (completions p) /\ targetDiscovered p2 = true)
  /\ (target p ∉ seenHosts p -> p2 = p).
Proof.
  cbv zeta. unfold _handleDiscoveredEvent.
  destruct (decide (target p ∈ seenHosts p)) as [Hin | Hout].
  - split; [reflexivity|]. split; [reflexivity|].
    split; [|contradiction]. intros _.
    rewrite completions_emit_complete. split; reflexivity.
  - split; [reflexivity|]. split; [reflexivity|].
    split; [contradiction | reflexivity].
Qed.

(** The [catch] block on an error of a recorded kind. *)
Lemma caught_recorded (ip : string) (info : json) (config : DeviceConfig)
    (error : js_error) (r : record Device) (p : DiscoverProtocol) :
  record_of info config (Thrown error) = Some r ->
  settled_as ip r (callback_throws p (Thrown error)) p
    (caught ip info config error p).
Proof.
  intros Hrec. cbn [record_of] in Hrec. unfold settled_as, callback_throws, caught.
  assert (Hstep : forall (q : DiscoverProtocol),
             holds_record q ip r ->
             suspended q = suspended p ->
             target q = target p -> seenHosts q = seenHosts p ->
             completions q = completions p ->
             targetDiscovered q = targetDiscovered p ->
             holds_record (_handleDiscoveredEvent q) ip r
             /\ suspended (_handleDiscoveredEvent q) = suspended p
             /\ (target p ∈ seenHosts p -> false = false ->
                 completions (_handleDiscoveredEvent q) = S (completions p)
                 /\ targetDiscovered (_handleDiscoveredEvent q) = true)
             /\ (target p ∉ seenHosts p \/ false = true ->
                 completions (_handleDiscoveredEvent q) = completions p
                 /\ targetDiscovered (_handleDiscoveredEvent q)
                    = targetDiscovered p)).
  { intros q Hr Hs Ht Hseen Hc Htd.
    destruct (handled_effect q) as (Hres & Hsus & Hin & Hout).
    cbv zeta in *. rewrite Ht, Hseen in Hin, Hout.
    split.
    { unfold results in Hres. injection Hres as H1 H2 H3.
      destruct r; cbn [holds_record] in *; congruence. }
    split; [congruence|].
    split.
    - intros Hseen' _. destruct (Hin Hseen') as [-> ->]. rewrite Hc. auto.
    - intros [Hunseen | Habs]; [|discriminate Habs].
      rewrite (Hout Hunseen). auto. }
  destruct (instanceof error UnsupportedDeviceError).
  { injection Hrec as <-. cbn [andb]. fields.
    destruct (onUnsupported p) as [callback|].
    - destruct (callback error) as [[] | thrown].
      + apply Hstep; fields; try reflexivity.
        * cbn [holds_record]. fields. apply lookup_insert_eq.
        * rewrite completions_emit_callback by discriminate. reflexivity.
      + cbn [holds_record]. fields.
        split; [apply lookup_insert_eq|]. split; [reflexivity|].
        split; [intros _ H; discriminate H|]. intros _.
        split; [rewrite completions_emit_callback by discriminate; reflexivity | reflexivity].
    - apply Hstep; fields; try reflexivity.
      cbn [holds_record]. fields. apply lookup_insert_eq. }
  cbn [andb].
  destruct (exn_class_eqb (cls error) AuthenticationError).
  { injection Hrec as <-. apply Hstep; fields; try reflexivity.
    cbn [holds_record]. fields. apply lookup_insert_eq. }
  destruct (includes "timeout" (message error)).
  { destruct (timeout_device_throws info); [discriminate Hrec|].
    injection Hrec as <-. apply Hstep; fields; try reflexivity.
    cbn [holds_record]. fields. apply lookup_insert_eq. }
  destruct (instanceof error KasaException); [|discriminate Hrec].
  injection Hrec as <-. apply Hstep; fields; try reflexivity.
  cbn [holds_record]. fields. apply lookup_insert_eq.
Qed.

(** The [catch] block on an error of no recorded kind, and on a timeout
    whose stand-in cannot be built: it does nothing. *)
Lemma caught_dropped (ip : string) (info : json) (config : DeviceConfig)
    (error : js_error) (p : DiscoverProtocol) :
  record_of (Device := Device) info config (Thrown error) = None ->
  caught ip info config error p = p.
Proof.
  intros Hrec. cbn [record_of] in Hrec. unfold caught.
  destruct (instanceof error UnsupportedDeviceError); [discriminate|].
  destruct (exn_class_eqb (cls error) AuthenticationError); [discriminate|].
  destruct (includes "timeout" (message error)).
  { destruct (timeout_device_throws info); [reflexivity | discriminate]. }
  destruct (instanceof error KasaException); [discriminate | reflexivity].
Qed.

(** When the device of a host settles with a recorded outcome, the outcome
    goes to its map, and the discovery completes if the target is in the
    seen-set and the callback does not throw. *)
Lemma recorded_outcome_completes (ip : string)
    (outcome : may_throw js_error Device) (w : waiting) (r : record Device)
    (p : DiscoverProtocol) :
  suspended p !! ip = Some w ->
  record_of (w_info w) (w_config w) outcome = Some r ->
  settled_as ip r (callback_throws p outcome)
    (set_suspended (delete ip (suspended p)) p)
    (deviceSettled ip outcome p).
Proof.
  intros Hw Hrec. unfold deviceSettled. rewrite Hw.
  destruct outcome as [device | error];
    [|exact (caught_recorded ip (w_info w) (w_config w) error r
               (set_suspended (delete ip (suspended p)) p) Hrec)].
  injection Hrec as <-. unfold settled_as, callback_throws. fields.
  set (q := set_discoveredDevices (<[ ip := Found device ]> (discoveredDevices p))
              (set_suspended (delete ip (suspended p)) p)).
  assert (Hq : forall q' : DiscoverProtocol,
             discoveredDevices q' = <[ ip := Found device ]> (discoveredDevices p) ->
             suspended q' = delete ip (suspended p) ->
             target q' = target p -> seenHosts q' = seenHosts p ->
             completions q' = completions p ->
             targetDiscovered q' = targetDiscovered p ->
             holds_record (_handleDiscoveredEvent q') ip
               (InDiscoveredDevices (Found device))
             /\ suspended (_handleDiscoveredEvent q') = delete ip (suspended p)
             /\ (target p ∈ seenHosts p -> false = false ->
                 completions (_handleDiscoveredEvent q') = S (completions p)
                 /\ targetDiscovered (_handleDiscoveredEvent q') = true)
             /\ (target p ∉ seenHosts p \/ false = true ->
                 completions (_handleDiscoveredEvent q') = completions p
                 /\ targetDiscovered (_handleDiscoveredEvent q')
                    = targetDiscovered p)).
  { intros q' Hd Hs Ht Hseen Hc Htd.
    destruct (handled_effect q') as (Hres & Hsus & Hin & Hout).
    cbv zeta in *. rewrite Ht, Hseen in Hin, Hout.
    split.
    { unfold results in Hres. injection Hres as H1 H2 H3.
      cbn [holds_record]. rewrite H1, Hd. apply lookup_insert_eq. }
    split; [congruence|].
    split.
    - intros Hseen' _. destruct (Hin Hseen') as [-> ->]. rewrite Hc. auto.
    - intros [Hunseen | Habs]; [|discriminate Habs].
      rewrite (Hout Hunseen). auto. }
  destruct (onDiscovered p) as [callback|].
  - destruct (callback device) as [[] | thrown].
    + apply Hq; fields; try reflexivity.
      rewrite completions_emit_callback by discriminate. reflexivity.
    + cbn [holds_record]. fields.
      split; [apply lookup_insert_eq|]. split; [reflexivity|].
      split; [intros _ H; discriminate H|]. intros _.
      split; [rewrite completions_emit_callback by discriminate; reflexivity | reflexivity].
  - apply Hq; fields; reflexivity.
Qed.

(** When it settles with an error of no recorded kind, the error is
    dropped: nothing is recorded and nothing completes. *)
Lemma unrecorded_outcome_is_dropped (ip : string)
    (outcome : may_throw js_error Device) (w : waiting) (p : DiscoverProtocol) :
  suspended p !! ip = Some w ->
  record_of (w_info w) (w_config w) outcome = None ->
  deviceSettled ip outcome p = set_suspended (delete ip (suspended p)) p.
Proof.
  intros Hw Hrec. unfold deviceSettled. rewrite Hw.
  destruct outcome as [device | error]; [discriminate Hrec|].
  apply caught_dropped. exact Hrec.
Qed.

(** C9 (amended).  Only the first datagram of a host is processed: a
    datagram from a host in the seen-set changes nothing, and so a run of
    arrivals and settlements is the same without a datagram whose host had
    one earlier.  A datagram puts its host in the seen-set; one that
    neither parser reads does nothing more.  For a first datagram that a
    parser reads, [datagramReceived] waits for the device of the host,
    with the discovery info and a configuration for that host, and by
    itself neither records a result nor completes the discovery; if
    [onDiscoveredRaw] throws, the error is handled at once as the error of
    a device is, and no device is awaited.  When the device settles with a
    recorded outcome (a device, an [UnsupportedDeviceError], an
    [AuthenticationError], a timeout whose stand-in can be built, or
    another [KasaException]), the outcome goes to its map under the host,
    and the discovery completes if the target is in the seen-set and the
    callback that is called for the outcome does not throw (for a single
    target: when its own device or error is recorded), and not otherwise.
    An error of no recorded kind, and a timeout when the [device_type] of
    the discovery info is truthy and not a string, records nothing and
    completes nothing. *)
Theorem C9_first_reply_wins_and_completion (p : DiscoverProtocol) (d : datagram) :
  (address d ∈ seenHosts p -> datagramReceived d p = p)
  /\ (forall hs1 hs2 d',
        In (Datagram d') hs1 -> address d' = address d ->
        run (hs1 ++ Datagram d :: hs2) p = run (hs1 ++ hs2) p)
  /\ address d ∈ seenHosts (datagramReceived d p)
  /\ (address d ∉ seenHosts p -> unreadable d ->
      datagramReceived d p = set_seenHosts ({[ address d ]} ∪ seenHosts p) p)
  /\ (forall info deviceFunc,
        address d ∉ seenHosts p ->
        parsed d = Some (info, deviceFunc) ->
        raw_callback_error d p = None ->
        let p1 := datagramReceived d p in
        suspended p1
        = <[ address d := mk_waiting deviceFunc info (config_for p (address d)) ]>
            (suspended p)
        /\ results p1 = results p
        /\ completions p1 = completions p
        /\ targetDiscovered p1 = targetDiscovered p)
  /\ (forall info deviceFunc error,
        address d ∉ seenHosts p ->
        parsed d = Some (info, deviceFunc) ->
        raw_callback_error d p = Some error ->
        datagramReceived d p
        = caught (address d) info (config_for p (address d)) error
            (emit (OnDiscoveredRaw (address d) (port d) info)
               (set_seenHosts ({[ address d ]} ∪ seenHosts p) p)))
  /\ (forall ip outcome w r,
        suspended p !! ip = Some w ->
        record_of (w_info w) (w_config w) outcome = Some r ->
        let p2 := deviceSettled ip outcome p in
        holds_record p2 ip r
        /\ suspended p2 = delete ip (suspended p)
        /\ (target p ∈ seenHosts p -> callback_throws p outcome = false ->
            completions p2 = S (completions p) /\ targetDiscovered p2 = true)
        /\ (target p ∉ seenHosts p \/ callback_throws p outcome = true ->
            completions p2 = completions p
            /\ targetDiscovered p2 = targetDiscovered p))
  /\ (forall ip outcome w,
        suspended p !! ip = Some w ->
        record_of (w_info w) (w_config w) outcome = None ->
        deviceSettled ip outcome p = set_suspended (delete ip (suspended p)) p)
  /\ (forall ip info config error r,
        record_of info config (Thrown error) = Some r ->
        let p2 := caught ip info config error p in
        holds_record p2 ip r
        /\ (target p ∈ seenHosts p ->
            callback_throws p (Thrown error) = false ->
            completions p2 = S (completions p) /\ targetDiscovered p2 = true)).
Proof.
  split; [apply datagram_of_seen_host|].
  split.
  { intros hs1 hs2 d' Hin Haddr.
    rewrite !run_app. cbn [Discover.run fold_left Discover.happen].
    fold (run hs2 (datagramReceived d (run hs1 p))).
    rewrite datagram_of_seen_host; [reflexivity|].
    rewrite <- Haddr. apply seen_after_datagram. exact Hin. }
  split; [apply (datagram_seenHosts d p)|].
  split; [apply unreadable_datagram|].
  split; [intros info deviceFunc; apply datagram_awaits|].
  split; [intros info deviceFunc error; apply datagram_callback_throws|].
  split.
  { intros ip outcome w r Hw Hrec.
    destruct (recorded_outcome_completes ip outcome w r p Hw Hrec)
      as (H1 & H2 & H3 & H4).
    cbv zeta. fields. auto. }
  split; [intros ip outcome w; apply (unrecorded_outcome_is_dropped ip outcome w p)|].
  intros ip info config error r Hrec.
  destruct (caught_recorded ip info config error r p Hrec) as (H1 & _ & H3 & _).
  cbv zeta. auto.
Qed.

End Protocol.

(** The claim of C9, that a discovery of a single host completes as soon
    as the host enters the seen-set, does not hold: after an empty datagram
    from the target 192.168.0.10 the target is in the seen-set, nothing has
    completed and no device is awaited; and a later, readable datagram from
    the target is ignored, so that the discovery still has not completed. *)
Lemma C9_counterexample_seen_without_completion :
  let p1 :=
    Discover.datagramReceived Scenario.parse_null_only empty_datagram
      single_target in
  let p2 :=
    Discover.run Scenario.parse_null_only
      [Datagram empty_datagram; Datagram null_datagram] single_target in
  target p1 ∈ seenHosts p1
  /\ emits p1 = []
  /\ targetDiscovered p1 = false
  /\ suspended p1 = ∅
  /\ p2 = p1.
Proof.
  repeat split; vm_compute; reflexivity.
Qed.

End DiscoverFacts.

(** ** The theorems at work on the scenarios *)

Module Examples.
Import Js Exceptions Eff Http Bytes Notions Reading.
Local Open Scope Z_scope.

(** The handlers on a successful response, [{"error_code": 0}]. *)
Example smartcam_handler_on_success :
  SmartCam._handleResponseErrorCode (JObj [("error_code", JNum 0)])
    "getDeviceInfo" true (Smart.new_SmartProtocol "192.168.0.10" "uuid" None)
  = (Throw (mk_error DeviceError
              "Error querying device: 192.168.0.10: SUCCESS(0) for method: getDeviceInfo"
              (Some (code_object "SUCCESS" (Some (JNum 0))))),
     Smart.new_SmartProtocol "192.168.0.10" "uuid" None).
Proof. reflexivity. Qed.

Example aes_handler_on_success :
  Aes._handleResponseErrorCode (RespJson (JObj [("error_code", JNum 0)]))
    "Error logging in" TransportScenario.after_handshake
  = (Throw (mk_error DeviceError "Error logging in: 192.168.0.10: SUCCESS(0)"
              (Some (code_object "SUCCESS" (Some (JNum 0))))),
     TransportScenario.after_handshake).
Proof. reflexivity. Qed.

(** The handler of the Smart protocol, which reads [errorCode.value],
    accepts the same response, and tells the kinds of error apart. *)
Example smart_handler_on_success :
  Smart._handleResponseErrorCode (JObj [("error_code", JNum 0)])
    "get_device_info" true (Smart.new_SmartProtocol "192.168.0.10" "uuid" None)
  = (Ok (JObj [("error_code", JNum 0)]),
     Smart.new_SmartProtocol "192.168.0.10" "uuid" None).
Proof. reflexivity. Qed.

(** A response without [error_code]: [undefined] is an element of the
    set of retryable codes, which holds [SmartErrorCode.DEVICE_BUSY]. *)
Example smart_handler_on_missing_code :
  cls_of_result
    (fst (Smart._handleResponseErrorCode (JObj [("result", JObj [])])
            "get_device_info" true
            (Smart.new_SmartProtocol "192.168.0.10" "uuid" None)))
  = Some RetryableError.
Proof. reflexivity. Qed.

Example smart_handler_on_login_error :
  cls_of_result
    (fst (Smart._handleResponseErrorCode (JObj [("error_code", JNum (-1501))])
            "login_device" true
            (Smart.new_SmartProtocol "192.168.0.10" "uuid" None)))
  = Some AuthenticationError.
Proof. reflexivity. Qed.

(** Pagination with a device that pages as it should: one request, and
    the list holds its three entries. *)
Example paging_to_the_sum :
  exists p',
    SmartScenario.paging_with SmartScenario.last_page_next
    = (Ok (JObj [("start_index", JNum 0); ("sum", JNum 3);
                 ("rule_list", JArr [JStr "a"; JStr "b"; JStr "c"])]), p')
    /\ List.length (Smart.events p') = 1%nat.
Proof. eexists. split; reflexivity. Qed.

(** Pagination stopped by an empty page: one request, and the list keeps
    its two entries. *)
Example paging_stopped_by_empty_page :
  exists p',
    SmartScenario.paging_with SmartScenario.empty_page_next
    = (Ok SmartScenario.first_page, p')
    /\ List.length (Smart.events p') = 1%nat.
Proof. eexists. split; reflexivity. Qed.

(** A transport that always times out, with a budget of 2: three
    attempts, each followed by a reset, a pause of 1 s between them, and
    the error of the last attempt. *)
Example iot_timeouts_exhaust_the_budget :
  Iot._query (Scenario.always_throws (new_error TimeoutError "timed out"))
    "{}" 2 (Iot.mk_protocol [])
  = (Throw (new_error TimeoutError "timed out"),
     Iot.mk_protocol
       [Iot.Sent "{}"; Iot.Reset; Iot.Sleep 1000;
        Iot.Sent "{}"; Iot.Reset; Iot.Sleep 1000;
        Iot.Sent "{}"; Iot.Reset]).
Proof. reflexivity. Qed.

(** A login that the device refuses with [LOGIN_ERROR]. *)
Lemma C2_witness :
  exists m rq t',
    Aes.performLogin unit unit (fun _ s => s) (fun _ _ => Thrown "no response")
      (fun _ _ => Thrown (new_error JsError "Decryption failed!"))
      (fun _ c => (Aes.username c, Aes.password c))
      Scenario.stringify TransportScenario.login_error_loads
      (fun _ => 86400) TransportScenario.login_error_network
      Scenario.fixed_clock TransportScenario.after_handshake
    = (Throw (mk_error DeviceError m
                (Some (fromInt
                         (assoc "error_code" [("error_code", JNum (-1501))])))),
       t')
    /\ requests_made t' = requests_made TransportScenario.after_handshake ++ [rq]
    /\ Aes._state unit unit t'
       = Aes._state unit unit TransportScenario.after_handshake
    /\ Aes._defaultCredentials unit unit t'
       = Aes._defaultCredentials unit unit TransportScenario.after_handshake.
Proof.
  apply (LoginFacts.C2_performLogin_makes_no_fallback unit unit
           (fun _ s => s) (fun _ _ => Thrown "no response")
           (fun _ _ => Thrown (new_error JsError "Decryption failed!"))
           (fun _ c => (Aes.username c, Aes.password c))
           Scenario.stringify TransportScenario.login_error_loads
           (fun _ => 86400) TransportScenario.login_error_network
           Scenario.fixed_clock TransportScenario.after_handshake tt
           [("error_code", JNum (-1501))]).
  - reflexivity.
  - exists TransportScenario.login_error_body, [].
    split; [intros rq|]; reflexivity.
Defined.

(** The frame of the discovery query: its length, 29, and the stream that
    starts with D0 F2 81 F8 8B FF 9A F7. *)
Example xor_frame_of_sysinfo_query :
  XorEncryption.encrypt TransportScenario.sysinfo_query
  = Returned
      [0; 0; 0; 29; 208; 242; 129; 248; 139; 255; 154; 247; 213; 239; 148;
       182; 209; 180; 192; 159; 236; 149; 230; 143; 225; 135; 232; 202; 240;
       139; 246; 139; 246].
Proof. reflexivity. Qed.

Lemma C8_witness :
  let P := TransportScenario.sysinfo_query in
  exists frame,
    XorEncryption.encrypt P = Returned frame
    /\ XorEncryption.decrypt (skipn 4 frame) = P
    /\ firstn 4 frame = be32 (Z.of_nat (List.length (from_utf8 P)))
    /\ readUInt32BE (firstn 4 frame)
       = Returned (Z.of_nat (List.length (from_utf8 P))).
Proof.
  destruct (XorFacts.C8_xor_roundtrip_and_length_prefix
              TransportScenario.sysinfo_query ltac:(vm_compute; reflexivity))
    as (frame & Hframe & _ & Hback & Hprefix & Hread).
  exists frame. split; [exact Hframe|].
  split; [apply Hback; vm_compute; reflexivity|].
  split; [exact Hprefix | exact Hread].
Defined.

(** Three messages on a session whose sequence number is 100: the numbers
    returned are 101, 102 and 103. *)
Example klap_three_encrypts :
  let s := Klap.mk_session [] [] [] [] [1; 2; 3; 4; 5; 6; 7; 8; 9; 10; 11; 12] 100 [] in
  let enc := Klap.encrypt (fun b => b) (fun _ _ data => data) in
  let r1 := enc s (Klap.MsgString "{}") in
  let r2 := enc (snd r1) (Klap.MsgString "{}") in
  let r3 := enc (snd r2) (Klap.MsgString "{}") in
  (seq_of_result (fst r1), seq_of_result (fst r2), seq_of_result (fst r3))
  = (Some 101, Some 102, Some 103)
  /\ Klap._generateCipher (snd r3)
     = Returned ([], [1; 2; 3; 4; 5; 6; 7; 8; 9; 10; 11; 12; 0; 0; 0; 103]).
Proof. split; reflexivity. Qed.

(** A session at the largest 32-bit number: [encrypt] throws, after the
    increment. *)
Example klap_encrypt_out_of_range :
  let s := Klap.mk_session [] [] [] [] [] 2147483647 [] in
  let r := Klap.encrypt (fun b => b) (fun _ _ data => data) s (Klap.MsgString "{}") in
  fst r = Thrown out_of_range /\ Klap._seq (snd r) = 2147483648.
Proof. split; reflexivity. Qed.

(** A single-target discovery: a readable datagram from the target, for
    whose device the call then waits; an empty one from the same host,
    which is ignored; then the device of the target, which is recorded and
    completes the discovery, or an error of no recorded kind, which is
    dropped; an empty datagram as the first one; and a timeout for a host
    whose discovery info has the number 5 as its [device_type], which
    records nothing and completes nothing. *)
Lemma C9_witness :
  let parse := Scenario.parse_null_only in
  let ip := "192.168.0.10" in
  let p1 :=
    Discover.datagramReceived parse DiscoverNotions.null_datagram
      DiscoverNotions.single_target in
  let q1 :=
    Discover.datagramReceived Scenario.parse_typed_info
      DiscoverNotions.typed_datagram DiscoverNotions.single_target in
  Discover.datagramReceived parse DiscoverNotions.empty_datagram p1 = p1
  /\ Discover.run parse
       [Discover.Datagram DiscoverNotions.null_datagram;
        Discover.Datagram DiscoverNotions.empty_datagram]
       DiscoverNotions.single_target
     = Discover.run parse [Discover.Datagram DiscoverNotions.null_datagram]
         DiscoverNotions.single_target
  /\ Discover.suspended p1 !! ip
     = Some (Discover.mk_waiting Discover.DeviceInstanceLegacy JNull
               (Discover.mk_config ip None None (Some 5)))
  /\ (let p2 := Discover.deviceSettled ip (Returned "plug") p1 in
      Discover.discoveredDevices p2 !! ip = Some (Discover.Found "plug")
      /\ DiscoverNotions.completions p2 = S (DiscoverNotions.completions p1)
      /\ Discover.targetDiscovered p2 = true
      /\ Discover.suspended p2 = delete ip (Discover.suspended p1))
  /\ Discover.deviceSettled ip
       (Thrown (new_error JsTypeError "x is not a function")) p1
     = Discover.set_suspended (delete ip (Discover.suspended p1)) p1
  /\ Discover.datagramReceived parse DiscoverNotions.empty_datagram
       DiscoverNotions.single_target
     = Discover.set_seenHosts
         ({[ ip ]} ∪ Discover.seenHosts DiscoverNotions.single_target)
         DiscoverNotions.single_target
  /\ Discover.deviceSettled ip
       (Thrown (new_error TimeoutError "Connection timeout after 5000ms")) q1
     = Discover.set_suspended (delete ip (Discover.suspended q1)) q1.
Proof.
  intros parse ip p1 q1.
  pose (w := Discover.mk_waiting Discover.DeviceInstanceLegacy JNull
               (Discover.mk_config ip None None (Some 5))).
  pose (wq := Discover.mk_waiting Discover.DeviceInstanceLegacy
                (JObj [("device_type", JNum 5)])
                (Discover.mk_config ip None None (Some 5))).
  destruct (DiscoverFacts.C9_first_reply_wins_and_completion string parse p1
              DiscoverNotions.empty_datagram)
    as (Hseen & _ & _ & _ & _ & _ & Hsettled & Hdropped & _).
  destruct (DiscoverFacts.C9_first_reply_wins_and_completion string parse
              DiscoverNotions.single_target DiscoverNotions.empty_datagram)
    as (_ & Hrun & _ & Hunreadable & _).
  destruct (DiscoverFacts.C9_first_reply_wins_and_completion string parse
              DiscoverNotions.single_target DiscoverNotions.null_datagram)
    as (_ & _ & _ & _ & Hawaited & _).
  destruct (DiscoverFacts.C9_first_reply_wins_and_completion string
              Scenario.parse_typed_info q1 DiscoverNotions.typed_datagram)
    as (_ & _ & _ & _ & _ & _ & _ & Htimeout & _).
  split; [apply Hseen; vm_compute; reflexivity|].
  split.
  { apply (Hrun [Discover.Datagram DiscoverNotions.null_datagram] []
             DiscoverNotions.null_datagram); [left|]; reflexivity. }
  split.
  { destruct (Hawaited JNull Discover.DeviceInstanceLegacy) as (Hwaits & _);
      [vm_compute; intros H; discriminate H | vm_compute; reflexivity
      | vm_compute; reflexivity |].
    fold p1 in Hwaits. rewrite Hwaits. vm_compute. reflexivity. }
  split.
  { destruct (Hsettled ip (Returned "plug") w
                (DiscoverNotions.InDiscoveredDevices (Discover.Found "plug")))
      as (Hheld & Hgone & Hcompletes & _);
      [vm_compute; reflexivity | reflexivity |].
    destruct Hcompletes as [Hc Ht]; [vm_compute; reflexivity | reflexivity |].
    cbv zeta. auto. }
  split.
  { apply (Hdropped ip (Thrown (new_error JsTypeError "x is not a function")) w);
      vm_compute; reflexivity. }
  split.
  { apply Hunreadable.
    - vm_compute. intros H. discriminate H.
    - split; vm_compute; reflexivity. }
  apply (Htimeout ip
           (Thrown (new_error TimeoutError "Connection timeout after 5000ms")) wq);
    vm_compute; reflexivity.
Defined.

End Examples.

(* ================================================================== *)
(** * Part III: further properties of the code *)
(* ================================================================== *)

(** ** [SmartErrorCode.fromInt] against the registry *)

Module RegistryFacts.
Import Js Exceptions ExceptionsFacts.
Local Open Scope Z_scope.

Lemma same_prim_num (a : option json) (n : Z) :
  same_prim a (Some (JNum n)) = true <-> a = Some (JNum n).
Proof.
  destruct a as [[| b | m | s | items | f]|]; cbn; try (split; discriminate).
  rewrite Z.eqb_eq. split; [intros ->; reflexivity | intros [= ->]; reflexivity].
Qed.

Lemma same_prim_undefined (a : option json) :
  same_prim a None = true <-> a = None.
Proof.
  destruct a as [[| b | m | s | items | f]|]; cbn; split;
    try discriminate; reflexivity.
Qed.

Lemma same_prim_sym_num (n : Z) (v : option json) :
  same_prim (Some (JNum n)) v = true <-> v = Some (JNum n).
Proof.
  destruct v as [[| b | m | s | items | f]|]; cbn; try (split; discriminate).
  rewrite Z.eqb_eq. split; [intros ->; reflexivity | intros [= ->]; reflexivity].
Qed.

(** No two static fields of [SmartErrorCode] have the same value. *)
Lemma registry_values_distinct : NoDup (map snd SmartErrorCode_fields).
Proof. apply (bool_decide_unpack _). vm_compute. exact I. Qed.

Lemma assoc_In {A : Type} (k : string) (v : A) (l : list (string * A)) :
  assoc k l = Some v -> In (k, v) l.
Proof.
  induction l as [|[k' v'] l IH]; cbn; [discriminate|].
  destruct (String.eqb k k') eqn:E.
  - apply String.eqb_eq in E. intros [= ->]. left. now subst.
  - intros H. right. apply IH, H.
Qed.

(** In a table without a repeated value, the first entry that holds [n] is
    the only one. *)
Lemma find_by_value (l : list (string * Z)) (k : string) (n : Z) :
  NoDup (map snd l) -> In (k, n) l ->
  List.find (fun e => same_prim (Some (JNum (snd e))) (Some (JNum n))) l
  = Some (k, n).
Proof.
  induction l as [|[k' n'] l IH]; cbn; intros Hnd Hin; [destruct Hin|].
  apply NoDup_cons in Hnd as [Hnotin Hnd].
  destruct (n' =? n) eqn:E.
  - apply Z.eqb_eq in E. subst n'.
    destruct Hin as [[= ->] | Hin]; [reflexivity|].
    exfalso. apply Hnotin. apply list_elem_of_In.
    apply (List.in_map snd) in Hin. exact Hin.
  - destruct Hin as [[= -> ->] | Hin].
    + rewrite Z.eqb_refl in E. discriminate.
    + apply IH; assumption.
Qed.

Lemma find_none_by_value (l : list (string * Z)) (v : option json) :
  (forall k n, In (k, n) l -> v <> Some (JNum n)) ->
  List.find (fun e => same_prim (Some (JNum (snd e))) v) l = None.
Proof.
  induction l as [|[k' n'] l IH]; cbn [List.find snd]; intros Hall;
    [reflexivity|].
  destruct (same_prim (Some (JNum n')) v) eqn:E.
  - apply same_prim_sym_num in E. exfalso.
    apply (Hall k' n'); [left; reflexivity | exact E].
  - apply IH. intros k n Hin. apply (Hall k n). right. exact Hin.
Qed.

(** The [value] of the object that [fromInt] returns is its argument,
    whatever that is. *)
Lemma fromInt_value (v : option json) :
  exists name, fromInt v = code_object name v.
Proof.
  unfold fromInt.
  destruct (List.find _ SmartErrorCode_fields) as [[key errorValue]|] eqn:Hfind.
  - apply List.find_some in Hfind as [_ Hsame]. cbn [snd] in Hsame.
    apply same_prim_sym_num in Hsame. subst v. eauto.
  - eauto.
Qed.

(** X1.  [fromInt] is the inverse of the registry: the code of a static field
    comes back under the name of that field; a value that is the number of no
    field, a number or not, comes back under the name [UNKNOWN]; and in both
    cases the object holds the value that was given. *)
Theorem fromInt_inverts_the_registry (name : string) (n : Z) (v : option json) :
  (SmartErrorCode name = Some (JNum n) ->
     fromInt (SmartErrorCode name) = code_object name (Some (JNum n)))
  /\ ((forall name' n', In (name', n') SmartErrorCode_fields -> v <> Some (JNum n')) ->
      fromInt v = code_object "UNKNOWN" v)
  /\ (exists name', fromInt v = code_object name' v).
Proof.
  split; [|split].
  - intros Hcode. rewrite Hcode. unfold SmartErrorCode in Hcode.
    destruct (assoc name SmartErrorCode_fields) as [m|] eqn:Hassoc;
      [|discriminate].
    injection Hcode as ->.
    unfold fromInt.
    rewrite (find_by_value _ name n registry_values_distinct (assoc_In _ _ _ Hassoc)).
    reflexivity.
  - intros Hnone. unfold fromInt. rewrite find_none_by_value by exact Hnone.
    reflexivity.
  - apply fromInt_value.
Qed.

(** The code of a login failure, and a code that the registry does not
    know. *)
Lemma fromInt_inverts_the_registry_witness :
  fromInt (SmartErrorCode "LOGIN_ERROR")
  = code_object "LOGIN_ERROR" (Some (JNum (-1501)))
  /\ fromInt (Some (JNum 7)) = code_object "UNKNOWN" (Some (JNum 7)).
Proof.
  destruct (fromInt_inverts_the_registry "LOGIN_ERROR" (-1501) (Some (JNum 7)))
    as (Hknown & Hunknown & _).
  split.
  - apply Hknown. reflexivity.
  - apply Hunknown. intros name' n' Hin [= <-].
    apply (List.in_map snd) in Hin. cbn [snd] in Hin.
    apply list_elem_of_In in Hin. revert Hin.
    apply (bool_decide_unpack _). vm_compute. exact I.
Defined.

End RegistryFacts.

(** ** The response error handler of the Smart protocol *)

Module SmartHandlerFacts.
Import Js Exceptions Eff Smart ExceptionsFacts AssocFacts RegistryFacts.
Local Open Scope Z_scope.

Lemma code_object_value (name : string) (v : option json) :
  assoc "value" (fields_of (code_object name v)) = v.
Proof. destruct v; reflexivity. Qed.

Lemma not_same_prim_num (a : option json) (n : Z) :
  same_prim a (Some (JNum n)) = false <-> a <> Some (JNum n).
Proof.
  rewrite <- same_prim_num. destruct (same_prim a (Some (JNum n)));
    split; congruence.
Qed.

Lemma not_same_prim_undefined (a : option json) :
  same_prim a None = false <-> a <> None.
Proof.
  rewrite <- same_prim_undefined. destruct (same_prim a None);
    split; congruence.
Qed.

(** The keys of an object after an assignment do not depend on the value
    assigned. *)
Lemma assoc_set_keys {A : Type} (k : string) (v w : A)
    (fields : list (string * A)) :
  map fst (assoc_set k v fields) = map fst (assoc_set k w fields).
Proof.
  induction fields as [|[k' v'] rest IH]; cbn [assoc_set map fst];
    [reflexivity|].
  destruct (String.eqb k k'); cbn [map fst]; [reflexivity | now rewrite IH].
Qed.

(** X2.  The handler of the Smart protocol, which compares [errorCode.value],
    sorts every response object by its [error_code]: it returns, leaving the
    response as it is, exactly when the code is the number 0; otherwise it
    throws an error that carries the object of [fromInt], and that error is a
    [RetryableError] exactly when the code is -40401, 1003 or missing
    ([undefined] is an element of the set, which lists the absent
    [SmartErrorCode.DEVICE_BUSY]), an [AuthenticationError] exactly when it is
    -1501, and a plain [DeviceError] for every other value, a code that is
    [null] or a string included.  The protocol object is not changed. *)
Theorem smart_handler_sorts_by_code (p : SmartProtocol)
    (fields : list (string * json)) (method : string) :
  let raw := assoc "error_code" fields in
  let run := Smart._handleResponseErrorCode (JObj fields) method true p in
  (raw = Some (JNum 0) /\ run = (Ok (JObj fields), p))
  \/ (raw <> Some (JNum 0)
      /\ exists e,
           run = (Throw e, p)
           /\ errorCode e = Some (fromInt raw)
           /\ (cls e = RetryableError
               <-> raw = None \/ raw = Some (JNum (-40401))
                   \/ raw = Some (JNum 1003))
           /\ (cls e = AuthenticationError <-> raw = Some (JNum (-1501)))
           /\ (cls e = DeviceError
               <-> raw <> None /\ raw <> Some (JNum (-40401))
                   /\ raw <> Some (JNum 1003) /\ raw <> Some (JNum (-1501)))).
Proof.
  intros raw run. subst run.
  unfold Smart._handleResponseErrorCode, bind, or_type_error, get_prop, ret,
    get, throw.
  fold raw.
  destruct (fromInt_value raw) as [name Hcode]. rewrite Hcode.
  rewrite code_object_value.
  change (SmartErrorCode "SUCCESS") with (Some (JNum 0)).
  destruct (same_prim raw (Some (JNum 0))) eqn:H0.
  { left. apply same_prim_num in H0. split; [exact H0 | reflexivity]. }
  apply not_same_prim_num in H0.
  right. split; [exact H0|].
  cbn [negb].
  unfold has_prim, LOCAL_SMART_RETRYABLE_ERRORS,
    LOCAL_SMART_AUTHENTICATION_ERRORS.
  change (SmartErrorCode "SESSION_EXPIRED") with (Some (JNum (-40401))).
  change (SmartErrorCode "DEVICE_BUSY") with (@None json).
  change (SmartErrorCode "TRANSPORT_UNKNOWN_CREDENTIALS_ERROR")
    with (Some (JNum 1003)).
  change (SmartErrorCode "LOGIN_ERROR") with (Some (JNum (-1501))).
  cbn [existsb].
  destruct (same_prim raw (Some (JNum (-40401)))) eqn:H1;
    [apply same_prim_num in H1 | apply not_same_prim_num in H1];
  (destruct (same_prim raw None) eqn:H2;
    [apply same_prim_undefined in H2 | apply not_same_prim_undefined in H2]);
  (destruct (same_prim raw (Some (JNum 1003))) eqn:H3;
    [apply same_prim_num in H3 | apply not_same_prim_num in H3]);
  (destruct (same_prim raw (Some (JNum (-1501)))) eqn:H4;
    [apply same_prim_num in H4 | apply not_same_prim_num in H4]);
  cbn [orb]; rewrite new_device_error_code;
  eexists; (split; [reflexivity|]); cbn [errorCode cls];
  (split; [reflexivity|]);
  repeat split; try congruence; try discriminate; intuition congruence.
Qed.

(** X3.  With [raiseOnError] false the handler never throws on a response
    object: a code other than the number 0 is stored, as the object of
    [fromInt], in the [result] of the response, whose other fields are kept; a
    response with the code 0 is returned as it is.  The protocol object is not
    changed. *)
Theorem smart_handler_stores_the_code (p : SmartProtocol)
    (fields : list (string * json)) (method : string) :
  let raw := assoc "error_code" fields in
  let run := Smart._handleResponseErrorCode (JObj fields) method false p in
  exists fields',
    run = (Ok (JObj fields'), p)
    /\ (raw = Some (JNum 0) /\ fields' = fields
        \/ raw <> Some (JNum 0)
           /\ assoc "result" fields' = Some (fromInt raw)
           /\ (forall k, k <> "result" -> assoc k fields' = assoc k fields)
           /\ map fst fields' = map fst (assoc_set "result" JNull fields)).
Proof.
  intros raw run. subst run.
  unfold Smart._handleResponseErrorCode, bind, or_type_error, get_prop, ret,
    get, throw.
  fold raw.
  destruct (fromInt_value raw) as [name Hcode]. rewrite Hcode.
  rewrite code_object_value.
  change (SmartErrorCode "SUCCESS") with (Some (JNum 0)).
  destruct (same_prim raw (Some (JNum 0))) eqn:H0.
  { apply same_prim_num in H0. eexists. split; [reflexivity|]. left. auto. }
  apply not_same_prim_num in H0. cbn [negb set_result ret].
  eexists. split; [reflexivity|]. right.
  split; [exact H0|]. split; [apply assoc_set_eq|].
  split; [intros k Hk; apply assoc_set_ne; exact Hk|].
  apply assoc_set_keys.
Qed.

End SmartHandlerFacts.

(** ** The retry loop of the Smart protocol *)

Module SmartRetryFacts.
Import Js Exceptions Eff Smart Notions IotFacts.
Local Open Scope Z_scope.

Section Loop.

Variable JSON_stringify : json -> string.
Variable StringToNumber : string -> option Z.
Variable Date_now : nat -> Z.
Variable transport_send : nat -> string -> may_throw js_error json.

Abbreviation _executeQuery :=
  (Smart._executeQuery JSON_stringify StringToNumber Date_now transport_send).
Abbreviation query_loop :=
  (Smart.query_loop JSON_stringify StringToNumber Date_now transport_send).
Abbreviation _query :=
  (Smart._query JSON_stringify StringToNumber Date_now transport_send).

(** One iteration whose attempt throws [e], by the class of [e]. *)
Lemma smart_iteration_throws (fuel : nat) (request : query_request)
    (retryCount : Z) (left : nat) (retry : Z) (p p1 : SmartProtocol)
    (e : js_error) :
  _executeQuery fuel request p = (Throw e, p1) ->
  query_loop fuel request retryCount (S left) retry p
  = let continue := query_loop fuel request retryCount left (retry + 1) in
    match cls e with
    | ConnectionError =>
        if retry >=? retryCount then (Throw e, p1) else continue p1
    | RetryableError | TimeoutError =>
        if retry >=? retryCount then (Throw e, log Reset p1)
        else continue (log (Sleep 1000) (log Reset p1))
    | _ => (Throw e, log Reset p1)
    end.
Proof.
  intros Hexec.
  cbn [Smart.query_loop]. unfold try_catch. rewrite Hexec.
  unfold instanceof.
  destruct e as [c m code]; destruct c; cbn;
    try destruct (retry >=? retryCount); reflexivity.
Qed.

Lemma smart_iteration_ends (fuel : nat) (request : query_request)
    (retryCount : Z) (left : nat) (retry : Z) (p p1 : SmartProtocol)
    (r : result js_error query_result) :
  _executeQuery fuel request p = (r, p1) ->
  (forall e, r <> Throw e) ->
  query_loop fuel request retryCount (S left) retry p = (r, p1).
Proof.
  intros Hexec Hr.
  cbn [Smart.query_loop]. unfold try_catch. rewrite Hexec.
  destruct r as [a | e |]; [reflexivity | | reflexivity].
  exfalso. apply (Hr e). reflexivity.
Qed.

(** X4.  In an iteration of the retry loop of the Smart protocol whose attempt
    throws [e]: a [TimeoutError] and a [RetryableError] reset the transport
    and, if retries remain, pause 1 s and retry; a [ConnectionError] retries
    at once, without a reset; in these cases the error is thrown once [retry]
    has reached the budget; an [AuthenticationError], any other library error
    and any error that is not of the library reset the transport and are
    thrown at once. *)
Theorem smart_retry_policy (fuel : nat) (request : query_request)
    (retryCount : Z) (left : nat) (retry : Z) (p p1 : SmartProtocol)
    (e : js_error) :
  _executeQuery fuel request p = (Throw e, p1) ->
  let again := query_loop fuel request retryCount left (retry + 1) in
  let this := query_loop fuel request retryCount (S left) retry p in
  (cls e = TimeoutError \/ cls e = RetryableError ->
     (retry < retryCount -> this = again (log (Sleep 1000) (log Reset p1)))
     /\ (retryCount <= retry -> this = (Throw e, log Reset p1)))
  /\ (cls e = ConnectionError ->
        (retry < retryCount -> this = again p1)
        /\ (retryCount <= retry -> this = (Throw e, p1)))
  /\ (cls e = AuthenticationError \/ other_library_error e
      \/ not_of_the_library e ->
        this = (Throw e, log Reset p1)).
Proof.
  intros Hexec again this.
  pose proof (smart_iteration_throws fuel request retryCount left retry p p1 e
                Hexec) as Hit.
  cbv zeta in Hit. fold again this in Hit.
  split; [|split].
  - intros Hc. split.
    + intros Hlt. rewrite Hit, (geb_false _ _ Hlt).
      destruct Hc as [-> | ->]; reflexivity.
    + intros Hge. rewrite Hit, (geb_true _ _ Hge).
      destruct Hc as [-> | ->]; reflexivity.
  - intros Hc. split.
    + intros Hlt. rewrite Hit, Hc, (geb_false _ _ Hlt). reflexivity.
    + intros Hge. rewrite Hit, Hc, (geb_true _ _ Hge). reflexivity.
  - rewrite not_of_the_library_classes.
    intros [Hc | [[Hc | [Hc | Hc]] | [Hc | [Hc | Hc]]]];
      rewrite Hit, Hc; reflexivity.
Qed.

Abbreviation attempt_of :=
  (Notions.attempt_of JSON_stringify StringToNumber Date_now transport_send).
Abbreviation retried :=
  (Notions.retried JSON_stringify StringToNumber Date_now transport_send).

(** The loop ends with what the last of its attempts ended with; the
    attempts before it failed and were retried. *)
Lemma smart_loop_outcome (fuel : nat) (request : query_request)
    (retryCount : Z) (p : SmartProtocol) (left : nat) :
  forall (n : nat) (q : SmartProtocol),
    attempt_of fuel request p n q ->
    Z.of_nat n + Z.of_nat left = retryCount + 1 -> (0 < left)%nat ->
    let run := query_loop fuel request retryCount left (Z.of_nat n) q in
    exists (m : nat) (p0 p1 : SmartProtocol),
      attempt_of fuel request p m p0
      /\ Z.of_nat m <= retryCount
      /\ _executeQuery fuel request p0 = (fst run, p1)
      /\ snd run = left_after (fst run) p1.
Proof.
  induction left as [|left IH]; intros n q Hq Hsum Hpos; [lia|].
  cbv zeta.
  destruct (_executeQuery fuel request q) as [r p1] eqn:Hexec.
  assert (Hhere : forall r' : result js_error query_result,
             r' = r ->
             exists (m : nat) (p0 p1' : SmartProtocol),
               attempt_of fuel request p m p0
               /\ Z.of_nat m <= retryCount
               /\ _executeQuery fuel request p0 = (r', p1')
               /\ left_after r' p1 = left_after r' p1').
  { intros r' ->. exists n, q, p1.
    split; [exact Hq|]. split; [lia|]. split; [exact Hexec | reflexivity]. }
  destruct r as [a | e |].
  - rewrite (smart_iteration_ends _ _ _ _ _ _ _ _ Hexec) by discriminate.
    cbn [fst snd]. apply (Hhere (Ok a) eq_refl).
  - rewrite (smart_iteration_throws _ _ _ _ _ _ _ _ Hexec). cbv zeta.
    assert (Hgo : forall q', retried fuel request q q' ->
               Z.of_nat n < retryCount ->
               let run := query_loop fuel request retryCount left
                            (Z.of_nat n + 1) q' in
               exists (m : nat) (p0 p1' : SmartProtocol),
                 attempt_of fuel request p m p0
                 /\ Z.of_nat m <= retryCount
                 /\ _executeQuery fuel request p0 = (fst run, p1')
                 /\ snd run = left_after (fst run) p1').
    { intros q' Hretried Hge.
      replace (Z.of_nat n + 1) with (Z.of_nat (S n)) by lia.
      apply IH; [|lia|lia].
      apply (Notions.next_attempt _ _ _ _ _ _ _ n q q' Hq Hretried). }
    destruct (cls e) eqn:Hcls;
      try (cbn [fst snd];
           destruct (Hhere (Throw e) eq_refl) as (m & p0 & p1' & H1 & H2 & H3 & H4);
           exists m, p0, p1'; cbn [left_after] in *; rewrite Hcls in *;
           repeat split; try assumption; congruence).
    + (* TimeoutError *)
      destruct (Z.of_nat n >=? retryCount) eqn:Hge.
      * cbn [fst snd].
        destruct (Hhere (Throw e) eq_refl) as (m & p0 & p1' & H1 & H2 & H3 & H4).
        exists m, p0, p1'. cbn [left_after] in *. rewrite Hcls in *.
        repeat split; try assumption; congruence.
      * rewrite Z.geb_leb in Hge. apply Z.leb_gt in Hge.
        apply Hgo; [|exact Hge].
        apply (Notions.retried_after_reset _ _ _ _ _ _ q p1 e Hexec).
        left. exact Hcls.
    + (* ConnectionError *)
      destruct (Z.of_nat n >=? retryCount) eqn:Hge.
      * cbn [fst snd].
        destruct (Hhere (Throw e) eq_refl) as (m & p0 & p1' & H1 & H2 & H3 & H4).
        exists m, p0, p1'. cbn [left_after] in *. rewrite Hcls in *.
        repeat split; try assumption; congruence.
      * rewrite Z.geb_leb in Hge. apply Z.leb_gt in Hge.
        apply Hgo; [|exact Hge].
        apply (Notions.retried_at_once _ _ _ _ _ _ q p1 e Hexec Hcls).
    + (* RetryableError *)
      destruct (Z.of_nat n >=? retryCount) eqn:Hge.
      * cbn [fst snd].
        destruct (Hhere (Throw e) eq_refl) as (m & p0 & p1' & H1 & H2 & H3 & H4).
        exists m, p0, p1'. cbn [left_after] in *. rewrite Hcls in *.
        repeat split; try assumption; congruence.
      * rewrite Z.geb_leb in Hge. apply Z.leb_gt in Hge.
        apply Hgo; [|exact Hge].
        apply (Notions.retried_after_reset _ _ _ _ _ _ q p1 e Hexec).
        right. exact Hcls.
  - rewrite (smart_iteration_ends _ _ _ _ _ _ _ _ Hexec) by discriminate.
    cbn [fst snd]. apply (Hhere Diverge eq_refl).
Qed.

(** X5.  With a budget that is not negative, a query of the Smart protocol
    ends as the last of its attempts ended.  The attempts are those of the
    run: the first starts with the protocol of the query, and each next one
    starts where a failed attempt and the retry policy left the protocol;
    there are at most [retryCount + 1] of them.  What the query returns was
    returned by the last attempt, and what it throws was thrown by the last
    attempt, so the last statement of [_query] is never reached; the
    protocol is left as that attempt left it, after a reset when the
    attempt threw an error other than a [ConnectionError].  With a negative
    budget no attempt is made: nothing is sent and that last statement
    throws. *)
Theorem smart_query_ends_as_an_attempt (fuel : nat) (request : query_request)
    (retryCount : Z) (p : SmartProtocol) :
  let run := _query fuel request retryCount p in
  (0 <= retryCount ->
     exists (n : nat) (p0 p1 : SmartProtocol),
       attempt_of fuel request p n p0
       /\ Z.of_nat n <= retryCount
       /\ _executeQuery fuel request p0 = (fst run, p1)
       /\ snd run = left_after (fst run) p1)
  /\ (retryCount < 0 ->
      run
      = (Throw (new_error KasaException "Query reached somehow to unreachable"),
         p)).
Proof.
  cbv zeta. split.
  - intros Hrc. unfold Smart._query.
    apply (smart_loop_outcome fuel request retryCount p
             (Z.to_nat (retryCount + 1)) 0 p); [constructor | lia | lia].
  - intros Hrc. unfold Smart._query.
    replace (Z.to_nat (retryCount + 1)) with 0%nat by lia.
    reflexivity.
Qed.

End Loop.

(** The policy on transports that always throw an error of one kind, with
    a budget of 3, in the first iteration of a query for one method. *)
Lemma smart_retry_policy_witness :
  let loop kind :=
    Smart.query_loop Scenario.stringify Scenario.decimal_to_number
      Scenario.fixed_clock (Scenario.always_throws (new_error kind "x"))
      0 (ReqString "get_device_info") 3 in
  let p := new_SmartProtocol "192.168.0.10" "uuid" None in
  let p1 :=
    log (Sent (Scenario.stringify
                 (JObj [("method", JStr "get_device_info");
                        ("request_time_milis", JNum 1700000000000);
                        ("terminal_uuid", JStr "uuid")]))) p in
  loop TimeoutError 4%nat 0 p
  = loop TimeoutError 3%nat 1 (log (Sleep 1000) (log Reset p1))
  /\ loop ConnectionError 4%nat 0 p = loop ConnectionError 3%nat 1 p1
  /\ loop JsTypeError 4%nat 0 p
     = (Throw (new_error JsTypeError "x"), log Reset p1).
Proof.
  intros loop p p1.
  pose proof (fun kind left retry =>
                smart_retry_policy Scenario.stringify Scenario.decimal_to_number
                  Scenario.fixed_clock
                  (Scenario.always_throws (new_error kind "x"))
                  0 (ReqString "get_device_info") 3 left retry p p1
                  (new_error kind "x") eq_refl) as H.
  cbv zeta in H.
  split.
  { destruct (H TimeoutError 3%nat 0) as (HT & _).
    apply (proj1 (HT (or_introl eq_refl))). lia. }
  split.
  { destruct (H ConnectionError 3%nat 0) as (_ & HC & _).
    apply (proj1 (HC eq_refl)). lia. }
  destruct (H JsTypeError 3%nat 0) as (_ & _ & HO).
  apply HO. right. right. reflexivity.
Defined.

(** A query with a budget of 3 to a device that always times out, and one
    with a budget of -1. *)
Lemma smart_query_ends_as_an_attempt_witness :
  let device := Scenario.always_throws (new_error TimeoutError "x") in
  let query :=
    Smart._query Scenario.stringify Scenario.decimal_to_number
      Scenario.fixed_clock device 0 (ReqString "get_device_info") in
  let p := new_SmartProtocol "192.168.0.10" "uuid" None in
  (exists (n : nat) (p0 p1 : SmartProtocol),
     Notions.attempt_of Scenario.stringify Scenario.decimal_to_number
       Scenario.fixed_clock device 0 (ReqString "get_device_info") p n p0
     /\ Z.of_nat n <= 3
     /\ Smart._executeQuery Scenario.stringify Scenario.decimal_to_number
          Scenario.fixed_clock device 0 (ReqString "get_device_info") p0
        = (fst (query 3 p), p1)
     /\ snd (query 3 p) = Notions.left_after (fst (query 3 p)) p1)
  /\ query (-1) p
     = (Throw (new_error KasaException "Query reached somehow to unreachable"),
        p).
Proof.
  intros device query p. split.
  - apply (smart_query_ends_as_an_attempt Scenario.stringify
             Scenario.decimal_to_number Scenario.fixed_clock device
             0 (ReqString "get_device_info") 3 p). lia.
  - apply (smart_query_ends_as_an_attempt Scenario.stringify
             Scenario.decimal_to_number Scenario.fixed_clock device
             0 (ReqString "get_device_info") (-1) p). lia.
Defined.

End SmartRetryFacts.

(** ** The IoT protocol: what a query may do *)

Module IotBudgetFacts.
Import Js Exceptions Eff Iot Notions IotFacts.
Local Open Scope Z_scope.

Lemma sent_count_log_other (p : IotProtocol) (ev : event) :
  is_sent ev = false -> sent_count (log ev p) = sent_count p.
Proof.
  intros Hev. unfold sent_count, log. cbn [events].
  rewrite List.filter_app, List.length_app. cbn. rewrite Hev. cbn. lia.
Qed.

(** Every element of a given list of events is of one of the three kinds. *)
Ltac events_ok :=
  repeat (apply List.Forall_cons; [auto|]); apply List.Forall_nil.

Section Loop.

Variable transport_send : nat -> string -> may_throw js_error json.

Abbreviation query_loop := (Iot.query_loop transport_send).
Abbreviation _query := (Iot._query transport_send).

Abbreviation within := (IotNotions.within transport_send).

Lemma within_throw (request : string) (left : nat) (p : IotProtocol)
    (e : js_error) (more : list event) :
  Forall (fun ev => ev = Sent request \/ ev = Reset \/ ev = Sleep 1000) more ->
  (List.length (List.filter is_sent more) <= left)%nat ->
  within request left p (Throw e, mk_protocol (events p ++ more)).
Proof.
  intros Hall Hlen. exists more. cbn [fst snd events].
  split; [reflexivity|]. split; [exact Hall|].
  split.
  { unfold sent_count. cbn [events].
    rewrite List.filter_app, List.length_app. lia. }
  split; [discriminate|]. intros resp H. discriminate H.
Qed.

Lemma within_step (request : string) (left : nat) (p q : IotProtocol)
    (run : result js_error json * IotProtocol) (pre : list event) :
  events q = events p ++ pre ->
  Forall (fun ev => ev = Sent request \/ ev = Reset \/ ev = Sleep 1000) pre ->
  List.length (List.filter is_sent pre) = 1%nat ->
  within request left q run ->
  within request (S left) p run.
Proof.
  intros Hq Hpre Hone (more & Hev & Hall & Hcount & Hdiv & Hok).
  exists (pre ++ more).
  split; [rewrite Hev, Hq, <- List.app_assoc; reflexivity|].
  split; [apply Forall_app; split; assumption|].
  split.
  { assert (sent_count q = S (sent_count p)) as Hs.
    { unfold sent_count. rewrite Hq, List.filter_app, List.length_app. lia. }
    lia. }
  split; [exact Hdiv|].
  intros resp Hresp. destruct (Hok resp Hresp) as [Hsend [before ->]].
  split; [exact Hsend|].
  exists (pre ++ before). rewrite <- List.app_assoc. reflexivity.
Qed.

Lemma loop_within (request : string) (retryCount : Z) (left : nat) :
  forall (retry : Z) (p : IotProtocol),
    within request left p (query_loop request retryCount left retry p).
Proof.
  induction left as [|left IH]; intros retry p.
  - cbn [Iot.query_loop]. unfold throw.
    pose proof (within_throw request 0 p
                  (new_error KasaException "Query reached somehow to unreachable")
                  [] ltac:(constructor)) as H.
    rewrite List.app_nil_r in H. destruct p as [evs]. apply H. cbn. lia.
  - destruct (transport_send (sent_count p) request) as [resp | e] eqn:Hsend.
    + rewrite (iteration_returns _ _ _ _ _ _ _ Hsend).
      exists [Sent request]. cbn [fst snd log events].
      split; [reflexivity|].
      split; [events_ok|].
      split; [rewrite iot_sent_count_log_sent; lia|].
      split; [discriminate|].
      intros resp' [= <-]. rewrite iot_sent_count_log_sent. cbn [Nat.pred].
      split; [exact Hsend | exists []; reflexivity].
    + rewrite (iteration_throws _ _ _ _ _ _ _ Hsend). cbv zeta.
      assert (Hstop1 : within request (S left) p (Throw e, log (Sent request) p)).
      { apply (within_throw request (S left) p e [Sent request]);
          [events_ok | cbn; lia]. }
      assert (Hstop2 : within request (S left) p
                         (Throw e, log Reset (log (Sent request) p))).
      { pose proof (within_throw request (S left) p e [Sent request; Reset]) as H.
        unfold log. cbn [events]. rewrite <- List.app_assoc. apply H;
          [events_ok | cbn; lia]. }
      assert (Hgo1 : within request (S left) p
                       (query_loop request retryCount left (retry + 1)
                          (log (Sent request) p))).
      { apply (within_step request left p (log (Sent request) p) _ [Sent request]);
          [reflexivity | events_ok | reflexivity | apply IH]. }
      assert (Hgo2 : within request (S left) p
                       (query_loop request retryCount left (retry + 1)
                          (log Reset (log (Sent request) p)))).
      { apply (within_step request left p (log Reset (log (Sent request) p)) _
                 [Sent request; Reset]);
          [unfold log; cbn [events]; rewrite <- List.app_assoc; reflexivity
          | events_ok | reflexivity | apply IH]. }
      assert (Hgo3 : within request (S left) p
                       (query_loop request retryCount left (retry + 1)
                          (log (Sleep 1000) (log Reset (log (Sent request) p))))).
      { apply (within_step request left p
                 (log (Sleep 1000) (log Reset (log (Sent request) p))) _
                 [Sent request; Reset; Sleep 1000]);
          [unfold log; cbn [events]; rewrite <- !List.app_assoc; reflexivity
          | events_ok | reflexivity | apply IH]. }
      destruct (cls e); try destruct (retry >=? retryCount); assumption.
Qed.

(** X6.  Whatever the transport does, a query of the IoT protocol sends only
    the request it was given, at most [retryCount + 1] times (not at all when
    the budget is negative), and besides that only resets the transport and
    pauses for 1 s; it always ends; and a response that it returns is the
    answer of the transport to the last request sent, the sending of which was
    the last thing done. *)
Theorem iot_query_stays_within_budget (request : string) (retryCount : Z)
    (p : IotProtocol) :
  let run := _query request retryCount p in
  exists more,
    events (snd run) = events p ++ more
    /\ Forall (fun ev => ev = Sent request \/ ev = Reset \/ ev = Sleep 1000) more
    /\ (sent_count (snd run) <= sent_count p + Z.to_nat (retryCount + 1))%nat
    /\ fst run <> Diverge
    /\ (forall resp, fst run = Ok resp ->
          transport_send (Nat.pred (sent_count (snd run))) request = Returned resp
          /\ exists before, more = before ++ [Sent request]).
Proof. apply (loop_within request retryCount). Qed.

End Loop.

(** A transport that is busy once, with a budget of 3: two requests, and
    the answer to the second. *)
Lemma iot_query_stays_within_budget_witness :
  let run := Iot._query Scenario.retryable_once "{}" 3 (mk_protocol []) in
  fst run = Ok JNull
  /\ Scenario.retryable_once (Nat.pred (sent_count (snd run))) "{}"
     = Returned JNull
  /\ (sent_count (snd run) <= 4)%nat.
Proof.
  intros run.
  destruct (iot_query_stays_within_budget Scenario.retryable_once "{}" 3
              (mk_protocol []))
    as (more & _ & _ & Hcount & _ & Hok).
  split; [reflexivity|].
  split; [apply (Hok JNull); reflexivity | exact Hcount].
Defined.

End IotBudgetFacts.

(** ** The Smart protocol: batches of a multiple request *)

Module BatchFacts.
Import Js Exceptions Eff Smart AssocFacts.
Local Open Scope Z_scope.

Lemma skipn_add {A : Type} (a b : nat) (l : list A) :
  skipn (a + b) l = skipn b (skipn a l).
Proof.
  revert l. induction a as [|a IH]; intros l; cbn; [reflexivity|].
  destruct l as [|x l]; [destruct b; reflexivity | apply IH].
Qed.

(** The loop that cuts the requests into batches, from index [i] on. *)
Lemma make_batches_from {A : Type} (l : list A) (n : nat) (step : Z) :
  1 <= step -> (List.length l <= n)%nat ->
  forall (fuel : nat) (i : Z),
    0 <= i -> Z.of_nat n - i <= Z.of_nat fuel ->
    exists bs,
      make_batches fuel l (Z.of_nat n) step i = Some bs
      /\ concat bs = skipn (Z.to_nat i) l
      /\ Forall (fun b => Z.of_nat (List.length b) <= step) bs
      /\ Z.of_nat (List.length bs) = (Z.max 0 (Z.of_nat n - i) + step - 1) / step.
Proof.
  intros Hstep Hlen. induction fuel as [|fuel IH]; intros i Hi Hfuel.
  - cbn [make_batches].
    destruct (i <? Z.of_nat n) eqn:Hlt; [apply Z.ltb_lt in Hlt; lia|].
    apply Z.ltb_ge in Hlt.
    exists []. split; [reflexivity|]. split.
    { cbn. symmetry. apply List.skipn_all2. lia. }
    split; [constructor|].
    cbn. symmetry. apply Z.div_small. lia.
  - cbn [make_batches].
    destruct (i <? Z.of_nat n) eqn:Hlt.
    + apply Z.ltb_lt in Hlt.
      destruct (IH (i + step)) as (rest & Hrest & Hcat & Hall & Hcount); [lia | lia |].
      rewrite Hrest. eexists. split; [reflexivity|].
      split.
      { cbn [concat]. rewrite Hcat. unfold slice.
        replace (i + step - i) with step by lia.
        replace (Z.to_nat (i + step)) with (Z.to_nat i + Z.to_nat step)%nat by lia.
        rewrite skipn_add. apply List.firstn_skipn. }
      split.
      { constructor; [|exact Hall]. unfold slice.
        rewrite List.length_firstn. lia. }
      cbn [List.length]. rewrite Nat2Z.inj_succ, Hcount.
      destruct (Z.le_gt_cases step (Z.of_nat n - i)) as [Hmore | Hless].
      * rewrite !Z.max_r by lia.
        replace (Z.of_nat n - i + step - 1)
          with (Z.of_nat n - (i + step) + step - 1 + 1 * step) by lia.
        rewrite Z.div_add by lia. lia.
      * rewrite Z.max_l by lia. rewrite Z.max_r by lia.
        rewrite (Z.div_small (0 + step - 1)) by lia.
        replace (Z.of_nat n - i + step - 1)
          with (Z.of_nat n - i - 1 + 1 * step) by lia.
        rewrite Z.div_add by lia.
        rewrite Z.div_small by lia. lia.
    + apply Z.ltb_ge in Hlt.
      exists []. split; [reflexivity|]. split.
      { cbn. symmetry. apply List.skipn_all2. lia. }
      split; [constructor|].
      cbn. symmetry. rewrite Z.max_l by lia. apply Z.div_small. lia.
Qed.

Lemma make_batches_never_ends {A : Type} (l : list A) (requestCount step : Z)
    (fuel : nat) :
  step <= 0 -> forall i, i < requestCount ->
  make_batches fuel l requestCount step i = None.
Proof.
  intros Hstep. induction fuel as [|fuel IH]; intros i Hi; cbn [make_batches];
    (destruct (i <? requestCount) eqn:Hlt;
       [|apply Z.ltb_ge in Hlt; lia]).
  - reflexivity.
  - rewrite IH by lia. reflexivity.
Qed.

(** X7.  With a batch size of at least 1, the loop that cuts [requestCount]
    requests into batches ends within [requestCount] steps; the batches, one
    after the other, are the requests that are to go in a batch, none lost,
    repeated or reordered; no batch is larger than the batch size; and there
    are as many batches as the batch size goes into [requestCount], rounded
    up.  With a batch size of 0 or less the loop never ends. *)
Theorem batches_partition_the_requests {A : Type} (multiRequests : list A)
    (requestCount : nat) (step : Z) :
  (1 <= step -> (List.length multiRequests <= requestCount)%nat ->
     exists batches,
       make_batches requestCount multiRequests (Z.of_nat requestCount) step 0
       = Some batches
       /\ concat batches = multiRequests
       /\ Forall (fun b => Z.of_nat (List.length b) <= step) batches
       /\ Z.of_nat (List.length batches)
          = (Z.of_nat requestCount + step - 1) / step)
  /\ (step <= 0 -> (0 < requestCount)%nat ->
      forall fuel,
        make_batches fuel multiRequests (Z.of_nat requestCount) step 0 = None).
Proof.
  split.
  - intros Hstep Hlen.
    destruct (make_batches_from multiRequests requestCount step Hstep Hlen
                requestCount 0) as (bs & Hbs & Hcat & Hall & Hcount);
      [lia | lia |].
    exists bs. split; [exact Hbs|]. split; [exact Hcat|].
    split; [exact Hall|].
    rewrite Hcount. rewrite Z.max_r by lia. f_equal. lia.
  - intros Hstep Hpos fuel. apply make_batches_never_ends; lia.
Qed.

(** Seven requests in batches of 5, of which the second is short; and a
    batch size of 0. *)
Lemma batches_partition_the_requests_witness :
  (exists batches,
     make_batches 7 ["a"; "b"; "c"; "d"; "e"; "f"; "g"] 7 5 0 = Some batches
     /\ concat batches = ["a"; "b"; "c"; "d"; "e"; "f"; "g"]
     /\ Forall (fun b => Z.of_nat (List.length b) <= 5) batches
     /\ Z.of_nat (List.length batches) = (7 + 5 - 1) / 5)
  /\ (forall fuel,
        make_batches fuel ["a"; "b"; "c"; "d"; "e"; "f"; "g"] 7 0 0 = None).
Proof.
  destruct (batches_partition_the_requests
              ["a"; "b"; "c"; "d"; "e"; "f"; "g"] 7 5) as [Hcut _].
  destruct (batches_partition_the_requests
              ["a"; "b"; "c"; "d"; "e"; "f"; "g"] 7 0) as [_ Hloop].
  split.
  - apply Hcut; [lia | cbn; lia].
  - apply Hloop; lia.
Defined.

End BatchFacts.

(** ** The Smart protocol: which methods a multiple query answers *)

Module MultiQueryFacts.
Import Js Exceptions Eff Smart AssocFacts.
Local Open Scope Z_scope.

(** A sequence of two steps returns only if both do. *)
Lemma bind_ok {S A B : Type} (m : M S A) (k : A -> M S B) (s s' : S) (b : B) :
  bind m k s = (Ok b, s') ->
  exists a s1, m s = (Ok a, s1) /\ k a s1 = (Ok b, s').
Proof.
  unfold bind. destruct (m s) as [[a | e |] s1]; try discriminate.
  intros H. exists a, s1. auto.
Qed.

Lemma has_key_assoc_set_eq {A : Type} (k : string) (v : A)
    (fields : list (string * A)) :
  has_key k (assoc_set k v fields) = true.
Proof. unfold has_key. now rewrite assoc_set_eq. Qed.

Lemma has_key_assoc_set_ne {A : Type} (k k0 : string) (v : A)
    (fields : list (string * A)) :
  k0 <> k -> has_key k0 (assoc_set k v fields) = has_key k0 fields.
Proof. intros H. unfold has_key. now rewrite assoc_set_ne. Qed.

Lemma has_key_assoc_set {A : Type} (k k0 : string) (v : A)
    (fields : list (string * A)) :
  has_key k0 (assoc_set k v fields) = true <-> k0 = k \/ has_key k0 fields = true.
Proof.
  destruct (String.eqb_spec k0 k) as [-> | Hne].
  - rewrite has_key_assoc_set_eq. tauto.
  - rewrite has_key_assoc_set_ne by exact Hne. tauto.
Qed.

(** An assignment under a name other than [__proto__] makes an own
    property; one under [__proto__] makes no own property of another
    name. *)
Lemma set_property_own (name m : string) (v : option json) (o : result_object) :
  m <> "__proto__" ->
  has_key m (own (set_property name v o)) = true
  <-> m = name \/ has_key m (own o) = true.
Proof.
  intros Hm. unfold set_property.
  destruct (String.eqb_spec name "__proto__") as [-> | Hname]; cbn [andb];
    [|cbn [own]; apply has_key_assoc_set].
  destruct (reaches_proto_setter o); [|cbn [own]; apply has_key_assoc_set].
  destruct v as [[| | | | |]|]; cbn [own]; tauto.
Qed.

(** An assignment under a name that is not [in] the object makes an own
    property: where the setter of [__proto__] can be reached, the name
    [__proto__] is [in] the object. *)
Lemma set_property_missing (name : string) (v : option json) (o : result_object) :
  in_object name o = false ->
  set_property name v o = mk_result_object (assoc_set name v (own o)) (proto o).
Proof.
  intros Hin. unfold set_property.
  destruct (String.eqb_spec name "__proto__") as [-> | Hname]; [|reflexivity].
  cbn [andb].
  destruct (reaches_proto_setter o) eqn:Hreach; [|reflexivity].
  exfalso. unfold in_object, reaches_proto_setter in *.
  destruct (proto o) as [| | [| | | | |]];
    cbn [has_property] in Hin;
    rewrite ?andb_false_r in Hreach; try discriminate Hreach;
    change (is_name_of Object_prototype_names "__proto__") with true in Hin;
    rewrite ?orb_true_r in Hin; discriminate Hin.
Qed.

Lemma in_object_grows (o r : result_object) :
  proto r = proto o ->
  (forall m, has_key m (own o) = true -> has_key m (own r) = true) ->
  forall m, in_object m o = true -> in_object m r = true.
Proof.
  intros Hproto Hown m. unfold in_object. rewrite Hproto.
  intros H. apply orb_true_iff in H as [H | H].
  - rewrite (Hown m H). reflexivity.
  - rewrite H. apply orb_true_r.
Qed.

Section Query.

Variable JSON_stringify : json -> string.
Variable Date_now : nat -> Z.
Variable transport_send : nat -> string -> may_throw js_error json.
Variable iterateListPages : bool.
Variable handleResponseLists : json -> string -> option json -> M SmartProtocol json.

Abbreviation send_singly :=
  (Smart.send_singly JSON_stringify Date_now transport_send).
Abbreviation requery_missing :=
  (Smart.requery_missing JSON_stringify Date_now transport_send).
Abbreviation _executeMultipleQuery :=
  (Smart._executeMultipleQuery JSON_stringify Date_now transport_send
     iterateListPages handleResponseLists).

(** The loop for a batch size of 1 answers the methods it is given, and
    no other. *)
Lemma send_singly_keys (raiseOnError : bool)
    (multiRequests : list (string * option json)) :
  forall (multiResult r : result_object) (p p' : SmartProtocol),
    send_singly raiseOnError multiRequests multiResult p = (Ok r, p') ->
    forall m, m <> "__proto__" ->
              has_key m (own r) = true
              <-> has_key m (own multiResult) = true
                  \/ In m (map fst multiRequests).
Proof.
  induction multiRequests as [|[method params] rest IH];
    intros multiResult r p p' Hrun m Hm; cbn [Smart.send_singly] in Hrun.
  - injection Hrun as <- _. cbn. tauto.
  - apply bind_ok in Hrun as (req & p1 & _ & Hrun).
    apply bind_ok in Hrun as (resp & p2 & _ & Hrun).
    apply bind_ok in Hrun as (resp' & p3 & _ & Hrun).
    apply bind_ok in Hrun as (result & p4 & _ & Hrun).
    rewrite (IH _ _ _ _ Hrun m Hm), (set_property_own _ _ _ _ Hm).
    cbn [map fst In]. intuition auto.
Qed.

(** The last loop leaves every requested method [in] the object: it
    queries the methods that are not, and gives each an own property. *)
Lemma requery_missing_keys (raiseOnError : bool) (requests : list (string * json)) :
  forall (multiResult r : result_object) (p p' : SmartProtocol),
    requery_missing raiseOnError requests multiResult p = (Ok r, p') ->
    proto r = proto multiResult
    /\ (forall m, has_key m (own multiResult) = true -> has_key m (own r) = true)
    /\ (forall m, In m (map fst requests) -> in_object m r = true).
Proof.
  induction requests as [|[method params] rest IH];
    intros multiResult r p p' Hrun; cbn [Smart.requery_missing] in Hrun.
  - injection Hrun as <- _. cbn. auto.
  - destruct (in_object method multiResult) eqn:Hhas.
    + destruct (IH _ _ _ _ Hrun) as (Hproto & Hown & Hall).
      split; [exact Hproto|]. split; [exact Hown|].
      intros m [Heq | Hm]; [subst m | apply Hall; exact Hm].
      apply (in_object_grows multiResult r Hproto Hown). exact Hhas.
    + apply bind_ok in Hrun as (req & p1 & _ & Hrun).
      apply bind_ok in Hrun as (resp & p2 & _ & Hrun).
      apply bind_ok in Hrun as (resp' & p3 & _ & Hrun).
      apply bind_ok in Hrun as (result & p4 & _ & Hrun).
      rewrite (set_property_missing _ _ _ Hhas) in Hrun.
      destruct (IH _ _ _ _ Hrun) as (Hproto & Hown & Hall).
      cbn [own proto] in Hproto, Hown.
      split; [exact Hproto|].
      split.
      { intros m Hm. apply Hown. apply has_key_assoc_set. right. exact Hm. }
      intros m [Heq | Hm]; [subst m; cbn [fst] | apply Hall; exact Hm].
      unfold in_object. rewrite (Hown method); [reflexivity|].
      apply has_key_assoc_set_eq.
Qed.

Lemma multi_requests_methods (requests : list (string * json)) (m : string) :
  In m (map fst
          (map (fun kv => multi_request (fst kv) (snd kv))
             (List.filter
                (fun kv => negb (existsb (String.eqb (fst kv)) FORCE_SINGLE_REQUEST))
                requests)))
  <-> In m (map fst requests) /\ ~ In m FORCE_SINGLE_REQUEST.
Proof.
  rewrite List.map_map. cbn [multi_request fst].
  rewrite !List.in_map_iff. split.
  - intros ([k v] & <- & Hin). cbn [fst].
    apply List.filter_In in Hin as [Hin Hforced]. cbn [fst] in Hforced.
    split; [exists (k, v); auto|].
    intros Hf. apply Bool.negb_true_iff in Hforced.
    assert (existsb (String.eqb k) FORCE_SINGLE_REQUEST = true) as Hex.
    { apply List.existsb_exists. exists k. split; [exact Hf|].
      apply String.eqb_refl. }
    congruence.
  - intros [([k v] & <- & Hin) Hnot]. cbn [fst] in *.
    exists (k, v). split; [reflexivity|].
    apply List.filter_In. split; [exact Hin|]. cbn [fst].
    apply Bool.negb_true_iff.
    destruct (existsb (String.eqb k) FORCE_SINGLE_REQUEST) eqn:Hex;
      [|reflexivity].
    apply List.existsb_exists in Hex as (x & Hx & Heq).
    apply String.eqb_eq in Heq. subst x. contradiction.
Qed.

(** X8.  When a query for several methods returns, which of them have an
    entry in the result depends on the batch size.  With batches (a size
    other than 1), every requested method is [in] the result object, those
    of [FORCE_SINGLE_REQUEST] included, which the last loop queries one by
    one; it is an own property of the result unless the result inherits the
    name, as it does [toString] and the other names of [Object.prototype],
    for which the last loop sends nothing.  With a batch size of 1 the
    method returns before that loop: the own properties, [__proto__] apart,
    are those of the requested methods that are not in
    [FORCE_SINGLE_REQUEST], and a forced-single method, such as
    [getConnectStatus], is neither sent nor answered. *)
Theorem multi_query_answers (requests : list (string * json))
    (p p' : SmartProtocol) (r : result_object) :
  _executeMultipleQuery requests p = (Ok r, p') ->
  (_multiRequestBatchSize p <> 1 ->
     forall m, In m (map fst requests) ->
       in_object m r = true
       /\ (proto r = Object_prototype ->
           is_name_of Object_prototype_names m = false ->
           has_key m (own r) = true))
  /\ (_multiRequestBatchSize p = 1 ->
      forall m, m <> "__proto__" ->
        has_key m (own r) = true
        <-> In m (map fst requests) /\ ~ In m FORCE_SINGLE_REQUEST).
Proof.
  intros Hrun. unfold Smart._executeMultipleQuery in Hrun.
  apply bind_ok in Hrun as (p0 & p1 & Hget & Hrun).
  injection Hget as <- <-.
  split.
  - intros Hsize m Hm.
    apply Z.eqb_neq in Hsize. rewrite Hsize in Hrun.
    destruct (make_batches _ _ _ _ _) as [batches|]; [|discriminate].
    apply bind_ok in Hrun as (multiResult & p2 & _ & Hrun).
    destruct (requery_missing_keys _ _ _ _ _ _ Hrun) as (_ & _ & Hall).
    specialize (Hall m Hm). split; [exact Hall|].
    intros Hproto Hname. unfold in_object in Hall.
    rewrite Hproto, Hname, orb_false_r in Hall. exact Hall.
  - intros Hsize m Hm. rewrite Hsize in Hrun. cbn [Z.eqb Pos.eqb] in Hrun.
    rewrite (send_singly_keys _ _ _ _ _ _ Hrun m Hm), multi_requests_methods.
    cbn [has_key assoc own empty_object]. intuition discriminate.
Qed.

End Query.

(** A query for a plain method, a forced-single one and [toString], to a
    device that answers every request with an empty list of responses: with
    the batch size 5 the first two are answered, by the last loop, and
    [toString], which the result inherits, is not asked for; with the batch
    size 1 only the plain method and [toString] are asked for. *)
Lemma multi_query_answers_witness :
  let requests :=
    [("get_device_info", JNull); ("getConnectStatus", JNull);
     ("toString", JNull)] in
  let answer := JObj [("responses", JArr [])] in
  let run size :=
    Smart._executeMultipleQuery Scenario.stringify Scenario.fixed_clock
      (Scenario.always_returns
         (JObj [("error_code", JNum 0); ("result", answer)]))
      false (fun r _ _ => ret r) requests
      (new_SmartProtocol "192.168.0.10" "uuid" (Some size)) in
  let batched :=
    mk_result_object
      [("get_device_info", Some answer); ("getConnectStatus", Some answer)]
      Object_prototype in
  let single :=
    mk_result_object
      [("get_device_info", Some answer); ("toString", Some answer)]
      Object_prototype in
  fst (run 5) = Ok batched
  /\ fst (run 1) = Ok single
  /\ (forall m, In m (map fst requests) ->
        in_object m batched = true
        /\ (proto batched = Object_prototype ->
            is_name_of Object_prototype_names m = false ->
            has_key m (own batched) = true))
  /\ (forall m, m <> "__proto__" ->
        has_key m (own single) = true
        <-> In m (map fst requests) /\ ~ In m FORCE_SINGLE_REQUEST).
Proof.
  intros requests answer run batched single.
  split; [reflexivity|]. split; [reflexivity|].
  split.
  - apply (multi_query_answers Scenario.stringify Scenario.fixed_clock
             (Scenario.always_returns
                (JObj [("error_code", JNum 0); ("result", answer)]))
             false (fun r _ _ => ret r) requests
             (new_SmartProtocol "192.168.0.10" "uuid" (Some 5))
             (snd (run 5)) batched);
      [reflexivity | discriminate].
  - apply (multi_query_answers Scenario.stringify Scenario.fixed_clock
             (Scenario.always_returns
                (JObj [("error_code", JNum 0); ("result", answer)]))
             false (fun r _ _ => ret r) requests
             (new_SmartProtocol "192.168.0.10" "uuid" (Some 1))
             (snd (run 1)) single);
      reflexivity.
Defined.

End MultiQueryFacts.

(** ** [HttpClient.post] *)

Module HttpFacts.
Import Js Exceptions Eff Http AssocFacts MultiQueryFacts.
Local Open Scope Z_scope.

Lemma has_key_cons {A : Type} (k k' : string) (v' : A)
    (b : list (string * A)) :
  Smart.has_key k ((k', v') :: b) = String.eqb k k' || Smart.has_key k b.
Proof.
  unfold Smart.has_key. cbn [assoc]. destruct (String.eqb k k'); reflexivity.
Qed.

(** [{ ...a, ...b }] has the keys of [a] and those of [b]. *)
Lemma has_key_spread {A : Type} (k : string) (b a : list (string * A)) :
  Smart.has_key k (spread a b) = Smart.has_key k a || Smart.has_key k b.
Proof.
  unfold spread. revert a. induction b as [|[k' v'] b IH]; intros a;
    cbn [fold_left fst snd].
  - cbn. now rewrite orb_false_r.
  - rewrite IH, has_key_cons.
    destruct (String.eqb_spec k k') as [-> | Hne].
    + rewrite has_key_assoc_set_eq. cbn. now rewrite orb_true_r.
    + rewrite has_key_assoc_set_ne by exact Hne. reflexivity.
Qed.

Section WithJson.

Variable JSON_stringify : json -> string.
Variable jsonLoads : string -> may_throw string json.
Variable network : nat -> request -> settled.

Abbreviation build_request := (Http.build_request JSON_stringify).
Abbreviation post := (Http.post JSON_stringify jsonLoads network).

(** X9.  The [Content-Length] of a request is that of its body, never that of
    the caller: when [post] sends a body, the header holds the number of bytes
    of that body, whatever header the caller passed; when it sends none, it
    adds no such header, and the request has one exactly when the caller
    passed one. *)
Theorem post_content_length_is_that_of_the_body (url : string)
    (o : post_options) :
  let rq := build_request url o in
  let given := match opt_headers o with Some h => h | None => [] end in
  (is_truthy_data (req_data rq) = true ->
     assoc "Content-Length" (req_headers rq)
     = Some (HNum (byteLength (req_data rq))))
  /\ (is_truthy_data (req_data rq) = false ->
      Smart.has_key "Content-Length" (req_headers rq)
      = Smart.has_key "Content-Length" given).
Proof.
  unfold Http.build_request.
  destruct (match opt_json o with
            | ArgString s =>
                if String.eqb s EmptyString then (ArgString s, opt_data o)
                else (ArgNull, DataString s)
            | j => (j, opt_data o)
            end) as [json data].
  cbv zeta. cbn [req_data req_headers].
  set (requestData := if match json with
                         | ArgPlain _ | ArgGenerator => true
                         | _ => false
                         end
                      then DataString (stringify_arg JSON_stringify json)
                      else data).
  split; intros Hbody; rewrite Hbody.
  - apply assoc_set_eq.
  - destruct (opt_cookiesDict o) as [c|].
    + rewrite has_key_assoc_set_ne by discriminate.
      rewrite has_key_spread. reflexivity.
    + rewrite has_key_spread. reflexivity.
Qed.

(** [post] once the URL is there. *)
Lemma post_to_makes_one_request (url : string) (o : post_options)
    (c : HttpClient) :
  let rq := build_request url o in
  let run := Http.post_to JSON_stringify jsonLoads network url o c in
  sent (snd run) = sent c ++ [rq]
  /\ _host (snd run) = _host c
  /\ (_waitBetweenRequests c = true -> _waitBetweenRequests (snd run) = true)
  /\ fst run <> Diverge
  /\ (forall e, fst run = Throw e ->
        instanceof e KasaException = true /\ errorCode e = None
        /\ (cls e = ConnectionError -> _waitBetweenRequests (snd run) = true))
  /\ (forall statusCode data, fst run = Ok (statusCode, data) ->
        exists body cookies,
          network (List.length (sent c)) rq = Response statusCode body cookies
          /\ _cookies (snd run) = cookies
          /\ (returnJson o = false -> data = RespRaw body)
          /\ (returnJson o = true ->
              match jsonLoads body with
              | Returned j => data = RespJson j
              | Thrown _ => statusCode <> 200 /\ data = RespJson JNull
              end)).
Proof.
  cbv zeta. unfold Http.post_to.
  destruct (network (List.length (sent c)) (build_request url o))
    as [statusCode body cookies | code msg].
  - destruct (statusCode =? 200) eqn:Hs; destruct (returnJson o) eqn:Hj;
      try destruct (jsonLoads body) as [j | m] eqn:Hload;
      cbn [fst snd sent _host _waitBetweenRequests _cookies];
      (split; [reflexivity|]); (split; [reflexivity|]);
      (split; [auto|]); (split; [discriminate|]);
      (split;
       [intros e He; try discriminate He; injection He as <-;
        cbn; repeat split; discriminate
       |intros st d Hd; try discriminate Hd; injection Hd as <- <-;
        exists body, cookies; rewrite ?Hload;
        repeat split; try discriminate; try reflexivity;
        try (apply Z.eqb_neq; exact Hs)]).
  - destruct code as [cd|].
    + destruct (String.eqb cd "ECONNRESET" || String.eqb cd "EPIPE");
        [|destruct (String.eqb cd "ETIMEDOUT")];
        cbn [fst snd sent _host _waitBetweenRequests _cookies];
        (split; [reflexivity|]); (split; [reflexivity|]);
        (split; [auto|]); (split; [discriminate|]);
        (split;
         [intros e [= <-]; cbn; repeat split; discriminate || reflexivity
         |intros st d Hd; discriminate Hd]).
    + cbn [fst snd sent _host _waitBetweenRequests _cookies].
      (split; [reflexivity|]); (split; [reflexivity|]);
      (split; [auto|]); (split; [discriminate|]).
      split; [intros e [= <-]; cbn; repeat split; discriminate
             |intros st d Hd; discriminate Hd].
Qed.


End WithJson.

(** A request with a body, for which the caller passed a length of its
    own, and a request without a body. *)
Lemma post_content_length_is_that_of_the_body_witness :
  let with_body :=
    Http.build_request Scenario.stringify "http://192.168.0.10:80/app"
      (mk_post_options DataNull (ArgPlain (JObj [("method", JStr "x")]))
         (Some [("Content-Length", HStr "314")]) None) in
  let without_body :=
    Http.build_request Scenario.stringify "http://192.168.0.10:80/app"
      (mk_post_options DataNull ArgNull None None) in
  req_data with_body = DataString (Scenario.stringify (JObj [("method", JStr "x")]))
  /\ assoc "Content-Length" (req_headers with_body) = Some (HNum 14)
  /\ Smart.has_key "Content-Length" (req_headers without_body) = false.
Proof.
  split; [reflexivity|]. split.
  - apply (post_content_length_is_that_of_the_body Scenario.stringify
             "http://192.168.0.10:80/app"
             (mk_post_options DataNull (ArgPlain (JObj [("method", JStr "x")]))
                (Some [("Content-Length", HStr "314")]) None)).
    reflexivity.
  - apply (post_content_length_is_that_of_the_body Scenario.stringify
             "http://192.168.0.10:80/app"
             (mk_post_options DataNull ArgNull None None)).
    reflexivity.
Defined.


End HttpFacts.

(** ** [AesTransport.send] *)

Module AesSendFacts.
Import Js Exceptions Eff Http Notions EffNotions ExceptionsFacts HandlerFacts
  HandshakeFacts.
Local Open Scope Z_scope.

Lemma never_returns_throw {S A : Type} (e : js_error) :
  never_returns (@throw S A e).
Proof. intros s. exists e. reflexivity. Qed.

Lemma never_returns_bind_l {S A B : Type} (m : M S A) (k : A -> M S B) :
  never_returns m -> never_returns (bind m k).
Proof.
  intros Hm s. destruct (Hm s) as [e He]. exists e. unfold bind.
  destruct (m s) as [[a | e' |] s']; cbn in *; congruence.
Qed.

Lemma never_returns_bind_r {S A B : Type} (m : M S A) (k : A -> M S B) :
  always_ends m -> (forall a, never_returns (k a)) -> never_returns (bind m k).
Proof.
  intros Hm Hk s. specialize (Hm s). unfold bind.
  destruct (m s) as [[a | e |] s']; cbn in *.
  - apply Hk.
  - exists e. reflexivity.
  - contradiction.
Qed.

Lemma never_returns_try_catch {S A : Type} (m : M S A) (h : js_error -> M S A) :
  never_returns m -> (forall e, never_returns (h e)) ->
  never_returns (try_catch m h).
Proof.
  intros Hm Hh s. destruct (Hm s) as [e He]. unfold try_catch.
  destruct (m s) as [[a | e' |] s']; cbn in *; try discriminate.
  apply Hh.
Qed.

Lemma always_ends_ret {S A : Type} (a : A) : always_ends (@ret S A a).
Proof. intros s. discriminate. Qed.

Lemma always_ends_get {S : Type} : always_ends (@get S).
Proof. intros s. discriminate. Qed.

Lemma always_ends_modify {S : Type} (f : S -> S) : always_ends (modify f).
Proof. intros s. discriminate. Qed.

Lemma always_ends_or_type_error {S A : Type} (msg : string) (v : option A) :
  always_ends (@or_type_error S A msg v).
Proof. intros s. destruct v; discriminate. Qed.

Lemma always_ends_bind {S A B : Type} (m : M S A) (k : A -> M S B) :
  always_ends m -> (forall a, always_ends (k a)) -> always_ends (bind m k).
Proof.
  intros Hm Hk s. specialize (Hm s). unfold bind.
  destruct (m s) as [[a | e |] s']; cbn in *;
    [apply Hk | discriminate | contradiction].
Qed.

Section Transport.

Variable session : Type.
Variable keypair : Type.
Variable session_encrypt : session -> string -> string.
Variable decode_response : session -> option json -> may_throw string json.
Variable createFromKeypair : option json -> option keypair -> may_throw js_error session.
Variable hashCredentials : bool -> Aes.Credentials -> string * string.
Variable JSON_stringify : json -> string.
Variable jsonLoads : string -> may_throw string json.
Variable parseInt : string -> Z.
Variable network : nat -> request -> settled.
Variable Date_now : nat -> Z.

Abbreviation AesTransport := (Aes.AesTransport session keypair).
Abbreviation sendSecurePassthrough :=
  (Aes.sendSecurePassthrough session keypair session_encrypt decode_response
     JSON_stringify jsonLoads network).
Abbreviation tryLogin :=
  (Aes.tryLogin session keypair session_encrypt decode_response JSON_stringify
     jsonLoads network Date_now).
Abbreviation performHandshake :=
  (Aes.performHandshake session keypair createFromKeypair JSON_stringify
     jsonLoads parseInt network Date_now).
Abbreviation performLogin :=
  (Aes.performLogin session keypair session_encrypt decode_response
     createFromKeypair hashCredentials JSON_stringify jsonLoads parseInt
     network Date_now).
Abbreviation send :=
  (Aes.send session keypair session_encrypt decode_response createFromKeypair
     hashCredentials JSON_stringify jsonLoads parseInt network Date_now).

Lemma handler_never_returns (d : response_data) (msg : string) :
  never_returns (@Aes._handleResponseErrorCode session keypair d msg).
Proof.
  intros t. destruct (aes_handler_never_returns session keypair t d msg) as [e ->].
  exists e. reflexivity.
Qed.

Lemma always_ends_post (url : string) (o : post_options) :
  always_ends
    (Aes.on_client session keypair
       (post JSON_stringify jsonLoads network (UrlObject url) o)).
Proof.
  intros t. unfold Aes.on_client, post, post_to.
  destruct (network _ _) as [statusCode body cookies | code msg].
  - destruct (statusCode =? 200); destruct (returnJson o);
      try destruct (jsonLoads body); discriminate.
  - destruct code as [cd|]; [|discriminate].
    destruct (String.eqb cd "ECONNRESET" || String.eqb cd "EPIPE");
      [discriminate|].
    destruct (String.eqb cd "ETIMEDOUT"); discriminate.
Qed.

(** The part of a method after a [post]: the status is checked, then the
    handler, which never returns, is called. *)
Lemma after_post_never_returns {A : Type} (e : Z -> js_error) (msg : string)
    (k : response_data -> M AesTransport A) (x : Z * response_data) :
  never_returns
    (let '(statusCode, respDict) := x in
     if negb (statusCode =? 200) then throw (e statusCode)
     else bind (Aes._handleResponseErrorCode respDict msg) (fun _ => k respDict)).
Proof.
  destruct x as [statusCode respDict].
  destruct (negb (statusCode =? 200)).
  - apply never_returns_throw.
  - apply never_returns_bind_l, handler_never_returns.
Qed.

Lemma handshake_never_returns : never_returns performHandshake.
Proof.
  unfold Aes.performHandshake.
  repeat (apply never_returns_bind_r; [apply always_ends_modify | intros _]).
  apply never_returns_bind_r; [apply always_ends_get | intros t].
  apply never_returns_bind_r; [apply always_ends_post | intros x].
  apply (after_post_never_returns
           (fun statusCode =>
              new_error KasaException
                (Aes.host session keypair t
                 +:+ " responded with an unexpected status code "
                 +:+ pretty statusCode +:+ " to handshake"))).
Qed.

Lemma passthrough_never_returns (request : string) :
  never_returns (sendSecurePassthrough request).
Proof.
  unfold Aes.sendSecurePassthrough.
  apply never_returns_bind_r; [apply always_ends_get | intros t].
  apply never_returns_bind_r; [apply always_ends_or_type_error | intros sess].
  apply never_returns_bind_r; [apply always_ends_post | intros x].
  apply (after_post_never_returns
           (fun statusCode =>
              new_error KasaException
                (Aes.host session keypair t
                 +:+ " responded with an unexpected status code "
                 +:+ pretty statusCode +:+ " to passthrough"))).
Qed.

Lemma tryLogin_never_returns (loginParams : json) :
  never_returns (tryLogin loginParams).
Proof.
  unfold Aes.tryLogin.
  apply never_returns_bind_r; [intros t; discriminate | intros time].
  apply never_returns_bind_l, passthrough_never_returns.
Qed.

Lemma login_never_returns : never_returns performLogin.
Proof.
  unfold Aes.performLogin.
  apply never_returns_bind_r; [apply always_ends_get | intros t].
  apply never_returns_try_catch; [apply tryLogin_never_returns | intros aex].
  destruct (negb (instanceof aex AuthenticationError));
    [apply never_returns_throw|].
  apply never_returns_try_catch.
  - destruct (negb (same_prim (errorCode aex) (SmartErrorCode "LOGIN_ERROR")));
      [apply never_returns_throw|].
    apply never_returns_bind_r; [apply always_ends_get | intros t1].
    apply never_returns_bind_r.
    { destruct (Aes._defaultCredentials session keypair t1);
        [apply always_ends_ret | apply always_ends_modify]. }
    intros _. apply never_returns_bind_l, handshake_never_returns.
  - intros ex.
    destruct (instanceof ex AuthenticationError || instanceof ex ConnectionError
              || instanceof ex TimeoutError); apply never_returns_throw.
Qed.

(** What a handshake leaves behind: one more request, to [/app], and the
    state as it was. *)
Lemma handshake_trace (t : AesTransport) :
  Aes._state session keypair (snd (performHandshake t))
  = Aes._state session keypair t
  /\ exists rq,
       requests_made (snd (performHandshake t)) = requests_made t ++ [rq]
       /\ req_url rq = Aes.appUrl session keypair t.
Proof.
  unfold requests_made, Aes.performHandshake, bind, modify, get.
  cbn [Aes.set_tokenUrl Aes.set_sessionExpireAt Aes.set_sessionCookie
       Aes._sessionCookie].
  unfold Aes.on_client, post, post_to.
  cbn [Aes._httpClient returnJson opt_json sent].
  destruct (network _ _) as [statusCode responseBody cookies | code msg].
  - destruct (statusCode =? 200) eqn:Hs.
    + destruct (jsonLoads responseBody) as [j | m]; cbn [negb].
      * rewrite Hs. cbn [negb]. cbv beta iota.
        match goal with
        | |- context [Aes._handleResponseErrorCode ?d ?m ?t0] =>
            destruct (aes_handler_never_returns session keypair t0 d m) as [e ->]
        end.
        split; [reflexivity | eexists; split; reflexivity].
      * split; [reflexivity | eexists; split; reflexivity].
    + destruct (jsonLoads responseBody) as [j | m];
        rewrite Hs; (split; [reflexivity | eexists; split; reflexivity]).
  - destruct code as [cd|];
      [|split; [reflexivity | eexists; split; reflexivity]].
    destruct (String.eqb cd "ECONNRESET" || String.eqb cd "EPIPE");
      [split; [reflexivity | eexists; split; reflexivity]|].
    destruct (String.eqb cd "ETIMEDOUT");
      (split; [reflexivity | eexists; split; reflexivity]).
Qed.

(** X11.  No call of [send] ever returns a response: however the device and
    the network answer, the handshake, the login and the passthrough each end
    in an error, because the response handler throws on every response.  A
    transport that requires a handshake, as every new transport does, makes
    one request, the handshake to [/app], and still requires a handshake
    afterwards: it never logs in and never sends the request it was given. *)
Theorem aes_send_never_returns (request : string) (t : AesTransport) :
  (exists e, fst (send request t) = Throw e)
  /\ (Aes._state session keypair t = Aes.HANDSHAKE_REQUIRED ->
      Aes._state session keypair (snd (send request t)) = Aes.HANDSHAKE_REQUIRED
      /\ exists rq,
           requests_made (snd (send request t)) = requests_made t ++ [rq]
           /\ req_url rq = Aes.appUrl session keypair t).
Proof.
  split.
  - revert t. change (never_returns (send request)).
    unfold Aes.send.
    apply never_returns_bind_r; [apply always_ends_get | intros t].
    apply never_returns_bind_r.
    { destruct (Aes.state_eqb _ _); [apply always_ends_ret|].
      unfold Aes._handshakeSessionExpired.
      apply always_ends_bind; [apply always_ends_get | intros t0].
      apply always_ends_bind; [intros s; discriminate | intros time].
      apply always_ends_ret. }
    intros expired.
    destruct expired; [apply never_returns_bind_l, handshake_never_returns|].
    apply never_returns_bind_r; [apply always_ends_ret | intros _].
    apply never_returns_bind_r; [apply always_ends_get | intros t1].
    destruct (negb (Aes.state_eqb (Aes._state session keypair t1) Aes.ESTABLISHED)).
    + apply never_returns_bind_l.
      apply never_returns_try_catch; [apply login_never_returns | intros ex].
      apply never_returns_bind_r; [|intros _; apply never_returns_throw].
      destruct (instanceof ex AuthenticationError);
        [apply always_ends_modify | apply always_ends_ret].
    + apply never_returns_bind_r; [apply always_ends_ret | intros _].
      apply passthrough_never_returns.
  - intros Hstate.
    assert (Hsnd : snd (send request t) = snd (performHandshake t)).
    { unfold Aes.send, bind, get. rewrite Hstate. cbn [Aes.state_eqb ret].
      destruct (handshake_never_returns t) as [e He].
      destruct (performHandshake t) as [[a | e' |] t']; cbn in He;
        try discriminate. reflexivity. }
    rewrite Hsnd. destruct (handshake_trace t) as [Hs Hrq].
    rewrite Hs. split; [exact Hstate | exact Hrq].
Qed.

End Transport.

(** A new transport and a device that answers every request with the
    status 200 and the success code 0. *)
Lemma aes_send_never_returns_witness :
  let send :=
    Aes.send unit unit (fun _ s => s) (fun _ _ => Thrown "no response")
      (fun _ _ => Thrown (new_error JsError "Decryption failed!"))
      (fun _ c => (Aes.username c, Aes.password c))
      Scenario.stringify AesScenario.success_loads (fun _ => 86400)
      AesScenario.success_network Scenario.fixed_clock in
  let run := send TransportScenario.sysinfo_query AesScenario.fresh_transport in
  fst run
  = Throw (mk_error DeviceError "Unable to complete handshake: 192.168.0.10: SUCCESS(0)"
             (Some (code_object "SUCCESS" (Some (JNum 0)))))
  /\ Aes._state unit unit (snd run) = Aes.HANDSHAKE_REQUIRED
  /\ exists rq,
       requests_made (snd run) = requests_made AesScenario.fresh_transport ++ [rq]
       /\ req_url rq = Aes.appUrl unit unit AesScenario.fresh_transport.
Proof.
  intros send run. split; [reflexivity|].
  apply (aes_send_never_returns unit unit (fun _ s => s)
           (fun _ _ => Thrown "no response")
           (fun _ _ => Thrown (new_error JsError "Decryption failed!"))
           (fun _ c => (Aes.username c, Aes.password c))
           Scenario.stringify AesScenario.success_loads (fun _ => 86400)
           AesScenario.success_network Scenario.fixed_clock
           TransportScenario.sysinfo_query AesScenario.fresh_transport).
  reflexivity.
Defined.

End AesSendFacts.

(** ** The KLAP session: padding, and decrypting what was encrypted *)

Module KlapRoundTrip.
Import Js Exceptions Bytes Notions BytesFacts Klap KlapFacts.
Local Open Scope Z_scope.

Lemma last_repeat {A : Type} (l : list A) (x d : A) (n : nat) :
  List.last (l ++ repeat x (S n)) d = x.
Proof.
  replace (repeat x (S n)) with (repeat x n ++ [x]).
  - rewrite List.app_assoc. apply List.last_last.
  - clear. induction n as [|n IH]; cbn; [reflexivity|].
    cbn in IH. now rewrite IH.
Qed.

Lemma forallb_repeat (x : Z) (n : nat) : forallb (Z.eqb x) (repeat x n) = true.
Proof.
  induction n as [|n IH]; cbn; [reflexivity|]. now rewrite Z.eqb_refl, IH.
Qed.

(** The length of the padding: between 1 and 16. *)
Lemma padding_length (msg : Buffer) :
  1 <= 16 - Z.of_nat (List.length msg) mod 16 <= 16.
Proof.
  pose proof (Z.mod_pos_bound (Z.of_nat (List.length msg)) 16). lia.
Qed.

Lemma pad_length (msg : Buffer) :
  List.length (pkcs7_pad msg)
  = (List.length msg + Z.to_nat (16 - Z.of_nat (List.length msg) mod 16))%nat.
Proof.
  unfold pkcs7_pad. cbv zeta.
  now rewrite List.length_app, List.repeat_length.
Qed.

(** Unpadding a padded message gives the message. *)
Lemma unpad_pad (msg : Buffer) : pkcs7_unpad (pkcs7_pad msg) = msg.
Proof.
  pose proof (padding_length msg) as Hp.
  pose proof (pad_length msg) as Hlen.
  unfold pkcs7_pad in *. cbv zeta in *.
  set (p := 16 - Z.of_nat (List.length msg) mod 16) in *.
  unfold pkcs7_unpad.
  destruct (msg ++ repeat p (Z.to_nat p)) as [|b rest] eqn:Hdp.
  { change (List.length (@nil Z)) with 0%nat in Hlen. lia. }
  rewrite <- Hdp in *. clear b rest Hdp.
  destruct (Z.to_nat p) as [|n] eqn:Hn; [lia|].
  rewrite last_repeat.
  rewrite <- Hn in *. rewrite Hlen.
  replace (Z.of_nat (List.length msg + Z.to_nat p) - p)
    with (Z.of_nat (List.length msg)) by lia.
  rewrite Nat2Z.id.
  assert (Hc : (0 <? p) && (p <=? 16)
               && (p <=? Z.of_nat (List.length msg + Z.to_nat p)) = true).
  { repeat (apply andb_true_intro; split);
      [apply Z.ltb_lt | apply Z.leb_le | apply Z.leb_le]; lia. }
  rewrite Hc.
  rewrite List.skipn_app, List.skipn_all, Nat.sub_diag, List.skipn_O.
  cbn [app]. rewrite forallb_repeat.
  rewrite List.firstn_app, List.firstn_all, Nat.sub_diag, List.firstn_O.
  apply List.app_nil_r.
Qed.

(** X12.  The padding that [encrypt] adds by hand is the one that [decrypt]
    removes by hand: for every message, of whatever bytes, unpadding the
    padded message gives the message; and the padded message is longer than
    the message, by 16 bytes at most, and fills whole blocks of 16. *)
Theorem klap_padding_round_trip (msg : Buffer) :
  pkcs7_unpad (pkcs7_pad msg) = msg
  /\ Z.of_nat (List.length (pkcs7_pad msg)) mod 16 = 0
  /\ (List.length msg < List.length (pkcs7_pad msg) <= List.length msg + 16)%nat.
Proof.
  pose proof (padding_length msg) as Hp.
  split; [apply unpad_pad|].
  rewrite pad_length. split; [|lia].
  rewrite Nat2Z.inj_add, Z2Nat.id by lia.
  pose proof (Z.div_mod (Z.of_nat (List.length msg)) 16 ltac:(lia)) as Hdm.
  replace (Z.of_nat (List.length msg)
           + (16 - Z.of_nat (List.length msg) mod 16))
    with ((Z.of_nat (List.length msg) / 16 + 1) * 16) by lia.
  apply Z.mod_mul. lia.
Qed.

Section Session.

Variable sha256 : Buffer -> Buffer.
Variable aes_128_cbc_encrypt : Buffer -> Buffer -> Buffer -> Buffer.
Variable aes_128_cbc_decrypt : Buffer -> Buffer -> Buffer -> may_throw js_error Buffer.

(** What is asked of the primitives: a SHA-256 digest has 32 bytes, and
    deciphering undoes enciphering under the same key and vector. *)
Hypothesis sha256_length : forall b, List.length (sha256 b) = 32%nat.
Hypothesis aes_inverse :
  forall key iv data,
    aes_128_cbc_decrypt key iv (aes_128_cbc_encrypt key iv data) = Returned data.

Abbreviation encrypt := (Klap.encrypt sha256 aes_128_cbc_encrypt).
Abbreviation decrypt := (Klap.decrypt aes_128_cbc_decrypt).

(** X13.  A session decrypts what it has just encrypted: after [encrypt] has
    returned a payload for a message, [decrypt] on that payload, with the
    sequence number that [encrypt] left, returns what the UTF-8 decoder reads
    in the bytes of the message.  For a message that is a well-formed string
    this is the message itself; for a buffer it is its bytes read as a
    string.  The first 32 bytes of the payload, the signature, play no part
    in this:  [decrypt] skips them without a check, and returns the same for
    any other 32 bytes in their place. *)
Theorem klap_decrypt_undoes_encrypt (s : KlapEncryptionSession)
    (msg : message) (payload : Buffer) (seq : Z) :
  fst (encrypt s msg) = Returned (payload, seq) ->
  let s' := snd (encrypt s msg) in
  let text :=
    match msg with
    | MsgString str => to_utf8 (from_utf8 str)
    | MsgBuffer b => to_utf8 b
    end in
  decrypt s' payload = (Returned text, s')
  /\ (forall str, msg = MsgString str -> well_formed str = true -> text = str)
  /\ (forall forged,
        List.length forged = 32%nat ->
        decrypt s' (forged ++ skipn 32 payload) = (Returned text, s')).
Proof.
  intros Henc s' text. subst s'. rewrite encrypt_session.
  unfold Klap.encrypt, _generateCipher, packSignedLong in Henc.
  cbn [_seq set_seq _key _iv _sig] in Henc.
  destruct (writeInt32BE (_seq s + 1)) as [seqBytes | e] eqn:Hw;
    [|discriminate Henc].
  cbn [fst] in Henc. injection Henc as <- <-.
  set (bytes := match msg with
                | MsgString str => from_utf8 str
                | MsgBuffer b => b
                end).
  assert (Hdec : forall sig,
             List.length sig = 32%nat ->
             decrypt (set_seq (_seq s + 1) s)
               (sig ++ aes_128_cbc_encrypt (_key s) (_iv s ++ seqBytes)
                         (pkcs7_pad bytes))
             = (Returned text, set_seq (_seq s + 1) s)).
  { intros sig Hsig.
    unfold Klap.decrypt, _generateDecipher, _generateCipher, packSignedLong.
    cbn [_seq set_seq _key _iv]. rewrite Hw.
    rewrite List.skipn_app, Hsig, List.skipn_all2 by lia.
    rewrite Nat.sub_diag, List.skipn_O. cbn [app].
    rewrite aes_inverse.
    rewrite unpad_pad.
    subst text bytes. destruct msg as [str | b]; reflexivity. }
  split; [|split].
  - apply Hdec, sha256_length.
  - intros str -> Hwf. subst text. apply to_utf8_from_utf8, Hwf.
  - intros forged Hforged.
    rewrite List.skipn_app, sha256_length, List.skipn_all2
      by (rewrite sha256_length; lia).
    rewrite Nat.sub_diag, List.skipn_O. cbn [app].
    apply Hdec, Hforged.
Qed.

End Session.

(** A session at the sequence number 100, with a digest of 32 zero bytes
    and a cipher that leaves the data as it is, on the message [{}]. *)
Lemma klap_decrypt_undoes_encrypt_witness :
  let sha := fun _ : Buffer => repeat 0 32 in
  let enc := Klap.encrypt sha (fun _ _ data => data) in
  let dec := Klap.decrypt (fun _ _ data => Returned data) in
  let s := Klap.mk_session [] [] [] [] [1; 2; 3; 4; 5; 6; 7; 8; 9; 10; 11; 12] 100 [] in
  let payload := repeat 0 32 ++ [123; 125] ++ repeat 14 14 in
  fst (enc s (MsgString "{}")) = Returned (payload, 101)
  /\ dec (snd (enc s (MsgString "{}"))) payload
     = (Returned "{}", snd (enc s (MsgString "{}")))
  /\ dec (snd (enc s (MsgString "{}"))) (repeat 255 32 ++ skipn 32 payload)
     = (Returned "{}", snd (enc s (MsgString "{}"))).
Proof.
  intros sha enc dec s payload.
  split; [reflexivity|].
  destruct (klap_decrypt_undoes_encrypt sha (fun _ _ data => data)
              (fun _ _ data => Returned data)
              (fun _ => eq_refl) (fun _ _ _ => eq_refl)
              s (MsgString "{}") payload 101 eq_refl)
    as (Hdec & _ & Hforged).
  split; [exact Hdec | apply Hforged; reflexivity].
Defined.

End KlapRoundTrip.

(** ** Discovery: every host is recorded once *)

Module DiscoverRecordFacts.
Import Js Exceptions Bytes Discover DiscoverNotions DiscoverRecords DiscoverFacts.
Local Open Scope Z_scope.

Section Protocol.

Variable Device : Type.
Variable JSON_parse : string -> may_throw string json.

Abbreviation DiscoverProtocol := (Discover.DiscoverProtocol Device).
Abbreviation datagramReceived := (@Discover.datagramReceived Device JSON_parse).
Abbreviation happen := (@Discover.happen Device JSON_parse).
Abbreviation run := (@Discover.run Device JSON_parse).

Lemma handled_places (p : DiscoverProtocol) (ip : string) :
  places (_handleDiscoveredEvent p) ip = places p ip.
Proof. unfold _handleDiscoveredEvent. destruct (decide _); reflexivity. Qed.

(** Putting a host of the seen-set in at most one place keeps every host
    recorded once. *)
Lemma recorded_once_placed (ip' : string) (p q : DiscoverProtocol) :
  recorded_once p -> ip' ∈ seenHosts p ->
  seenHosts q = seenHosts p ->
  (forall ip, ip <> ip' -> places q ip = places p ip) ->
  (places q ip' <= 1)%nat ->
  recorded_once q.
Proof.
  intros Hinv Hin Hseen Hother Hle ip.
  destruct (decide (ip = ip')) as [-> | Hne].
  - split; [exact Hle|]. intros _. rewrite Hseen. exact Hin.
  - rewrite (Hother ip Hne), Hseen. apply Hinv.
Qed.

(** Count the places of a host in a protocol that the setters have
    built. *)
Ltac count_places ip' :=
  rewrite ?handled_places; unfold places, holds; fields;
  rewrite ?lookup_insert, ?lookup_delete;
  repeat match goal with
         | |- context [decide (ip' = ?ip)] =>
             destruct (decide (ip' = ip)) as [? | ?];
             [subst; try congruence | try congruence]
         end.

(** The [catch] block puts its host in at most one result map, and
    touches no other host. *)
Lemma caught_places (ip : string) (info : json) (config : DeviceConfig)
    (error : js_error) (p : DiscoverProtocol) :
  let q := caught ip info config error p in
  (forall ip0, ip0 <> ip -> places q ip0 = places p ip0)
  /\ (places p ip = 0%nat -> (places q ip <= 1)%nat).
Proof.
  cbv zeta. unfold caught.
  assert (Hzero : places p ip = 0%nat ->
                  discoveredDevices p !! ip = None
                  /\ unsupportedDeviceExceptions p !! ip = None
                  /\ invalidDeviceExceptions p !! ip = None
                  /\ suspended p !! ip = None).
  { unfold places, holds.
    destruct (discoveredDevices p !! ip), (unsupportedDeviceExceptions p !! ip),
      (invalidDeviceExceptions p !! ip), (suspended p !! ip);
      cbn; intros H; try discriminate H; auto. }
  destruct (instanceof error UnsupportedDeviceError);
    [cbn [set_unsupported onUnsupported];
     destruct (onUnsupported p) as [callback|];
     [destruct (callback error)|]
    |destruct (exn_class_eqb (cls error) AuthenticationError);
     [|destruct (includes "timeout" (message error));
       [destruct (timeout_device_throws info)
       |destruct (instanceof error KasaException)]]].
  all: split;
    [intros ip0 Hne; count_places ip; try reflexivity
    |intros H0; try (rewrite H0; lia);
     destruct (Hzero H0) as (Hd & Hu & Hi & Hs);
     count_places ip; rewrite ?Hd, ?Hu, ?Hi, ?Hs; cbn; lia].
Qed.

Lemma recorded_once_datagram (d : datagram) (p : DiscoverProtocol) :
  recorded_once p -> recorded_once (datagramReceived d p).
Proof.
  intros Hinv. unfold Discover.datagramReceived.
  destruct (decide (address d ∈ seenHosts p)) as [Hin | Hout]; [exact Hinv|].
  cbv zeta.
  assert (Hzero : places p (address d) = 0%nat).
  { destruct (Hinv (address d)) as [Hle Hseen].
    destruct (places p (address d)) as [|[|n]]; [reflexivity | | lia].
    exfalso. apply Hout, Hseen. reflexivity. }
  set (p0 := set_seenHosts ({[ address d ]} ∪ seenHosts p) p).
  assert (Hinv0 : recorded_once p0).
  { intros ip. destruct (Hinv ip) as [Hle Hseen].
    unfold places in *. unfold p0. fields. split; [exact Hle|].
    intros H. specialize (Hseen H). set_solver. }
  assert (Hin0 : address d ∈ seenHosts p0).
  { unfold p0. fields. apply elem_of_union. left.
    apply elem_of_singleton. reflexivity. }
  destruct (match _getDiscoveryJsonLegacy JSON_parse (data d) with
            | Some info => Some (info, DeviceInstanceLegacy)
            | None =>
                match _getDiscoveryJson JSON_parse (data d) with
                | Some info => Some (info, DeviceInstance)
                | None => None
                end
            end) as [[info deviceFunc]|]; [|exact Hinv0].
  assert (Hwait : forall q : DiscoverProtocol,
             seenHosts q = seenHosts p0 ->
             (forall ip, places q ip = places p0 ip) ->
             recorded_once
               (set_suspended
                  (<[ address d :=
                        mk_waiting deviceFunc info
                          (mk_config (address d) (p_port p0) (p_credentials p0)
                             match p_timeout p0 with
                             | Some t =>
                                 if t =? 0 then Some DEFAULT_TIMEOUT else Some t
                             | None => Some DEFAULT_TIMEOUT
                             end) ]> (suspended q)) q)).
  { intros q Hseen Hplaces.
    apply (recorded_once_placed (address d) p0); [exact Hinv0 | exact Hin0 | | |].
    - fields. exact Hseen.
    - intros ip Hne. rewrite <- Hplaces. count_places (address d);
        try reflexivity.
    - specialize (Hplaces (address d)).
      assert (H0 : places p0 (address d) = 0%nat) by exact Hzero.
      rewrite H0 in Hplaces. unfold places, holds in Hplaces |- *. fields.
      rewrite lookup_insert_eq.
      destruct (discoveredDevices q !! address d),
        (unsupportedDeviceExceptions q !! address d),
        (invalidDeviceExceptions q !! address d); cbn in *; lia. }
  change (onDiscoveredRaw p0) with (onDiscoveredRaw p).
  destruct (onDiscoveredRaw p) as [callback|].
  - destruct (callback _) as [[] | error].
    + apply (Hwait (emit (OnDiscoveredRaw (address d) (port d) info) p0));
        reflexivity.
    + match goal with
      | |- recorded_once (caught ?a ?b ?c ?e ?q) =>
          destruct (caught_places a b c e q) as [Hother Hle];
          destruct (caught_seenHosts Device a b c e q) as [Hseen _];
          apply (recorded_once_placed a p0);
            [exact Hinv0 | exact Hin0 | rewrite Hseen; reflexivity
            | intros ip Hne; rewrite (Hother ip Hne); reflexivity
            | apply Hle; exact Hzero]
      end.
  - apply (Hwait p0); reflexivity.
Qed.

Lemma recorded_once_settled (ip' : string) (outcome : may_throw js_error Device)
    (p : DiscoverProtocol) :
  recorded_once p -> recorded_once (deviceSettled ip' outcome p).
Proof.
  intros Hinv. unfold deviceSettled.
  destruct (suspended p !! ip') as [w|] eqn:Hw; [|exact Hinv].
  assert (Hzero : discoveredDevices p !! ip' = None
                  /\ unsupportedDeviceExceptions p !! ip' = None
                  /\ invalidDeviceExceptions p !! ip' = None).
  { destruct (Hinv ip') as [Hle _]. unfold places, holds in *.
    rewrite Hw in Hle.
    destruct (discoveredDevices p !! ip'), (unsupportedDeviceExceptions p !! ip'),
      (invalidDeviceExceptions p !! ip'); cbn in Hle; repeat split; lia. }
  destruct Hzero as (Hd & Hu & Hi).
  assert (Hin : ip' ∈ seenHosts p).
  { apply (Hinv ip'). unfold places, holds. rewrite Hw, Hd, Hu, Hi. reflexivity. }
  set (p0 := set_suspended (delete ip' (suspended p)) p).
  assert (Hzero0 : places p0 ip' = 0%nat).
  { unfold p0, places, holds. fields.
    rewrite lookup_delete_eq, Hd, Hu, Hi. reflexivity. }
  assert (Hinv0 : recorded_once p0).
  { apply (recorded_once_placed ip' p); [exact Hinv | exact Hin | reflexivity | |].
    - intros ip Hne. unfold p0. count_places ip'; try reflexivity.
    - rewrite Hzero0. lia. }
  destruct outcome as [device | error].
  - apply (recorded_once_placed ip' p0); [exact Hinv0 | exact Hin | | |].
    + cbn [set_discoveredDevices onDiscovered].
      destruct (onDiscovered p0) as [callback|];
        [destruct (callback device)|];
        repeat match goal with
               | |- context [_handleDiscoveredEvent ?q] =>
                   destruct (handled_seenHosts Device q) as [-> _]
               end; reflexivity.
    + intros ip Hne. cbn [set_discoveredDevices onDiscovered].
      destruct (onDiscovered p0) as [callback|];
        [destruct (callback device)|];
        count_places ip'; try reflexivity.
    + cbn [set_discoveredDevices onDiscovered].
      destruct (onDiscovered p0) as [callback|];
        [destruct (callback device)|];
        rewrite ?handled_places; unfold places, holds, p0; fields;
        rewrite lookup_insert_eq, lookup_delete_eq, Hu, Hi; cbn; lia.
  - destruct (caught_places ip' (w_info w) (w_config w) error p0) as [Hother Hle].
    destruct (caught_seenHosts Device ip' (w_info w) (w_config w) error p0)
      as [Hseen _].
    apply (recorded_once_placed ip' p0);
      [exact Hinv0 | exact Hin | exact Hseen | exact Hother
      | apply Hle; exact Hzero0].
Qed.

Lemma recorded_once_run (hs : list (happening Device)) :
  forall p : DiscoverProtocol, recorded_once p -> recorded_once (run hs p).
Proof.
  induction hs as [|h hs IH]; intros p Hinv; [exact Hinv|].
  cbn. apply IH. destruct h as [d | ip outcome]; cbn [Discover.happen].
  - apply recorded_once_datagram, Hinv.
  - apply recorded_once_settled, Hinv.
Qed.

(** A host is in the seen-set exactly when it was there before or a
    datagram has come from it. *)
Lemma seen_iff_datagram (hs : list (happening Device)) :
  forall (p : DiscoverProtocol) (ip : string),
    ip ∈ seenHosts (run hs p)
    <-> ip ∈ seenHosts p \/ exists d, In (Datagram d) hs /\ address d = ip.
Proof.
  induction hs as [|h hs IH]; intros p ip; cbn.
  - split; [auto | intros [H | (d & [] & _)]; exact H].
  - fold (run hs (happen h p)). rewrite IH.
    destruct h as [d | ip' outcome]; cbn [Discover.happen].
    + destruct (datagram_seenHosts Device JSON_parse d p) as (Hin & [Hs | Hs] & _);
        cbv zeta in *; rewrite Hs.
      * split.
        -- intros [H | (d' & Hd' & Ha)]; [auto | right; eauto].
        -- intros [H | (d' & [Hd' | Hd'] & Ha)]; [auto | | right; eauto].
           injection Hd' as <-. subst ip. left. rewrite <- Hs. exact Hin.
      * split.
        -- intros [H | (d' & Hd' & Ha)]; [| right; eauto].
           apply elem_of_union in H as [H | H]; [|auto].
           apply elem_of_singleton in H. right. exists d. auto.
        -- intros [H | (d' & [Hd' | Hd'] & Ha)];
             [left; apply elem_of_union; right; exact H | | right; eauto].
           injection Hd' as <-. subst ip. left.
           apply elem_of_union. left. apply elem_of_singleton. reflexivity.
    + destruct (settled_seenHosts Device ip' outcome p) as [-> _].
      split.
      * intros [H | (d' & Hd' & Ha)]; [auto | right; eauto].
      * intros [H | (d' & [Hd' | Hd'] & Ha)];
          [auto | discriminate Hd' | right; eauto].
Qed.

Lemma handled_completions (p : DiscoverProtocol) :
  completions (_handleDiscoveredEvent p) = completions p
  \/ target p ∈ seenHosts p.
Proof.
  unfold _handleDiscoveredEvent.
  destruct (decide (target p ∈ seenHosts p)); [right | left]; auto.
Qed.

(** The [catch] block either leaves the number of completions as it is,
    or the target is in the seen-set. *)
Lemma caught_completions (ip : string) (info : json) (config : DeviceConfig)
    (error : js_error) (p : DiscoverProtocol) :
  completions (caught ip info config error p) = completions p
  \/ target p ∈ seenHosts p.
Proof.
  unfold caught.
  destruct (instanceof error UnsupportedDeviceError);
    [cbn [set_unsupported onUnsupported];
     destruct (onUnsupported p) as [callback|];
     [destruct (callback error)|]
    |destruct (exn_class_eqb (cls error) AuthenticationError);
     [|destruct (includes "timeout" (message error));
       [destruct (timeout_device_throws info)
       |destruct (instanceof error KasaException)]]].
  all: try (left; reflexivity).
  all: try match goal with
           | |- context [_handleDiscoveredEvent ?q] =>
               destruct (handled_completions q) as [-> | Hin];
               [left | right; exact Hin]
           end.
  all: try reflexivity.
  all: try left; rewrite completions_emit_callback by discriminate; reflexivity.
Qed.

(** A step either leaves the number of completions as it is, or the
    target is in the seen-set after it. *)
Lemma completion_needs_target (h : happening Device) (p : DiscoverProtocol) :
  target (happen h p) = target p
  /\ (completions (happen h p) = completions p
      \/ target p ∈ seenHosts (happen h p)).
Proof.
  destruct h as [d | ip outcome]; cbn [Discover.happen].
  - destruct (datagram_seenHosts Device JSON_parse d p) as (_ & _ & Ht).
    cbv zeta in Ht. split; [exact Ht|].
    destruct (decide (address d ∈ seenHosts p)) as [Hin | Hout].
    { left. rewrite datagram_of_seen_host by exact Hin. reflexivity. }
    destruct (DiscoverNotions.raw_callback_error JSON_parse d p)
      as [error|] eqn:Hraw.
    + destruct (DiscoverNotions.parsed JSON_parse d)
        as [[info deviceFunc]|] eqn:Hparsed.
      * rewrite (datagram_callback_throws Device JSON_parse d p info deviceFunc
                   error Hout Hparsed Hraw).
        match goal with
        | |- context [caught ?a ?b ?c ?e ?q] =>
            destruct (caught_completions a b c e q) as [Hc | Hin];
            destruct (caught_seenHosts Device a b c e q) as [Hs _]
        end.
        -- left. rewrite Hc, completions_emit_callback by discriminate.
           reflexivity.
        -- right. rewrite Hs. exact Hin.
      * unfold DiscoverNotions.raw_callback_error in Hraw.
        rewrite Hparsed in Hraw. discriminate Hraw.
    + left. apply (datagram_effect Device JSON_parse d p Hraw).
  - destruct (settled_seenHosts Device ip outcome p) as [Hs Ht].
    split; [exact Ht|]. rewrite Hs.
    unfold deviceSettled.
    destruct (suspended p !! ip) as [w|]; [|left; reflexivity].
    destruct outcome as [device | error].
    + cbn [set_discoveredDevices set_suspended onDiscovered].
      destruct (onDiscovered p) as [callback|];
        [destruct (callback device)|];
        try match goal with
            | |- context [_handleDiscoveredEvent ?q] =>
                destruct (handled_completions q) as [-> | Hin];
                [left | right; exact Hin]
            end;
        try reflexivity;
        try left; rewrite completions_emit_callback by discriminate;
        reflexivity.
    + apply (caught_completions ip (w_info w) (w_config w) error
               (set_suspended (delete ip (suspended p)) p)).
Qed.

Lemma completions_need_target (hs : list (happening Device)) :
  forall p : DiscoverProtocol,
    target (run hs p) = target p
    /\ (completions (run hs p) = completions p
        \/ target p ∈ seenHosts (run hs p)).
Proof.
  induction hs as [|h hs IH]; intros p; cbn; [auto|].
  fold (run hs (happen h p)).
  destruct (IH (happen h p)) as [Ht Hc].
  destruct (completion_needs_target h p) as [Ht1 Hc1].
  split; [congruence|].
  destruct Hc1 as [Hc1 | Hseen].
  - rewrite Ht1 in Hc. destruct Hc as [Hc | Hc]; [left; congruence | auto].
  - right. apply run_keeps_seen. exact Hseen.
Qed.

(** X14.  However datagrams arrive and devices settle, a discovery holds every
    host at most once: in at most one of [discoveredDevices],
    [unsupportedDeviceExceptions], [invalidDeviceExceptions] and the calls
    that still wait for a device, and only if a datagram has come from it.
    The seen-set is the set of the hosts from which a datagram has come.  And
    [complete] is emitted by the handling of a datagram only if a datagram has
    come from the target address itself: a discovery for the broadcast address
    is not completed by the hosts that answer. *)
Theorem discovery_records_each_host_once (hs : list (happening Device))
    (target : option string) (port : option Z)
    (credentials : option (string * string)) (timeout : option Z)
    (onDiscovered : option (callback Device))
    (onDiscoveredRaw : option (callback DiscoveredRaw))
    (onUnsupported : option (callback js_error)) (ip : string) :
  let p0 :=
    new_DiscoverProtocol Device target port credentials timeout onDiscovered
      onDiscoveredRaw onUnsupported in
  let p := run hs p0 in
  (places p ip <= 1)%nat
  /\ (ip ∈ seenHosts p <-> exists d, In (Datagram d) hs /\ address d = ip)
  /\ (places p ip = 1%nat -> exists d, In (Datagram d) hs /\ address d = ip)
  /\ ((0 < completions p)%nat ->
      exists d, In (Datagram d) hs /\ address d = Discover.target p0).
Proof.
  intros p0 p.
  assert (Hinit : recorded_once p0).
  { intros ip0. unfold places, holds, p0, new_DiscoverProtocol. fields.
    rewrite !lookup_empty. split; [lia | discriminate]. }
  pose proof (recorded_once_run hs p0 Hinit ip) as [Hle Hseen]. fold p in Hle, Hseen.
  assert (Hiff : forall ip0,
             ip0 ∈ seenHosts p
             <-> exists d, In (Datagram d) hs /\ address d = ip0).
  { intros ip0. unfold p. rewrite seen_iff_datagram.
    unfold p0, new_DiscoverProtocol. fields.
    split; [intros [H | H]; [apply elem_of_empty in H; destruct H | exact H]
           | auto]. }
  split; [exact Hle|]. split; [apply Hiff|].
  split; [intros H; apply Hiff, Hseen, H|].
  intros Hpos. apply Hiff.
  destruct (completions_need_target hs p0) as [_ [Hc | Hc]]; [|exact Hc].
  fold p in Hc. rewrite Hc in Hpos. cbn in Hpos. lia.
Qed.

End Protocol.

(** A discovery of the single host 192.168.0.10 after a readable datagram
    from it: the host is held once, by the call that waits for its
    device. *)
Lemma discovery_records_each_host_once_witness :
  let hs := [Datagram (Device := string) null_datagram] in
  let p := Discover.run Scenario.parse_null_only hs single_target in
  places p "192.168.0.10" = 1%nat
  /\ holds (suspended p) "192.168.0.10" = 1%nat
  /\ exists d, In (Datagram d) hs /\ address d = "192.168.0.10".
Proof.
  intros hs p.
  destruct (discovery_records_each_host_once string Scenario.parse_null_only
              hs (Some "192.168.0.10") None None None None None None
              "192.168.0.10") as (_ & _ & Hheld & _).
  split; [vm_compute; reflexivity|].
  split; [vm_compute; reflexivity|].
  apply Hheld. vm_compute. reflexivity.
Defined.

End DiscoverRecordFacts.

(** ** [XorTransport]: reading a response, and what [send] throws *)

Module XorTransportFacts.
Import Js Exceptions Eff Bytes Notions BytesFacts XorFacts XorTransport.
Local Open Scope Z_scope.

(** A buffer of at least [k] bytes that starts a list has the first [k]
    bytes of that list, and the rest of the list follows what follows them
    in the buffer. *)
Lemma prefix_firstn (k : nat) (buf rest whole : Buffer) :
  buf ++ rest = whole -> (k <= List.length buf)%nat ->
  firstn k buf = firstn k whole /\ skipn k buf ++ rest = skipn k whole.
Proof.
  intros <- Hk. rewrite List.firstn_app, List.skipn_app.
  replace (k - List.length buf)%nat with 0%nat by lia.
  rewrite List.firstn_O, List.skipn_O, List.app_nil_r. auto.
Qed.

Lemma header_of_prefix (n : Z) (buf rest tail : Buffer) :
  buf ++ rest = be32 n ++ tail -> (4 <= List.length buf)%nat ->
  0 <= n < 4294967296 ->
  readUInt32BE buf = Returned n.
Proof.
  intros Heq Hlen Hn.
  destruct (prefix_firstn 4 buf rest _ Heq Hlen) as [Hfirst _].
  rewrite firstn_be32 in Hfirst.
  rewrite <- (List.firstn_skipn 4 buf), Hfirst.
  apply readUInt32BE_be32. exact Hn.
Qed.

Lemma payload_of_prefix (n : Z) (buf rest payload extra : Buffer) :
  buf ++ rest = be32 n ++ payload ++ extra ->
  Z.of_nat (List.length payload) = n ->
  4 + n <= Z.of_nat (List.length buf) ->
  Smart.slice buf BLOCK_SIZE (BLOCK_SIZE + n) = payload.
Proof.
  intros Heq Hpay Hlen. unfold Smart.slice, BLOCK_SIZE.
  replace (4 + n - 4) with n by lia.
  change (Z.to_nat 4) with 4%nat.
  destruct (prefix_firstn 4 buf rest _ Heq ltac:(lia)) as [_ Hskip].
  rewrite skipn_be32 in Hskip.
  assert (Hk : (Z.to_nat n <= List.length (skipn 4 buf))%nat).
  { rewrite List.length_skipn. lia. }
  destruct (prefix_firstn (Z.to_nat n) _ _ _ Hskip Hk) as [-> _].
  rewrite List.firstn_app.
  replace (Z.to_nat n - List.length payload)%nat with 0%nat by lia.
  rewrite List.firstn_O, List.app_nil_r.
  apply List.firstn_all2. lia.
Qed.

Lemma xorPayload_length (l : Buffer) :
  forall key, List.length (XorEncryption.xorPayload_from key l) = List.length l.
Proof.
  induction l as [|b l IH]; intros key;
    cbn [XorEncryption.xorPayload_from List.length];
    [reflexivity | f_equal; apply IH].
Qed.

Section Receiving.

Variable JSON_parse : string -> may_throw string json.

Abbreviation onData := (XorTransport.onData JSON_parse).
Abbreviation receive := (XorTransport.receive JSON_parse).

(** How the listener settles on a payload. *)
Abbreviation settles_on payload :=
  (Settled
     match JSON_parse (XorEncryption.decrypt payload) with
     | Returned jsonPayload => Returned jsonPayload
     | Thrown msg =>
         Thrown (new_error KasaException ("Failed to parse response: " +:+ msg))
     end).

(** The listener while a frame of [n] payload bytes arrives: what it
    holds after some chunks is what has arrived, with the length once four
    bytes have. *)
Lemma receive_frame (n : Z) (payload extra : Buffer) :
  0 <= n < 4294967296 -> Z.of_nat (List.length payload) = n ->
  forall (chunks : list Buffer) (acc : Buffer) (later : list Buffer),
    acc ++ concat chunks = be32 n ++ payload ++ extra ->
    Z.of_nat (List.length acc) < 4 + n ->
    receive
      (mk_receiving acc
         (if Z.of_nat (List.length acc) >=? BLOCK_SIZE then Some n else None))
      (chunks ++ later)
    = settles_on payload.
Proof.
  intros Hn Hpay chunks.
  induction chunks as [|data rest IH]; intros acc later Hacc Hshort.
  - exfalso. cbn [concat] in Hacc. rewrite List.app_nil_r in Hacc.
    apply (f_equal (@List.length Z)) in Hacc.
    rewrite !List.length_app in Hacc.
    change (List.length (be32 n)) with 4%nat in Hacc. lia.
  - cbn [concat] in Hacc. rewrite List.app_assoc in Hacc.
    cbn [app XorTransport.receive]. unfold XorTransport.onData.
    cbn [responseBuffer expectedLength].
    assert (Hheader :
              match
                (if Z.of_nat (List.length acc) >=? BLOCK_SIZE
                 then Some n else None)
              with
              | None =>
                  if Z.of_nat (List.length (acc ++ data)) >=? BLOCK_SIZE then
                    match readUInt32BE (acc ++ data) with
                    | Returned m => Returned (Some m)
                    | Thrown e => Thrown e
                    end
                  else Returned None
              | Some m => Returned (Some m)
              end
              = Returned (E := js_error)
                  (if Z.of_nat (List.length (acc ++ data)) >=? BLOCK_SIZE
                   then Some n else None)).
    { unfold BLOCK_SIZE.
      destruct (Z.of_nat (List.length acc) >=? 4) eqn:Ha.
      - rewrite Z.geb_leb in Ha. apply Z.leb_le in Ha.
        replace (Z.of_nat (List.length (acc ++ data)) >=? 4) with true;
          [reflexivity|].
        symmetry. rewrite Z.geb_leb. apply Z.leb_le.
        rewrite List.length_app. lia.
      - destruct (Z.of_nat (List.length (acc ++ data)) >=? 4) eqn:Hb;
          [|reflexivity].
        rewrite Z.geb_leb in Hb. apply Z.leb_le in Hb.
        rewrite (header_of_prefix n _ _ _ Hacc) by (try lia; exact Hn).
        reflexivity. }
    rewrite Hheader. clear Hheader.
    destruct (Z.of_nat (List.length (acc ++ data)) >=? BLOCK_SIZE) eqn:Hfour.
    + destruct (Z.of_nat (List.length (acc ++ data)) >=? BLOCK_SIZE + n) eqn:Hall.
      * rewrite Z.geb_leb in Hall. apply Z.leb_le in Hall.
        unfold BLOCK_SIZE in Hall.
        rewrite (payload_of_prefix n _ _ _ _ Hacc Hpay Hall).
        destruct (JSON_parse _); reflexivity.
      * rewrite Z.geb_leb in Hall. apply Z.leb_gt in Hall.
        unfold BLOCK_SIZE in Hall.
        pose proof (IH (acc ++ data) later Hacc Hall) as Hrest.
        rewrite Hfour in Hrest. exact Hrest.
    + assert (Hall : Z.of_nat (List.length (acc ++ data)) < 4 + n).
      { rewrite Z.geb_leb in Hfour. apply Z.leb_gt in Hfour.
        unfold BLOCK_SIZE in Hfour. lia. }
      pose proof (IH (acc ++ data) later Hacc Hall) as Hrest.
      rewrite Hfour in Hrest. exact Hrest.
Qed.

(** The listener while less than a frame has arrived: it goes on
    listening. *)
Lemma receive_part (n : Z) (payload : Buffer) :
  0 <= n < 4294967296 -> Z.of_nat (List.length payload) = n ->
  forall (chunks : list Buffer) (acc rest : Buffer),
    acc ++ concat chunks ++ rest = be32 n ++ payload ->
    rest <> [] ->
    receive
      (mk_receiving acc
         (if Z.of_nat (List.length acc) >=? BLOCK_SIZE then Some n else None))
      chunks
    = Listening
        (mk_receiving (acc ++ concat chunks)
           (if Z.of_nat (List.length (acc ++ concat chunks)) >=? BLOCK_SIZE
            then Some n else None)).
Proof.
  intros Hn Hpay chunks.
  induction chunks as [|data more IH]; intros acc rest Hacc Hrest.
  - cbn. rewrite List.app_nil_r. reflexivity.
  - cbn [concat] in *. rewrite <- List.app_assoc in Hacc.
    rewrite (List.app_assoc acc data) in Hacc.
    assert (Hshort : Z.of_nat (List.length (acc ++ data)) < 4 + n).
    { apply (f_equal (@List.length Z)) in Hacc.
      rewrite !List.length_app in Hacc.
      change (List.length (be32 n)) with 4%nat in Hacc.
      rewrite !List.length_app.
      destruct rest; [contradiction|]. cbn [List.length] in Hacc. lia. }
    cbn [XorTransport.receive]. unfold XorTransport.onData.
    cbn [responseBuffer expectedLength].
    assert (Hheader :
              match
                (if Z.of_nat (List.length acc) >=? BLOCK_SIZE
                 then Some n else None)
              with
              | None =>
                  if Z.of_nat (List.length (acc ++ data)) >=? BLOCK_SIZE then
                    match readUInt32BE (acc ++ data) with
                    | Returned m => Returned (Some m)
                    | Thrown e => Thrown e
                    end
                  else Returned None
              | Some m => Returned (Some m)
              end
              = Returned (E := js_error)
                  (if Z.of_nat (List.length (acc ++ data)) >=? BLOCK_SIZE
                   then Some n else None)).
    { unfold BLOCK_SIZE.
      destruct (Z.of_nat (List.length acc) >=? 4) eqn:Ha.
      - rewrite Z.geb_leb in Ha. apply Z.leb_le in Ha.
        replace (Z.of_nat (List.length (acc ++ data)) >=? 4) with true;
          [reflexivity|].
        symmetry. rewrite Z.geb_leb. apply Z.leb_le.
        rewrite List.length_app. lia.
      - destruct (Z.of_nat (List.length (acc ++ data)) >=? 4) eqn:Hb;
          [|reflexivity].
        rewrite Z.geb_leb in Hb. apply Z.leb_le in Hb.
        rewrite (header_of_prefix n _ _ _ Hacc) by (try lia; exact Hn).
        reflexivity. }
    rewrite Hheader. clear Hheader.
    assert (Hnot : (Z.of_nat (List.length (acc ++ data)) >=? BLOCK_SIZE + n)
                   = false)
      by (rewrite Z.geb_leb; apply Z.leb_gt; unfold BLOCK_SIZE; lia).
    assert (Hgo : receive
                    (mk_receiving (acc ++ data)
                       (if Z.of_nat (List.length (acc ++ data)) >=? BLOCK_SIZE
                        then Some n else None)) more
                  = Listening
                      (mk_receiving (acc ++ data ++ concat more)
                         (if Z.of_nat (List.length (acc ++ data ++ concat more))
                             >=? BLOCK_SIZE
                          then Some n else None))).
    { rewrite (IH (acc ++ data) rest Hacc Hrest).
      rewrite <- List.app_assoc. reflexivity. }
    destruct (Z.of_nat (List.length (acc ++ data)) >=? BLOCK_SIZE);
      rewrite ?Hnot; exact Hgo.
Qed.

(** X15.  However a response is cut into chunks, [_executeSend] reads it the
    same: when the bytes that arrive start with the frame of a text (its
    length on four bytes, then its XOR stream), the listener settles with the
    text parsed, or with the [KasaException] for a text that is not JSON;
    bytes after the frame and chunks after it are ignored.  The text parsed
    is the one that the decoder reads in the frame, which is the text of the
    frame itself when that is well formed.  While only a part of the frame
    has arrived, the listener settles nothing and goes on listening, holding
    the bytes so far. *)
Theorem xor_response_is_reassembled (text : string) (frame : Buffer)
    (chunks later : list Buffer) (extra : Buffer) :
  XorEncryption.encrypt text = Returned frame ->
  (concat chunks = frame ++ extra ->
     receive start (chunks ++ later)
     = Settled
         match JSON_parse (to_utf8 (from_utf8 text)) with
         | Returned jsonPayload => Returned jsonPayload
         | Thrown msg =>
             Thrown (new_error KasaException
                       ("Failed to parse response: " +:+ msg))
         end)
  /\ (well_formed text = true -> to_utf8 (from_utf8 text) = text)
  /\ (forall rest, concat chunks ++ rest = frame -> rest <> [] ->
        exists r,
          receive start chunks = Listening r
          /\ responseBuffer r = concat chunks).
Proof.
  intros Hframe. unfold XorEncryption.encrypt, writeUInt32BE in Hframe.
  set (n := Z.of_nat (List.length (from_utf8 text))) in *.
  destruct ((0 <=? n) && (n <=? 4294967295)) eqn:Hrange; [|discriminate].
  apply andb_prop in Hrange as [H0 H1].
  apply Z.leb_le in H0. apply Z.leb_le in H1.
  injection Hframe as <-.
  set (payload := from_array (XorEncryption._xorPayload (from_utf8 text))).
  assert (Hpay : Z.of_nat (List.length payload) = n).
  { unfold payload, from_array, XorEncryption._xorPayload.
    rewrite List.length_map, xorPayload_length. reflexivity. }
  assert (Htext : XorEncryption.decrypt payload = to_utf8 (from_utf8 text))
    by apply decrypt_stream.
  split; [|split].
  - intros Hcat.
    pose proof (receive_frame n payload extra ltac:(lia) Hpay chunks [] later)
      as Hrun.
    cbn [app List.length] in Hrun. rewrite Htext in Hrun.
    apply Hrun; [rewrite Hcat; reflexivity | lia].
  - apply to_utf8_from_utf8.
  - intros rest Hcat Hrest.
    pose proof (receive_part n payload ltac:(lia) Hpay chunks [] rest) as Hrun.
    cbn [app List.length] in Hrun.
    eexists. split; [apply Hrun; assumption | reflexivity].
Qed.

End Receiving.

(** The response [null], framed, in three chunks with a byte of another
    response after it; and its first two chunks alone. *)
Lemma xor_response_is_reassembled_witness :
  let receive := XorTransport.receive Scenario.parse_null_only in
  receive start [[0; 0]; [0; 4; 197]; [176; 220; 176; 0]; [0; 0]]
  = Settled (Returned JNull)
  /\ exists r,
       receive start [[0; 0]; [0; 4; 197]] = Listening r
       /\ responseBuffer r = [0; 0; 0; 4; 197].
Proof.
  intros receive.
  destruct (xor_response_is_reassembled Scenario.parse_null_only "null"
              [0; 0; 0; 4; 197; 176; 220; 176]
              [[0; 0]; [0; 4; 197]; [176; 220; 176; 0]] [[0; 0]] [0] eq_refl)
    as (Hall & _ & _).
  destruct (xor_response_is_reassembled Scenario.parse_null_only "null"
              [0; 0; 0; 4; 197; 176; 220; 176]
              [[0; 0]; [0; 4; 197]] [] [] eq_refl)
    as (_ & _ & Hpart).
  split.
  - apply Hall. reflexivity.
  - apply (Hpart [176; 220; 176]); [reflexivity | discriminate].
Defined.

(** *** What [send] throws *)

Lemma readUInt32BE_long (b : Buffer) :
  4 <= Z.of_nat (List.length b) -> exists n, readUInt32BE b = Returned n.
Proof.
  destruct b as [|b0 [|b1 [|b2 [|b3 rest]]]]; cbn [List.length]; try lia.
  intros _. eexists. reflexivity.
Qed.

Section Sending.

Variable JSON_parse : string -> may_throw string json.
Variable connects : nat -> connect_outcome.
Variable exchanges : nat -> exchange.
Variable _sendHttp : string -> M XorTransport json.

Abbreviation onData := (XorTransport.onData JSON_parse).
Abbreviation receive := (XorTransport.receive JSON_parse).
Abbreviation _executeSend := (XorTransport._executeSend JSON_parse exchanges).
Abbreviation race := (XorTransport.race JSON_parse exchanges).
Abbreviation send :=
  (XorTransport.send JSON_parse connects exchanges _sendHttp).

(** The header is read only from four bytes or more, so the listener
    never throws. *)
Lemma onData_caught (r : receiving) (data : Buffer) (e : js_error) :
  onData r data <> Uncaught e.
Proof.
  unfold XorTransport.onData.
  destruct (expectedLength r) as [n|].
  - destruct (_ >=? BLOCK_SIZE + n); [|discriminate].
    destruct (JSON_parse _); discriminate.
  - destruct (Z.of_nat (List.length (responseBuffer r ++ data)) >=? BLOCK_SIZE)
      eqn:Hlen; [|discriminate].
    rewrite Z.geb_leb in Hlen. apply Z.leb_le in Hlen.
    destruct (readUInt32BE_long _ Hlen) as [n ->].
    destruct (_ >=? BLOCK_SIZE + n); [|discriminate].
    destruct (JSON_parse _); discriminate.
Qed.

Lemma receive_caught (chunks : list Buffer) :
  forall (r : receiving) (e : js_error), receive r chunks <> Uncaught e.
Proof.
  induction chunks as [|data rest IH]; intros r e; cbn [XorTransport.receive];
    [discriminate|].
  destruct (onData r data) as [r' | outcome | e'] eqn:Hdata.
  - apply IH.
  - discriminate.
  - exfalso. apply (onData_caught _ _ _ Hdata).
Qed.

(** The second [try] block: it settles, and writes at most once. *)
Lemma race_settles (request : string) (t : XorTransport) :
  exists outcome t',
    race request t = (Ok outcome, t')
    /\ connected t' = connected t
    /\ (written t' = written t \/ exists data, written t' = written t ++ [data]).
Proof.
  unfold XorTransport.race, bind, get, ret.
  destruct (negb (connected t)) eqn:Hc.
  { do 2 eexists. split; [reflexivity | auto]. }
  unfold XorTransport._executeSend. rewrite Hc.
  destruct (XorEncryption.encrypt request) as [encryptedRequest | e].
  - destruct (receive start (chunks (exchanges (List.length (written t)))))
      as [r | [jsonPayload | e] | e] eqn:Hrecv.
    + destruct (then_error _); do 2 eexists;
        (split; [reflexivity | split; [reflexivity | right; eexists; reflexivity]]).
    + do 2 eexists.
      split; [reflexivity | split; [reflexivity | right; eexists; reflexivity]].
    + do 2 eexists.
      split; [reflexivity | split; [reflexivity | right; eexists; reflexivity]].
    + exfalso. apply (receive_caught _ _ _ Hrecv).
  - do 2 eexists. split; [reflexivity | auto].
Qed.

(** X16.  Over TCP (every port but 80), [send] returns a response or throws an
    error of the library, a [TimeoutError], a [KasaException] or a
    [RetryableError], never an error of another kind; after an error the
    socket is closed, so that the next call connects again, and after a
    response it is open; and a call writes to the socket at most once, and not
    at all when it throws a [KasaException], which it does only for a
    connection that was refused or a host that cannot be reached. *)
Theorem xor_send_throws_library_errors (request : string) (t : XorTransport) :
  _port t <> 80 ->
  let run := send request t in
  (written (snd run) = written t
   \/ exists data, written (snd run) = written t ++ [data])
  /\ match fst run with
     | Ok response => connected (snd run) = true
     | Throw e =>
         connected (snd run) = false
         /\ (cls e = TimeoutError \/ cls e = KasaException
             \/ cls e = RetryableError)
         /\ (cls e = KasaException ->
             written (snd run) = written t /\ connected t = false
             /\ exists error,
                  connects (List.length (written t)) = ConnectFailed error
                  /\ (same_prim (err_code error) (Some (JStr "ECONNREFUSED"))
                      = true
                      \/ has_prim NO_RETRY_ERRORS (err_errno error) = true))
     | Diverge => False
     end.
Proof.
  intros Hport. cbv zeta.
  unfold XorTransport.send, bind, get, _shouldUseHttp.
  apply Z.eqb_neq in Hport. rewrite Hport.
  unfold XorTransport._connect.
  destruct (connected t) eqn:Hc.
  - destruct (race_settles request t) as (outcome & t' & Hrace & Hc' & Hw).
    rewrite Hrace. rewrite Hc in Hc'.
    destruct outcome as [response | msg].
    + cbn. auto.
    + unfold reset, close, modify, throw. cbn [fst snd].
      destruct (String.eqb msg "Send timeout"); cbn [fst snd connected written cls];
        (split; [exact Hw|]); (split; [reflexivity|]);
        (split; [auto|]); discriminate.
  - destruct (connects (List.length (written t))) as [|error] eqn:Hconnect.
    + destruct (race_settles request (set_connected true t))
        as (outcome & t' & Hrace & Hc' & Hw).
      rewrite Hrace. cbn [connected set_connected written] in Hc', Hw.
      destruct outcome as [response | msg].
      * cbn. auto.
      * unfold reset, close, modify, throw. cbn [fst snd].
        destruct (String.eqb msg "Send timeout");
          cbn [fst snd connected set_connected written cls];
          (split; [exact Hw|]); (split; [reflexivity|]);
          (split; [auto|]); discriminate.
    + unfold reset, close, modify, throw. cbn [fst snd].
      destruct (String.eqb (err_message error) "Connection timeout");
        [|destruct (same_prim (err_code error) (Some (JStr "ECONNREFUSED")))
            eqn:Hcode;
          [|destruct (has_prim NO_RETRY_ERRORS (err_errno error)) eqn:Herrno]];
        cbn [fst snd connected set_connected written cls];
        (split; [auto|]); (split; [reflexivity|]);
        (split; [auto|]); try discriminate;
        intros _; (split; [reflexivity|]); (split; [reflexivity|]);
        exists error; (split; [reflexivity|]); auto.
Qed.

End Sending.

(** A transport for 192.168.0.10:9999 that is not connected, a device
    that accepts the connection and answers with the frame of [null] in
    three chunks; and a device that refuses the connection. *)
Lemma xor_send_throws_library_errors_witness :
  let t := mk_transport "192.168.0.10" 9999 5 false [] in
  let no_http := fun _ : string =>
    throw (S := XorTransport) (A := json) (new_error JsError "not on port 80") in
  let send connects :=
    XorTransport.send Scenario.parse_null_only connects
      (fun _ => mk_exchange [[0; 0]; [0; 4; 197]; [176; 220; 176]] None)
      no_http TransportScenario.sysinfo_query t in
  let refused :=
    mk_socket_error "connect ECONNREFUSED 192.168.0.10:9999"
      (Some (JStr "ECONNREFUSED")) (Some (JNum (-111))) in
  fst (send (fun _ => Connected)) = Ok JNull
  /\ connected (snd (send (fun _ => Connected))) = true
  /\ Reading.cls_of_result (fst (send (fun _ => ConnectFailed refused)))
     = Some KasaException
  /\ connected (snd (send (fun _ => ConnectFailed refused))) = false.
Proof.
  intros t no_http send refused.
  pose proof (xor_send_throws_library_errors Scenario.parse_null_only
                (fun _ => Connected)
                (fun _ => mk_exchange [[0; 0]; [0; 4; 197]; [176; 220; 176]] None)
                no_http TransportScenario.sysinfo_query t ltac:(discriminate))
    as [_ Hok].
  pose proof (xor_send_throws_library_errors Scenario.parse_null_only
                (fun _ => ConnectFailed refused)
                (fun _ => mk_exchange [[0; 0]; [0; 4; 197]; [176; 220; 176]] None)
                no_http TransportScenario.sysinfo_query t ltac:(discriminate))
    as [_ Hrefused].
  split; [reflexivity|]. split; [exact Hok|].
  split; [reflexivity|]. exact (proj1 Hrefused).
Defined.

End XorTransportFacts.

(** ** The wrapper of the Smart protocol for child devices *)

Module SmartChildFacts.
Import Js Exceptions Eff Smart SmartChild ExceptionsFacts AssocFacts
  RegistryFacts SmartHandlerFacts.
Local Open Scope Z_scope.

(** What the handler does to a response object when it must not throw. *)
Lemma handler_quiet (fields : list (string * json)) (method : string)
    (p : SmartProtocol) :
  let raw := assoc "error_code" fields in
  Smart._handleResponseErrorCode (JObj fields) method false p
  = (Ok (JObj (if same_prim raw (Some (JNum 0)) then fields
               else assoc_set "result" (fromInt raw) fields)), p).
Proof.
  intros raw.
  unfold Smart._handleResponseErrorCode, bind, or_type_error, get_prop, ret.
  fold raw.
  destruct (fromInt_value raw) as [name Hcode]. rewrite Hcode.
  rewrite code_object_value.
  change (SmartErrorCode "SUCCESS") with (Some (JNum 0)).
  destruct (same_prim raw (Some (JNum 0))); reflexivity.
Qed.

(** What the handler does to a response object when it may throw. *)
Lemma handler_loud (fields : list (string * json)) (method : string)
    (p : SmartProtocol) :
  let raw := assoc "error_code" fields in
  let run := Smart._handleResponseErrorCode (JObj fields) method true p in
  (raw = Some (JNum 0) /\ run = (Ok (JObj fields), p))
  \/ (raw <> Some (JNum 0)
      /\ exists e,
           run = (Throw e, p)
           /\ instanceof e DeviceError = true
           /\ errorCode e = Some (fromInt raw)).
Proof.
  intros raw run. subst run.
  unfold Smart._handleResponseErrorCode, bind, or_type_error, get_prop, ret,
    get, throw.
  fold raw.
  destruct (fromInt_value raw) as [name Hcode]. rewrite Hcode.
  rewrite code_object_value.
  change (SmartErrorCode "SUCCESS") with (Some (JNum 0)).
  destruct (same_prim raw (Some (JNum 0))) eqn:H0.
  { left. apply same_prim_num in H0. split; [exact H0 | reflexivity]. }
  apply not_same_prim_num in H0.
  right. split; [exact H0|]. cbn [negb].
  destruct (has_prim LOCAL_SMART_RETRYABLE_ERRORS raw);
    [|destruct (has_prim LOCAL_SMART_AUTHENTICATION_ERRORS raw)];
    eexists; (split; [reflexivity|]); split; reflexivity.
Qed.

Lemma find_app {A : Type} (f : A -> bool) (l l' : list A) :
  List.find f (l ++ l')
  = match List.find f l with
    | Some x => Some x
    | None => List.find f l'
    end.
Proof.
  induction l as [|x l IH]; cbn [List.find app]; [reflexivity|].
  destruct (f x); [reflexivity | exact IH].
Qed.

Lemma assoc_set_entry (m key : string) (value : option json)
    (retVal : query_result) :
  assoc m (set_entry key value retVal)
  = if String.eqb key "__proto__" then assoc m retVal
    else if String.eqb key m then Some value
    else assoc m retVal.
Proof.
  unfold set_entry. destruct (String.eqb key "__proto__"); [reflexivity|].
  destruct (String.eqb_spec key m) as [-> | Hne].
  - apply assoc_set_eq.
  - apply assoc_set_ne. congruence.
Qed.

(** On response objects the loop of the wrapper does not throw, and files
    every response under its name. *)
Lemma unwrap_objects (responses : list json) :
  forall (retVal : query_result) (p : SmartProtocol),
    forallb is_object responses = true ->
    unwrap_responses responses retVal p
    = (Ok (fold_left (fun acc r =>
                        set_entry (response_name r) (response_entry r) acc)
                     responses retVal), p).
Proof.
  induction responses as [|r rest IH]; intros retVal p Hobj;
    cbn [unwrap_responses fold_left]; [reflexivity|].
  cbn [forallb] in Hobj. apply andb_prop in Hobj as [Hr Hrest].
  destruct r as [| b | n | s | items | fields]; try discriminate.
  unfold bind at 1. unfold read at 1, or_type_error, get_prop, ret.
  unfold bind at 1. rewrite handler_quiet.
  unfold bind at 1. unfold read, or_type_error, get_prop, ret.
  rewrite IH by exact Hrest.
  unfold response_name, response_entry. cbn [fields_of].
  destruct (same_prim (assoc "error_code" fields) (Some (JNum 0)));
    [reflexivity|].
  rewrite assoc_set_eq. reflexivity.
Qed.

(** An entry of the object that the loop builds is that of the last
    response filed under the key. *)
Lemma filed_last (responses : list json) :
  forall (retVal : query_result) (m : string),
    assoc m (fold_left (fun acc r =>
                          set_entry (response_name r) (response_entry r) acc)
                       responses retVal)
    = if String.eqb m "__proto__" then assoc m retVal
      else match last_named m responses with
           | Some r => Some (response_entry r)
           | None => assoc m retVal
           end.
Proof.
  induction responses as [|r rest IH]; intros retVal m; cbn [fold_left].
  - unfold last_named. cbn. now destruct (String.eqb m "__proto__").
  - rewrite IH. unfold last_named. cbn [rev]. rewrite find_app.
    cbn [List.find]. rewrite assoc_set_entry.
    destruct (String.eqb_spec m "__proto__") as [-> | Hm].
    + destruct (String.eqb_spec (response_name r) "__proto__");
        [reflexivity|].
      reflexivity.
    + destruct (List.find _ (rev rest)); [reflexivity|].
      destruct (String.eqb_spec (response_name r) m) as [Heq | Hne];
        [|now destruct (String.eqb (response_name r) "__proto__")].
      rewrite Heq.
      destruct (String.eqb_spec m "__proto__"); [contradiction | reflexivity].
Qed.

Section Wrapper.

Variable JSON_stringify : json -> string.
Variable StringToNumber : string -> option Z.
Variable Date_now : nat -> Z.
Variable transport_send : nat -> string -> may_throw js_error json.

Abbreviation parent_query :=
  (SmartChild.parent_query JSON_stringify StringToNumber Date_now transport_send).
Abbreviation _query :=
  (SmartChild._query JSON_stringify StringToNumber Date_now transport_send).


(** X18.  When the parent returns, for the child, a [responseData] without a
    list of responses, the wrapper checks its [error_code]: if that is the
    number 0 it returns, under the method of the request, the whole value of
    [control_child], the object that holds [responseData], and not the
    [result] inside it; otherwise it throws the error of the handler, a
    [DeviceError] that carries the object of [fromInt], after the retry loop
    of the parent has ended, so that nothing is sent again and the transport
    is not reset. *)
Theorem child_query_returns_the_envelope (fuel : nat) (deviceId : string)
    (request : query_request) (retryCount : Z) (p p' : SmartProtocol)
    (response : query_result) (envelope responseData : list (string * json)) :
  parent_query fuel deviceId request retryCount p = (Ok response, p') ->
  assoc "control_child" response = Some (Some (JObj envelope)) ->
  assoc "responseData" envelope = Some (JObj responseData) ->
  no_responses responseData ->
  let raw := assoc "error_code" responseData in
  let method := fst (_getMethodAndParamsForRequest request) in
  let run := _query fuel deviceId request retryCount p in
  (raw = Some (JNum 0) /\ run = (Ok [(method, Some (JObj envelope))], p'))
  \/ (raw <> Some (JNum 0)
      /\ exists e,
           run = (Throw e, p')
           /\ instanceof e DeviceError = true
           /\ errorCode e = Some (fromInt raw)).
Proof.
  intros Hparent Hchild Hdata Hnone raw method run.
  assert (Hrun : run
                 = bind (Smart._handleResponseErrorCode (JObj responseData)
                           "control_child" true)
                     (fun _ => ret [(method, Some (JObj envelope))]) p').
  { subst run. unfold SmartChild._query. unfold bind at 1. rewrite Hparent.
    rewrite Hchild.
    unfold and_read at 1. cbn [truthy_opt truthy].
    unfold bind at 1. unfold read at 1, or_type_error, get_prop, ret.
    rewrite Hdata. cbn [truthy].
    unfold bind at 1. unfold read at 1, or_type_error, get_prop, ret.
    destruct Hnone as [Hfalsy | (inner & Hresult & Hfalsy)].
    - unfold bind at 1. unfold and_read. rewrite Hfalsy. unfold ret.
      destruct (assoc "result" responseData) as [v|]; [|reflexivity].
      cbn [truthy_opt] in Hfalsy. rewrite Hfalsy. reflexivity.
    - rewrite Hresult.
      unfold bind at 1. unfold and_read, read, or_type_error, get_prop, ret.
      cbn [truthy_opt truthy].
      destruct (assoc "responses" inner) as [v|]; [|reflexivity].
      cbn [truthy_opt] in Hfalsy. rewrite Hfalsy. reflexivity. }
  rewrite Hrun. unfold bind.
  destruct (handler_loud responseData "control_child" p')
    as [[H0 Hok] | (H0 & e & Hthrow & Hcls & Hcode)].
  - left. split; [exact H0|]. rewrite Hok. reflexivity.
  - right. split; [exact H0|]. exists e. rewrite Hthrow. auto.
Qed.

End Wrapper.


(** The same hub returns one result, and then one error code, for a
    single method asked of the child. *)
Lemma child_query_returns_the_envelope_witness :
  let request := ReqString "get_device_info" in
  fst (ChildScenario.query request ChildScenario.one)
  = Ok [("get_device_info",
         Some (JObj [("responseData", JObj ChildScenario.one)]))]
  /\ exists e,
       fst (ChildScenario.query request ChildScenario.failed) = Throw e
       /\ cls e = DeviceError.
Proof.
  intros request. split.
  - destruct (child_query_returns_the_envelope
                Scenario.stringify Scenario.decimal_to_number Scenario.fixed_clock
                (Scenario.always_returns
                   (ChildScenario.in_envelope ChildScenario.one))
                10 "child-1" request 3 ChildScenario.parent
                (snd (ChildScenario.query request ChildScenario.one))
                [("control_child",
                  Some (JObj [("responseData", JObj ChildScenario.one)]))]
                [("responseData", JObj ChildScenario.one)]
                ChildScenario.one
                ltac:(vm_compute; reflexivity) eq_refl eq_refl
                ltac:(right; eexists; split; reflexivity))
      as [[_ Hrun] | [Hraw _]].
    + unfold ChildScenario.query. rewrite Hrun. reflexivity.
    + exfalso. apply Hraw. reflexivity.
  - destruct (child_query_returns_the_envelope
                Scenario.stringify Scenario.decimal_to_number Scenario.fixed_clock
                (Scenario.always_returns
                   (ChildScenario.in_envelope ChildScenario.failed))
                10 "child-1" request 3 ChildScenario.parent
                (snd (ChildScenario.query request ChildScenario.failed))
                [("control_child",
                  Some (JObj [("responseData", JObj ChildScenario.failed)]))]
                [("responseData", JObj ChildScenario.failed)]
                ChildScenario.failed
                ltac:(vm_compute; reflexivity) eq_refl eq_refl
                ltac:(left; reflexivity))
      as [[Hraw _] | (_ & e & Hrun & _ & _)].
    + discriminate Hraw.
    + exists e. unfold ChildScenario.query. rewrite Hrun.
      split; [reflexivity|].
      unfold ChildScenario.query in Hrun. vm_compute in Hrun.
      injection Hrun as <-. reflexivity.
Defined.

End SmartChildFacts.

(** ** The single requests of the SmartCam protocol *)

Module SmartCamQueryFacts.
Import Js Exceptions Eff Smart SmartCamQuery ExceptionsFacts HandlerFacts.
Local Open Scope Z_scope.

Section Protocol.

Variable JSON_stringify : json -> string.
Variable transport_send : nat -> string -> may_throw js_error json.
Variable _executeMultipleQuery :
  list (string * json) -> M SmartProtocol (list (string * answer)).

Abbreviation smartRequest := (SmartCamQuery.smartRequest JSON_stringify).
Abbreviation executeSingle :=
  (SmartCamQuery.executeSingle JSON_stringify transport_send).
Abbreviation _executeQuery :=
  (SmartCamQuery._executeQuery JSON_stringify transport_send
     _executeMultipleQuery).

(** A request that is not handed to [_executeMultipleQuery] runs as its
    single request. *)
Lemma single_request_runs (request : query_request) (sr : SingleRequest) :
  single_request request = Some (Returned sr) ->
  _executeQuery request = executeSingle sr.
Proof.
  unfold single_request, SmartCamQuery._executeQuery.
  destruct request as [name | requests].
  - intros [= <-]. reflexivity.
  - destruct requests as [|[method params] [|second rest]]; try discriminate.
    destruct (existsb _ _); [|discriminate].
    intros [= ->]. reflexivity.
Qed.

(** X19.  A response object that holds an [error_code], whatever its value,
    the success code 0 included, makes a single request of the SmartCam
    protocol throw a plain [DeviceError] that carries the object of [fromInt]:
    the request returns only for a response without that field.  Without it,
    the request returns unless it is a [get] whose response has an empty first
    section, which is a [DeviceError] without a code.  In each case one
    request has been sent. *)
Theorem smartcam_query_rejects_every_error_code (request : query_request)
    (sr : SingleRequest) (p : SmartProtocol) (fields : list (string * json)) :
  single_request request = Some (Returned sr) ->
  transport_send (sent_count p) (smartRequest sr) = Returned (JObj fields) ->
  let run := _executeQuery request p in
  let empty_get :=
    String.eqb (methodType sr) "get" && no_results (JObj fields) in
  snd run = log (Sent (smartRequest sr)) p
  /\ (has_key "error_code" fields = true ->
      exists m,
        fst run
        = Throw (mk_error DeviceError m
                   (Some (fromInt (assoc "error_code" fields)))))
  /\ (has_key "error_code" fields = false ->
      (empty_get = true
       /\ fst run
          = Throw (mk_error DeviceError
                     ("No results for get request " +:+ methodName sr)
                     (Some JNull)))
      \/ (empty_get = false /\ exists r, fst run = Ok r)).
Proof.
  intros Hsingle Hsend run empty_get. subst run.
  rewrite (single_request_runs _ _ Hsingle).
  unfold SmartCamQuery.executeSingle, bind, Smart.send, or_type_error,
    in_error_code, ret, throw.
  cbv beta. rewrite Hsend. cbv beta iota.
  destruct (has_key "error_code" fields) eqn:Hcode; cbv beta iota.
  - destruct (smartcam_handler_throws (log (Sent (smartRequest sr)) p) fields
                (methodName sr)) as [m ->].
    cbn [fst snd]. split; [reflexivity|]. split; [|discriminate].
    intros _. exists m. reflexivity.
  - fold empty_get. split; [|split; [discriminate|]].
    + destruct empty_get; [reflexivity|].
      destruct (String.eqb (methodType sr) "do"); [reflexivity|].
      destruct (String.eqb (methodType sr) "set"); [reflexivity|].
      destruct (String.eqb (methodType sr) "multi"); reflexivity.
    + intros _. destruct empty_get.
      * left. split; reflexivity.
      * right. split; [reflexivity|].
        destruct (String.eqb (methodType sr) "do"); [eexists; reflexivity|].
        destruct (String.eqb (methodType sr) "set"); [eexists; reflexivity|].
        destruct (String.eqb (methodType sr) "multi"); eexists; reflexivity.
Qed.

End Protocol.

(** A camera answers [getLensMaskConfig] with its lens mask and the code
    0, and the query throws; another answers without a code, and the query
    returns. *)
Lemma smartcam_query_rejects_every_error_code_witness :
  (exists m,
     fst (camera (JObj (("error_code", JNum 0) :: fields_of lens_mask)))
     = Throw (mk_error DeviceError m (Some (fromInt (Some (JNum 0))))))
  /\ fst (camera lens_mask)
     = Ok [("getLensMaskConfig", Section "lens_mask_config" lens_mask)].
Proof.
  split.
  - destruct (smartcam_query_rejects_every_error_code
                Scenario.stringify
                (Scenario.always_returns
                   (JObj (("error_code", JNum 0) :: fields_of lens_mask)))
                (fun _ => ret []) (ReqString "getLensMaskConfig")
                (_makeSmartCameraSingleRequest "getLensMaskConfig")
                (new_SmartProtocol "192.168.0.20" "dGVybWluYWw=" None)
                (("error_code", JNum 0) :: fields_of lens_mask)
                eq_refl eq_refl) as (_ & Hcode & _).
    exact (Hcode eq_refl).
  - destruct (smartcam_query_rejects_every_error_code
                Scenario.stringify (Scenario.always_returns lens_mask)
                (fun _ => ret []) (ReqString "getLensMaskConfig")
                (_makeSmartCameraSingleRequest "getLensMaskConfig")
                (new_SmartProtocol "192.168.0.20" "dGVybWluYWw=" None)
                (fields_of lens_mask) eq_refl eq_refl) as (_ & _ & Hnone).
    destruct (Hnone eq_refl) as [[Hempty _] | [_ _]];
      [discriminate Hempty | reflexivity].
Defined.

End SmartCamQueryFacts.

(** ** Redaction of logged data *)

Module RedactFacts.
Import Js Exceptions Redact.

(** Induction on a value through the elements of its arrays and the
    values of its objects. *)
Lemma json_nested_ind (P : json -> Prop) :
  P JNull -> (forall b, P (JBool b)) -> (forall n, P (JNum n)) ->
  (forall s, P (JStr s)) ->
  (forall items, List.Forall P items -> P (JArr items)) ->
  (forall fields, List.Forall (fun kv => P (snd kv)) fields -> P (JObj fields)) ->
  forall j, P j.
Proof.
  intros Hnull Hbool Hnum Hstr Harr Hobj.
  fix IH 1. intros [| b | n | s | items | fields].
  - exact Hnull.
  - apply Hbool.
  - apply Hnum.
  - apply Hstr.
  - apply Harr. induction items as [|x rest IHrest]; constructor;
      [apply IH | exact IHrest].
  - apply Hobj. induction fields as [|[k v] rest IHrest]; constructor;
      [apply IH | exact IHrest].
Qed.

Section Redactors.

Variable redactors : string -> option (option (json -> may_throw js_error json)).

Abbreviation redactData := (Redact.redactData redactors).

(** X20.  Redaction keeps the keys of an object, in their order, and the
    length of an array, and it returns unchanged every value in which no
    object, at any depth, has a key that is in [redactors]: it changes nothing
    but what is listed. *)
Theorem redactData_changes_listed_keys_only (data : json) :
  (forall fields, data = JObj fields ->
     exists fields', redactData data = JObj fields'
                     /\ map fst fields' = map fst fields)
  /\ (forall items, data = JArr items ->
        exists items', redactData data = JArr items'
                       /\ List.length items' = List.length items)
  /\ ((forall key, In key (keys_in data) -> redactors key = None) ->
      redactData data = data).
Proof.
  split; [|split].
  - intros fields ->. cbn [Redact.redactData]. eexists. split; [reflexivity|].
    induction fields as [|[key value] rest IH]; [reflexivity|].
    cbn [map fst]. f_equal. exact IH.
  - intros items ->. cbn [Redact.redactData]. eexists. split; [reflexivity|].
    apply List.length_map.
  - induction data as [| b | n | s | items IH | fields IH] using json_nested_ind;
      intros Hkeys; try reflexivity.
    + cbn [Redact.redactData]. f_equal. cbn [keys_in] in Hkeys.
      induction IH as [|x rest Hx _ IHrest]; [reflexivity|].
      cbn [map]. cbn [flat_map] in Hkeys. f_equal.
      * apply Hx. intros key Hin. apply Hkeys, List.in_or_app. left. exact Hin.
      * apply IHrest. intros key Hin. apply Hkeys, List.in_or_app. right.
        exact Hin.
    + cbn [Redact.redactData]. f_equal. cbn [keys_in] in Hkeys.
      induction IH as [|[key value] rest Hvalue _ IHrest]; [reflexivity|].
      cbn [snd] in Hvalue.
      assert (Hhere : redactors key = None) by (apply Hkeys; left; reflexivity).
      assert (Hin_value : forall k, In k (keys_in value) -> redactors k = None).
      { intros k Hin. apply Hkeys. right. apply List.in_or_app. left. exact Hin. }
      f_equal.
      * f_equal. rewrite Hhere.
        pose proof (Hvalue Hin_value) as Hsame.
        destruct value as [| b | n | s | items | inner]; try reflexivity.
        -- now destruct s.
        -- exact Hsame.
        -- exact Hsame.
      * apply IHrest. intros k Hin. apply Hkeys. right.
        apply List.in_or_app. right. exact Hin.
Qed.

End Redactors.

(** A system information with a location, under redactors for the
    location and the alias, and a relay state, which they do not list. *)
Lemma redactData_changes_listed_keys_only_witness :
  Redact.redactData some_redactors
    (JObj [("system", JObj [("latitude", JNum 52); ("alias", JStr "Lamp")])])
  = JObj [("system",
           JObj [("latitude", JNum 0); ("alias", JStr "**REDACTED**")])]
  /\ Redact.redactData some_redactors
       (JObj [("system", JObj [("relay_state", JNum 1)])])
     = JObj [("system", JObj [("relay_state", JNum 1)])].
Proof.
  split; [reflexivity|].
  apply (redactData_changes_listed_keys_only some_redactors).
  intros key [<- | [<- | []]]; reflexivity.
Defined.

End RedactFacts.

(** ** The round trip of a discovery result *)

Module DiscoveryResultFacts.
Import Js Exceptions DiscoveryResult.

(** [(a || d) || d] is [a || d], when [d] is falsy. *)
Lemma or_else_again (a : option json) (d : json) :
  truthy d = false -> or_else (Some (or_else a d)) d = or_else a d.
Proof.
  intros Hd. unfold or_else. destruct a as [j|].
  - destruct (truthy j) eqn:Hj; [now rewrite Hj | now rewrite Hd].
  - now rewrite Hd.
Qed.

(** An instance is truthy; of the properties that the constructors
    read, it has [lv], and [key] and [data]. *)
Lemma scheme_again (s : EncryptionScheme.t) :
  instance EncryptionScheme.new (Some (EncryptionScheme.own s))
  = Some (EncryptionScheme.mk (JBool false) JNull JNull
            (or_else (Some (EncryptionScheme.lv s)) JNull)).
Proof. reflexivity. Qed.

Lemma info_again (i : EncryptionInfo.t) :
  instance EncryptionInfo.new (Some (EncryptionInfo.own i))
  = Some (forget_info i).
Proof.
  unfold instance, EncryptionInfo.own. cbn [truthy].
  unfold EncryptionInfo.new, prop, forget_info.
  destruct (EncryptionInfo.symSchm i), (EncryptionInfo.key i),
    (EncryptionInfo.data i); reflexivity.
Qed.

(** What the constructor reads in the object of [toDict]. *)
Lemma read_back (r : t) :
  fromDict (toDict r)
  = Returned
      (mk (deviceType r) (deviceModel r) (deviceId r) (ip r) (mac r)
          (option_map
             (fun s => EncryptionScheme.mk (JBool false) JNull JNull
                         (or_else (Some (EncryptionScheme.lv s)) JNull))
             (mgtEncryptSchm r))
          (or_else (Some (deviceName r)) JNull)
          (option_map forget_info (encryptInfo r))
          (or_else (Some (encryptType r)) JNull)
          (or_else (Some (decryptedData r)) JNull)
          (or_else (Some (isResetWifi r)) JNull)
          (or_else (Some (firmwareVersion r)) JNull)
          (or_else (Some (hardwareVersion r)) JNull)
          (or_else (Some (hwVer r)) JNull)
          (or_else (Some (owner r)) JNull)
          (or_else (Some (isSupportIotCloud r)) JNull)
          (or_else (Some (obdSrc r)) JNull)
          (or_else (Some (factoryDefault r)) JNull)).
Proof.
  unfold fromDict, new, toDict.
  assert (Hs : instance EncryptionScheme.new
                 (Some (or_null_instance EncryptionScheme.own (mgtEncryptSchm r)))
               = option_map
                   (fun s => EncryptionScheme.mk (JBool false) JNull JNull
                               (or_else (Some (EncryptionScheme.lv s)) JNull))
                   (mgtEncryptSchm r)).
  { destruct (mgtEncryptSchm r); reflexivity. }
  assert (Hi : instance EncryptionInfo.new
                 (Some (or_null_instance EncryptionInfo.own (encryptInfo r)))
               = option_map forget_info (encryptInfo r)).
  { destruct (encryptInfo r) as [i|]; [apply info_again | reflexivity]. }
  destruct (deviceType r), (deviceModel r), (deviceId r), (ip r), (mac r);
    cbn [defined prop assoc String.eqb Ascii.eqb Bool.eqb];
    rewrite Hs, Hi; reflexivity.
Qed.

(** X21.  A discovery result does not survive [fromDict(toDict())].  The
    result that comes back has the scalar properties of the first; but
    [toDict] stores the instances of the encryption scheme and of the
    encryption information, whose properties have other names than those that
    the constructors read, [lv], [key] and [data] apart: the scheme that comes
    back has lost [isSupportHttps], [encryptType] and [httpPort], and the
    information has lost [symSchm].  A second round trip changes nothing more. *)
Theorem discovery_result_round_trip_forgets_the_scheme (data : json) (r : t) :
  fromDict data = Returned r ->
  fromDict (toDict r) = Returned (forgetful r)
  /\ fromDict (toDict (forgetful r)) = Returned (forgetful r).
Proof.
  intros Hr. rewrite !read_back.
  unfold fromDict, new in Hr.
  assert (Hlv : forall a : option json,
            option_map
              (fun s => EncryptionScheme.mk (JBool false) JNull JNull
                          (or_else (Some (EncryptionScheme.lv s)) JNull))
              (instance EncryptionScheme.new a)
            = option_map forget_scheme (instance EncryptionScheme.new a)).
  { intros [j|]; [|reflexivity]. unfold instance.
    destruct (truthy j); [|reflexivity].
    cbn [option_map EncryptionScheme.new EncryptionScheme.lv].
    unfold forget_scheme. cbn [EncryptionScheme.lv].
    now rewrite or_else_again. }
  destruct data as [| b | n | s | items | fields]; try discriminate;
    injection Hr as <-;
    [split; reflexivity | split; reflexivity | split; reflexivity
    | split; reflexivity |].
  unfold forgetful; cbn [deviceType deviceModel deviceId ip mac
    mgtEncryptSchm deviceName encryptInfo encryptType decryptedData
    isResetWifi firmwareVersion hardwareVersion hwVer owner
    isSupportIotCloud obdSrc factoryDefault].
  rewrite !or_else_again by reflexivity. rewrite Hlv.
  split; [reflexivity|].
  unfold instance.
  destruct (assoc "mgt_encrypt_schm" fields) as [scheme|];
    [destruct (truthy scheme)|];
    (destruct (assoc "encrypt_info" fields) as [info|];
       [destruct (truthy info)|]);
    cbn [option_map]; unfold forget_scheme, EncryptionScheme.new;
    cbn [EncryptionScheme.lv]; rewrite ?or_else_again by reflexivity;
    reflexivity.
Qed.

(** The answer of a device with the KLAP scheme: after the round trip the
    scheme no longer says KLAP. *)
Lemma discovery_result_round_trip_forgets_the_scheme_witness :
  exists r,
    fromDict klap_device = Returned r
    /\ option_map EncryptionScheme.encryptType (mgtEncryptSchm r)
       = Some (JStr "KLAP")
    /\ exists r',
         fromDict (toDict r) = Returned r'
         /\ option_map EncryptionScheme.encryptType (mgtEncryptSchm r')
            = Some JNull
         /\ owner r' = owner r.
Proof.
  eexists. split; [reflexivity|]. split; [reflexivity|].
  eexists. split.
  - apply (discovery_result_round_trip_forgets_the_scheme klap_device).
    reflexivity.
  - split; reflexivity.
Defined.

End DiscoveryResultFacts.

(** ** The first handshake of the KLAP transport *)

Module KlapTransportFacts.
Import Js Exceptions Eff Bytes Http KlapTransport AssocFacts.
Local Open Scope Z_scope.

(** The default credentials, decoded. *)
Lemma default_credentials_decoded :
  map (fun entry => (fst entry, Credentials.getDefaultCredentials (snd entry)))
      Credentials.DEFAULT_CREDENTIALS
  = [("KASA", Aes.mk_credentials "kasa@tp-link.net" "kasaSetup");
     ("KASACAMERA",
      Aes.mk_credentials "admin" "21232f297a57a5a743894a0e4a801fc3");
     ("TAPO", Aes.TAPO_default_credentials);
     ("TAPOCAMERA", Aes.mk_credentials "admin" "admin")].
Proof. reflexivity. Qed.

Lemma equals_spec (a b : Buffer) : equals a b = true <-> a = b.
Proof.
  revert b. induction a as [|x a IH]; intros [|y b]; cbn [equals];
    try (split; [discriminate | discriminate]); [tauto|].
  rewrite andb_true_iff, Z.eqb_eq, IH.
  split; [intros [-> ->]; reflexivity | intros [= -> ->]; auto].
Qed.

Lemma equals_false (a b : Buffer) : equals a b = false <-> a <> b.
Proof.
  rewrite <- equals_spec. destruct (equals a b); split; congruence.
Qed.

Section Transport.

Variable md5 : Buffer -> Buffer.
Variable sha1 : Buffer -> Buffer.
Variable sha256 : Buffer -> Buffer.
Variable randomBytes : nat -> Buffer.
Variable JSON_stringify : json -> string.
Variable jsonLoads : string -> may_throw string json.
Variable network : nat -> request -> settled.
Variable C : statics.

Abbreviation check_defaults := (KlapTransport.check_defaults C).
Abbreviation performHandshake1 :=
  (KlapTransport.performHandshake1 md5 sha256 randomBytes JSON_stringify
     jsonLoads network C).
Abbreviation handshake1_request :=
  (KlapTransport.handshake1_request randomBytes JSON_stringify).

(** The loop over the default credentials returns the first stored or
    generated hash that matches, and leaves the rest of the transport as
    it is. *)
Lemma check_defaults_spec (localSeed remoteSeed serverHash : Buffer)
    (entries : list (string * (string * string))) :
  NoDup (map fst entries) ->
  forall t,
    exists t',
      check_defaults localSeed remoteSeed serverHash entries t
      = (Ok (first_match C localSeed remoteSeed serverHash
               (map (default_hash C t) entries)), t')
      /\ _blankAuthHash t' = _blankAuthHash t
      /\ _host t' = _host t.
Proof.
  induction entries as [|[key value] rest IH]; intros Hnd t.
  - exists t. auto.
  - apply NoDup_cons in Hnd as [Hnotin Hnd].
    cbn [KlapTransport.check_defaults map]. unfold first_match.
    cbn [List.find]. fold (first_match C localSeed remoteSeed serverHash).
    unfold bind at 1. unfold get at 1.
    unfold default_hash at 1 2. cbn [fst snd].
    set (authHash :=
           match assoc key (_defaultCredentialsAuthHash t) with
           | Some h => h
           | None =>
               generateAuthHash C (Credentials.getDefaultCredentials value)
           end).
    set (t1 := if negb (Smart.has_key key (_defaultCredentialsAuthHash t))
               then set_defaultCredentialsAuthHash key authHash t else t).
    assert (Hstep : forall (A : Type) (k : M KlapTransport A),
              bind (if negb (Smart.has_key key (_defaultCredentialsAuthHash t))
                    then modify (set_defaultCredentialsAuthHash key authHash)
                    else ret tt) (fun _ => k) t = k t1).
    { intros A k. subst t1. unfold bind, modify, ret.
      now destruct (negb _). }
    rewrite Hstep.
    destruct (equals _ serverHash).
    + exists t1. split; [reflexivity|]. subst t1.
      now destruct (negb _).
    + destruct (IH Hnd t1) as (t' & Hrun & Hblank & Hhost).
      exists t'. rewrite Hrun. split; [|split].
      * f_equal. f_equal. f_equal. apply List.map_ext_in.
        intros [key' value'] Hin. unfold default_hash. cbn [fst snd].
        subst t1. destruct (negb _); [|reflexivity].
        cbn [_defaultCredentialsAuthHash set_defaultCredentialsAuthHash].
        rewrite assoc_set_ne; [reflexivity|].
        intros ->. apply Hnotin. apply list_elem_of_In.
        apply (List.in_map fst) in Hin. exact Hin.
      * rewrite Hblank. subst t1. now destruct (negb _).
      * rewrite Hhost. subst t1. now destruct (negb _).
Qed.

(** X22.  The first handshake compares the hash of the device, for the
    credentials of the user, with [sha256(localSeed | authHash)], the hash of
    the first version of the protocol: the comparison calls
    [KlapTransport.handshake1SeedAuthHash] and not the method of the class of
    the transport.  When the two are equal, the handshake returns the auth
    hash of the user.  When they are not, it returns the first of the
    default and blank auth hashes whose seed hash, this time by the method of
    the class, is the hash of the device, and it throws an
    [AuthenticationError] when there is none.  So a [KlapTransportV2]
    accepts the hash of its own version, [sha256(localSeed | remoteSeed |
    authHash)], through these fallbacks only, unless it is also the hash of
    the first version. *)
Theorem klap_handshake1_checks_own_credentials_by_the_v1_hash
    (t : KlapTransport) (body : string) (cookies : list (string * string))
    (remoteSeed serverHash : Buffer) :
  let localSeed := randomBytes (drawn t) in
  network (List.length (sent (_httpClient t))) (handshake1_request t)
  = Response 200 body cookies ->
  bytes_of body = remoteSeed ++ serverHash ->
  List.length remoteSeed = 16%nat ->
  List.length serverHash = 32%nat ->
  let run := performHandshake1 t in
  (serverHash = sha256 (localSeed ++ _localAuthHash t) ->
     fst run = Ok (localSeed, remoteSeed, _localAuthHash t))
  /\ (serverHash <> sha256 (localSeed ++ _localAuthHash t) ->
      match first_match C localSeed remoteSeed serverHash (fallback_hashes C t)
      with
      | Some authHash => fst run = Ok (localSeed, remoteSeed, authHash)
      | None => exists e, fst run = Throw e /\ cls e = AuthenticationError
      end).
Proof.
  intros localSeed Hnet Hbody Hremote Hserver run.
  assert (Hslice : Smart.slice (remoteSeed ++ serverHash) 0 16 = remoteSeed).
  { unfold Smart.slice. cbn [Z.to_nat Z.sub]. rewrite List.skipn_O.
    change (Z.to_nat (16 - 0)) with 16%nat. rewrite <- Hremote.
    rewrite List.firstn_app, Nat.sub_diag, List.firstn_all. cbn [firstn].
    apply List.app_nil_r. }
  assert (Hskip : skipn 16 (remoteSeed ++ serverHash) = serverHash).
  { rewrite <- Hremote. rewrite List.skipn_app, Nat.sub_diag, List.skipn_all.
    reflexivity. }
  assert (Hrun : run
    = (let t1 := set_httpClient
                   (snd (post JSON_stringify jsonLoads network
                           (UrlObject (_appUrl t +:+ "/handshake1"))
                           (mk_post_options
                              (DataBuffer (string_of localSeed)) ArgNull None None)
                           (_httpClient (draw t))))
                   (draw t) in
       (if equals (sha256 (localSeed ++ _localAuthHash t)) serverHash
        then ret (localSeed, remoteSeed, _localAuthHash t)
        else
         bind (check_defaults localSeed remoteSeed serverHash
                 Credentials.DEFAULT_CREDENTIALS)
           (fun matched =>
              match matched with
              | Some authHash => ret (localSeed, remoteSeed, authHash)
              | None =>
                  bind get (fun t2 =>
                    let blankAuthHash :=
                      match _blankAuthHash t2 with
                      | Some h => h
                      | None => generateAuthHash C Credentials.blank
                      end in
                    bind (modify (set_blankAuthHash blankAuthHash)) (fun _ =>
                      if equals (handshake1SeedAuthHash C localSeed remoteSeed
                                   blankAuthHash) serverHash
                      then ret (localSeed, remoteSeed, blankAuthHash)
                      else
                        throw (new_device_error AuthenticationError
                                 ("Device response did not match our challenge on ip "
                                  +:+ _host t +:+ ", "
                                  +:+ "check that your e-mail and password (both case-sensitive) are correct.")
                                 None)))
              end)) t1)).
  { subst run. unfold localSeed. unfold KlapTransport.performHandshake1.
    unfold bind at 1. unfold get at 1.
    unfold bind at 1. unfold modify at 1.
    unfold bind at 1. unfold on_client.
    unfold KlapTransport.handshake1_request in Hnet.
    unfold post at 1. unfold post_to at 1. cbn [_httpClient draw]. rewrite Hnet.
    cbn [Z.eqb Pos.eqb returnJson opt_json negb body_bytes].
    rewrite Hbody, Hslice, Hskip, Hserver.
    change (negb (Z.of_nat 32 =? 32)) with false. cbv iota.
    cbn [handshake1SeedAuthHash KlapTransport_statics].
    unfold post, post_to. cbn [_httpClient draw]. rewrite Hnet.
    cbn [Z.eqb Pos.eqb returnJson opt_json snd].
    reflexivity. }
  rewrite Hrun. cbv zeta.
  split.
  - intros Hv1. rewrite <- Hv1.
    rewrite (proj2 (equals_spec serverHash serverHash) eq_refl). reflexivity.
  - intros Hnot.
    rewrite (proj2 (equals_false _ serverHash)) by congruence.
    match goal with
    | |- context [bind _ _ ?t1] => set (s1 := t1)
    end.
    match goal with
    | |- context [fst ?x] => set (r := fst x)
    end.
    assert (Hres :
      r = match first_match C localSeed remoteSeed serverHash
                  (fallback_hashes C t) with
          | Some authHash => Ok (localSeed, remoteSeed, authHash)
          | None =>
              Throw (new_device_error AuthenticationError
                       ("Device response did not match our challenge on ip "
                        +:+ _host t +:+ ", "
                        +:+ "check that your e-mail and password (both case-sensitive) are correct.")
                       None)
          end).
    { subst r.
      destruct (check_defaults_spec localSeed remoteSeed serverHash
                  Credentials.DEFAULT_CREDENTIALS
                  ltac:(apply (bool_decide_unpack _); vm_compute; exact I) s1)
        as (t' & Hloop & Hblank & Hhost).
      unfold bind at 1. rewrite Hloop.
      assert (Hsame : map (default_hash C s1) Credentials.DEFAULT_CREDENTIALS
                      = map (default_hash C t) Credentials.DEFAULT_CREDENTIALS)
        by reflexivity.
      rewrite Hsame.
      unfold fallback_hashes, first_match. rewrite SmartChildFacts.find_app.
      fold (first_match C localSeed remoteSeed serverHash
              (map (default_hash C t) Credentials.DEFAULT_CREDENTIALS)).
      destruct (first_match _ _ _ _ _) as [authHash|]; [reflexivity|].
      unfold bind, get, modify. rewrite Hblank.
      change (_blankAuthHash s1) with (_blankAuthHash t).
      cbn [List.find].
      match goal with
      | |- context [if ?c then Some _ else None] => destruct c
      end; reflexivity. }
    destruct (first_match C localSeed remoteSeed serverHash
                (fallback_hashes C t)) as [authHash|]; [exact Hres|].
    eexists. split; [exact Hres | reflexivity].
Qed.

End Transport.

(** A transport of the second version, with the right credentials, does
    the first handshake with a device of the second version: the device
    answers with the hash of its version, and the handshake fails. *)
Lemma klap_handshake1_checks_own_credentials_by_the_v1_hash_witness :
  exists e,
    fst KlapScenario.handshake1 = Throw e /\ cls e = AuthenticationError.
Proof.
  destruct (klap_handshake1_checks_own_credentials_by_the_v1_hash
              KlapScenario.md5 KlapScenario.sha256
              (fun _ => KlapScenario.localSeed) Scenario.stringify
              Scenario.parse_null_only KlapScenario.device KlapScenario.V2
              KlapScenario.transport
              (string_of (KlapScenario.remoteSeed ++ KlapScenario.serverHash))
              [("TP_SESSIONID", "0123456789")]
              KlapScenario.remoteSeed KlapScenario.serverHash
              eq_refl ltac:(vm_compute; reflexivity) eq_refl eq_refl)
    as [_ Hother].
  assert (Hnot : KlapScenario.serverHash
                 <> KlapScenario.sha256
                      (KlapScenario.localSeed
                       ++ _localAuthHash KlapScenario.transport))
    by (vm_compute; discriminate).
  specialize (Hother Hnot).
  destruct (first_match _ _ _ _ _) as [authHash|] eqn:Hmatch in Hother;
    [vm_compute in Hmatch; discriminate | exact Hother].
Defined.

End KlapTransportFacts.
